(* ===== verification/_CoqProject ===== *)
-Q . S2P
Prelude.v
Constants.v
CsrNumbers.v
Address.v
Pte.v
Mem.v
FrameAllocator.v
AllocClaims.v
PageTable.v
Sv39.v
Sv39Tree.v
Sv39Facts.v
Sv39Walk.v
Sv39New.v
Sv39Claims.v
Fdt.v
MemorySet.v
MemorySetFacts.v
Framed.v
GuestSpace.v
HostSpace.v
GuestIsolation.v
MemorySetClaims.v
BootSpace.v
Pmap.v
Machine.v
Sbi.v
Console.v
Plic.v
Vmexit.v
VmexitFacts.v
VmexitClaims.v
Layout.v
Iommu.v
Riscv.v
GuestEntry.v
Detect.v
ContextSwitch.v
Boot.v
BootFacts.v
BootClaims.v
