(* ===== verification/Prelude.v ===== *)
(** * hypocaust-2: a verification of the hypervisor

    hypocaust-2 is a type-1 hypervisor for RISC-V with the H extension.  It
    boots one guest on one hart: it reads the device trees, builds its own
    Sv39 address space and the guest's second-stage address space, enters the
    guest, and from then on runs only when the guest traps.  All paths below
    are relative to [src/src/].

    ** Parts, and where they are modelled

    - [Prelude] (this file): outcomes of Rust code, the state monad, checked
      64-bit arithmetic, tactics and shared lemmas.
    - [Constants]: [constants.rs], [error.rs], [boards/qemu.rs].  [CsrNumbers]:
      the control register numbers of [constants.rs].
    - [Address]: [page_table/address.rs].  [Pte]: [page_table/pte.rs].
    - [Mem]: byte memory, the raw pointer accesses of the code, the 512-entry
      and the 4096-byte view of a frame.
    - [FrameAllocator]: [hyp_alloc/frame_allocator.rs]; [FrameAllocatorSpec] is
      the contract of an allocator, discharged for the stack allocator.
      [AllocClaims]: clients of the allocator as a transition system.
    - [PageTable]: the traits of [page_table/mod.rs] and [guest/mod.rs], and
      [PageTableSpec], what a page table promises to its clients: an abstract
      partial map from 27-bit page numbers to entries ([pt_view]), an
      invariant, the frames it owns, and the outcome of each operation.
    - [Sv39]: [page_table/sv39.rs] on byte memory.  [Sv39Tree]: the tables as a
      tree and the invariant (every frame reached once, all of them owned).
      [Sv39Facts]: the instance of [PageTableSpec].  [Sv39New]: fresh tables.
      [Sv39Walk]: the guest page walk.  [Sv39Claims]: the results.
    - [Fdt]: [MachineMeta::parse] of [hypervisor.rs].
    - [MemorySet]: [mm/memory_set.rs], [mm/mod.rs], generic in the page table
      as the code is.  [MemorySetFacts] (linear areas), [Framed] (framed areas),
      [GuestSpace], [HostSpace] (sequences of areas as lists of segments): proved
      against [PageTableSpec].  [GuestIsolation], [MemorySetClaims]: the results
      for Sv39.  [BootSpace]: the address spaces of the start-up, built one after
      the other from one pool.
    - [Pmap]: module [pmap] of [guest/mod.rs] and [translate_guest_va].
    - [Machine]: [guest/context.rs], [guest/vcpu.rs], the [Guest] and [HostVmm]
      records, and the state [World] the handlers run on (memory with the
      allocator, control registers, the world outside, the trap context page,
      [HOST_VMM] with its lock).
    - [Sbi]: [sbi.rs], [guest/sbi.rs].  [Plic]: [device_emu/plic.rs].
    - [Console]: [console.rs], the panic handler of [lang_items.rs] with
      [shutdown], and [sync/up.rs].
    - [Vmexit]: [guest/vmexit.rs].  [VmexitFacts], [VmexitClaims]: what every
      trap preserves, guest and traps as a transition system, the effect of
      each kind of trap.
    - [Layout]: [repr(C)] structures and their offsets, for [guest/context.rs],
      [detect.rs] and [drivers/iommu/registers.rs].  [Iommu]: device identifiers
      and bit fields of [drivers/iommu].
    - [Riscv]: the instructions the assembly uses, and their execution.
      [ContextSwitch]: [guest/trap.S], [hart_entry_2] and [_start] as instruction
      lists.  [GuestEntry]: [guest/guest.S].
    - [Detect]: [detect.rs], its assembly and the exception it provokes.
    - [Boot]: [main.rs], the start-up code of [hypervisor.rs], [Guest::new],
      [enable_paging], [remap_test].  [BootFacts], [BootClaims]: what it
      establishes, and that it gets to the guest.

    ** How the code is translated

    A [usize] is a [Z] between 0 and 2^64; the build uses the debug profile, so
    [+], [-] and [*] panic on overflow ([uadd], [usub], [umul]), shifts discard
    bits ([shl]) and [wrapping_*] wraps.  An expression has an [outcome]: a
    value, a panic with its reason, [Hang] (spinning on a lock its own hart
    holds), or [NoFuel], which marks the bound of an unrolled loop and is not a
    behaviour of the code.  Statements thread their state in the monad [M].  A
    [&mut self] method returns the new [self].  Functions that end in a jump
    return the address they jump to.

    Loops.  [for] loops over a range unroll as often as the range is long.  The
    linear mapping loop of [MapArea::map] is unrolled once per page of its
    range; on an empty range, where the exit test comes too late, 2^27 + 1
    rounds are enough to see it fail ([MemorySetClaims]); the search for an
    aligned root in [new_guest] gets one round more than there are free frames, and [Sv39Claims.new_guest_root]
    proves that this is enough; [copy_data] gets a round per page of data.

    Parameters.  Code outside the repository is an argument: the device tree
    and ELF crates through the data they yield, the instruction decoder
    ([Pmap.Decoder]), the decoding of [scause] ([Vmexit.CauseDecoder]), the
    firmware and memory-mapped devices ([Machine.Env]), the addresses the
    linker assigns, and the sort of the standard library.

    ** What is proved

    - Isolation: the guest reaches the regions its device tree declares and what
      the code adds to them (2 MiB below the memory, a page behind the test
      device, the first 2 MiB of the interrupt controller and the PCI window),
      each at its own address, and nothing else; it cannot change its
      translation by storing, and the construction succeeds when frames suffice
      ([GuestIsolation]).
    - Page tables: refinement of a finite map, exact outcomes of [map] and
      [unmap], non-interference of tables, agreement of the walk used for guest
      tables with the table operations, guest roots ([Sv39Claims]).
    - Allocation: a partition into free and held frames that every run of a
      client keeps; exclusive, zeroed frames; pool set-up ([AllocClaims]).
    - Encodings: addresses, indices, entries, tokens, guest segments, device
      identifiers, structure layouts ([Address], [Pte], [Sv39Claims], [Pmap],
      [Iommu], [Layout]).
    - The device tree: exactly when [parse] returns, and with what ([Fdt]).
    - The hypervisor's own space: nothing for user mode, nothing both writable
      and executable; framed areas get memory of their own ([MemorySetClaims]).
    - Two-stage translation composes the architecture's walk of an arbitrary
      guest table, superpages included, with the hypervisor's table ([Pmap]).
    - Traps: an invariant of every run of guest and handler, and the effect of
      every arm of the trap handler, the fatal and the deadlocking one included
      ([VmexitClaims]).
    - Context switch: saving and restoring is transparent to the guest but for
      [tp], which the assembly leaves out; the assembly and the [repr(C)] record
      agree field by field; the first entry delivers the boot protocol
      ([ContextSwitch]); the second guest
      entry loses no register of either side ([GuestEntry]).
    - Start-up: delegation and interrupt set-up ([BootFacts]); from power-on to
      the first entry without a panic, with both address spaces in place and
      apart ([BootClaims]); the extension probe is right and leaves no trace
      ([Detect]).

    ** What is not modelled

    Log output while the hypervisor starts: [Console] models printing and shows
    that it changes nothing but the firmware's state; the trap handlers ([Plic],
    [Vmexit]) print what the code prints, the functions that run before the
    guest leave it out.
    The heap ([hyp_alloc/heap_allocator.rs] hands a buffer to a crate):
    collections are values and allocating heap memory does not fail.  The
    allocator's mutex, which every function releases before it returns.  Debug
    formatting.  Caches and TLBs (fences are no-ops), the address translation of
    the hypervisor's own accesses (it maps the memory it touches to itself), and
    other harts.  The answers of [detect_h_extension] and of the HSM probe are
    arguments of [hentry]; [Detect] proves the former right. *)
From stdpp Require Import base tactics numbers list option gmap.
From Stdlib Require Import ZArith Lia.
#[global] Open Scope Z_scope.

(** ** Outcomes of Rust code

    A Rust expression of this code base either yields a value, panics (the
    panic handler prints and shuts the machine down, so no state survives), or
    never yields: it spins on a lock its own hart holds ([Hang]).  [NoFuel] is
    not a behaviour of the code: it marks a bounded unrolling of a [loop] that
    was still running when its bound was reached. *)

Inductive panic :=
| Overflow          (* checked arithmetic, debug profile *)
| UnwrapNone        (* Option::unwrap on None *)
| UnwrapErr         (* Result::unwrap on Err *)
| AssertFailed      (* assert!, assert_eq! *)
| IndexOutOfBounds  (* slice, array or ArrayVec index *)
| CapacityExceeded  (* ArrayVec::push on a full vector *)
| AlreadyBorrowed   (* RefCell::borrow_mut on a borrowed cell *)
| Unreachable       (* unreachable! *)
| Todo              (* todo! *)
| Explicit.         (* panic! *)

Inductive outcome (A : Type) :=
| Ret (a : A)
| Panic (p : panic)
| Hang
| NoFuel.
Arguments Ret {A} a.
Arguments Panic {A} p.
Arguments Hang {A}.
Arguments NoFuel {A}.

#[export] Instance panic_eq_dec : EqDecision panic.
Proof. solve_decision. Defined.
#[export] Instance outcome_eq_dec {A} `{EqDecision A} : EqDecision (outcome A).
Proof. solve_decision. Defined.

#[export] Instance outcome_ret : MRet outcome := @Ret.
#[export] Instance outcome_bind : MBind outcome := λ A B f m,
  match m with
  | Ret a => f a
  | Panic p => Panic p
  | Hang => Hang
  | NoFuel => NoFuel
  end.

(** [returns m]: the computation comes back with a value. *)
Definition returns {A} (m : outcome A) : Prop := ∃ a, m = Ret a.

(** [stops m]: the computation comes back or panics; it does not spin, and no
    bound of an unrolling shows. *)
Definition stops {A} (m : outcome A) : Prop := returns m ∨ ∃ p, m = Panic p.

(** ** Stateful code: a state monad over outcomes *)

Definition M (S A : Type) : Type := S → outcome (A * S).

#[export] Instance M_ret {S} : MRet (M S) := λ A a s, Ret (a, s).
#[export] Instance M_bind {S} : MBind (M S) := λ A B f m s,
  match m s with
  | Ret (a, s') => f a s'
  | Panic p => Panic p
  | Hang => Hang
  | NoFuel => NoFuel
  end.

Definition lift {S A} (o : outcome A) : M S A := λ s,
  match o with
  | Ret a => Ret (a, s)
  | Panic p => Panic p
  | Hang => Hang
  | NoFuel => NoFuel
  end.
Definition gets {S A} (f : S → A) : M S A := λ s, Ret (f s, s).
Definition modify {S} (f : S → S) : M S unit := λ s, Ret (tt, f s).
Definition panicM {S A} (p : panic) : M S A := λ _, Panic p.
Definition nofuelM {S A} : M S A := λ _, NoFuel.
Definition hangM {S A} : M S A := λ _, Hang.
Definition unwrap {A} (o : option A) : outcome A :=
  match o with Some a => Ret a | None => Panic UnwrapNone end.
Definition assert (b : bool) : outcome unit :=
  if b then Ret tt else Panic AssertFailed.

(** [a[i]] and [a[i] = v] on arrays, slices and vectors: bounds checked. *)
Definition index {A} (l : list A) (i : Z) : outcome A :=
  match (if 0 <=? i then l !! Z.to_nat i else None) with
  | Some v => Ret v
  | None => Panic IndexOutOfBounds
  end.
Definition update {A} (l : list A) (i : Z) (v : A) : outcome (list A) :=
  if (0 <=? i) && (i <? Z.of_nat (length l))
  then Ret (<[Z.to_nat i := v]> l)
  else Panic IndexOutOfBounds.

(** A [for] loop over the elements of a list. *)
Fixpoint mfor {S A} (l : list A) (body : A → M S unit) : M S unit :=
  match l with
  | [] => mret tt
  | x :: l' => _ ← body x; mfor l' body
  end.

(** A fold that threads an accumulator, for loops that update a local. *)
Fixpoint mfold {S A B} (l : list A) (body : B → A → M S B) (acc : B) : M S B :=
  match l with
  | [] => mret acc
  | x :: l' => acc' ← body acc x; mfold l' body acc'
  end.

(** ** Machine integers

    [usize] and [u64] are 64-bit on the target; the Makefile builds the debug
    profile, so [+], [-] and [*] panic on overflow, while [<<] drops the bits
    that leave the word. *)

Definition W64 : Z := 18446744073709551616.
Definition W32 : Z := 4294967296.
Definition W16 : Z := 65536.
Definition W8 : Z := 256.

Definition uadd (a b : Z) : outcome Z :=
  if a + b <? W64 then Ret (a + b) else Panic Overflow.
Definition usub (a b : Z) : outcome Z :=
  if b <=? a then Ret (a - b) else Panic Overflow.
Definition umul (a b : Z) : outcome Z :=
  if a * b <? W64 then Ret (a * b) else Panic Overflow.
Definition wrapping_add (a b : Z) : Z := (a + b) mod W64.
Definition wrapping_sub (a b : Z) : Z := (a - b) mod W64.
Definition shl (a k : Z) : Z := Z.shiftl a k mod W64.

Definition u64_ok (a : Z) : Prop := 0 ≤ a < W64.
Definition u64_okb (a : Z) : bool := (0 <=? a) && (a <? W64).

Create HintDb hyp discriminated.
Create HintDb hypbit discriminated.
Create HintDb stops discriminated.

(** ** Code without loops stops *)

Lemma stops_Ret {A} (a : A) : stops (Ret a).
Proof. left. by exists a. Qed.
Lemma stops_Panic {A} p : stops (@Panic A p).
Proof. right. by exists p. Qed.
Lemma stops_bind {S A B} (m : M S A) (f : A → M S B) s :
  stops (m s) → (∀ a s', stops (f a s')) → stops ((m ≫= f) s).
Proof.
  intros [[[a s'] Hm]|[p Hm]] Hf; unfold mbind, M_bind; rewrite Hm; [done|apply stops_Panic].
Qed.
Lemma stops_obind {A B} (m : outcome A) (f : A → outcome B) :
  stops m → (∀ a, stops (f a)) → stops (m ≫= f).
Proof. intros [[a ->]|[p ->]] Hf; simpl; [done|apply stops_Panic]. Qed.
Lemma stops_lift {S A} (o : outcome A) (s : S) : stops o → stops (lift o s).
Proof. intros [[a ->]|[p ->]]; [apply stops_Ret|apply stops_Panic]. Qed.
Lemma stops_unwrap {A} (o : option A) : stops (unwrap o).
Proof. destruct o; [apply stops_Ret|apply stops_Panic]. Qed.
Lemma stops_assert b : stops (assert b).
Proof. destruct b; [apply stops_Ret|apply stops_Panic]. Qed.
Lemma stops_uadd a b : stops (uadd a b).
Proof. unfold uadd. destruct (_ <? _); [apply stops_Ret|apply stops_Panic]. Qed.
Lemma stops_usub a b : stops (usub a b).
Proof. unfold usub. destruct (_ <=? _); [apply stops_Ret|apply stops_Panic]. Qed.
#[export] Hint Resolve stops_Ret stops_Panic stops_unwrap stops_assert stops_uadd stops_usub
  stops_lift : stops.

(** Walk through straight-line code; what remains are the calls it makes. *)
Ltac stops_tac :=
  repeat first
    [ solve [auto with stops]
    | apply stops_bind; [|intros ? ?]
    | apply stops_obind; [|intros ?]
    | progress unfold gets, modify, mret, M_ret, outcome_ret; solve [auto with stops] ].

(** ** Automation *)

(** Decompose [bind] in hypotheses that say a computation returned. *)
Lemma bind_Ret {S A B} (m : M S A) (f : A → M S B) s b s' :
  (m ≫= f) s = Ret (b, s') ↔ ∃ a s1, m s = Ret (a, s1) ∧ f a s1 = Ret (b, s').
Proof.
  unfold mbind, M_bind. destruct (m s) as [[a s1]| | |]; naive_solver.
Qed.

Lemma obind_Ret {A B} (m : outcome A) (f : A → outcome B) b :
  (m ≫= f) = Ret b ↔ ∃ a, m = Ret a ∧ f a = Ret b.
Proof. destruct m; simpl; naive_solver. Qed.

Lemma lift_Ret {S A} (o : outcome A) (s : S) a s' :
  lift o s = Ret (a, s') ↔ o = Ret a ∧ s' = s.
Proof. destruct o; simpl; naive_solver. Qed.

Lemma mret_Ret {S A} (a b : A) (s s' : S) :
  (mret a : M S A) s = Ret (b, s') ↔ a = b ∧ s = s'.
Proof. unfold mret, M_ret. naive_solver. Qed.

Lemma gets_Ret {S A} (f : S → A) s a s' :
  gets f s = Ret (a, s') ↔ a = f s ∧ s' = s.
Proof. unfold gets. naive_solver. Qed.

Lemma modify_Ret {S} (f : S → S) s a s' :
  modify f s = Ret (a, s') ↔ s' = f s.
Proof. unfold modify. destruct a. naive_solver. Qed.

Lemma unwrap_Ret {A} (o : option A) a : unwrap o = Ret a ↔ o = Some a.
Proof. destruct o; simpl; naive_solver. Qed.

Lemma assert_Ret b u : assert b = Ret u ↔ b = true.
Proof. unfold assert. destruct b, u; naive_solver. Qed.

Lemma panicM_Ret {S A} p (s : S) (r : A * S) : panicM p s = Ret r ↔ False.
Proof. unfold panicM. naive_solver. Qed.

Lemma uadd_Ret a b c : uadd a b = Ret c ↔ c = a + b ∧ a + b < W64.
Proof. unfold uadd. destruct (Z.ltb_spec (a + b) W64); naive_solver lia. Qed.

Lemma usub_Ret a b c : usub a b = Ret c ↔ c = a - b ∧ b ≤ a.
Proof. unfold usub. destruct (Z.leb_spec b a); naive_solver lia. Qed.

Lemma umul_Ret a b c : umul a b = Ret c ↔ c = a * b ∧ a * b < W64.
Proof. unfold umul. destruct (Z.ltb_spec (a * b) W64); naive_solver lia. Qed.

(** The same facts left to right, for goals that run a computation. *)
Lemma bind_run {S A B} (m : M S A) (f : A → M S B) s a s1 :
  m s = Ret (a, s1) → (m ≫= f) s = f a s1.
Proof. unfold mbind, M_bind. by intros ->. Qed.

Lemma uadd_run a b : a + b < W64 → uadd a b = Ret (a + b).
Proof. intros. by apply uadd_Ret. Qed.
Lemma usub_run a b : b ≤ a → usub a b = Ret (a - b).
Proof. intros. by apply usub_Ret. Qed.
Lemma umul_run a b : a * b < W64 → umul a b = Ret (a * b).
Proof. intros. by apply umul_Ret. Qed.

(** [lia] with division by constants. *)
Ltac dlia := Z.to_euclidean_division_equations; lia.

(** [minv] turns hypotheses [... = Ret _] into equations on their parts. *)
Ltac minv_step :=
  match goal with
  | H : (_ ≫= _) _ = Ret (_, _) |- _ => apply bind_Ret in H as (?&?&?&?)
  | H : (_ ≫= _) = Ret _ |- _ => apply obind_Ret in H as (?&?&?)
  | H : lift _ _ = Ret (_, _) |- _ => apply lift_Ret in H as [? ?]
  | H : mret _ _ = Ret (_, _) |- _ => apply mret_Ret in H as [? ?]
  | H : gets _ _ = Ret (_, _) |- _ => apply gets_Ret in H as [? ?]
  | H : modify _ _ = Ret (_, _) |- _ => apply modify_Ret in H
  | H : unwrap _ = Ret _ |- _ => apply unwrap_Ret in H
  | H : assert _ = Ret _ |- _ => apply assert_Ret in H
  | H : panicM _ _ = Ret _ |- _ => apply panicM_Ret in H; contradiction
  | H : nofuelM _ = Ret _ |- _ => discriminate H
  | H : hangM _ = Ret _ |- _ => discriminate H
  | H : uadd _ _ = Ret _ |- _ => apply uadd_Ret in H as [? ?]
  | H : usub _ _ = Ret _ |- _ => apply usub_Ret in H as [? ?]
  | H : umul _ _ = Ret _ |- _ => apply umul_Ret in H as [? ?]
  | H : Ret _ = Ret _ |- _ => injection H as H
  | H : Panic _ = Ret _ |- _ => discriminate H
  | H : Hang = Ret _ |- _ => discriminate H
  | H : NoFuel = Ret _ |- _ => discriminate H
  | H : (_, _) = (_, _) |- _ => injection H as H
  end.
Ltac minv := repeat (minv_step; simplify_eq/=).
(** The same without simplification, to keep calls folded. *)
Ltac minv0 := repeat (minv_step; simplify_eq).

(** [mrun] runs the computation in the goal one step at a time. *)
Ltac mrun_step :=
  match goal with
  | |- context [uadd ?a ?b] => rewrite (uadd_run a b) by lia
  | |- context [usub ?a ?b] => rewrite (usub_run a b) by lia
  | |- context [umul ?a ?b] => rewrite (umul_run a b) by lia
  end.

(** ** Bit operations as arithmetic *)

Lemma land_mask a k m : 0 ≤ k → m = 2 ^ k - 1 → Z.land a m = a mod 2 ^ k.
Proof.
  intros Hk ->. rewrite <- Z.land_ones by done. by rewrite Z.ones_equiv.
Qed.

Lemma land_shifted a b k : 0 ≤ k → 0 ≤ b < 2 ^ k → Z.land (a * 2 ^ k) b = 0.
Proof.
  intros Hk Hb. apply Z.bits_inj'. intros n Hn.
  rewrite Z.land_spec, Z.bits_0.
  destruct (decide (n < k)).
  - by rewrite Z.mul_pow2_bits_low by lia.
  - rewrite <- (Z.mod_small b (2 ^ k)) by done.
    rewrite Z.mod_pow2_bits_high by lia. apply andb_false_r.
Qed.

Lemma lor_shifted a b k : 0 ≤ k → 0 ≤ b < 2 ^ k →
  Z.lor (a * 2 ^ k) b = a * 2 ^ k + b.
Proof.
  intros Hk Hb. pose proof (Z.add_lor_land (a * 2 ^ k) b) as H.
  rewrite (land_shifted a b k) in H by done. lia.
Qed.

Lemma shl_small a k : 0 ≤ k → 0 ≤ a → a * 2 ^ k < W64 → shl a k = a * 2 ^ k.
Proof.
  intros Hk Ha Hlt. unfold shl. rewrite Z.shiftl_mul_pow2 by done.
  apply Z.mod_small. split; [|done].
  apply Z.mul_nonneg_nonneg; [done|]. apply Z.pow_nonneg; lia.
Qed.

Lemma shiftr_div a k : 0 ≤ k → Z.shiftr a k = a / 2 ^ k.
Proof. apply Z.shiftr_div_pow2. Qed.

(** Testing one flag: [(a & 1 << k) != 0]. *)
Lemma land_bit a k : 0 ≤ k →
  negb (Z.land a (Z.shiftl 1 k) =? 0) = Z.testbit a k.
Proof.
  intros Hk. rewrite Z.shiftl_1_l.
  destruct (Z.testbit a k) eqn:Ht.
  - apply negb_true_iff, Z.eqb_neq. intros H0.
    assert (Hb : Z.testbit (Z.land a (2 ^ k)) k = true).
    { by rewrite Z.land_spec, Ht, Z.pow2_bits_true by done. }
    by rewrite H0, Z.bits_0 in Hb.
  - apply negb_false_iff, Z.eqb_eq. apply Z.bits_inj'. intros n Hn.
    rewrite Z.land_spec, Z.bits_0, Z.pow2_bits_eqb by done.
    destruct (Z.eqb_spec k n) as [<-|]; [by rewrite Ht|apply andb_false_r].
Qed.

Lemma lor_range a b k : 0 ≤ k → 0 ≤ a < 2 ^ k → 0 ≤ b < 2 ^ k →
  0 ≤ Z.lor a b < 2 ^ k.
Proof.
  intros Hk Ha Hb.
  rewrite <- (Z.mod_small a (2 ^ k)), <- (Z.mod_small b (2 ^ k)) by done.
  rewrite <- !Z.land_ones, <- Z.land_lor_distr_l, Z.land_ones by done.
  apply Z.mod_pos_bound, Z.pow_pos_nonneg; lia.
Qed.

Lemma testbit_mod a k n : 0 ≤ n < k → Z.testbit (a mod 2 ^ k) n = Z.testbit a n.
Proof. intros. apply Z.mod_pow2_bits_low. lia. Qed.

(** Division and remainder of a sum with a high and a low part. *)
Lemma div_hi a b k : 0 < k → 0 ≤ b < k → (a * k + b) / k = a.
Proof.
  intros. rewrite Z.add_comm, Z.div_add by lia. rewrite Z.div_small; lia.
Qed.
Lemma mod_lo a b k : 0 < k → 0 ≤ b < k → (a * k + b) mod k = b.
Proof.
  intros. rewrite Z.add_comm, Z.mod_add by lia. apply Z.mod_small; lia.
Qed.

(** ** Lists *)

(** Numbered elements, as [iter().enumerate()]. *)
Fixpoint enumerate_from {A} (i : Z) (l : list A) : list (Z * A) :=
  match l with
  | [] => []
  | x :: l' => (i, x) :: enumerate_from (i + 1) l'
  end.

(** [[l, l+1, ..., l+n-1]], the elements a [Range] yields. *)
Fixpoint upto (l : Z) (n : nat) : list Z :=
  match n with
  | O => []
  | S n' => l :: upto (l + 1) n'
  end.

Lemma elem_of_upto x l n : x ∈ upto l n ↔ l ≤ x < l + Z.of_nat n.
Proof.
  revert l. induction n as [|n IH]; intros l; simpl.
  - split; [set_solver|lia].
  - rewrite elem_of_cons, IH. lia.
Qed.

Lemma upto_app l n m : upto l (n + m) = upto l n ++ upto (l + Z.of_nat n) m.
Proof.
  revert l. induction n as [|n IH]; intros l; simpl.
  - by rewrite Z.add_0_r.
  - rewrite IH. do 3 f_equal. lia.
Qed.

Lemma NoDup_upto l n : NoDup (upto l n).
Proof.
  revert l. induction n as [|n IH]; intros l; constructor; [|done].
  rewrite elem_of_upto. lia.
Qed.

Lemma length_upto l n : length (upto l n) = n.
Proof. revert l. induction n; intros l; simpl; auto. Qed.

Lemma index_run {A} (l : list A) i :
  0 ≤ i < Z.of_nat (length l) → ∃ v, index l i = Ret v ∧ l !! Z.to_nat i = Some v.
Proof.
  intros Hi. unfold index. rewrite (proj2 (Z.leb_le 0 i)) by lia.
  destruct (lookup_lt_is_Some_2 l (Z.to_nat i)) as [v Hv]; [lia|].
  exists v. by rewrite Hv.
Qed.

Lemma index_Ret {A} (l : list A) i v :
  index l i = Ret v ↔ 0 ≤ i ∧ l !! Z.to_nat i = Some v.
Proof.
  unfold index. destruct (Z.leb_spec 0 i); [|naive_solver lia].
  destruct (l !! Z.to_nat i); naive_solver.
Qed.

Lemma update_run {A} (l : list A) i v :
  0 ≤ i < Z.of_nat (length l) → update l i v = Ret (<[Z.to_nat i := v]> l).
Proof.
  intros Hi. unfold update.
  rewrite (proj2 (Z.leb_le 0 i)), (proj2 (Z.ltb_lt i _)) by lia. done.
Qed.

Lemma update_Ret {A} (l l' : list A) i v :
  update l i v = Ret l' ↔
  0 ≤ i < Z.of_nat (length l) ∧ l' = <[Z.to_nat i := v]> l.
Proof.
  unfold update. destruct (Z.leb_spec 0 i), (Z.ltb_spec i (Z.of_nat (length l)));
    simpl; naive_solver lia.
Qed.
