(* ===== verification/Constants.v ===== *)
(** * Constants, error codes and register indices

    [src/src/constants.rs], [src/src/error.rs], [src/src/boards/qemu.rs]: the
    layout constants, the delegation masks, the VMM error enumeration, and the
    general purpose register file with its index type. *)
From stdpp Require Import base tactics numbers list option finite.
From S2P Require Import Prelude.

Definition PAGE_SIZE : Z := 0x1000.
Definition PAGE_SIZE_BITS : Z := 0xc.
Definition USER_STACK_SIZE : Z := 4096 * 2.
Definition KERNEL_STACK_SIZE : Z := 4096 * 4.
Definition KERNEL_HEAP_SIZE : Z := 0x300000.
Definition MAX_GUESTS : Z := 4.
Definition MAX_GUEST_HARTS : Z := 16.
Definition MAX_CONTEXTS : Z := 16 * 2.

(** Module [layout]. *)
Definition MEMORY_START : Z := 0x80000000.
Definition MEMORY_END : Z := 0x88000000.
Definition TRAMPOLINE : Z := W64 - 1 - PAGE_SIZE + 1.
Definition TRAP_CONTEXT : Z := TRAMPOLINE - PAGE_SIZE.
Definition GUEST_START_PA : Z := 0x90200000.
Definition GUEST_START_VA : Z := 0x90200000.
Definition GUEST_DEFAULT_SIZE : Z := 128 * 1024 * 1024.
Definition GUEST_DTB_ADDR : Z := 0x90000000.

(** [src/src/boards/qemu.rs]. *)
Definition CLOCK_FREQ : Z := 12500000.
Definition MMIO : list (Z * Z) := [(0x00100000, 0x2000); (0x10001000, 0x1000)].

(** The mode enumerations of module [csr], with their discriminants. *)
Inductive VirtualzationMode := Host | VGuest.
Definition VirtualzationMode_value (m : VirtualzationMode) : Z :=
  match m with Host => 0 | VGuest => 1 end.
Inductive CpuMode := CpuM | CpuS | CpuU.
Definition CpuMode_value (m : CpuMode) : Z :=
  match m with CpuM => 3 | CpuS => 1 | CpuU => 0 end.
Inductive PrevisorMode := PrevU | PrevHS | PrevM | PrevVU | PrevVS.

(** Module [csr::sip]. *)
Module sip.
Definition SSIP : Z := Z.shiftl 1 1.
Definition STIP : Z := Z.shiftl 1 5.
Definition SEIP : Z := Z.shiftl 1 9.
End sip.

(** Module [csr::hedeleg]. *)
Module hedeleg.
Definition INST_ADDR_MISALIGN : Z := Z.shiftl 1 0.
Definition INST_ACCESSS_FAULT : Z := Z.shiftl 1 1.
Definition ILLEGAL_INST : Z := Z.shiftl 1 2.
Definition BREAKPOINT : Z := Z.shiftl 1 3.
Definition LOAD_ADDR_MISALIGNED : Z := Z.shiftl 1 4.
Definition LOAD_ACCESS_FAULT : Z := Z.shiftl 1 5.
Definition STORE_ADDR_MISALIGNED : Z := Z.shiftl 1 6.
Definition STORE_ACCESS_FAULT : Z := Z.shiftl 1 7.
Definition ENV_CALL_FROM_U_OR_VU : Z := Z.shiftl 1 8.
Definition ENV_CALL_FROM_HS : Z := Z.shiftl 1 9.
Definition ENV_CALL_FROM_VS : Z := Z.shiftl 1 10.
Definition ENV_CALL_FROM_M : Z := Z.shiftl 1 11.
Definition INST_PAGE_FAULT : Z := Z.shiftl 1 12.
Definition LOAD_PAGE_FAULT : Z := Z.shiftl 1 13.
Definition STORE_PAGE_FAULT : Z := Z.shiftl 1 15.
Definition INST_GUEST_PAGE_FAULT : Z := Z.shiftl 1 20.
Definition LOAD_GUEST_PAGE_FAULT : Z := Z.shiftl 1 21.
Definition VIRTUAL_INST : Z := Z.shiftl 1 22.
Definition STORE_GUEST_PAGE_FAULT : Z := Z.shiftl 1 23.
End hedeleg.

(** Module [csr::hideleg]. *)
Module hideleg.
Definition VSSIP : Z := Z.shiftl 1 2.
Definition VSTIP : Z := Z.shiftl 1 6.
Definition VSEIP : Z := Z.shiftl 1 10.
End hideleg.

(** [VmmError] and [VmmResult]. *)
Inductive VmmError :=
| NotSupported
| NoFound
| Unimplemented
| TranslationError
| DeviceNotFound
| PseudoInst
| DecodeInstError
| UnexpectedInst.

#[export] Instance VmmError_eq_dec : EqDecision VmmError.
Proof. solve_decision. Defined.

(** [VmmResult<()>]: [None] is [Ok(())]. *)
Definition VmmResult := option VmmError.

(** ** Module [riscv_regs] *)
Module riscv_regs.

Inductive GprIndex :=
| Zero | RA | SP | GP | TP | T0 | T1 | T2 | S0 | S1
| A0 | A1 | A2 | A3 | A4 | A5 | A6 | A7
| S2 | S3 | S4 | S5 | S6 | S7 | S8 | S9 | S10 | S11
| T3 | T4 | T5 | T6.

#[export] Instance GprIndex_eq_dec : EqDecision GprIndex.
Proof. solve_decision. Defined.

(** [index as usize]: the discriminants count up from [Zero = 0]. *)
Definition discriminant (i : GprIndex) : Z :=
  match i with
  | Zero => 0 | RA => 1 | SP => 2 | GP => 3 | TP => 4 | T0 => 5 | T1 => 6
  | T2 => 7 | S0 => 8 | S1 => 9 | A0 => 10 | A1 => 11 | A2 => 12 | A3 => 13
  | A4 => 14 | A5 => 15 | A6 => 16 | A7 => 17 | S2 => 18 | S3 => 19 | S4 => 20
  | S5 => 21 | S6 => 22 | S7 => 23 | S8 => 24 | S9 => 25 | S10 => 26
  | S11 => 27 | T3 => 28 | T4 => 29 | T5 => 30 | T6 => 31
  end.

Definition from_raw (raw : Z) : option GprIndex :=
  match raw with
  | 0 => Some Zero | 1 => Some RA | 2 => Some SP | 3 => Some GP | 4 => Some TP
  | 5 => Some T0 | 6 => Some T1 | 7 => Some T2 | 8 => Some S0 | 9 => Some S1
  | 10 => Some A0 | 11 => Some A1 | 12 => Some A2 | 13 => Some A3
  | 14 => Some A4 | 15 => Some A5 | 16 => Some A6 | 17 => Some A7
  | 18 => Some S2 | 19 => Some S3 | 20 => Some S4 | 21 => Some S5
  | 22 => Some S6 | 23 => Some S7 | 24 => Some S8 | 25 => Some S9
  | 26 => Some S10 | 27 => Some S11 | 28 => Some T3 | 29 => Some T4
  | 30 => Some T5 | 31 => Some T6
  | _ => None
  end.

(** [GeneralPurposeRegisters([u64; 32])]: the list has 32 elements. *)
Record GeneralPurposeRegisters := GPRs { gprs_0 : list Z }.

Definition gpr_default : GeneralPurposeRegisters := GPRs (replicate 32 0).

Definition reg (g : GeneralPurposeRegisters) (i : GprIndex) : outcome Z :=
  index (gprs_0 g) (discriminant i).

Definition set_reg (g : GeneralPurposeRegisters) (i : GprIndex) (val : Z)
    : outcome GeneralPurposeRegisters :=
  if decide (i = Zero) then Ret g
  else l ← update (gprs_0 g) (discriminant i) val; Ret (GPRs l).

(** [&self.0[A0..=A7]]. *)
Definition a_regs (g : GeneralPurposeRegisters) : list Z :=
  take 8 (drop (Z.to_nat (discriminant A0)) (gprs_0 g)).

(** [&mut self.0[A0..=A7]]: a write through the slice. *)
Definition a_regs_mut (g : GeneralPurposeRegisters) (i : Z) (val : Z)
    : outcome GeneralPurposeRegisters :=
  if (0 <=? i) && (i <? 8) then
    l ← update (gprs_0 g) (discriminant A0 + i) val; Ret (GPRs l)
  else Panic IndexOutOfBounds.

Definition gpr_wf (g : GeneralPurposeRegisters) : Prop :=
  length (gprs_0 g) = 32%nat.

(** ** Facts *)

Lemma from_raw_discriminant i : from_raw (discriminant i) = Some i.
Proof. by destruct i. Qed.
Lemma from_raw_Some raw i : from_raw raw = Some i → raw = discriminant i.
Proof.
  intros Hr. destruct (decide (0 ≤ raw < 32)) as [Hin|Hout].
  - assert (Forall (λ r, from_raw r = Some i → r = discriminant i) (upto 0 32)) as Hf.
    { repeat (constructor; [intros [= <-]; done|]). constructor. }
    rewrite Forall_forall in Hf. apply Hf; [|done]. apply elem_of_upto. lia.
  - exfalso. unfold from_raw in Hr. destruct raw as [|p|p]; try done; [lia|].
    do 6 (destruct p as [p|p|]; try done; try lia).
Qed.

(** A register reads what was last written to it, except [x0]; a write changes
    no other register. *)
Lemma reg_set_reg g i j v :
  gpr_wf g →
  ∃ g', set_reg g i v = Ret g' ∧ gpr_wf g' ∧
    reg g' j = if decide (i = j ∧ i ≠ Zero) then Ret v else reg g j.
Proof.
  intros Hw. unfold set_reg, gpr_wf in *. case_decide as Hz.
  { subst i. exists g. split; [done|]. split; [done|]. rewrite decide_False by naive_solver. done. }
  assert (∀ k, 0 ≤ discriminant k < 32) as Hr by (intros []; simpl; lia).
  pose proof (Hr i). pose proof (Hr j). rewrite update_run by lia. simpl.
  eexists. split; [done|]. simpl. rewrite length_insert. split; [done|].
  unfold reg. simpl.
  destruct (gprs_0 g !! Z.to_nat (discriminant j)) as [u|] eqn:Hu;
    [|apply lookup_ge_None in Hu; lia].
  case_decide as Hij.
  - destruct Hij as [<- _]. apply index_Ret. split; [lia|]. apply list_lookup_insert_eq. lia.
  - rewrite (proj2 (index_Ret (gprs_0 g) (discriminant j) u)) by (split; [lia|done]).
    apply index_Ret. split; [lia|]. rewrite list_lookup_insert_ne; [done|].
    intros He. apply Hij. split; [|done]. apply Z2Nat.inj in He; [|lia..]. by destruct i, j.
Qed.
End riscv_regs.
