(* ===== verification/Address.v ===== *)
(** * Addresses, page numbers and ranges

    [src/src/page_table/address.rs].  The four newtypes over [usize] are four
    records with one field, so that a physical page number cannot be used for a
    virtual one; [From] impls are named [<Target>_from_<Source>]. *)
From stdpp Require Import base tactics numbers list option countable.
From S2P Require Import Prelude Constants.

Definition PA_WIDTH_SV39 : Z := 56.
Definition VA_WIDTH_SV39 : Z := 39.
Definition PPN_WIDTH_SV39 : Z := PA_WIDTH_SV39 - PAGE_SIZE_BITS.
Definition VPN_WIDTH_SV39 : Z := VA_WIDTH_SV39 - PAGE_SIZE_BITS.

Record PhysAddr := PA { pa_0 : Z }.
Record VirtAddr := VA { va_0 : Z }.
Record PhysPageNum := PPN { ppn_0 : Z }.
Record VirtPageNum := VPN { vpn_0 : Z }.

#[export] Instance PhysAddr_eq_dec : EqDecision PhysAddr.
Proof. solve_decision. Defined.
#[export] Instance VirtAddr_eq_dec : EqDecision VirtAddr.
Proof. solve_decision. Defined.
#[export] Instance PhysPageNum_eq_dec : EqDecision PhysPageNum.
Proof. solve_decision. Defined.
#[export] Instance VirtPageNum_eq_dec : EqDecision VirtPageNum.
Proof. solve_decision. Defined.
#[export] Instance VirtPageNum_countable : Countable VirtPageNum.
Proof. apply (inj_countable' vpn_0 VPN). by intros []. Defined.

(** ** Conversions with [usize] *)

Definition PhysAddr_from_usize (v : Z) : PhysAddr :=
  PA (Z.land v (Z.shiftl 1 PA_WIDTH_SV39 - 1)).
Definition PhysPageNum_from_usize (v : Z) : PhysPageNum :=
  PPN (Z.land v (Z.shiftl 1 PPN_WIDTH_SV39 - 1)).
Definition VirtAddr_from_usize (v : Z) : VirtAddr :=
  VA (Z.land v (Z.shiftl 1 VA_WIDTH_SV39 - 1)).
Definition VirtPageNum_from_usize (v : Z) : VirtPageNum :=
  VPN (Z.land v (Z.shiftl 1 VPN_WIDTH_SV39 - 1)).

Definition usize_from_PhysAddr (v : PhysAddr) : Z := pa_0 v.
Definition usize_from_PhysPageNum (v : PhysPageNum) : Z := ppn_0 v.
Definition usize_from_VirtPageNum (v : VirtPageNum) : Z := vpn_0 v.

(** [!x] on 64 bits is [W64 - 1 - x]. *)
Definition not64 (x : Z) : Z := W64 - 1 - x.

Definition usize_from_VirtAddr (v : VirtAddr) : Z :=
  if Z.shiftl 1 (VA_WIDTH_SV39 - 1) <=? va_0 v
  then Z.lor (va_0 v) (not64 (Z.shiftl 1 VA_WIDTH_SV39 - 1))
  else va_0 v.

(** ** Page arithmetic *)

Definition VirtAddr_floor (v : VirtAddr) : VirtPageNum := VPN (va_0 v / PAGE_SIZE).
Definition VirtAddr_ceil (v : VirtAddr) : outcome VirtPageNum :=
  a ← usub (va_0 v) 1; b ← uadd a PAGE_SIZE; Ret (VPN (b / PAGE_SIZE)).
Definition VirtAddr_page_offset (v : VirtAddr) : Z := Z.land (va_0 v) (PAGE_SIZE - 1).
Definition VirtAddr_aligned (v : VirtAddr) : bool := VirtAddr_page_offset v =? 0.

Definition VirtPageNum_from_VirtAddr (v : VirtAddr) : outcome VirtPageNum :=
  _ ← assert (VirtAddr_page_offset v =? 0); Ret (VirtAddr_floor v).
Definition VirtAddr_from_VirtPageNum (v : VirtPageNum) : VirtAddr :=
  VA (shl (vpn_0 v) PAGE_SIZE_BITS).

Definition PhysAddr_floor (v : PhysAddr) : PhysPageNum := PPN (pa_0 v / PAGE_SIZE).
Definition PhysAddr_ceil (v : PhysAddr) : outcome PhysPageNum :=
  a ← usub (pa_0 v) 1; b ← uadd a PAGE_SIZE; Ret (PPN (b / PAGE_SIZE)).
Definition PhysAddr_page_offset (v : PhysAddr) : Z := Z.land (pa_0 v) (PAGE_SIZE - 1).
Definition PhysAddr_aligned (v : PhysAddr) : bool := PhysAddr_page_offset v =? 0.

Definition PhysPageNum_from_PhysAddr (v : PhysAddr) : outcome PhysPageNum :=
  _ ← assert (PhysAddr_page_offset v =? 0); Ret (PhysAddr_floor v).
Definition PhysAddr_from_PhysPageNum (v : PhysPageNum) : PhysAddr :=
  PA (shl (ppn_0 v) PAGE_SIZE_BITS).

(** [VirtPageNum::indexes]: the loop runs [i] over 2, 1, 0, storing the low
    nine bits of what is left of the page number in [idx[i]]. *)
Fixpoint indexes_loop (js : list nat) (vpn : Z) (idx : list Z) : list Z :=
  match js with
  | [] => idx
  | i :: js' => indexes_loop js' (Z.shiftr vpn 9) (<[i := Z.land vpn 511]> idx)
  end.
Definition indexes (v : VirtPageNum) : list Z :=
  indexes_loop (rev (seq 0 3)) (vpn_0 v) [0; 0; 0].

(** ** Ranges *)

(** The trait [StepByOne] and the comparisons [SimpleRange] asks of [T]. *)
Class StepByOne (T : Type) := step : T → outcome T.
Class PartialOrd (T : Type) := ple : T → T → bool.

#[export] Instance VirtPageNum_step : StepByOne VirtPageNum :=
  λ v, n ← uadd (vpn_0 v) 1; Ret (VPN n).
#[export] Instance PhysPageNum_step : StepByOne PhysPageNum :=
  λ v, n ← uadd (ppn_0 v) 1; Ret (PPN n).
#[export] Instance VirtPageNum_ple : PartialOrd VirtPageNum :=
  λ a b, vpn_0 a <=? vpn_0 b.
#[export] Instance PhysPageNum_ple : PartialOrd PhysPageNum :=
  λ a b, ppn_0 a <=? ppn_0 b.

Record SimpleRange (T : Type) := MkRange { range_l : T; range_r : T }.
Arguments MkRange {T} range_l range_r.
Arguments range_l {T} s.
Arguments range_r {T} s.

Record SimpleRangeIterator (T : Type) := MkIter { current : T; iter_end : T }.
Arguments MkIter {T} current iter_end.
Arguments current {T} s.
Arguments iter_end {T} s.

Section Range.
Context {T : Type} `{StepByOne T} `{PartialOrd T} `{EqDecision T}.

Definition range_new (start end_ : T) : outcome (SimpleRange T) :=
  _ ← assert (ple start end_); Ret (MkRange start end_).
Definition get_start (r : SimpleRange T) : T := range_l r.
Definition get_end (r : SimpleRange T) : T := range_r r.
Definition iter_new (l r : T) : SimpleRangeIterator T := MkIter l r.
Definition into_iter (r : SimpleRange T) : SimpleRangeIterator T :=
  iter_new (range_l r) (range_r r).

Definition next (it : SimpleRangeIterator T)
    : outcome (option T * SimpleRangeIterator T) :=
  if decide (current it = iter_end it) then Ret (None, it)
  else let t := current it in
       c ← step (current it); Ret (Some t, MkIter c (iter_end it)).

(** [for t in range { body }]: [next] until [None].  [acc] holds the locals the
    body updates; [fuel] bounds the number of elements yielded. *)
Fixpoint for_range {S B} (fuel : nat) (it : SimpleRangeIterator T)
    (body : B → T → M S B) (acc : B) : M S B :=
  r ← lift (next it);
  match r with
  | (None, _) => mret acc
  | (Some t, it') =>
      match fuel with
      | O => nofuelM
      | Datatypes.S fuel' => acc' ← body acc t; for_range fuel' it' body acc'
      end
  end.

End Range.

Abbreviation VPNRange := (SimpleRange VirtPageNum).
Abbreviation PPNRange := (SimpleRange PhysPageNum).

(** ** Facts *)

Ltac unfold_consts :=
  unfold PA_WIDTH_SV39, VA_WIDTH_SV39, PPN_WIDTH_SV39, VPN_WIDTH_SV39,
    PAGE_SIZE, PAGE_SIZE_BITS in *.

Lemma PhysPageNum_from_usize_mod v :
  PhysPageNum_from_usize v = PPN (v mod 2 ^ 44).
Proof. unfold PhysPageNum_from_usize. f_equal. by apply land_mask. Qed.

Lemma PhysAddr_from_usize_mod v : PhysAddr_from_usize v = PA (v mod 2 ^ 56).
Proof. unfold PhysAddr_from_usize. f_equal. by apply land_mask. Qed.

Lemma VirtAddr_from_usize_mod v : VirtAddr_from_usize v = VA (v mod 2 ^ 39).
Proof. unfold VirtAddr_from_usize. f_equal. by apply land_mask. Qed.

Lemma VirtPageNum_from_usize_mod v :
  VirtPageNum_from_usize v = VPN (v mod 2 ^ 27).
Proof. unfold VirtPageNum_from_usize. f_equal. by apply land_mask. Qed.

Lemma VirtAddr_page_offset_mod v : VirtAddr_page_offset v = va_0 v mod 4096.
Proof. unfold VirtAddr_page_offset. by apply (land_mask _ 12). Qed.

Lemma PhysAddr_page_offset_mod v : PhysAddr_page_offset v = pa_0 v mod 4096.
Proof. unfold PhysAddr_page_offset. by apply (land_mask _ 12). Qed.

(** The three table indices of a page number, most significant first. *)
Definition vidx2 (v : Z) : Z := (v / 262144) mod 512.
Definition vidx1 (v : Z) : Z := (v / 512) mod 512.
Definition vidx0 (v : Z) : Z := v mod 512.

Lemma indexes_eq v :
  indexes v = [vidx2 (vpn_0 v); vidx1 (vpn_0 v); vidx0 (vpn_0 v)].
Proof.
  unfold indexes, vidx2, vidx1, vidx0. simpl.
  rewrite !(land_mask _ 9 511), !shiftr_div, Z.div_div by done. done.
Qed.

Lemma vidx_range v :
  0 ≤ vidx2 v < 512 ∧ 0 ≤ vidx1 v < 512 ∧ 0 ≤ vidx0 v < 512.
Proof. unfold vidx2, vidx1, vidx0. repeat split; apply Z.mod_pos_bound; lia. Qed.

Lemma vidx_join v :
  vidx2 v * 262144 + vidx1 v * 512 + vidx0 v = v mod 134217728.
Proof.
  unfold vidx2, vidx1, vidx0.
  change 134217728 with (512 * 262144). change 262144 with (512 * 512).
  rewrite <- Z.div_div by lia.
  rewrite (Z.rem_mul_r v 512 (512 * 512)) by lia.
  rewrite (Z.rem_mul_r (v / 512) 512 512) by lia. lia.
Qed.

Lemma indexes_inj v w :
  indexes v = indexes w ↔ vpn_0 v mod 2 ^ 27 = vpn_0 w mod 2 ^ 27.
Proof.
  change (2 ^ 27) with 134217728. rewrite !indexes_eq.
  split.
  - intros [=]. rewrite <- !vidx_join. congruence.
  - rewrite <- !vidx_join. pose proof (vidx_range (vpn_0 v)).
    pose proof (vidx_range (vpn_0 w)). intros Heq.
    assert (vidx2 (vpn_0 v) = vidx2 (vpn_0 w)) as -> by lia.
    assert (vidx1 (vpn_0 v) = vidx1 (vpn_0 w)) as -> by lia.
    by assert (vidx0 (vpn_0 v) = vidx0 (vpn_0 w)) as -> by lia.
Qed.

(** Addresses whose upper 25 bits repeat bit 38. *)
Definition canonical39 (a : Z) : Prop :=
  0 ≤ a < 2 ^ 38 ∨ W64 - 2 ^ 38 ≤ a < W64.

Lemma usize_from_VirtAddr_arith v : 0 ≤ va_0 v < 2 ^ 39 →
  usize_from_VirtAddr v =
  if 2 ^ 38 <=? va_0 v then W64 - 2 ^ 39 + va_0 v else va_0 v.
Proof.
  intros Hv. unfold usize_from_VirtAddr. unfold_consts.
  change (Z.shiftl 1 (39 - 1)) with (2 ^ 38).
  destruct (2 ^ 38 <=? va_0 v); [|done].
  replace (not64 (Z.shiftl 1 39 - 1)) with ((2 ^ 25 - 1) * 2 ^ 39) by done.
  rewrite Z.lor_comm, lor_shifted by done. unfold W64. lia.
Qed.

Lemma VirtAddr_ceil_spec v :
  VirtAddr_ceil v =
  if decide (va_0 v < 1) then Panic Overflow
  else if decide (va_0 v - 1 + 4096 < W64) then Ret (VPN ((va_0 v + 4095) / 4096))
  else Panic Overflow.
Proof.
  unfold VirtAddr_ceil. unfold_consts. unfold usub.
  destruct (Z.leb_spec 1 (va_0 v)); case_decide; try lia; simpl; [|done].
  unfold uadd. change 0x1000 with 4096. destruct (Z.ltb_spec (va_0 v - 1 + 4096) W64); case_decide;
    try lia; simpl; do 3 f_equal; lia.
Qed.

Lemma VirtAddr_ceil_run a : 1 ≤ a < 2 ^ 56 →
  VirtAddr_ceil (VA a) = Ret (VPN ((a + 4095) / 4096)).
Proof.
  intros. rewrite VirtAddr_ceil_spec. simpl. unfold W64 in *.
  rewrite decide_False, decide_True by lia. done.
Qed.

Lemma PhysAddr_ceil_run a : 1 ≤ a < 2 ^ 56 + 2 ^ 40 →
  PhysAddr_ceil (PA a) = Ret (PPN ((a + 4095) / 4096)).
Proof.
  intros. unfold PhysAddr_ceil. unfold_consts. simpl.
  rewrite usub_run by lia. simpl. rewrite uadd_run by (unfold W64; lia).
  simpl. do 3 f_equal. lia.
Qed.

(** Iterating a range of page numbers visits each of its pages once, in
    order, and stops. *)
Lemma for_range_VPN {S B} (body : B → VirtPageNum → M S B) n l acc s :
  l + Z.of_nat n < W64 →
  for_range n (MkIter (VPN l) (VPN (l + Z.of_nat n))) body acc s =
  mfold (VPN <$> upto l n) body acc s.
Proof.
  revert l acc s. induction n as [|n IH]; intros l acc s Hlt.
  - simpl. unfold mbind, M_bind, lift, next. simpl.
    rewrite decide_True by (f_equal; lia). done.
  - cbn [for_range upto fmap list_fmap mfold].
    unfold mbind at 1, M_bind at 1, lift, next. simpl.
    rewrite decide_False by (intros [=]; lia).
    unfold step, VirtPageNum_step. simpl. rewrite uadd_run by lia. simpl.
    unfold mbind, M_bind. destruct (body acc (VPN l) s) as [[b s1]| | |]; try done.
    replace (l + Z.of_nat (Datatypes.S n)) with (l + 1 + Z.of_nat n) by lia.
    apply IH. lia.
Qed.

(** ** Claims *)

(** C38: sign extension.  Converting any 64-bit value to [VirtAddr] and back
    gives a canonical Sv39 address, the same one exactly when it was canonical;
    converting a 39-bit [VirtAddr] to [usize] and back is the identity. *)
Theorem VirtAddr_canonical a v :
  0 ≤ a < W64 → 0 ≤ va_0 v < 2 ^ 39 →
  canonical39 (usize_from_VirtAddr (VirtAddr_from_usize a)) ∧
  (usize_from_VirtAddr (VirtAddr_from_usize a) = a ↔ canonical39 a) ∧
  VirtAddr_from_usize (usize_from_VirtAddr v) = v.
Proof.
  intros Ha Hv. rewrite !VirtAddr_from_usize_mod.
  pose proof (Z.mod_pos_bound a (2 ^ 39) ltac:(done)) as Hm.
  pose proof (Z.div_mod a (2 ^ 39) ltac:(done)) as Hd.
  rewrite !usize_from_VirtAddr_arith by done. cbn [va_0]. unfold canonical39, W64 in *.
  split_and!.
  - destruct (Z.leb_spec (2 ^ 38) (a mod 2 ^ 39)); lia.
  - destruct (Z.leb_spec (2 ^ 38) (a mod 2 ^ 39)); split; intros; dlia.
  - destruct v as [v]. f_equal. cbn [va_0] in *. destruct (Z.leb_spec (2 ^ 38) v); dlia.
Qed.
Lemma VirtAddr_canonical_witness :
  VirtAddr_from_usize (usize_from_VirtAddr (VA 0x7ffffff000)) = VA 0x7ffffff000 ∧
  canonical39 TRAMPOLINE.
Proof.
  destruct (VirtAddr_canonical TRAMPOLINE (VA 0x7ffffff000)) as (_&H1&H2).
  - vm_compute. split; congruence.
  - vm_compute. split; congruence.
  - split; [exact H2|]. apply H1. vm_compute. reflexivity.
Defined.

(** C39: rounding to pages.  [floor] and [ceil] are the nearest page boundaries
    below and above an address, for both kinds of addresses; [ceil] of address
    zero panics on the subtraction. *)
Theorem page_rounding a :
  1 ≤ a < 2 ^ 56 →
  ∃ lo hi, VirtAddr_floor (VA a) = VPN lo ∧ VirtAddr_ceil (VA a) = Ret (VPN hi) ∧
    PhysAddr_floor (PA a) = PPN lo ∧ PhysAddr_ceil (PA a) = Ret (PPN hi) ∧
    lo * 4096 ≤ a < lo * 4096 + 4096 ∧ hi * 4096 - 4096 < a ≤ hi * 4096 ∧
    VirtAddr_ceil (VA 0) = Panic Overflow ∧ PhysAddr_ceil (PA 0) = Panic Overflow.
Proof.
  intros Ha. exists (a / 4096), ((a + 4095) / 4096).
  rewrite VirtAddr_ceil_run, PhysAddr_ceil_run by lia.
  repeat (split; [done|]). split; [dlia|]. split; [dlia|]. done.
Qed.
Lemma page_rounding_witness : ∃ hi, VirtAddr_ceil (VA 0x80200001) = Ret (VPN hi) ∧ hi * 4096 = 0x80201000.
Proof.
  destruct (page_rounding 0x80200001 ltac:(lia)) as (lo&hi&_&H&_&_&_&H2&_).
  exists hi. split; [exact H|]. lia.
Defined.

(** C40: the three table indices.  They are below 512, they determine the low 27
    bits of the page number and depend on nothing else. *)
Theorem indexes_identify_page v w :
  (Forall (λ i, 0 ≤ i < 512) (indexes v) ∧ length (indexes v) = 3%nat) ∧
  (indexes v = indexes w ↔ vpn_0 v mod 2 ^ 27 = vpn_0 w mod 2 ^ 27).
Proof.
  split; [|apply indexes_inj]. rewrite indexes_eq.
  pose proof (vidx_range (vpn_0 v)) as (?&?&?). split; [|done].
  repeat (apply Forall_cons; [done|]). apply Forall_nil.
Qed.
