(* ===== verification/Pte.v ===== *)
(** * Page table entries

    [src/src/page_table/pte.rs] and the level type of
    [src/src/page_table/mod.rs].  [bitflags!] types are their bit patterns. *)
From stdpp Require Import base tactics numbers list option.
From S2P Require Import Prelude Constants Address.

(** [bitflags! struct PTEFlags: u8]. *)
Record PTEFlags := MkFlags { flags_bits : Z }.

#[export] Instance PTEFlags_eq_dec : EqDecision PTEFlags.
Proof. solve_decision. Defined.

Module flag.
Definition V : PTEFlags := MkFlags (Z.shiftl 1 0).
Definition R : PTEFlags := MkFlags (Z.shiftl 1 1).
Definition W : PTEFlags := MkFlags (Z.shiftl 1 2).
Definition X : PTEFlags := MkFlags (Z.shiftl 1 3).
Definition U : PTEFlags := MkFlags (Z.shiftl 1 4).
Definition G : PTEFlags := MkFlags (Z.shiftl 1 5).
Definition A : PTEFlags := MkFlags (Z.shiftl 1 6).
Definition D : PTEFlags := MkFlags (Z.shiftl 1 7).
Definition empty : PTEFlags := MkFlags 0.
(** The union of the declared flags. *)
Definition all_bits : Z := 0xff.
(** The [|] and [&] operators. *)
Definition union (a b : PTEFlags) : PTEFlags :=
  MkFlags (Z.lor (flags_bits a) (flags_bits b)).
Definition inter (a b : PTEFlags) : PTEFlags :=
  MkFlags (Z.land (flags_bits a) (flags_bits b)).
(** [from_bits]: [None] when a bit outside the declared flags is set. *)
Definition from_bits (bits : Z) : option PTEFlags :=
  if Z.land bits (255 - all_bits) =? 0 then Some (MkFlags bits) else None.
End flag.

Record PageTableEntry := PTE { bits : Z }.

#[export] Instance PageTableEntry_eq_dec : EqDecision PageTableEntry.
Proof. solve_decision. Defined.

Definition pte_new (ppn : PhysPageNum) (flags : PTEFlags) : PageTableEntry :=
  PTE (Z.lor (shl (ppn_0 ppn) 10) (flags_bits flags)).
Definition pte_empty : PageTableEntry := PTE 0.
Definition pte_ppn (p : PageTableEntry) : PhysPageNum :=
  PhysPageNum_from_usize
    (Z.land (Z.shiftr (bits p) 10) (Z.shiftl 1 44 - 1)).
(** [PTEFlags::from_bits((self.bits & 0x3ff) as u8).unwrap()]. *)
Definition pte_flags (p : PageTableEntry) : outcome PTEFlags :=
  unwrap (flag.from_bits (Z.land (bits p) 0x3ff mod W8)).

(** [(self.flags() & F) != PTEFlags::empty()]. *)
Definition has_flag (f : PTEFlags) (p : PageTableEntry) : outcome bool :=
  fl ← pte_flags p; Ret (bool_decide (flag.inter fl f ≠ flag.empty)).
Definition is_valid := has_flag flag.V.
Definition readable := has_flag flag.R.
Definition writable := has_flag flag.W.
Definition executable := has_flag flag.X.
Definition is_user := has_flag flag.U.
Definition is_global := has_flag flag.G.
Definition dirty := has_flag flag.D.
Definition accessed := has_flag flag.A.

Inductive PageTableLevel := Level4KB | Level2MB | Level1GB.

#[export] Instance PageTableLevel_eq_dec : EqDecision PageTableLevel.
Proof. solve_decision. Defined.

(** ** Facts *)

(** Reading the flags of any entry succeeds: truncated to eight bits, every
    pattern is a union of declared flags. *)
Lemma pte_flags_total p : pte_flags p = Ret (MkFlags (bits p mod 256)).
Proof.
  unfold pte_flags, flag.from_bits, flag.all_bits.
  change (255 - 0xff) with 0. rewrite Z.land_0_r. simpl.
  rewrite (land_mask _ 10) by done. do 2 f_equal. unfold W8.
  change (2 ^ 10) with (256 * 4).
  rewrite (Z.rem_mul_r (bits p) 256 4) by lia.
  rewrite Z.mul_comm, Z.mod_add by lia. apply Z.mod_mod. lia.
Qed.

Lemma has_flag_testbit k f p : 0 ≤ k < 8 → flags_bits f = Z.shiftl 1 k →
  has_flag f p = Ret (Z.testbit (bits p) k).
Proof.
  intros Hk Hf. unfold has_flag. rewrite pte_flags_total. simpl. f_equal.
  rewrite <- (testbit_mod (bits p) 8 k) by done.
  rewrite <- land_bit by lia. rewrite <- Hf.
  unfold flag.inter, flag.empty. simpl.
  destruct (Z.eqb_spec (Z.land (bits p mod 2 ^ 8) (flags_bits f)) 0) as [E|E];
    simpl; change (2 ^ 8) with 256 in E.
  - apply bool_decide_eq_false. intros HF. apply HF. by rewrite E.
  - apply bool_decide_eq_true. congruence.
Qed.

Definition validb (p : PageTableEntry) : bool := Z.testbit (bits p) 0.
Definition readb (p : PageTableEntry) : bool := Z.testbit (bits p) 1.
Definition writeb (p : PageTableEntry) : bool := Z.testbit (bits p) 2.
Definition execb (p : PageTableEntry) : bool := Z.testbit (bits p) 3.
Definition userb (p : PageTableEntry) : bool := Z.testbit (bits p) 4.

Lemma is_valid_eq p : is_valid p = Ret (validb p).
Proof. by apply has_flag_testbit. Qed.
Lemma readable_eq p : readable p = Ret (readb p).
Proof. by apply has_flag_testbit. Qed.
Lemma writable_eq p : writable p = Ret (writeb p).
Proof. by apply has_flag_testbit. Qed.
Lemma executable_eq p : executable p = Ret (execb p).
Proof. by apply has_flag_testbit. Qed.
Lemma is_user_eq p : is_user p = Ret (userb p).
Proof. by apply has_flag_testbit. Qed.

Lemma pte_ppn_eq p : pte_ppn p = PPN ((bits p / 1024) mod 2 ^ 44).
Proof.
  unfold pte_ppn. rewrite PhysPageNum_from_usize_mod, shiftr_div by done.
  rewrite (land_mask _ 44) by done. f_equal. apply Z.mod_mod. lia.
Qed.

Lemma pte_ppn_range p : 0 ≤ ppn_0 (pte_ppn p) < 2 ^ 44.
Proof. rewrite pte_ppn_eq. simpl. by apply Z.mod_pos_bound. Qed.

Lemma pte_new_bits n fl :
  0 ≤ n < 2 ^ 44 → 0 ≤ fl < 256 → bits (pte_new (PPN n) (MkFlags fl)) = n * 1024 + fl.
Proof.
  intros Hn Hf. unfold pte_new. simpl.
  rewrite shl_small by (unfold W64; lia).
  apply (lor_shifted n fl 10); [done|]. lia.
Qed.

Lemma pte_new_range n fl :
  0 ≤ n < 2 ^ 44 → 0 ≤ fl < 256 → 0 ≤ bits (pte_new (PPN n) (MkFlags fl)) < 2 ^ 54.
Proof. intros. rewrite pte_new_bits by done. lia. Qed.

Lemma pte_ppn_new n fl :
  0 ≤ n < 2 ^ 44 → 0 ≤ fl < 256 → pte_ppn (pte_new (PPN n) (MkFlags fl)) = PPN n.
Proof.
  intros Hn Hf. rewrite pte_ppn_eq, pte_new_bits by done. f_equal.
  rewrite div_hi by lia. by apply Z.mod_small.
Qed.

Lemma pte_new_mod n fl :
  0 ≤ n < 2 ^ 44 → 0 ≤ fl < 256 →
  bits (pte_new (PPN n) (MkFlags fl)) mod 256 = fl.
Proof.
  intros Hn Hf. rewrite pte_new_bits by done.
  replace (n * 1024) with (n * 4 * 256) by lia. by apply mod_lo.
Qed.

Lemma pte_flags_new n fl :
  0 ≤ n < 2 ^ 44 → 0 ≤ fl < 256 →
  pte_flags (pte_new (PPN n) (MkFlags fl)) = Ret (MkFlags fl).
Proof. intros. by rewrite pte_flags_total, pte_new_mod. Qed.

(** Any flag bit of a fresh entry is the flag it was built with. *)
Lemma testbit_pte_new n fl k :
  0 ≤ n < 2 ^ 44 → 0 ≤ fl < 256 → 0 ≤ k < 8 →
  Z.testbit (bits (pte_new (PPN n) (MkFlags fl))) k = Z.testbit fl k.
Proof.
  intros Hn Hf Hk. rewrite <- (testbit_mod _ 8 k) by done.
  change (2 ^ 8) with 256. by rewrite pte_new_mod.
Qed.

Lemma validb_new_V n fl :
  0 ≤ n < 2 ^ 44 → 0 ≤ fl < 256 →
  validb (pte_new (PPN n) (flag.union (MkFlags fl) flag.V)) = true.
Proof.
  intros Hn Hf. unfold validb, flag.union, flag.V. cbn [flags_bits].
  rewrite testbit_pte_new; [|done|apply (lor_range _ _ 8); first [done | lia]|lia].
  by rewrite Z.lor_spec, orb_true_r.
Qed.

(** ** Claims *)

(** C37: encoding an entry.  For a 44-bit page number and any eight flag bits,
    [ppn] and [flags] recover what [new] was given, the reserved bits are zero,
    and each accessor reports exactly its flag. *)
Theorem pte_roundtrip n fl :
  0 ≤ n < 2 ^ 44 → 0 ≤ fl < 256 →
  let e := pte_new (PPN n) (MkFlags fl) in
  pte_ppn e = PPN n ∧ pte_flags e = Ret (MkFlags fl) ∧ 0 ≤ bits e < 2 ^ 54 ∧
  is_valid e = Ret (Z.testbit fl 0) ∧ readable e = Ret (Z.testbit fl 1) ∧
  writable e = Ret (Z.testbit fl 2) ∧ executable e = Ret (Z.testbit fl 3) ∧
  is_user e = Ret (Z.testbit fl 4) ∧ is_global e = Ret (Z.testbit fl 5) ∧
  accessed e = Ret (Z.testbit fl 6) ∧ dirty e = Ret (Z.testbit fl 7).
Proof.
  intros Hn Hf e. unfold is_valid, readable, writable, executable, is_user, is_global, accessed, dirty.
  split; [by apply pte_ppn_new|]. split; [by apply pte_flags_new|].
  split; [by apply pte_new_range|].
  repeat split;
    match goal with |- _ = Ret (Z.testbit _ ?k) => rewrite (has_flag_testbit k) by done end;
    unfold e; by rewrite testbit_pte_new.
Qed.
Lemma pte_roundtrip_witness : pte_ppn (pte_new (PPN 0x80201) (MkFlags 0xdf)) = PPN 0x80201.
Proof. apply (pte_roundtrip 0x80201 0xdf); lia. Defined.
