(* ===== verification/Mem.v ===== *)
(** * Physical memory

    Byte-addressed memory, as the raw pointer accesses of the code see it:
    [core::ptr::read/write] at a width, [slice::from_raw_parts_mut] for the
    512-entry table view and the 4096-byte page view of a frame
    ([PhysPageNum::get_pte_array], [get_bytes_array]). Little-endian; a byte
    never written reads as 0. The hypervisor identity-maps all memory it
    touches this way, so addresses are physical. *)
From stdpp Require Import base tactics numbers list option gmap.
From S2P Require Import Prelude Constants Address Pte.

Abbreviation mem := (gmap Z Z).

Definition rd8 (m : mem) (a : Z) : Z := default 0 (m !! a).

(** Read and write [n] bytes at [a]. *)
Fixpoint load (n : nat) (m : mem) (a : Z) : Z :=
  match n with
  | O => 0
  | S n' => rd8 m a + 256 * load n' m (a + 1)
  end.
Fixpoint store (n : nat) (m : mem) (a v : Z) : mem :=
  match n with
  | O => m
  | S n' => store n' (<[a := v mod 256]> m) (a + 1) (v / 256)
  end.

(** Clearing [n] bytes from [a]: a cleared byte is one that is not recorded, as
    bytes read as 0 by default. *)
Definition zero_bytes (n : nat) (m : mem) (a : Z) : mem :=
  filter (λ kv, ¬ (a ≤ kv.1 < a + Z.of_nat n)) m.

(** [dst.copy_from_slice(src)] / [core::ptr::copy] of bytes to [a]. *)
Fixpoint copy_bytes (m : mem) (a : Z) (src : list Z) : mem :=
  match src with
  | [] => m
  | b :: src' => copy_bytes (<[a := b]> m) (a + 1) src'
  end.

Definition mem_ok (m : mem) : Prop := map_Forall (λ _ b, 0 ≤ b < 256) m.

(** ** Frames as arrays of entries *)

(** Base address of a frame: [let pa: PhysAddr] from the page number. *)
Definition frame_base (p : PhysPageNum) : Z := pa_0 (PhysAddr_from_PhysPageNum p).

(** The address of [p.get_pte_array()[i]]; a [&mut PageTableEntry] is its
    address. *)
Definition pte_slot (p : PhysPageNum) (i : Z) : Z := frame_base p + i * 8.
Definition read_pte (m : mem) (slot : Z) : PageTableEntry := PTE (load 8 m slot).
Definition write_pte (m : mem) (slot : Z) (e : PageTableEntry) : mem :=
  store 8 m slot (bits e).

(** ** Facts *)

Lemma rd8_insert_eq m a v : rd8 (<[a := v]> m) a = v.
Proof. unfold rd8. by rewrite lookup_insert_eq. Qed.
Lemma rd8_insert_ne m a b v : a ≠ b → rd8 (<[a := v]> m) b = rd8 m b.
Proof. intros. unfold rd8. by rewrite lookup_insert_ne. Qed.

Lemma rd8_store n m a v b :
  (b < a ∨ a + Z.of_nat n ≤ b) → rd8 (store n m a v) b = rd8 m b.
Proof.
  revert m a v. induction n as [|n IH]; intros m a v Hb; simpl; [done|].
  rewrite IH by lia. apply rd8_insert_ne. lia.
Qed.

Lemma rd8_zero n m a b :
  rd8 (zero_bytes n m a) b =
  if decide (a ≤ b < a + Z.of_nat n) then 0 else rd8 m b.
Proof.
  unfold rd8, zero_bytes. rewrite map_lookup_filter.
  destruct (m !! b); simpl; [|by case_decide].
  case_guard; case_decide; simpl in *; done || lia.
Qed.

Lemma rd8_zero_in n m a b :
  a ≤ b < a + Z.of_nat n → rd8 (zero_bytes n m a) b = 0.
Proof. intros. by rewrite rd8_zero, decide_True. Qed.

Lemma rd8_zero_out n m a b :
  (b < a ∨ a + Z.of_nat n ≤ b) → rd8 (zero_bytes n m a) b = rd8 m b.
Proof. intros. rewrite rd8_zero, decide_False; [done|lia]. Qed.

(** A load only depends on the bytes it covers. *)
Lemma load_ext n m m' a :
  (∀ b, a ≤ b < a + Z.of_nat n → rd8 m b = rd8 m' b) → load n m a = load n m' a.
Proof.
  revert a. induction n as [|n IH]; intros a Hb; simpl; [done|].
  rewrite (Hb a) by lia. rewrite (IH (a + 1)); [done|]. intros; apply Hb; lia.
Qed.

Lemma load_store_other k n m a b v :
  (b + Z.of_nat k ≤ a ∨ a + Z.of_nat n ≤ b) →
  load k (store n m a v) b = load k m b.
Proof. intros H. apply load_ext. intros c Hc. apply rd8_store. lia. Qed.

Lemma load_store_same n m a v :
  load n (store n m a v) a = v mod 256 ^ Z.of_nat n.
Proof.
  revert m a v. induction n as [|n IH]; intros m a v; simpl.
  - by rewrite Z.mod_1_r.
  - rewrite IH, rd8_store by lia. rewrite rd8_insert_eq.
    rewrite Nat2Z.inj_succ, Z.pow_succ_r by lia.
    rewrite Z.rem_mul_r; [done|lia|]. apply Z.pow_pos_nonneg; lia.
Qed.

Lemma load_zero k n m a b :
  a ≤ b → b + Z.of_nat k ≤ a + Z.of_nat n → load k (zero_bytes n m a) b = 0.
Proof.
  revert b. induction k as [|k IH]; intros b Hb1 Hb2; simpl; [done|].
  rewrite rd8_zero_in by lia. rewrite IH by lia. lia.
Qed.

Lemma load_zero_other k n m a b :
  (b + Z.of_nat k ≤ a ∨ a + Z.of_nat n ≤ b) →
  load k (zero_bytes n m a) b = load k m b.
Proof. intros H. apply load_ext. intros c Hc. apply rd8_zero_out. lia. Qed.

Lemma rd8_range m a : mem_ok m → 0 ≤ rd8 m a < 256.
Proof.
  intros Hm. unfold rd8. destruct (m !! a) eqn:E; simpl; [|lia]. by apply (Hm a).
Qed.

Lemma load_range n m a : mem_ok m → 0 ≤ load n m a < 256 ^ Z.of_nat n.
Proof.
  intros Hm. revert a. induction n as [|n IH]; intros a; simpl; [lia|].
  rewrite Nat2Z.inj_succ, Z.pow_succ_r by lia.
  pose proof (rd8_range m a Hm). specialize (IH (a + 1)). lia.
Qed.

Lemma store_ok n m a v : mem_ok m → mem_ok (store n m a v).
Proof.
  revert m a v. induction n as [|n IH]; intros m a v Hm; simpl; [done|].
  apply IH. apply map_Forall_insert_2; [|done]. by apply Z.mod_pos_bound.
Qed.

Lemma zero_ok n m a : mem_ok m → mem_ok (zero_bytes n m a).
Proof. intros Hm k v [Hk _]%map_lookup_filter_Some. by apply (Hm k). Qed.

(** *** Frames *)

Definition ppn_ok (p : PhysPageNum) : Prop := 0 ≤ ppn_0 p < 2 ^ 44.
Definition idx_ok (i : Z) : Prop := 0 ≤ i < 512.

Lemma frame_base_eq p : ppn_ok p → frame_base p = ppn_0 p * 4096.
Proof.
  unfold ppn_ok. intros. unfold frame_base, PhysAddr_from_PhysPageNum. unfold_consts. simpl.
  rewrite shl_small; unfold W64; lia.
Qed.

Lemma read_write_same m slot e :
  0 ≤ bits e < W64 → read_pte (write_pte m slot e) slot = e.
Proof.
  intros. unfold read_pte, write_pte. rewrite load_store_same.
  rewrite Z.mod_small by done. by destruct e.
Qed.

Lemma read_write_other m p i q j e :
  ppn_ok p → ppn_ok q → idx_ok i → idx_ok j → (p, i) ≠ (q, j) →
  read_pte (write_pte m (pte_slot p i) e) (pte_slot q j) = read_pte m (pte_slot q j).
Proof.
  intros Hp Hq Hi Hj Hne. unfold read_pte, write_pte. f_equal.
  apply load_store_other. unfold pte_slot. rewrite !frame_base_eq by done.
  unfold ppn_ok, idx_ok in *. destruct p as [p], q as [q]. simpl in *.
  assert (p ≠ q ∨ i ≠ j) by (destruct (decide (p = q)); [|tauto]; right; congruence).
  lia.
Qed.

(** What happens in one frame stays in it. *)
Definition zero_frame (m : mem) (p : PhysPageNum) : mem :=
  zero_bytes 4096 m (frame_base p).

Lemma read_zero_frame m p i :
  idx_ok i → read_pte (zero_frame m p) (pte_slot p i) = pte_empty.
Proof.
  intros Hi. unfold read_pte, zero_frame, pte_empty. f_equal.
  unfold pte_slot, idx_ok in *. apply load_zero; lia.
Qed.

Lemma read_zero_frame_other m p q j :
  ppn_ok p → ppn_ok q → idx_ok j → p ≠ q →
  read_pte (zero_frame m p) (pte_slot q j) = read_pte m (pte_slot q j).
Proof.
  intros Hp Hq Hj Hne. unfold read_pte, zero_frame. f_equal.
  apply load_zero_other. unfold pte_slot. rewrite !frame_base_eq by done.
  unfold ppn_ok, idx_ok in *. destruct p as [p], q as [q]. simpl in *.
  assert (p ≠ q) by congruence. lia.
Qed.

(** [same_outside ps m m']: the two memories agree on every frame not in [ps]. *)
Definition same_outside (ps : list PhysPageNum) (m m' : mem) : Prop :=
  ∀ q a, ppn_ok q → q ∉ ps → frame_base q ≤ a < frame_base q + 4096 →
    rd8 m' a = rd8 m a.

Lemma same_outside_refl ps m : same_outside ps m m.
Proof. by intros q a. Qed.

Lemma same_outside_trans ps qs m1 m2 m3 :
  same_outside ps m1 m2 → same_outside qs m2 m3 → same_outside (ps ++ qs) m1 m3.
Proof.
  intros H1 H2 q a Hq Hn Ha. rewrite not_elem_of_app in Hn.
  rewrite (H2 q a), (H1 q a); naive_solver.
Qed.

Lemma same_outside_mono ps qs m m' :
  ps ⊆ qs → same_outside ps m m' → same_outside qs m m'.
Proof. intros Hs H q a Hq Hn Ha. apply (H q); set_solver. Qed.

Lemma same_outside_write m p i e :
  ppn_ok p → idx_ok i → same_outside [p] m (write_pte m (pte_slot p i) e).
Proof.
  intros Hp Hi q a Hq Hn Ha. unfold write_pte. apply rd8_store.
  unfold pte_slot. rewrite frame_base_eq in * by done.
  unfold idx_ok, ppn_ok in *. destruct p as [p], q as [q]; simpl in *.
  assert (p ≠ q) by set_solver. lia.
Qed.

Lemma same_outside_zero m p : ppn_ok p → same_outside [p] m (zero_frame m p).
Proof.
  intros Hp q a Hq Hn Ha. unfold zero_frame. apply rd8_zero_out.
  rewrite frame_base_eq in * by done. unfold ppn_ok in *.
  destruct p as [p], q as [q]; simpl in *. assert (p ≠ q) by set_solver. lia.
Qed.

Lemma same_outside_read ps m m' q j :
  same_outside ps m m' → ppn_ok q → q ∉ ps → idx_ok j →
  read_pte m' (pte_slot q j) = read_pte m (pte_slot q j).
Proof.
  intros Hs Hq Hn Hj. unfold read_pte. f_equal. apply load_ext.
  intros b Hb. apply (Hs q); [done..|]. unfold pte_slot, idx_ok in *. lia.
Qed.

Lemma rd8_zero_frame m p a :
  frame_base p ≤ a < frame_base p + 4096 → rd8 (zero_frame m p) a = 0.
Proof. intros Ha. unfold zero_frame. apply rd8_zero_in. exact Ha. Qed.

Lemma zero_frame_ok m p : mem_ok m → mem_ok (zero_frame m p).
Proof. apply zero_ok. Qed.

#[global] Opaque zero_frame.
