(* ===== verification/FrameAllocator.v ===== *)
(** * The physical frame allocator

    [src/src/hyp_alloc/frame_allocator.rs].  [FRAME_ALLOCATOR] is a global
    [Once<Mutex<StackFrameAllocator>>]; with memory it makes up the state
    [Sys] that all memory-management code threads.  The mutex is released
    before every return, so on one hart it is never contended and only the
    [Once] (initialised or not) is state. *)
From stdpp Require Import base tactics numbers list option gmap.
From S2P Require Import Prelude Constants Address Pte Mem.

Record FrameTracker := MkTracker { ft_ppn : PhysPageNum }.

#[export] Instance FrameTracker_eq_dec : EqDecision FrameTracker.
Proof. solve_decision. Defined.

(** The trait [FrameAllocator]. *)
Class FrameAllocator (A : Type) := {
  fa_new : A;
  fa_alloc : A → outcome (option PhysPageNum * A);
  fa_dealloc : A → PhysPageNum → outcome A;
}.

(** [recycled] is a [Vec]: pushed and popped at its end. *)
Record StackFrameAllocator := MkAlloc {
  al_current : Z;
  al_end : Z;
  recycled : list Z;
}.

Definition vec_push {A} (l : list A) (x : A) : list A := l ++ [x].
Definition vec_pop {A} (l : list A) : option (A * list A) :=
  match rev l with
  | [] => None
  | x :: r => Some (x, rev r)
  end.

Definition init (al : StackFrameAllocator) (l r : PhysPageNum) : StackFrameAllocator :=
  MkAlloc (ppn_0 l) (ppn_0 r) (recycled al).

Definition alloc_new : StackFrameAllocator := MkAlloc 0 0 [].

Definition alloc (al : StackFrameAllocator)
    : outcome (option PhysPageNum * StackFrameAllocator) :=
  match vec_pop (recycled al) with
  | Some (ppn, rest) =>
      Ret (Some (PhysPageNum_from_usize ppn),
           MkAlloc (al_current al) (al_end al) rest)
  | None =>
      if al_current al =? al_end al then Ret (None, al)
      else
        c ← uadd (al_current al) 1;
        p ← usub c 1;
        Ret (Some (PhysPageNum_from_usize p), MkAlloc c (al_end al) (recycled al))
  end.

Definition dealloc (al : StackFrameAllocator) (ppn : PhysPageNum)
    : outcome StackFrameAllocator :=
  let ppn := ppn_0 ppn in
  if (al_current al <=? ppn) || existsb (Z.eqb ppn) (recycled al)
  then Panic Explicit
  else Ret (MkAlloc (al_current al) (al_end al) (vec_push (recycled al) ppn)).

#[export] Instance StackFrameAllocator_impl : FrameAllocator StackFrameAllocator := {
  fa_new := alloc_new;
  fa_alloc := alloc;
  fa_dealloc := dealloc;
}.

(** ** The global allocator *)

Record Sys := MkSys {
  sys_mem : mem;
  FRAME_ALLOCATOR : option StackFrameAllocator;
}.

Definition set_mem (f : mem → mem) (s : Sys) : Sys :=
  MkSys (f (sys_mem s)) (FRAME_ALLOCATOR s).
Definition set_alloc (al : StackFrameAllocator) (s : Sys) : Sys :=
  MkSys (sys_mem s) (Some al).

(** [call_once]: the closure runs only when the cell is empty.  [ekernel] is
    the linker symbol. *)
Definition init_frame_allocator (ekernel : Z) : M Sys unit :=
  cell ← gets FRAME_ALLOCATOR;
  match cell with
  | Some _ => mret tt
  | None =>
      l ← lift (PhysAddr_ceil (PhysAddr_from_usize ekernel));
      modify (set_alloc
        (init alloc_new l (PhysAddr_floor (PhysAddr_from_usize MEMORY_END))))
  end.

(** [FrameTracker::new] clears the frame. *)
Definition tracker_new (ppn : PhysPageNum) : M Sys FrameTracker :=
  _ ← modify (set_mem (λ m, zero_frame m ppn)); mret (MkTracker ppn).

Definition frame_alloc : M Sys (option FrameTracker) :=
  cell ← gets FRAME_ALLOCATOR;
  al ← lift (unwrap cell);
  r ← lift (alloc al);
  _ ← modify (set_alloc r.2);
  match r.1 with
  | None => mret None
  | Some ppn => t ← tracker_new ppn; mret (Some t)
  end.

Definition frame_dealloc (ppn : PhysPageNum) : M Sys unit :=
  cell ← gets FRAME_ALLOCATOR;
  al ← lift (unwrap cell);
  al' ← lift (dealloc al ppn);
  modify (set_alloc al').

(** [impl Drop for FrameTracker]. *)
Definition drop_tracker (t : FrameTracker) : M Sys unit := frame_dealloc (ft_ppn t).

(** [frame_allocator_test]: five allocations, [v.clear()], five more, [drop(v)].
    Clearing a [Vec] drops its elements in order. *)
Fixpoint alloc_n (n : nat) (v : list FrameTracker) : M Sys (list FrameTracker) :=
  match n with
  | O => mret v
  | S n' =>
      r ← frame_alloc; t ← lift (unwrap r); alloc_n n' (vec_push v t)
  end.
Definition drop_all (v : list FrameTracker) : M Sys unit := mfor v drop_tracker.
Definition frame_allocator_test : M Sys unit :=
  v ← alloc_n 5 [];
  _ ← drop_all v;
  v' ← alloc_n 5 [];
  drop_all v'.

(** ** What the allocator promises *)

(** [al_wf lo al]: the allocator manages the frames from [lo] to [al_end al]. *)
Record al_wf (lo : Z) (al : StackFrameAllocator) : Prop := {
  wf_lo : 0 ≤ lo;
  wf_cur : lo ≤ al_current al ≤ al_end al;
  wf_end : al_end al ≤ 2 ^ 44;
  wf_rec : Forall (λ r, lo ≤ r < al_current al) (recycled al);
  wf_nodup : NoDup (recycled al);
}.

(** A frame is free when it was returned or never handed out. *)
Definition is_free (al : StackFrameAllocator) (p : Z) : Prop :=
  p ∈ recycled al ∨ al_current al ≤ p < al_end al.
(** A frame is in use when it was handed out and not returned. *)
Definition in_use (lo : Z) (al : StackFrameAllocator) (p : Z) : Prop :=
  lo ≤ p < al_current al ∧ p ∉ recycled al.

Definition free_count (al : StackFrameAllocator) : Z :=
  Z.of_nat (length (recycled al)) + (al_end al - al_current al).

(** The interface its clients are verified against: allocation takes one frame
    out of the free set, deallocation of a frame in use puts it back, every
    other deallocation panics. *)
Class FrameAllocatorSpec (A : Type) `{FrameAllocator A} := {
  spec_wf : Z → A → Prop;
  spec_free : A → Z → Prop;
  spec_used : Z → A → Z → Prop;
  spec_count : A → Z;
  spec_alloc_some lo a p a' :
    spec_wf lo a → fa_alloc a = Ret (Some p, a') →
    spec_wf lo a' ∧ spec_free a (ppn_0 p) ∧
    (∀ q, spec_free a' q ↔ spec_free a q ∧ q ≠ ppn_0 p) ∧
    (∀ q, spec_used lo a' q ↔ spec_used lo a q ∨ q = ppn_0 p) ∧
    spec_count a' = spec_count a - 1;
  spec_alloc_none lo a a' :
    spec_wf lo a → fa_alloc a = Ret (None, a') →
    a' = a ∧ ∀ q, ¬ spec_free a q;
  spec_alloc_total lo a :
    spec_wf lo a → ∃ r, fa_alloc a = Ret r ∧
      (0 < spec_count a → is_Some r.1);
  spec_dealloc lo a p :
    spec_wf lo a → spec_used lo a (ppn_0 p) →
    ∃ a', fa_dealloc a p = Ret a' ∧ spec_wf lo a' ∧
      (∀ q, spec_free a' q ↔ spec_free a q ∨ q = ppn_0 p) ∧
      (∀ q, spec_used lo a' q ↔ spec_used lo a q ∧ q ≠ ppn_0 p) ∧
      spec_count a' = spec_count a + 1;
  spec_dealloc_free lo a p :
    spec_wf lo a → spec_free a (ppn_0 p) → fa_dealloc a p = Panic Explicit;
  spec_disjoint lo a q : spec_wf lo a → spec_free a q → ¬ spec_used lo a q;
}.

(** ** Proofs *)

Lemma vec_pop_Some {A} (l : list A) x r :
  vec_pop l = Some (x, r) ↔ l = r ++ [x].
Proof.
  unfold vec_pop. destruct (rev l) as [|y r'] eqn:E.
  - split; [done|]. intros ->. by rewrite rev_app_distr in E.
  - rewrite <- (rev_involutive l), E. simpl. split.
    + by intros [= -> <-].
    + intros [-> ->]%app_inj_tail. done.
Qed.

Lemma vec_pop_None {A} (l : list A) : vec_pop l = None ↔ l = [].
Proof.
  unfold vec_pop. destruct (rev l) as [|y r'] eqn:E.
  - by rewrite <- (rev_involutive l), E.
  - split; [done|]. intros ->. done.
Qed.

Lemma existsb_Zeqb p l : existsb (Z.eqb p) l = true ↔ p ∈ l.
Proof.
  rewrite existsb_exists. setoid_rewrite Z.eqb_eq.
  setoid_rewrite list_elem_of_In. naive_solver.
Qed.

Section Alloc.
Context (lo : Z) (al : StackFrameAllocator) (Hwf : al_wf lo al).

Lemma free_range q : is_free al q → 0 ≤ q < 2 ^ 44.
Proof.
  destruct Hwf as [? ? ? Hr ?]. intros [Hq|?]; [|lia].
  rewrite Forall_forall in Hr. specialize (Hr q Hq). lia.
Qed.

Lemma from_usize_id q : 0 ≤ q < 2 ^ 44 → PhysPageNum_from_usize q = PPN q.
Proof. intros. by rewrite PhysPageNum_from_usize_mod, Z.mod_small. Qed.

(** Either branch of [alloc], with its result in arithmetic form. *)
Lemma alloc_cases :
  (∃ r p, recycled al = r ++ [p] ∧
     alloc al = Ret (Some (PPN p), MkAlloc (al_current al) (al_end al) r)) ∨
  (recycled al = [] ∧ al_current al = al_end al ∧ alloc al = Ret (None, al)) ∨
  (recycled al = [] ∧ al_current al < al_end al ∧
     alloc al = Ret (Some (PPN (al_current al)),
                     MkAlloc (al_current al + 1) (al_end al) [])).
Proof.
  pose proof free_range as Hfr. destruct Hwf as [? ? ? Hr ?]. unfold alloc.
  destruct (vec_pop (recycled al)) as [[p r]|] eqn:E.
  - apply vec_pop_Some in E. left. exists r, p. split; [done|].
    rewrite from_usize_id; [done|]. apply Hfr. left. rewrite E. set_solver.
  - apply vec_pop_None in E. right. rewrite E.
    destruct (Z.eqb_spec (al_current al) (al_end al)); [left; auto|right].
    rewrite uadd_run by (unfold W64; lia). simpl. rewrite usub_run by lia. simpl.
    replace (al_current al + 1 - 1) with (al_current al) by lia.
    rewrite from_usize_id by lia. split; [done|]. split; [lia|done].
Qed.

Lemma alloc_some_spec p al' : alloc al = Ret (Some p, al') →
  al_wf lo al' ∧ is_free al (ppn_0 p) ∧
  (∀ q, is_free al' q ↔ is_free al q ∧ q ≠ ppn_0 p) ∧
  (∀ q, in_use lo al' q ↔ in_use lo al q ∨ q = ppn_0 p) ∧
  free_count al' = free_count al - 1.
Proof.
  intros Ha. destruct Hwf as [? ? ? Hr Hnd].
  destruct alloc_cases as [(r&f&Er&E)|[(?&?&E)|(Er&?&E)]]; rewrite E in Ha;
    simplify_eq; unfold is_free, in_use, free_count; simpl; rewrite Er in *.
  - apply Forall_app in Hr as [Hr1 Hr2]. inversion_clear Hr2.
    apply NoDup_app in Hnd as (Hnd1&Hnd2&_).
    assert (Hf : f ∉ r) by set_solver.
    split; [by constructor|]. rewrite length_app. simpl.
    setoid_rewrite elem_of_app. setoid_rewrite list_elem_of_singleton.
    split_and!; [naive_solver| | |lia];
      intros q; destruct (decide (q = f)) as [->|]; naive_solver lia.
  - split; [constructor; simpl; try done; lia|]. simpl.
    setoid_rewrite elem_of_nil. split_and!; [naive_solver lia| | |lia];
      intros q; lia.
Qed.

Lemma alloc_none_spec al' : alloc al = Ret (None, al') →
  al' = al ∧ ∀ q, ¬ is_free al q.
Proof.
  intros Ha. destruct alloc_cases as [(r&f&Er&E)|[(Er&?&E)|(Er&?&E)]];
    rewrite E in Ha; simplify_eq. split; [done|].
  intros q. unfold is_free. rewrite Er. set_solver by lia.
Qed.

Lemma alloc_total : ∃ r, alloc al = Ret r ∧ (0 < free_count al → is_Some r.1).
Proof.
  unfold free_count. destruct alloc_cases as [(r&f&Er&E)|[(Er&?&E)|(Er&?&E)]];
    eexists; (split; [exact E|]); simpl; try (by eexists).
  rewrite Er. simpl. lia.
Qed.

Lemma dealloc_spec p : in_use lo al (ppn_0 p) →
  ∃ al', dealloc al p = Ret al' ∧ al_wf lo al' ∧
    (∀ q, is_free al' q ↔ is_free al q ∨ q = ppn_0 p) ∧
    (∀ q, in_use lo al' q ↔ in_use lo al q ∧ q ≠ ppn_0 p) ∧
    free_count al' = free_count al + 1.
Proof.
  intros [Hp Hn]. destruct Hwf as [? ? ? Hr Hnd]. unfold dealloc.
  rewrite (proj2 (Z.leb_gt _ _)) by lia. simpl.
  destruct (existsb _ _) eqn:E; [by apply existsb_Zeqb in E|].
  eexists. split; [done|]. unfold is_free, in_use, free_count, vec_push. simpl.
  rewrite length_app. simpl.
  setoid_rewrite elem_of_app. setoid_rewrite list_elem_of_singleton.
  split; [|split_and!; [naive_solver| |lia];
    intros q; destruct (decide (q = ppn_0 p)) as [->|]; naive_solver lia].
  constructor; simpl; try done.
  - apply Forall_app. split; [done|]. by constructor.
  - apply NoDup_app. repeat split; [done|set_solver|apply NoDup_singleton].
Qed.

Lemma dealloc_free_spec p : is_free al (ppn_0 p) → dealloc al p = Panic Explicit.
Proof.
  intros [Hp|Hp]; unfold dealloc.
  - rewrite (proj2 (existsb_Zeqb _ _)), orb_true_r by done. done.
  - rewrite (proj2 (Z.leb_le _ _)) by lia. done.
Qed.

Lemma free_used_disjoint q : is_free al q → ¬ in_use lo al q.
Proof. unfold is_free, in_use. intros [?|?] [? ?]; [done|lia]. Qed.

End Alloc.

#[export] Instance StackFrameAllocator_spec : FrameAllocatorSpec StackFrameAllocator.
Proof.
  refine {| spec_wf := al_wf; spec_free := is_free; spec_used := in_use;
            spec_count := free_count |}; simpl.
  - eauto using alloc_some_spec.
  - eauto using alloc_none_spec.
  - eauto using alloc_total.
  - eauto using dealloc_spec.
  - eauto using dealloc_free_spec.
  - eauto using free_used_disjoint.
Defined.

(** *** The global operations *)

Lemma frame_alloc_Ret s r s' :
  frame_alloc s = Ret (r, s') ↔
  ∃ al al', FRAME_ALLOCATOR s = Some al ∧
    ((alloc al = Ret (None, al') ∧ r = None ∧ s' = set_alloc al' s) ∨
     (∃ p, alloc al = Ret (Some p, al') ∧ r = Some (MkTracker p) ∧
       s' = MkSys (zero_frame (sys_mem s) p) (Some al'))).
Proof.
  unfold frame_alloc, tracker_new. split.
  - intros H. minv. destruct x3 as [[p|] al']; simpl in *; minv; simplify_eq/=.
    + do 2 eexists. split; [done|]. right. eauto.
    + do 2 eexists. split; [done|]. left. eauto.
  - intros (al&al'&Hs&[(Ha&->&->)|(p&Ha&->&->)]);
      unfold mbind, M_bind, gets, lift, modify, mret, M_ret;
      rewrite Hs; simpl; rewrite Ha; simpl; done.
Qed.

Lemma frame_dealloc_Ret p s u s' :
  frame_dealloc p s = Ret (u, s') ↔
  ∃ al al', FRAME_ALLOCATOR s = Some al ∧ dealloc al p = Ret al' ∧
    s' = set_alloc al' s.
Proof.
  unfold frame_dealloc. split.
  - intros H. minv. eauto 10.
  - intros (al&al'&Hs&Ha&->). destruct u.
    unfold mbind, M_bind, gets, lift, modify. rewrite Hs. simpl.
    by rewrite Ha.
Qed.

(** [sys_wf lo s]: memory holds bytes and the allocator is set up. *)
Record sys_wf (lo : Z) (s : Sys) : Prop := {
  sys_mem_ok : mem_ok (sys_mem s);
  sys_al : ∃ al, FRAME_ALLOCATOR s = Some al ∧ al_wf lo al;
}.

(** The frames of a list are in use and no two are the same. *)
Definition owned (lo : Z) (s : Sys) (ps : list PhysPageNum) : Prop :=
  NoDup ps ∧ ∃ al, FRAME_ALLOCATOR s = Some al ∧
    Forall (λ p, in_use lo al (ppn_0 p)) ps.

Definition sys_free (s : Sys) : Z :=
  match FRAME_ALLOCATOR s with Some al => free_count al | None => 0 end.

Definition sys_end (s : Sys) : Z :=
  match FRAME_ALLOCATOR s with Some al => al_end al | None => 0 end.

(** Nothing has been given back since the pool was set up. *)
Definition none_recycled (s : Sys) : Prop :=
  match FRAME_ALLOCATOR s with Some al => recycled al = [] | None => True end.

Lemma owned_ppn_ok lo s ps p : sys_wf lo s → owned lo s ps → p ∈ ps → ppn_ok p.
Proof.
  intros [_ (al&Hs&Hw)] (_&al'&Hs'&Hu) Hp. rewrite Hs' in Hs. injection Hs as ->.
  rewrite Forall_forall in Hu. specialize (Hu _ Hp) as [? _].
  destruct Hw. unfold ppn_ok. lia.
Qed.

(** What a successful allocation gives: a zeroed frame nobody owned. *)
Record fresh_frame (lo : Z) (s : Sys) (p : PhysPageNum) (s' : Sys) : Prop := {
  ff_wf : sys_wf lo s';
  ff_ok : ppn_ok p;
  ff_range : lo ≤ ppn_0 p < sys_end s;
  ff_mem : sys_mem s' = zero_frame (sys_mem s) p;
  ff_notin : ∀ ps, owned lo s ps → p ∉ ps;
  ff_owned : ∀ ps, owned lo s ps → owned lo s' (ps ++ [p]);
  ff_count : sys_free s' = sys_free s - 1;
  ff_end : sys_end s' = sys_end s;
  ff_fresh : none_recycled s → none_recycled s';
}.

Lemma frame_alloc_some lo s t s' :
  sys_wf lo s → frame_alloc s = Ret (Some t, s') → fresh_frame lo s (ft_ppn t) s'.
Proof.
  intros [Hm (al&Hs&Hw)] Ha.
  apply frame_alloc_Ret in Ha as (al0&al'&Hs0&[(?&?&?)|(p&Ha&[= ->]&->)]); [done|].
  rewrite Hs0 in Hs. injection Hs as ->. simpl.
  destruct (alloc_some_spec lo al Hw p al' Ha) as (Hw'&Hf&Hfr&Hus&Hc).
  pose proof (free_range lo al Hw _ Hf) as Hr.
  assert (al_end al' = al_end al) as Hend.
  { destruct (alloc_cases lo al Hw) as [(?&?&?&E)|[(?&?&E)|(?&?&E)]];
      rewrite E in Ha; by simplify_eq. }
  assert (recycled al = [] → recycled al' = []) as Hfr'.
  { destruct (alloc_cases lo al Hw) as [(?&?&Hr0&E)|[(?&?&E)|(?&?&E)]];
      rewrite E in Ha; simplify_eq; [|done]. rewrite Hr0. by intros [_ ?]%app_nil. }
  assert (Hni : ∀ ps, owned lo s ps → p ∉ ps).
  { intros ps (_&al0&Hs1&Hu) Hin. rewrite Hs1 in Hs0. injection Hs0 as ->.
    rewrite Forall_forall in Hu. by apply (free_used_disjoint lo al _ Hf), Hu. }
  split; simpl; unfold sys_free, sys_end, none_recycled; simpl; rewrite ?Hs0;
    [|exact Hr| |reflexivity|exact Hni| |exact Hc|exact Hend|exact Hfr'].
  - split; simpl; [by apply zero_frame_ok|]. by exists al'.
  - destruct Hw as [? ? ? Hrec ?]. destruct Hf as [Hf|?]; [|lia].
    rewrite Forall_forall in Hrec. specialize (Hrec _ Hf). lia.
  - intros ps Ho. specialize (Hni ps Ho). destruct Ho as (Hnd&al0&Hs1&Hu).
    rewrite Hs1 in Hs0. injection Hs0 as ->. split.
    + apply NoDup_app. repeat split; [done|set_solver|apply NoDup_singleton].
    + exists al'. split; [done|]. apply Forall_app. split.
      * eapply Forall_impl; [exact Hu|]. intros q Hq. apply Hus. by left.
      * constructor; [|constructor]. apply Hus. by right.
Qed.

Lemma frame_alloc_total lo s : sys_wf lo s → 0 < sys_free s →
  ∃ t s', frame_alloc s = Ret (Some t, s').
Proof.
  intros [_ (al&Hs&Hw)] Hc. unfold sys_free in Hc. rewrite Hs in Hc.
  destruct (alloc_total lo al Hw) as ([o al']&Ha&Ho).
  destruct (Ho Hc) as [p Hp]. simpl in Hp. subst o.
  exists (MkTracker p), (MkSys (zero_frame (sys_mem s) p) (Some al')).
  apply frame_alloc_Ret. exists al, al'. eauto 10.
Qed.
