(* ===== verification/AllocClaims.v ===== *)
(** * What the frame allocator promises

    The stack allocator of [src/src/hyp_alloc/frame_allocator.rs] driven by
    clients that give back only what they hold, and the global functions on top
    of it. *)
From stdpp Require Import base tactics numbers list option gmap sets relations.
From S2P Require Import Prelude Constants Address Mem FrameAllocator.

(** ** Clients as a transition system

    A state is the allocator and the frames handed out and not given back. *)
Definition client_state : Type := StackFrameAllocator * list PhysPageNum.

Inductive client_step : client_state → client_state → Prop :=
| client_alloc al held p al' :
    alloc al = Ret (Some p, al') → client_step (al, held) (al', p :: held)
| client_fail al held al' :
    alloc al = Ret (None, al') → client_step (al, held) (al', held)
| client_dealloc al h1 p h2 al' :
    dealloc al p = Ret al' → client_step (al, h1 ++ p :: h2) (al', h1 ++ h2).

(** Held frames are exactly the frames in use. *)
Record client_inv (lo : Z) (st : client_state) : Prop := {
  ci_wf : al_wf lo st.1;
  ci_nodup : NoDup st.2;
  ci_held : ∀ q, q ∈ ppn_0 <$> st.2 ↔ in_use lo st.1 q;
}.

Lemma ppn_0_inj p q : ppn_0 p = ppn_0 q → p = q.
Proof. destruct p, q. simpl. congruence. Qed.

Lemma elem_of_ppns p (ps : list PhysPageNum) : ppn_0 p ∈ ppn_0 <$> ps ↔ p ∈ ps.
Proof.
  rewrite list_elem_of_fmap. split; [|by eauto].
  intros (q&E&?). by apply ppn_0_inj in E as ->.
Qed.

Lemma client_inv_step lo st st' : client_inv lo st → client_step st st' → client_inv lo st'.
Proof.
  intros [Hwf Hnd Hh] Hs. destruct Hs as [al held p al' Ha|al held al' Ha|al h1 p h2 al' Ha];
    simpl in *.
  - destruct (alloc_some_spec lo al Hwf p al' Ha) as (Hwf'&Hf&_&Hu&_).
    split; simpl; [done| |].
    + constructor; [|done]. intros Hin. apply elem_of_ppns in Hin. rewrite Hh in Hin.
      by apply (free_used_disjoint lo al _ Hf).
    + intros q. rewrite elem_of_cons, Hh, Hu. tauto.
  - by destruct (alloc_none_spec lo al Hwf al' Ha) as [-> _].
  - assert (in_use lo al (ppn_0 p)) as Hp.
    { apply Hh. rewrite fmap_app, fmap_cons. set_solver. }
    destruct (dealloc_spec lo al Hwf p Hp) as (al2&Ha2&Hwf'&_&Hu&_).
    rewrite Ha in Ha2. injection Ha2 as <-.
    apply NoDup_app in Hnd as (N1&N2&N3). apply NoDup_cons in N3 as [N3 N4].
    split; simpl; [done| |].
    + apply NoDup_app. repeat split; [done| |done]. intros x Hx Hx2. apply (N2 x Hx). set_solver.
    + intros q. rewrite Hu, <- Hh, !fmap_app, fmap_cons, !elem_of_app, elem_of_cons.
      assert (ppn_0 p ∉ ppn_0 <$> h1) by (rewrite elem_of_ppns; intros Hx; apply (N2 p Hx); set_solver).
      assert (ppn_0 p ∉ ppn_0 <$> h2) by by rewrite elem_of_ppns.
      split; [|naive_solver]. intros [Hq|Hq]; (split; [tauto|congruence]).
Qed.

Lemma client_end al held al' held' :
  client_step (al, held) (al', held') → al_end al' = al_end al.
Proof.
  inversion_clear 1; simplify_eq.
  all: try match goal with H : alloc _ = _ |- _ => unfold alloc in H;
    destruct (vec_pop _) as [[? ?]|]; [by simplify_eq|];
    destruct (_ =? _); [by simplify_eq|]; minv0; done end.
  match goal with H : dealloc _ _ = _ |- _ => unfold dealloc in H; destruct (_ || _); by simplify_eq end.
Qed.

Lemma client_reach lo st0 st :
  rtc client_step st0 st → client_inv lo st0 → client_inv lo st ∧ al_end st.1 = al_end st0.1.
Proof.
  induction 1 as [|[a1 h1] [a2 h2] st3 Hs _ IH]; intros Hi; [done|].
  destruct IH as [IH1 IH2]; [by eapply client_inv_step|]. split; [done|].
  rewrite IH2. by eapply client_end.
Qed.

(** A frame of the pool is free or in use. *)
Lemma free_or_used lo al q : al_wf lo al → lo ≤ q < al_end al → is_free al q ∨ in_use lo al q.
Proof.
  intros Hwf Hq. unfold is_free, in_use.
  destruct (decide (q ∈ recycled al)); [tauto|]. destruct (decide (q < al_current al)); [right|left; right]; lia || (split; [lia|done]).
Qed.

Definition initial_alloc (lo hi : Z) : StackFrameAllocator := init alloc_new (PPN lo) (PPN hi).

Lemma initial_inv lo hi : 0 ≤ lo ≤ hi → hi ≤ 2 ^ 44 → client_inv lo (initial_alloc lo hi, []).
Proof.
  intros H1 H2. split; simpl.
  - split; simpl; try lia; constructor.
  - constructor.
  - intros q. rewrite elem_of_nil. unfold in_use. simpl. lia.
Qed.

(** ** The global functions *)

Definition sys_is_free (s : Sys) (q : Z) : Prop :=
  match FRAME_ALLOCATOR s with Some al => is_free al q | None => False end.

Lemma drop_tracker_spec lo s t rest :
  sys_wf lo s → owned lo s (ft_ppn t :: rest) →
  ∃ s', drop_tracker t s = Ret (tt, s') ∧ sys_wf lo s' ∧ owned lo s' rest ∧
    sys_mem s' = sys_mem s ∧ sys_free s' = sys_free s + 1 ∧
    ∀ q, sys_is_free s' q ↔ sys_is_free s q ∨ q = ppn_0 (ft_ppn t).
Proof.
  intros [Hm (al&Hal&Hw)] (Hnd&al1&Hal1&Hu). rewrite Hal1 in Hal. injection Hal as ->.
  apply NoDup_cons in Hnd as [Hni Hnd]. apply Forall_cons in Hu as [Hp Hu].
  destruct (dealloc_spec lo al Hw (ft_ppn t) Hp) as (al'&Hd&Hw'&Hf&Hus&Hc).
  exists (set_alloc al' s). unfold sys_free, sys_is_free. simpl. rewrite Hal1.
  split_and!; try done.
  - apply frame_dealloc_Ret. eauto.
  - split; simpl; eauto.
  - split; [done|]. exists al'. split; [done|].
    rewrite Forall_forall in Hu |- *. intros q Hq. apply Hus. split; [by apply Hu|].
    intros E. apply ppn_0_inj in E as ->. done.
Qed.

Lemma drop_all_spec lo v s rest :
  sys_wf lo s → owned lo s ((ft_ppn <$> v) ++ rest) →
  ∃ s', drop_all v s = Ret (tt, s') ∧ sys_wf lo s' ∧ owned lo s' rest ∧
    sys_mem s' = sys_mem s ∧ sys_free s' = sys_free s + Z.of_nat (length v) ∧
    ∀ q, sys_is_free s' q ↔ sys_is_free s q ∨ q ∈ ppn_0 ∘ ft_ppn <$> v.
Proof.
  unfold drop_all. revert s. induction v as [|t v IH]; intros s Hwf Ho.
  - exists s. split_and!; try done; [simpl; lia|]. intros q. simpl. rewrite elem_of_nil. tauto.
  - rewrite fmap_cons in Ho. destruct (drop_tracker_spec lo s t _ Hwf Ho) as (s1&E1&W1&O1&M1&F1&A1).
    destruct (IH s1 W1 O1) as (s2&E2&W2&O2&M2&F2&A2).
    exists s2. split_and!; try done.
    + cbn [mfor]. unfold mbind, M_bind. rewrite E1. exact E2.
    + congruence.
    + rewrite F2, F1. cbn [length]. lia.
    + intros q. rewrite A2, A1, fmap_cons, elem_of_cons. simpl. tauto.
Qed.

Lemma alloc_n_total lo n v s :
  sys_wf lo s → owned lo s (ft_ppn <$> v) → Z.of_nat n ≤ sys_free s →
  ∃ v' s', alloc_n n v s = Ret (v', s') ∧ sys_wf lo s' ∧ owned lo s' (ft_ppn <$> v') ∧
    length v' = (length v + n)%nat ∧ sys_free s' = sys_free s - Z.of_nat n.
Proof.
  revert v s. induction n as [|n IH]; intros v s Hwf Ho Hn.
  - exists v, s. split_and!; [done..|lia|lia].
  - destruct (frame_alloc_total lo s Hwf ltac:(lia)) as (t&s1&E1).
    destruct (frame_alloc_some lo s t s1 Hwf E1) as [W1 _ _ _ _ O1 F1 _].
    destruct (IH (vec_push v t) s1) as (v'&s2&E2&W2&O2&L2&F2); [done| |lia|].
    { unfold vec_push. rewrite fmap_app. by apply O1. }
    exists v', s2. split_and!; try done.
    + cbn [alloc_n]. unfold mbind, M_bind, lift. rewrite E1. exact E2.
    + unfold vec_push in L2. rewrite length_app in L2. simpl in L2. lia.
    + lia.
Qed.

Lemma owned_none lo s : sys_wf lo s → owned lo s [].
Proof. intros [_ (al&Hal&_)]. split; [constructor|]. exists al. split; [done|constructor]. Qed.

(** ** Claims *)

(** C13: frames are never shared and never lost.  From a fresh allocator for the
    pool [lo, hi), after any sequence of allocations and returns of held frames:
    the held frames are pairwise distinct, every frame of the pool is either
    free or held and not both, returning a held frame succeeds, returning a free
    one panics, and an allocation fails only when every frame is held. *)
Theorem allocator_partition lo hi al held :
  0 ≤ lo ≤ hi → hi ≤ 2 ^ 44 →
  rtc client_step (initial_alloc lo hi, []) (al, held) →
  NoDup held ∧
  (∀ q, lo ≤ q < hi ↔ (is_free al q ∨ PPN q ∈ held)) ∧
  (∀ p, p ∈ held → ¬ is_free al (ppn_0 p) ∧ ∃ al', dealloc al p = Ret al') ∧
  (∀ p, is_free al (ppn_0 p) → dealloc al p = Panic Explicit) ∧
  (∀ r, alloc al = r → (∃ p al', r = Ret (Some p, al')) ∨
     (r = Ret (None, al) ∧ ∀ q, lo ≤ q < hi → PPN q ∈ held)).
Proof.
  intros Hlo Hhi Hr. destruct (client_reach lo _ _ Hr (initial_inv lo hi Hlo Hhi))
    as [[Hwf Hnd Hh] Hend]. simpl in *.
  assert (∀ q, PPN q ∈ held ↔ in_use lo al q) as Hin.
  { intros q. rewrite <- Hh. rewrite <- (elem_of_ppns (PPN q)). done. }
  split_and!; [done| | | |].
  - intros q. rewrite Hin. split.
    + intros Hq. apply free_or_used; [done|lia].
    + intros [Hf|[? _]]; [|destruct Hwf; lia]. pose proof (free_range lo al Hwf q Hf).
      destruct Hwf as [? ? ? Hrec _]. destruct Hf as [Hf|?]; [|lia].
      rewrite Forall_forall in Hrec. specialize (Hrec q Hf). lia.
  - intros [p] Hp. apply Hin in Hp. split.
    + intros Hf. by apply (free_used_disjoint lo al p).
    + destruct (dealloc_spec lo al Hwf (PPN p) Hp) as (al'&?&_). eauto.
  - intros p. by apply dealloc_free_spec.
  - intros r <-. destruct (alloc_total lo al Hwf) as ([[p|] al']&Ha&_); rewrite Ha; [left; eauto|right].
    destruct (alloc_none_spec lo al Hwf al' Ha) as [-> Hnf]. split; [done|].
    intros q Hq. apply Hin. destruct (free_or_used lo al q Hwf ltac:(lia)); [by destruct (Hnf q)|done].
Qed.

Lemma allocator_partition_witness :
  rtc client_step (initial_alloc 4 6, []) (MkAlloc 6 6 [4], [PPN 5]) ∧
  dealloc (MkAlloc 6 6 [4]) (PPN 4) = Panic Explicit.
Proof.
  assert (rtc client_step (initial_alloc 4 6, []) (MkAlloc 6 6 [4], [PPN 5])) as H.
  { eapply rtc_l; [eapply client_alloc; vm_compute; reflexivity|].
    eapply rtc_l; [eapply client_alloc; vm_compute; reflexivity|].
    eapply rtc_l; [eapply (client_dealloc _ [PPN 5] (PPN 4) []); vm_compute; reflexivity|].
    apply rtc_refl. }
  split; [exact H|].
  apply (allocator_partition 4 6 _ _ ltac:(lia) ltac:(lia) H). left. simpl. set_solver.
Defined.

(** C14: a frame handed out is exclusive and clean.  [frame_alloc] returns a
    frame of the pool that none of the frames owned so far equals, all of its
    4096 bytes read zero, no byte of another frame changes, and exactly one
    frame less is free. *)
Theorem frame_alloc_exclusive lo s ps t s' :
  sys_wf lo s → owned lo s ps → frame_alloc s = Ret (Some t, s') →
  (ft_ppn t ∉ ps) ∧ owned lo s' (ps ++ [ft_ppn t]) ∧ lo ≤ ppn_0 (ft_ppn t) < sys_end s ∧
  (∀ a, frame_base (ft_ppn t) ≤ a < frame_base (ft_ppn t) + 4096 → rd8 (sys_mem s') a = 0) ∧
  same_outside [ft_ppn t] (sys_mem s) (sys_mem s') ∧ sys_free s' = sys_free s - 1.
Proof.
  intros Hwf Ho Ha. destruct (frame_alloc_some lo s t s' Hwf Ha) as [W Hok R M N O F _].
  split; [by apply N|]. split; [by apply O|]. split; [done|]. split; [|split; [|done]].
  - intros a Hr. rewrite M. by apply rd8_zero_frame.
  - rewrite M. by apply same_outside_zero.
Qed.

Definition two_frames : Sys := MkSys {[ 0x5000 := 7 ]} (Some (MkAlloc 4 6 [])).
Lemma two_frames_wf : sys_wf 4 two_frames.
Proof.
  split; [by apply map_Forall_singleton|]. eexists. split; [done|].
  split; simpl; try lia; constructor.
Qed.

Lemma frame_alloc_exclusive_witness :
  ∃ s', frame_alloc two_frames = Ret (Some (MkTracker (PPN 4)), s') ∧ sys_free s' = 1 ∧
    rd8 (sys_mem s') 0x4abc = 0.
Proof.
  eexists. split; [reflexivity|].
  destruct (frame_alloc_exclusive 4 two_frames [] (MkTracker (PPN 4)) _ two_frames_wf
    (owned_none _ _ two_frames_wf) eq_refl) as (_&_&_&H1&_&H2).
  split; [exact H2|]. apply H1. vm_compute. split; congruence.
Defined.

(** The self test of the allocator.  With five free frames
    [frame_allocator_test] returns, and afterwards every frame it took is free
    again. *)
Theorem frame_allocator_test_balanced lo s :
  sys_wf lo s → 5 ≤ sys_free s →
  ∃ s', frame_allocator_test s = Ret (tt, s') ∧ sys_wf lo s' ∧ sys_free s' = sys_free s.
Proof.
  intros Hwf Hn. unfold frame_allocator_test, mbind, M_bind.
  destruct (alloc_n_total lo 5 [] s Hwf (owned_none _ _ Hwf) Hn) as (v&s1&->&W1&O1&L1&F1).
  destruct (drop_all_spec lo v s1 [] W1) as (s2&->&W2&_&_&F2&_); [by rewrite app_nil_r|].
  simpl in L1. rewrite L1 in F2.
  destruct (alloc_n_total lo 5 [] s2 W2 (owned_none _ _ W2) ltac:(lia))
    as (v'&s3&->&W3&O3&L3&F3).
  destruct (drop_all_spec lo v' s3 [] W3) as (s4&->&W4&_&_&F4&_); [by rewrite app_nil_r|].
  exists s4. split_and!; [done..|]. simpl in L3. rewrite L3 in F4. lia.
Qed.

Lemma frame_allocator_test_balanced_witness :
  ∃ s', frame_allocator_test (MkSys ∅ (Some (MkAlloc 4 10 []))) = Ret (tt, s') ∧ sys_free s' = 6.
Proof.
  destruct (frame_allocator_test_balanced 4 (MkSys ∅ (Some (MkAlloc 4 10 [])))) as (s'&H1&_&H2).
  - split; [apply map_Forall_empty|]. eexists. split; [done|]. split; simpl; try lia; constructor.
  - vm_compute. congruence.
  - exists s'. split; [exact H1|exact H2].
Defined.

(** The pool after the first call. *)
Lemma init_frame_allocator_run ekernel s :
  MEMORY_START ≤ ekernel ≤ MEMORY_END → mem_ok (sys_mem s) → FRAME_ALLOCATOR s = None →
  let lo := (ekernel + 4095) / 4096 in
  init_frame_allocator ekernel s = Ret (tt, set_alloc (initial_alloc lo 0x88000) s) ∧
  0x80000 ≤ lo ≤ 0x88000 ∧ sys_wf lo (set_alloc (initial_alloc lo 0x88000) s).
Proof.
  intros He Hm Hn lo. unfold MEMORY_START, MEMORY_END in *.
  assert (0x80000 ≤ lo ≤ 0x88000) as Hlo by (unfold lo; dlia).
  assert (al_wf lo (initial_alloc lo 0x88000)) as Hwf
    by (split; simpl; try lia; constructor).
  split_and!; try apply Hlo.
  - unfold init_frame_allocator, mbind, M_bind, gets, lift. rewrite Hn.
    rewrite PhysAddr_from_usize_mod, Z.mod_small by lia.
    rewrite PhysAddr_ceil_run by lia. done.
  - split; simpl; eauto.
Qed.

(** C33: setting up the pool.  The first call of [init_frame_allocator] makes
    the frames from the end of the kernel image, rounded up, to [MEMORY_END]
    the pool; later calls do nothing. *)
Theorem init_frame_allocator_pool ekernel s :
  MEMORY_START ≤ ekernel ≤ MEMORY_END → mem_ok (sys_mem s) → FRAME_ALLOCATOR s = None →
  let lo := (ekernel + 4095) / 4096 in
  ∃ s', init_frame_allocator ekernel s = Ret (tt, s') ∧
    FRAME_ALLOCATOR s' = Some (initial_alloc lo 0x88000) ∧ sys_mem s' = sys_mem s ∧
    sys_wf lo s' ∧ sys_free s' = 0x88000 - lo ∧
    (∀ q, sys_is_free s' q ↔ ekernel ≤ q * 4096 ∧ q * 4096 < MEMORY_END) ∧
    init_frame_allocator ekernel s' = Ret (tt, s').
Proof.
  intros He Hm Hn lo. destruct (init_frame_allocator_run ekernel s He Hm Hn) as (Hr&Hlo&Hwf).
  exists (set_alloc (initial_alloc lo 0x88000) s). split_and!; try done.
  intros q. unfold sys_is_free, is_free. simpl. rewrite elem_of_nil. unfold MEMORY_END.
  assert (lo ≤ q ↔ ekernel ≤ q * 4096) as Hq by (unfold lo; dlia). rewrite Hq. lia.
Qed.

Lemma init_frame_allocator_pool_witness :
  ∃ s', init_frame_allocator 0x80300123 (MkSys ∅ None) = Ret (tt, s') ∧
    FRAME_ALLOCATOR s' = Some (MkAlloc 0x80301 0x88000 []).
Proof.
  destruct (init_frame_allocator_pool 0x80300123 (MkSys ∅ None)) as (s'&H1&H2&_).
  - vm_compute. split; congruence.
  - apply map_Forall_empty.
  - reflexivity.
  - exists s'. split; [exact H1|exact H2].
Defined.
