(* ===== verification/PageTable.v ===== *)
(** * The page table interface

    [src/src/page_table/mod.rs] and module [guest::page_table] of
    [src/src/guest/mod.rs]: the traits [PageTable] and [GuestPageTable] as type
    classes over the memory state [Sys], and the records a guest page walk
    returns.  A [&mut self] method returns the new value of [self]. *)
From stdpp Require Import base tactics numbers list option.
From S2P Require Import Prelude Constants Address Pte Mem FrameAllocator.

Record PteWrapper := MkWrapper {
  pw_addr : Z;
  pw_pte : PageTableEntry;
  pw_level : PageTableLevel;
}.

Record PageWalk := MkWalk {
  walk_path : list PteWrapper;
  walk_pa : Z;
}.

Record AddressTranslation := MkTranslation {
  at_pte : PageTableEntry;
  at_pte_addr : Z;
  at_guest_pa : Z;
  at_level : PageTableLevel;
  at_page_walk : PageWalk;
}.

(** [read_pte] is the closure a walk reads guest memory through. *)
Class PageTable (P : Type) := {
  pt_new : M Sys P;
  pt_from_token : Z → P;
  pt_map : P → VirtPageNum → PhysPageNum → PTEFlags → M Sys P;
  pt_unmap : P → VirtPageNum → M Sys P;
  pt_walk_page_table : Z → Z → (Z → outcome Z) → outcome (option PageWalk);
  pt_translate : P → VirtPageNum → M Sys (option PageTableEntry);
  pt_translate_va : P → Z → M Sys (option Z);
  pt_token : P → Z;
}.

Class GuestPageTable (P : Type) `{PageTable P} := {
  pt_new_guest : M Sys P;
}.

(** ** What a page table promises to its clients

    A table stands for a partial map from 27-bit page numbers to valid entries
    ([pt_view]).  Clients reason with the map, the frames the table owns
    ([pt_frames]) and the number of frames an insertion takes ([pt_need]). *)

Definition vkey (v : VirtPageNum) : Z := vpn_0 v mod 2 ^ 27.

(** What an operation on a table owning [fs] may do to the rest of the system:
    it only writes to frames it owns afterwards, which are the old ones and
    frames taken from the allocator. *)
Record sys_step (lo : Z) (fs : list PhysPageNum) (s : Sys)
    (fs' : list PhysPageNum) (s' : Sys) : Prop := {
  step_wf : sys_wf lo s';
  step_owned : ∀ rest, owned lo s (rest ++ fs) → owned lo s' (rest ++ fs');
  step_mem : same_outside fs' (sys_mem s) (sys_mem s');
  step_prefix : fs `prefix_of` fs';
  step_free : sys_free s' = sys_free s - (Z.of_nat (length fs') - Z.of_nat (length fs));
  step_end : sys_end s' = sys_end s;
  step_fresh : none_recycled s → none_recycled s';
}.

Class PageTableSpec (P : Type) `{PageTable P} := {
  pt_inv : Z → P → Sys → Prop;
  pt_view : P → Sys → Z → option PageTableEntry;
  pt_frames : P → list PhysPageNum;
  pt_need : P → Sys → Z → Z;
  pt_inv_wf lo p s : pt_inv lo p s → sys_wf lo s ∧ owned lo s (pt_frames p);
  pt_view_key p s v : pt_view p s v = pt_view p s (v mod 2 ^ 27);
  pt_need_range p s v : 0 ≤ pt_need p s v ≤ 2;
  (** other components may change memory outside the table's frames *)
  pt_inv_frame lo p s s' :
    pt_inv lo p s → sys_wf lo s' → owned lo s' (pt_frames p) →
    (∀ ps, same_outside ps (sys_mem s) (sys_mem s') →
       (∀ q, q ∈ pt_frames p → q ∉ ps) →
       pt_inv lo p s' ∧ (∀ v, pt_view p s' v = pt_view p s v) ∧
       (∀ v, pt_need p s' v = pt_need p s v));
  (** inserting: the exact condition for success, and the effect *)
  pt_map_total lo p s v n fl :
    pt_inv lo p s → pt_view p s (vkey v) = None →
    pt_need p s (vkey v) ≤ sys_free s → returns (pt_map p v n fl s);
  pt_map_spec lo p s v n fl p' s' :
    pt_inv lo p s → 0 ≤ ppn_0 n < 2 ^ 44 → 0 ≤ flags_bits fl < 256 →
    pt_map p v n fl s = Ret (p', s') →
    pt_inv lo p' s' ∧ sys_step lo (pt_frames p) s (pt_frames p') s' ∧
    pt_view p s (vkey v) = None ∧
    (∀ w, pt_view p' s' w =
       if decide (w mod 2 ^ 27 = vkey v)
       then Some (pte_new n (flag.union fl flag.V)) else pt_view p s w) ∧
    sys_free s' = sys_free s - pt_need p s (vkey v) ∧
    (∀ w, pt_need p' s' w ≤ pt_need p s w) ∧
    (∀ w, w / 512 = vkey v / 512 → 0 ≤ w → pt_need p' s' w = 0);
  pt_map_mapped lo p s v n fl :
    pt_inv lo p s → is_Some (pt_view p s (vkey v)) →
    pt_map p v n fl s = Panic AssertFailed;
  (** inserting has no loop that could go on *)
  pt_map_stops p v n fl s : stops (pt_map p v n fl s);
  (** lookups do not change the state and agree with the map *)
  pt_translate_spec lo p s v e :
    pt_inv lo p s → pt_view p s (vkey v) = Some e →
    pt_translate p v s = Ret (Some e, s);
}.

(** A table just built maps nothing and owns the frames it took. *)
Definition fresh_pt {P : Type} `{PageTableSpec P} (lo : Z) (s : Sys) (p : P) (s' : Sys)
    : Prop :=
  pt_inv lo p s' ∧ sys_step lo [] s (pt_frames p) s' ∧ ∀ v, pt_view p s' v = None.

Class NewTableSpec (P : Type) `{PageTableSpec P} := {
  pt_new_spec lo s p s' :
    sys_wf lo s → pt_new s = Ret (p, s') → fresh_pt lo s p s';
}.
Class NewGuestSpec (P : Type) `{PageTableSpec P} `{!GuestPageTable P} := {
  pt_new_guest_spec lo s p s' :
    sys_wf lo s → pt_new_guest s = Ret (p, s') → fresh_pt lo s p s';
}.
