(* ===== verification/Sv39.v ===== *)
(** * The Sv39 page table

    [src/src/page_table/sv39.rs].  A table is the root frame and the list of
    frames it owns; its contents are in memory. *)
From stdpp Require Import base tactics numbers list option.
From S2P Require Import Prelude Constants Address Pte Mem FrameAllocator PageTable.

Record PageTableSv39 := MkSv39 {
  root_ppn : PhysPageNum;
  frames : list FrameTracker;
}.

(** [&mut ppn.get_pte_array()[idx]]: a slice of 512 entries. *)
Definition pte_ref (p : PhysPageNum) (idx : Z) : outcome Z :=
  if (0 <=? idx) && (idx <? 512) then Ret (pte_slot p idx)
  else Panic IndexOutOfBounds.

(** [find_pte]: the loop over [idxs.iter().enumerate()]. *)
Fixpoint find_pte_loop (l : list (Z * Z)) (ppn : PhysPageNum) : M Sys (option Z) :=
  match l with
  | [] => mret None
  | (i, idx) :: l' =>
      slot ← lift (pte_ref ppn idx);
      if i =? 2 then mret (Some slot)
      else
        pte ← gets (λ s, read_pte (sys_mem s) slot);
        v ← lift (is_valid pte);
        if negb v then mret None else find_pte_loop l' (pte_ppn pte)
  end.
Definition find_pte (pt : PageTableSv39) (vpn : VirtPageNum) : M Sys (option Z) :=
  find_pte_loop (enumerate_from 0 (indexes vpn)) (root_ppn pt).

(** The body of [find_pte_create]'s loop below the last level: allocate the
    next table if it is missing, then descend into it. *)
Definition descend_create (ppn : PhysPageNum) (idx : Z) (fs : list FrameTracker)
    : M Sys (PhysPageNum * list FrameTracker) :=
  slot ← lift (pte_ref ppn idx);
  pte ← gets (λ s, read_pte (sys_mem s) slot);
  v ← lift (is_valid pte);
  if negb v then
    r ← frame_alloc;
    frame ← lift (unwrap r);
    let pte' := pte_new (ft_ppn frame) flag.V in
    _ ← modify (set_mem (λ m, write_pte m slot pte'));
    mret (pte_ppn pte', vec_push fs frame)
  else mret (pte_ppn pte, fs).

Fixpoint find_pte_create_loop (l : list (Z * Z)) (ppn : PhysPageNum)
    (fs : list FrameTracker) : M Sys (option Z * list FrameTracker) :=
  match l with
  | [] => mret (None, fs)
  | (i, idx) :: l' =>
      if i =? 2 then slot ← lift (pte_ref ppn idx); mret (Some slot, fs)
      else
        r ← descend_create ppn idx fs;
        find_pte_create_loop l' r.1 r.2
  end.
Definition find_pte_create (pt : PageTableSv39) (vpn : VirtPageNum)
    : M Sys (option Z * PageTableSv39) :=
  r ← find_pte_create_loop (enumerate_from 0 (indexes vpn)) (root_ppn pt) (frames pt);
  mret (r.1, MkSv39 (root_ppn pt) r.2).

(** [new_guest]: allocate until a 16 KiB aligned frame turns up, keep the
    others, then take three more frames.  Each round of the [while] takes a
    frame, so one more round than there are free frames always ends it. *)
Fixpoint root_loop (fuel : nat) (root_frame : FrameTracker) (fs : list FrameTracker)
    : M Sys (FrameTracker * list FrameTracker) :=
  if negb (Z.land (ppn_0 (ft_ppn root_frame)) 0x3 =? 0) then
    match fuel with
    | O => nofuelM
    | S fuel' =>
        r ← frame_alloc;
        f ← lift (unwrap r);
        root_loop fuel' f (vec_push fs root_frame)
    end
  else mret (root_frame, fs).

Definition new_guest : M Sys PageTableSv39 :=
  r ← frame_alloc;
  root_frame ← lift (unwrap r);
  n ← gets sys_free;
  rl ← root_loop (S (Z.to_nat n)) root_frame [];
  let root_ppn := ft_ppn rl.1 in
  fs ← alloc_n 3 (vec_push rl.2 rl.1);
  mret (MkSv39 root_ppn fs).

Definition new : M Sys PageTableSv39 :=
  r ← frame_alloc;
  frame ← lift (unwrap r);
  mret (MkSv39 (ft_ppn frame) [frame]).

Definition from_token (satp : Z) : PageTableSv39 :=
  MkSv39 (PhysPageNum_from_usize (Z.land satp (Z.shiftl 1 44 - 1))) [].

Definition token (pt : PageTableSv39) : Z :=
  Z.lor (shl 8 60) (ppn_0 (root_ppn pt)).

Definition map (pt : PageTableSv39) (vpn : VirtPageNum) (ppn : PhysPageNum)
    (flags : PTEFlags) : M Sys PageTableSv39 :=
  r ← find_pte_create pt vpn;
  slot ← lift (unwrap r.1);
  pte ← gets (λ s, read_pte (sys_mem s) slot);
  v ← lift (is_valid pte);
  _ ← lift (assert (negb v));
  _ ← modify (set_mem (λ m, write_pte m slot (pte_new ppn (flag.union flags flag.V))));
  mret r.2.

Definition unmap (pt : PageTableSv39) (vpn : VirtPageNum) : M Sys PageTableSv39 :=
  r ← find_pte pt vpn;
  slot ← lift (unwrap r);
  pte ← gets (λ s, read_pte (sys_mem s) slot);
  v ← lift (is_valid pte);
  _ ← lift (assert v);
  _ ← modify (set_mem (λ m, write_pte m slot pte_empty));
  mret pt.

Definition translate (pt : PageTableSv39) (vpn : VirtPageNum)
    : M Sys (option PageTableEntry) :=
  r ← find_pte pt vpn;
  match r with
  | None => mret None
  | Some slot => pte ← gets (λ s, read_pte (sys_mem s) slot); mret (Some pte)
  end.

Definition translate_va (pt : PageTableSv39) (va : Z) : M Sys (option Z) :=
  let offset := Z.land va 0xfff in
  let vpn := VirtPageNum_from_usize (Z.shiftr va 12) in
  r ← translate pt vpn;
  match r with
  | Some pte => pa ← lift (uadd (shl (ppn_0 (pte_ppn pte)) 12) offset); mret (Some pa)
  | None => mret None
  end.

(** [walk_page_table]: three levels from a root address, through a read
    closure. *)
Definition level_of (level : Z) : outcome PageTableLevel :=
  match level with
  | 0 => Ret Level1GB
  | 1 => Ret Level2MB
  | 2 => Ret Level4KB
  | _ => Panic Unreachable
  end.

Definition leaf_pa (level : PageTableLevel) (pte : PageTableEntry) (va : Z) : Z :=
  match level with
  | Level4KB => Z.lor (shl (Z.shiftr (bits pte) 10) 12) (Z.land va 0xfff)
  | Level2MB => Z.lor (shl (Z.shiftr (bits pte) 19) 21) (Z.land va 0x1fffff)
  | Level1GB => Z.lor (shl (Z.shiftr (bits pte) 28) 30) (Z.land va 0x3fffffff)
  end.

Fixpoint walk_loop (levels : list Z) (page_table va : Z) (read : Z → outcome Z)
    (path : list PteWrapper) : outcome (option PageWalk) :=
  match levels with
  | [] => Ret None
  | level :: levels' =>
      let pte_index := Z.land (Z.shiftr va (30 - 9 * level)) 0x1ff in
      pte_addr ← uadd page_table (pte_index * 8);
      raw ← read pte_addr;
      lvl ← level_of level;
      let pte := PTE raw in
      let path := vec_push path (MkWrapper pte_addr pte lvl) in
      v ← is_valid pte;
      w ← writable pte;
      r ← readable pte;
      x ← executable pte;
      if negb v || (w && negb r) then Ret None
      else if r || x then Ret (Some (MkWalk path (leaf_pa lvl pte va)))
      else walk_loop levels' (shl (Z.shiftr (bits pte) 10) 12) va read path
  end.
Definition walk_page_table (root va : Z) (read : Z → outcome Z)
    : outcome (option PageWalk) :=
  walk_loop [0; 1; 2] root va read [].

#[export] Instance PageTableSv39_impl : PageTable PageTableSv39 := {
  pt_new := new;
  pt_from_token := from_token;
  pt_map := map;
  pt_unmap := unmap;
  pt_walk_page_table := walk_page_table;
  pt_translate := translate;
  pt_translate_va := translate_va;
  pt_token := token;
}.

#[export] Instance PageTableSv39_guest : GuestPageTable PageTableSv39 := {
  pt_new_guest := new_guest;
}.
