(* ===== verification/Sv39Tree.v ===== *)
(** * The page table as a tree

    The invariant of [Sv39]: following valid entries from the root reaches
    only frames the table owns, and never the same frame by two paths.  The
    lemmas here say how a write to one entry, or to frames the table does not
    own, changes what is reachable. *)
From stdpp Require Import base tactics numbers list option sets.
From S2P Require Import Prelude Constants Address Pte Mem FrameAllocator.

(** One step down, and a path of them. *)
Definition child (m : mem) (a : PhysPageNum) (i : Z) : option PhysPageNum :=
  let e := read_pte m (pte_slot a i) in
  if validb e then Some (pte_ppn e) else None.

Fixpoint walk (m : mem) (a : PhysPageNum) (p : list Z) : option PhysPageNum :=
  match p with
  | [] => Some a
  | i :: p' => b ← child m a i; walk m b p'
  end.

(** Paths to interior tables: at most two indices. *)
Definition path_ok (p : list Z) : Prop := Forall idx_ok p ∧ (length p ≤ 2)%nat.

(** Entries above the last level are invalid or bare pointers: only [V] set,
    and no bits above the page number. *)
Definition is_pointer (e : PageTableEntry) : Prop :=
  validb e = true → bits e = ppn_0 (pte_ppn e) * 1024 + 1.

Record tree_ok (m : mem) (root : PhysPageNum) (fs : list PhysPageNum) : Prop := {
  tree_ppn : ∀ a, a ∈ fs → ppn_ok a;
  tree_in : ∀ p a, path_ok p → walk m root p = Some a → a ∈ fs;
  tree_inj : ∀ p q a, path_ok p → path_ok q →
    walk m root p = Some a → walk m root q = Some a → p = q;
  tree_ptr : ∀ p a i, path_ok p → (length p ≤ 1)%nat → idx_ok i →
    walk m root p = Some a → is_pointer (read_pte m (pte_slot a i));
}.

(** The valid entry at index [j] of the table at path [q]. *)
Definition entry (m : mem) (root : PhysPageNum) (q : list Z) (j : Z)
    : option PageTableEntry :=
  a ← walk m root q;
  let e := read_pte m (pte_slot a j) in
  if validb e then Some e else None.

Lemma walk_app m a p q : walk m a (p ++ q) = b ← walk m a p; walk m b q.
Proof.
  revert a. induction p as [|i p IH]; intros a; simpl; [done|].
  destruct (child m a i); simpl; auto.
Qed.

Lemma walk_snoc m a p i : walk m a (p ++ [i]) = b ← walk m a p; child m b i.
Proof.
  rewrite walk_app. destruct (walk m a p); simpl; [|done].
  by destruct (child m p0 i).
Qed.

Lemma path_ok_nil : path_ok [].
Proof. split; [constructor|simpl; lia]. Qed.

Lemma path_ok_snoc p i : path_ok (p ++ [i]) → path_ok p ∧ idx_ok i ∧ (length p ≤ 1)%nat.
Proof.
  intros [Hf Hl]. rewrite Forall_app, Forall_singleton in Hf.
  rewrite length_app in Hl. simpl in Hl. unfold path_ok.
  destruct Hf. repeat split; [done|lia|by apply H0..|lia].
Qed.

Lemma path_ok_snoc_2 p i : path_ok p → idx_ok i → (length p ≤ 1)%nat → path_ok (p ++ [i]).
Proof.
  intros [Hf Hl] Hi H1. split.
  - rewrite Forall_app, Forall_singleton. done.
  - rewrite length_app. simpl. lia.
Qed.

#[export] Hint Resolve path_ok_nil path_ok_snoc_2 : hyp.

(** Memory outside the frames of the tree does not matter. *)
Section Frame.
Context (m m' : mem) (root : PhysPageNum) (fs ps : list PhysPageNum).
Context (Ht : tree_ok m root fs) (Hs : same_outside ps m m').
Context (Hd : ∀ a, a ∈ fs → a ∉ ps).

Lemma walk_frame q : path_ok q → walk m' root q = walk m root q.
Proof.
  induction q as [|i q IH] using rev_ind; intros Hq; [done|].
  apply path_ok_snoc in Hq as (Hq&Hi&_). rewrite !walk_snoc, IH by done.
  destruct (walk m root q) as [b|] eqn:E; simpl; [|done].
  unfold child. by rewrite (same_outside_read ps m m') by eauto using tree_in, tree_ppn.
Qed.

Lemma entry_frame q j : path_ok q → idx_ok j → entry m' root q j = entry m root q j.
Proof.
  intros Hq Hj. unfold entry. rewrite walk_frame by done.
  destruct (walk m root q) as [b|] eqn:E; simpl; [|done].
  by rewrite (same_outside_read ps m m') by eauto using tree_in, tree_ppn.
Qed.

Lemma tree_frame : tree_ok m' root fs.
Proof.
  destruct Ht as [Hok Hin Hinj Hptr]. split; [done| | |].
  - intros p a Hp. rewrite walk_frame by done. eauto.
  - intros p q a Hp Hq. rewrite !walk_frame by done. eauto.
  - intros p a i Hp Hl Hi. rewrite walk_frame by done. intros Ha.
    rewrite (same_outside_read ps m m') by eauto. eauto.
Qed.
End Frame.

(** Writing entry [k] of the table at path [p] only changes paths through it. *)
Section Write.
Context (m : mem) (root : PhysPageNum) (fs : list PhysPageNum).
Context (Ht : tree_ok m root fs).
Context (p : list Z) (a : PhysPageNum) (k : Z) (e : PageTableEntry).
Context (Hp : path_ok p) (Ha : walk m root p = Some a) (Hk : idx_ok k).
Context (He : 0 ≤ bits e < W64).

Let m' := write_pte m (pte_slot a k) e.

Lemma read_at_other q b j :
  path_ok q → walk m root q = Some b → idx_ok j → (q, j) ≠ (p, k) →
  read_pte m' (pte_slot b j) = read_pte m (pte_slot b j).
Proof.
  intros Hq Hb Hj Hne. apply read_write_other; try done;
    [eauto using tree_ppn, tree_in..|].
  intros [= <- <-]. apply Hne. f_equal. eauto using tree_inj.
Qed.

Lemma walk_write q : path_ok q → ¬ (p ++ [k]) `prefix_of` q →
  walk m' root q = walk m root q.
Proof.
  induction q as [|i q IH] using rev_ind; intros Hq Hn; [done|].
  apply path_ok_snoc in Hq as (Hq&Hi&_). rewrite !walk_snoc, IH; [|done|].
  2: { intros Hpr. apply Hn. by apply prefix_app_r. }
  destruct (walk m root q) as [b|] eqn:E; simpl; [|done].
  unfold child. rewrite (read_at_other q); try done.
  intros [= -> ->]. by apply Hn.
Qed.

Lemma read_at_same : read_pte m' (pte_slot a k) = e.
Proof. by apply read_write_same. Qed.
End Write.

(** Writing a leaf entry. *)
Section LeafWrite.
Context (m : mem) (root : PhysPageNum) (fs : list PhysPageNum).
Context (Ht : tree_ok m root fs).
Context (p : list Z) (a : PhysPageNum) (k : Z) (e : PageTableEntry).
Context (Hp : path_ok p) (Ha : walk m root p = Some a) (Hk : idx_ok k).
Context (He : 0 ≤ bits e < W64) (Hl : length p = 2%nat).

Let m' := write_pte m (pte_slot a k) e.

Lemma walk_leaf_write q : path_ok q → walk m' root q = walk m root q.
Proof.
  intros Hq. apply (walk_write m root fs Ht p a k e Hp Ha Hk); [done|].
  intros Hpr%prefix_length.
  rewrite length_app in Hpr. destruct Hq. simpl in *. lia.
Qed.

Lemma tree_leaf_write : tree_ok m' root fs.
Proof.
  destruct Ht as [Hok Hin Hinj Hptr]. split; [done| | |].
  - intros q b Hq. rewrite walk_leaf_write by done. eauto.
  - intros q r b Hq Hr. rewrite !walk_leaf_write by done. eauto.
  - intros q b i Hq Hl1 Hi. rewrite walk_leaf_write by done. intros Hb.
    unfold m'. rewrite (read_at_other m root fs Ht p a k e Hp Ha Hk q b i);
      eauto. intros [= -> ->]. lia.
Qed.

Lemma entry_leaf_write q j : path_ok q → idx_ok j →
  entry m' root q j =
  if decide (q = p ∧ j = k) then (if validb e then Some e else None)
  else entry m root q j.
Proof.
  intros Hq Hj. unfold entry. rewrite walk_leaf_write by done.
  case_decide as Hd.
  - destruct Hd as [-> ->]. rewrite Ha. simpl. unfold m'. by rewrite read_at_same.
  - destruct (walk m root q) as [b|] eqn:E; simpl; [|done].
    unfold m'.
    rewrite (read_at_other m root fs Ht p a k e Hp Ha Hk q b j); try done.
    intros [= -> ->]. by apply Hd.
Qed.
End LeafWrite.

(** An interior entry: a pointer to the table in frame [f]. *)
Lemma pointer_entry f : ppn_ok f →
  let e := pte_new f flag.V in
  bits e = ppn_0 f * 1024 + 1 ∧ validb e = true ∧ pte_ppn e = f.
Proof.
  intros Hf e. unfold e, flag.V. destruct f as [n]. simpl in *.
  change (Z.shiftl 1 0) with 1.
  split; [by apply pte_new_bits|]. split.
  - unfold validb. by rewrite testbit_pte_new.
  - by apply pte_ppn_new.
Qed.

(** Hanging a fresh, zeroed table under an invalid interior entry. *)
Section Grow.
Context (m : mem) (root : PhysPageNum) (fs : list PhysPageNum).
Context (Ht : tree_ok m root fs).
Context (p : list Z) (a : PhysPageNum) (k : Z) (f : PhysPageNum).
Context (Hp : path_ok p) (Ha : walk m root p = Some a) (Hk : idx_ok k).
Context (Hl : (length p ≤ 1)%nat) (Hnone : child m a k = None).
Context (Hf : ppn_ok f) (Hfs : f ∉ fs).

Let e := pte_new f flag.V.
Let m1 := zero_frame m f.
Let m2 := write_pte m1 (pte_slot a k) e.

Lemma grow_bits : 0 ≤ bits e < W64.
Proof.
  unfold e. destruct (pointer_entry f Hf) as (->&_).
  unfold ppn_ok, W64 in *. clear - Hf. lia. Qed.

Lemma grow_m1 : tree_ok m1 root fs.
Proof.
  eapply (tree_frame m m1); [done|by apply same_outside_zero|set_solver].
Qed.

Lemma grow_walk1 q : path_ok q → walk m1 root q = walk m root q.
Proof.
  eapply (walk_frame m m1); [done|by apply same_outside_zero|set_solver].
Qed.

Lemma grow_a : a ∈ fs ∧ a ≠ f.
Proof.
  assert (a ∈ fs) by (eapply tree_in; eauto). split; [done|]. by intros ->.
Qed.

Lemma grow_below j : idx_ok j → child m2 f j = None.
Proof.
  intros Hj. destruct grow_a as [Hin Hne]. unfold child, m2.
  rewrite read_write_other; [|by eapply tree_ppn|done..|congruence].
  unfold m1. rewrite read_zero_frame by done. done.
Qed.

Lemma grow_old q : path_ok q → ¬ (p ++ [k]) `prefix_of` q →
  walk m2 root q = walk m root q.
Proof.
  intros Hq Hn. rewrite <- grow_walk1 by done.
  apply (walk_write m1 root fs grow_m1 p a k e Hp); [|done..].
  by rewrite grow_walk1.
Qed.

Lemma grow_child : walk m2 root (p ++ [k]) = Some f.
Proof.
  rewrite walk_snoc, grow_old, Ha; [|done|].
  2: { intros Hpr%prefix_length. rewrite length_app in Hpr. simpl in Hpr. lia. }
  simpl. unfold child, m2. rewrite read_at_same by apply grow_bits.
  unfold e. by destruct (pointer_entry f Hf) as (_&->&->).
Qed.

(** Every path of the new tree is old or ends at the new table. *)
Lemma grow_cases q b : path_ok q → walk m2 root q = Some b →
  (walk m root q = Some b ∧ ¬ (p ++ [k]) `prefix_of` q) ∨ (q = p ++ [k] ∧ b = f).
Proof.
  intros Hq Hb. destruct (decide ((p ++ [k]) `prefix_of` q)) as [[r ->]|Hn].
  - right. rewrite walk_app, grow_child in Hb. simpl in Hb.
    destruct r as [|j r]; simpl in Hb.
    + rewrite app_nil_r. injection Hb as <-. done.
    + destruct Hq as [Hq _]. apply Forall_app in Hq as [_ Hq].
      inversion Hq; subst. by rewrite grow_below in Hb.
  - left. rewrite grow_old in Hb by done. done.
Qed.

Lemma grow_tree : tree_ok m2 root (fs ++ [f]).
Proof.
  destruct Ht as [Hok Hin Hinj Hptr]. split.
  - intros b. rewrite elem_of_app, list_elem_of_singleton.
    intros [Hb| ->]; [by apply Hok|done].
  - intros q b Hq Hb. apply elem_of_app. rewrite list_elem_of_singleton.
    destruct (grow_cases q b Hq Hb) as [[? ?]|[? ?]]; eauto.
  - intros q r b Hq Hr Hb1 Hb2.
    destruct (grow_cases q b Hq Hb1) as [[H1 _]|[-> ->]],
      (grow_cases r _ Hr Hb2) as [[H2 _]|[-> ?]]; subst; try done; eauto.
    + destruct Hfs. eauto.
    + destruct Hfs. eauto.
  - intros q b j Hq Hlq Hj Hb. unfold m2.
    destruct (decide ((q, j) = (p, k))) as [[= -> ->]|Hne].
    { assert (b = a) as ->.
      { destruct (grow_cases p b Hp Hb) as [[Hb' _]|[Hc _]]; [congruence|].
        apply (f_equal length) in Hc. rewrite length_app in Hc. simpl in Hc. lia. }
      rewrite read_at_same by apply grow_bits. intros _.
      unfold e. by destruct (pointer_entry f Hf) as (->&_&->). }
    destruct (grow_cases q b Hq Hb) as [[Hb' _]|[-> ->]].
    + rewrite (read_at_other m1 root fs grow_m1 p a k e Hp) with (q := q);
        [|by rewrite grow_walk1|done..|by rewrite grow_walk1|done|done].
      apply (tree_ptr _ _ _ grow_m1 q); try done. by rewrite grow_walk1.
    + intros Hv. pose proof (grow_below j Hj) as Hc. unfold child in Hc.
      unfold m2 in Hc. by rewrite Hv in Hc.
Qed.

(** No mapping appears or disappears: the new table is empty and the slot it
    hangs from led nowhere. *)
Lemma grow_entry q j : path_ok q → length q = 2%nat → idx_ok j →
  entry m2 root q j = entry m root q j.
Proof.
  intros Hq Hq2 Hj. unfold entry. destruct grow_a as [Hain Hne].
  destruct (walk m2 root q) as [b|] eqn:E2; simpl.
  - destruct (grow_cases q b Hq E2) as [[E1 _]|[-> ->]].
    + rewrite E1. simpl. unfold m2.
      assert (Hb : b ∈ fs) by (eapply tree_in; eauto).
      assert (Hb' : ppn_ok b) by by eapply tree_ppn.
      rewrite (read_at_other m1 root fs grow_m1 p a k e Hp) with (q := q);
        [|by rewrite grow_walk1|done..|by rewrite grow_walk1|done|].
      * unfold m1. rewrite read_zero_frame_other; [done..|]. set_solver.
      * intros [= -> ->]. lia.
    + rewrite walk_snoc, Ha. simpl. rewrite Hnone. simpl.
      pose proof (grow_below j Hj) as Hc. unfold child in Hc.
      by destruct (validb _).
  - destruct (walk m root q) as [b|] eqn:E1; simpl; [|done]. exfalso.
    destruct (decide ((p ++ [k]) `prefix_of` q)) as [[r ->]|Hn].
    + by rewrite walk_app, walk_snoc, Ha in E1; simpl in E1; rewrite Hnone in E1.
    + rewrite grow_old in E2 by done. congruence.
Qed.
End Grow.
