(* ===== verification/Sv39Facts.v ===== *)
(** * Correctness of the Sv39 page table

    The operations of [Sv39] preserve the tree invariant and implement a
    partial map from page numbers to entries: the instance of
    [PageTableSpec]. *)
From stdpp Require Import base tactics numbers list option sets.
From S2P Require Import Prelude Constants Address Pte Mem FrameAllocator PageTable.
From S2P Require Import Sv39 Sv39Tree.

Definition sv_frames (pt : PageTableSv39) : list PhysPageNum := ft_ppn <$> frames pt.

Record sv_inv (lo : Z) (pt : PageTableSv39) (s : Sys) : Prop := {
  inv_sys : sys_wf lo s;
  inv_owned : owned lo s (sv_frames pt);
  inv_tree : tree_ok (sys_mem s) (root_ppn pt) (sv_frames pt);
}.

(** Directory path and leaf index of a page number. *)
Definition vpath (v : Z) : list Z := [vidx2 v; vidx1 v].

Definition sv_view (pt : PageTableSv39) (s : Sys) (v : Z) : option PageTableEntry :=
  entry (sys_mem s) (root_ppn pt) (vpath v) (vidx0 v).

(** Tables missing on the way to [v]. *)
Definition sv_need (pt : PageTableSv39) (s : Sys) (v : Z) : Z :=
  match walk (sys_mem s) (root_ppn pt) [vidx2 v] with
  | None => 2
  | Some _ =>
      match walk (sys_mem s) (root_ppn pt) (vpath v) with
      | None => 1
      | Some _ => 0
      end
  end.

Lemma vpath_ok v : path_ok (vpath v).
Proof.
  destruct (vidx_range v) as (?&?&?). split; [|simpl; lia].
  repeat constructor; done || lia.
Qed.
Lemma vidx0_ok v : idx_ok (vidx0 v).
Proof. apply vidx_range. Qed.
Lemma vidx2_path_ok v : path_ok [vidx2 v].
Proof. apply (path_ok_snoc [vidx2 v] (vidx1 v)), vpath_ok. Qed.
#[export] Hint Resolve vpath_ok vidx0_ok vidx2_path_ok : hyp.

Lemma vidx_mod v : vidx2 (v mod 2 ^ 27) = vidx2 v ∧ vidx1 (v mod 2 ^ 27) = vidx1 v ∧
  vidx0 (v mod 2 ^ 27) = vidx0 v.
Proof.
  assert (indexes (VPN (v mod 2 ^ 27)) = indexes (VPN v)) as H.
  { apply indexes_inj. simpl. by rewrite Z.mod_mod. }
  rewrite !indexes_eq in H. by injection H.
Qed.

Lemma vpath_mod v : vpath (v mod 2 ^ 27) = vpath v.
Proof. unfold vpath. by destruct (vidx_mod v) as (->&->&_). Qed.
Lemma vidx0_mod v : vidx0 (v mod 2 ^ 27) = vidx0 v.
Proof. apply vidx_mod. Qed.

(** Page numbers of one leaf table. *)
Lemma vpath_block v w : v / 512 = w / 512 → vpath v = vpath w.
Proof.
  intros H. unfold vpath, vidx2, vidx1. change 262144 with (512 * 512).
  rewrite <- !Z.div_div by lia. by rewrite H.
Qed.

Lemma vkey_eq_iff v w :
  vpath v = vpath w ∧ vidx0 v = vidx0 w ↔ v mod 2 ^ 27 = w mod 2 ^ 27.
Proof.
  rewrite <- (indexes_inj (VPN v) (VPN w)), !indexes_eq. unfold vpath. simpl.
  split; [intros [[= ? ?] ?]; congruence|intros [= ? ? ?]; split; congruence].
Qed.

(** ** Composition of system steps *)

Lemma prefix_elem {A} (l k : list A) : l `prefix_of` k → l ⊆ k.
Proof. intros [r ->]. set_solver. Qed.

Lemma sys_step_refl lo fs s : sys_wf lo s → sys_step lo fs s fs s.
Proof. intros. split; auto using same_outside_refl. lia. Qed.

Lemma sys_step_trans lo fs1 s1 fs2 s2 fs3 s3 :
  sys_step lo fs1 s1 fs2 s2 → sys_step lo fs2 s2 fs3 s3 → sys_step lo fs1 s1 fs3 s3.
Proof.
  intros [? Ho1 Hm1 Hp1 Hf1 He1] [? Ho2 Hm2 Hp2 Hf2 He2]. split; eauto.
  - apply (same_outside_mono (fs2 ++ fs3));
      [|by eapply same_outside_trans].
    pose proof (prefix_elem _ _ Hp2). set_solver.
  - by etrans.
  - lia.
  - congruence.
Qed.

(** Writing an entry of an owned table. *)
Lemma sys_step_write lo fs s p k e :
  sys_wf lo s → p ∈ fs → ppn_ok p → idx_ok k →
  sys_step lo fs s fs (set_mem (λ m, write_pte m (pte_slot p k) e) s).
Proof.
  intros [Hm Hal] Hin Hp Hk. split; simpl; try done.
  - split; simpl; [by apply store_ok|done].
  - apply (same_outside_mono [p]); [set_solver|]. by apply same_outside_write.
  - unfold sys_free. simpl. lia.
Qed.

(** One allocation as a step that adds a frame. *)
Lemma fresh_step lo fs s p s' :
  sys_wf lo s → fresh_frame lo s p s' → sys_step lo fs s (fs ++ [p]) s'.
Proof.
  intros Hwf [Hwf' Hok Hr Hm Hni Hown Hcnt Hend Hfr]. split.
  - done.
  - intros rest Ho. rewrite app_assoc. by apply Hown.
  - rewrite Hm. apply (same_outside_mono [p]); [set_solver|].
    by apply same_outside_zero.
  - by apply prefix_app_r.
  - rewrite length_app. simpl. lia.
  - done.
  - done.
Qed.

(** ** Reading *)

Lemma pte_ref_ok p i : idx_ok i → pte_ref p i = Ret (pte_slot p i).
Proof.
  unfold idx_ok. intros. unfold pte_ref.
  by rewrite (proj2 (Z.leb_le 0 i)), (proj2 (Z.ltb_lt i 512)) by lia.
Qed.

(** [find_pte] stops at a missing directory, else yields the leaf slot. *)
Lemma find_pte_eq pt v s :
  find_pte pt v s =
  Ret ((λ a, pte_slot a (vidx0 (vpn_0 v))) <$>
         walk (sys_mem s) (root_ppn pt) (vpath (vpn_0 v)), s).
Proof.
  destruct (vidx_range (vpn_0 v)) as (Hi2&Hi1&Hi0).
  unfold find_pte. rewrite indexes_eq. simpl.
  rewrite (pte_ref_ok _ _ Hi2). unfold mbind, M_bind, lift, gets. simpl.
  rewrite is_valid_eq. unfold child.
  destruct (validb _) eqn:Hv; simpl; [|done].
  rewrite (pte_ref_ok _ _ Hi1). rewrite is_valid_eq.
  destruct (validb (read_pte _ (pte_slot (pte_ppn _) _))) eqn:Hv'; simpl; [|done].
  by rewrite (pte_ref_ok _ _ Hi0).
Qed.

Lemma translate_eq pt v s :
  translate pt v s =
  Ret ((λ a, read_pte (sys_mem s) (pte_slot a (vidx0 (vpn_0 v)))) <$>
         walk (sys_mem s) (root_ppn pt) (vpath (vpn_0 v)), s).
Proof.
  unfold translate, mbind, M_bind. rewrite find_pte_eq.
  by destruct (walk _ _ _).
Qed.

Lemma translate_view pt s v e :
  sv_view pt s (vpn_0 v) = Some e → translate pt v s = Ret (Some e, s).
Proof.
  rewrite translate_eq. unfold sv_view, entry.
  destruct (walk _ _ _); simpl; [|done]. by destruct (validb _); intros [= ->].
Qed.

(** ** Descending with allocation *)

Lemma descend_create_cases p i fs s :
  idx_ok i →
  descend_create p i fs s =
  match child (sys_mem s) p i with
  | Some c => Ret ((c, fs), s)
  | None =>
      match frame_alloc s with
      | Ret (Some t, s1) =>
          Ret ((pte_ppn (pte_new (ft_ppn t) flag.V), vec_push fs t),
               set_mem (λ m, write_pte m (pte_slot p i) (pte_new (ft_ppn t) flag.V)) s1)
      | Ret (None, _) => Panic UnwrapNone
      | Panic e => Panic e
      | Hang => Hang
      | NoFuel => NoFuel
      end
  end.
Proof.
  intros Hi. unfold descend_create, mbind, M_bind, lift, gets.
  rewrite pte_ref_ok, is_valid_eq by done. unfold child.
  destruct (validb _); simpl; [done|].
  by destruct (frame_alloc s) as [[[t|] s1]| | |].
Qed.

Record descended (lo : Z) (root : PhysPageNum) (p : list Z) (i : Z)
    (fs : list FrameTracker) (s : Sys) (c : PhysPageNum)
    (fs' : list FrameTracker) (s' : Sys) : Prop := {
  ds_step : sys_step lo (ft_ppn <$> fs) s (ft_ppn <$> fs') s';
  ds_tree : tree_ok (sys_mem s') root (ft_ppn <$> fs');
  ds_walk : walk (sys_mem s') root (p ++ [i]) = Some c;
  ds_entry : ∀ q j, path_ok q → length q = 2%nat → idx_ok j →
    entry (sys_mem s') root q j = entry (sys_mem s) root q j;
  ds_mono : ∀ q a, path_ok q → walk (sys_mem s) root q = Some a →
    walk (sys_mem s') root q = Some a;
  ds_free : sys_free s' = sys_free s -
    match walk (sys_mem s) root (p ++ [i]) with Some _ => 0 | None => 1 end;
  ds_new : ∀ q, path_ok q → walk (sys_mem s) root (p ++ [i]) = None →
    (p ++ [i]) `prefix_of` q → q ≠ p ++ [i] → walk (sys_mem s') root q = None;
  ds_id : is_Some (walk (sys_mem s) root (p ++ [i])) → s' = s;
  ds_same : ∀ q, path_ok q → ¬ (p ++ [i]) `prefix_of` q →
    walk (sys_mem s') root q = walk (sys_mem s) root q;
}.

Lemma descend_create_spec lo root p a i fs s c fs' s' :
  sys_wf lo s → owned lo s (ft_ppn <$> fs) →
  tree_ok (sys_mem s) root (ft_ppn <$> fs) →
  path_ok p → (length p ≤ 1)%nat → idx_ok i →
  walk (sys_mem s) root p = Some a →
  descend_create a i fs s = Ret ((c, fs'), s') →
  descended lo root p i fs s c fs' s'.
Proof.
  intros Hwf Ho Ht Hp Hl Hi Ha Hd. rewrite descend_create_cases in Hd by done.
  destruct (child (sys_mem s) a i) as [c0|] eqn:Hc.
  - simplify_eq.
    assert (walk (sys_mem s') root (p ++ [i]) = Some c) as Hw
      by by rewrite walk_snoc, Ha.
    split; try rewrite Hw; auto using sys_step_refl; [lia|done].
  - destruct (frame_alloc s) as [[[t|] s1]| | |] eqn:Hfa; simplify_eq.
    pose proof (frame_alloc_some lo s t s1 Hwf Hfa) as Hfresh.
    pose proof Hfresh as [Hwf1 Hok Hr Hm Hni Hown Hcnt Hend _].
    specialize (Hni _ Ho).
    destruct (pointer_entry _ Hok) as (Hb&Hv&Hpp). rewrite Hpp.
    assert (Hain : a ∈ ft_ppn <$> fs) by by eapply tree_in.
    assert (Haok : ppn_ok a) by by eapply tree_ppn.
    assert (Hw : walk (sys_mem s) root (p ++ [i]) = None) by by rewrite walk_snoc, Ha.
    assert (Hfs : ft_ppn <$> vec_push fs t = (ft_ppn <$> fs) ++ [ft_ppn t])
      by (unfold vec_push; by rewrite fmap_app).
    split; rewrite ?Hfs, ?Hw; simpl; rewrite ?Hm.
    + eapply (sys_step_trans _ _ _ ((ft_ppn <$> fs) ++ [ft_ppn t]) s1).
      * by apply fresh_step.
      * apply sys_step_write; [done|set_solver|done..].
    + by apply (grow_tree _ _ _ Ht p a i).
    + by apply (grow_child _ _ _ Ht p a i).
    + intros. by apply (grow_entry _ _ _ Ht p a i).
    + intros q b Hq Hqb. rewrite (grow_old _ _ _ Ht p a i); try done.
      intros [r ->]. by rewrite walk_app, Hw in Hqb.
    + unfold sys_free in *. simpl in *. lia.
    + intros q Hq _ [r ->] Hne.
      rewrite walk_app, (grow_child _ _ _ Ht p a i) by done. simpl.
      destruct r as [|j r]; [by rewrite app_nil_r in Hne|]. simpl.
      rewrite (grow_below _ _ _ Ht p a i); try done.
      destruct Hq as [Hq _]. apply Forall_app in Hq as [_ Hq]. by inversion Hq.
    + by intros [? ?].
    + intros q Hq Hn. by apply (grow_old _ _ _ Ht p a i).
Qed.

(** ** [find_pte_create] *)

Lemma find_pte_create_eq pt v s :
  find_pte_create pt v s =
  (r1 ← descend_create (root_ppn pt) (vidx2 (vpn_0 v)) (frames pt);
   r2 ← descend_create r1.1 (vidx1 (vpn_0 v)) r1.2;
   mret (Some (pte_slot r2.1 (vidx0 (vpn_0 v))), MkSv39 (root_ppn pt) r2.2)) s.
Proof.
  unfold find_pte_create. rewrite indexes_eq. unfold mbind, M_bind. simpl.
  unfold mbind, M_bind.
  destruct (descend_create _ _ _ s) as [[[c fs1] s1]| | |]; simpl; [|done..].
  destruct (descend_create _ _ _ s1) as [[[c2 fs2] s2]| | |]; simpl; [|done..].
  unfold lift. rewrite pte_ref_ok by apply vidx0_ok. done.
Qed.

Record created (lo : Z) (pt : PageTableSv39) (v : Z) (s : Sys)
    (a : PhysPageNum) (pt' : PageTableSv39) (s' : Sys) : Prop := {
  cr_inv : sv_inv lo pt' s';
  cr_root : root_ppn pt' = root_ppn pt;
  cr_step : sys_step lo (sv_frames pt) s (sv_frames pt') s';
  cr_walk : walk (sys_mem s') (root_ppn pt) (vpath v) = Some a;
  cr_view : ∀ w, sv_view pt' s' w = sv_view pt s w;
  cr_free : sys_free s' = sys_free s - sv_need pt s v;
  cr_mono : ∀ q b, path_ok q → walk (sys_mem s) (root_ppn pt) q = Some b →
    walk (sys_mem s') (root_ppn pt) q = Some b;
}.

Lemma owned_step lo fs s fs' s' :
  sys_step lo fs s fs' s' → owned lo s fs → owned lo s' fs'.
Proof. intros Hs Ho. by apply (step_owned _ _ _ _ _ Hs []). Qed.

Lemma find_pte_create_spec lo pt v s r pt' s' :
  sv_inv lo pt s → find_pte_create pt v s = Ret ((r, pt'), s') →
  ∃ a, r = Some (pte_slot a (vidx0 (vpn_0 v))) ∧ created lo pt (vpn_0 v) s a pt' s'.
Proof.
  intros [Hwf Ho Ht] Hf. rewrite find_pte_create_eq in Hf.
  minv. rename x into r1, x0 into s1, x1 into r2.
  destruct r1 as [c1 fs1], r2 as [c2 fs2]. simpl in *.
  destruct (vidx_range (vpn_0 v)) as (Hi2&Hi1&Hi0).
  match goal with H : descend_create _ _ _ s = _ |- _ =>
    pose proof (descend_create_spec lo (root_ppn pt) [] _ _ _ _ _ _ _ Hwf Ho Ht
      path_ok_nil (le_0_n 1) Hi2 eq_refl H) as D1 end.
  destruct D1 as [S1 T1 W1 E1 M1 F1 N1 I1 _]. simpl in *.
  match goal with H : descend_create _ _ _ s1 = _ |- _ =>
    pose proof (descend_create_spec lo (root_ppn pt) [vidx2 (vpn_0 v)] _ _ _ _ _ _ _
      (step_wf _ _ _ _ _ S1) (owned_step _ _ _ _ _ S1 Ho) T1 (vidx2_path_ok _)
      (le_n 1) Hi1 W1 H) as D2 end.
  destruct D2 as [S2 T2 W2 E2 M2 F2 _ _ _]. simpl in *.
  exists c2. split; [done|]. split; simpl; try done.
  - split; eauto using step_wf, owned_step.
  - by eapply sys_step_trans.
  - intros w. unfold sv_view. simpl. rewrite E2, E1; auto with hyp.
  - rewrite F2, F1. unfold sv_need, vpath. simpl.
    destruct (child (sys_mem s) (root_ppn pt) (vidx2 (vpn_0 v))) as [b|] eqn:Eb;
      simpl in *.
    + rewrite (I1 ltac:(by eexists)), Eb. simpl.
      destruct (child _ b _); simpl; lia.
    + pose proof (N1 (vpath (vpn_0 v)) (vpath_ok _) eq_refl
        ltac:(by exists [vidx1 (vpn_0 v)]) ltac:(done)) as N.
      simpl in N. rewrite N. lia.
  - eauto.
Qed.

Lemma find_pte_create_total lo pt v s :
  sv_inv lo pt s → sv_need pt s (vpn_0 v) ≤ sys_free s →
  returns (find_pte_create pt v s).
Proof.
  intros [Hwf Ho Ht] Hn. unfold returns. rewrite find_pte_create_eq.
  destruct (vidx_range (vpn_0 v)) as (Hi2&Hi1&Hi0).
  assert (∃ r1 s1, descend_create (root_ppn pt) (vidx2 (vpn_0 v)) (frames pt) s = Ret (r1, s1))
    as ([c1 fs1]&s1&D1).
  { rewrite descend_create_cases by done. unfold sv_need in Hn. simpl in Hn.
    destruct (child _ _ _); simpl in Hn; [eauto|].
    destruct (frame_alloc_total lo s Hwf) as (t&s1&->); [lia|]. eauto. }
  pose proof (descend_create_spec lo (root_ppn pt) [] _ _ _ _ _ _ _ Hwf Ho Ht
    path_ok_nil (le_0_n 1) Hi2 eq_refl D1) as D.
  destruct D as [S1 T1 W1 _ _ F1 N1 I1 _]. simpl in *.
  assert (∃ r2 s2, descend_create c1 (vidx1 (vpn_0 v)) fs1 s1 = Ret (r2, s2))
    as (r2&s2&D2).
  { rewrite descend_create_cases by done.
    destruct (child (sys_mem s1) c1 _) eqn:Ec; [eauto|].
    destruct (frame_alloc_total lo s1 (step_wf _ _ _ _ _ S1)) as (t&s2&->); [|eauto].
    rewrite F1. unfold sv_need in Hn. simpl in Hn.
    destruct (child (sys_mem s) (root_ppn pt) _) as [b|] eqn:Eb; simpl in *; [|lia].
    rewrite (I1 ltac:(by eexists)) in *. rewrite Eb in W1. simpl in W1.
    simplify_eq. rewrite Ec in Hn. simpl in Hn. lia. }
  unfold mbind, M_bind. rewrite D1. simpl. rewrite D2. eexists. done.
Qed.

(** ** [map] and [unmap] *)

Lemma sv_view_mod pt s v : sv_view pt s v = sv_view pt s (v mod 2 ^ 27).
Proof. unfold sv_view. by rewrite vpath_mod, vidx0_mod. Qed.

Lemma sv_need_mod pt s v : sv_need pt s (v mod 2 ^ 27) = sv_need pt s v.
Proof. unfold sv_need. rewrite vpath_mod. by destruct (vidx_mod v) as (->&_). Qed.

Lemma sv_need_range pt s v : 0 ≤ sv_need pt s v ≤ 2.
Proof. unfold sv_need. repeat case_match; lia. Qed.

Lemma sv_need_mono pt s pt' s' w :
  root_ppn pt' = root_ppn pt →
  (∀ q b, path_ok q → walk (sys_mem s) (root_ppn pt) q = Some b →
     walk (sys_mem s') (root_ppn pt) q = Some b) →
  sv_need pt' s' w ≤ sv_need pt s w.
Proof.
  intros Hr Hm. pose proof (sv_need_range pt' s' w). unfold sv_need in *. rewrite Hr in *.
  destruct (walk (sys_mem s) (root_ppn pt) [vidx2 w]) as [b|] eqn:E1; [|lia].
  rewrite (Hm [vidx2 w] b) in * by auto with hyp.
  destruct (walk (sys_mem s) (root_ppn pt) (vpath w)) as [c|] eqn:E2.
  - rewrite (Hm (vpath w) c) in * by auto with hyp. lia.
  - destruct (walk (sys_mem s') (root_ppn pt) (vpath w)); lia.
Qed.

Lemma sv_need_0 pt s w a :
  walk (sys_mem s) (root_ppn pt) (vpath w) = Some a → sv_need pt s w = 0.
Proof.
  intros Hw. unfold sv_need. rewrite Hw.
  destruct (walk _ _ [vidx2 w]) eqn:E; [done|].
  unfold vpath in Hw. simpl in *.
  destruct (child (sys_mem s) (root_ppn pt) (vidx2 w)); simpl in *; done.
Qed.

(** Writing the leaf slot of [v] in a table that has the directories for it. *)
Lemma leaf_write_spec lo pt s v a e :
  sv_inv lo pt s → walk (sys_mem s) (root_ppn pt) (vpath v) = Some a →
  0 ≤ bits e < W64 →
  let s' := set_mem (λ m, write_pte m (pte_slot a (vidx0 v)) e) s in
  sv_inv lo pt s' ∧ sys_step lo (sv_frames pt) s (sv_frames pt) s' ∧
  (∀ w, sv_view pt s' w =
     if decide (w mod 2 ^ 27 = v mod 2 ^ 27)
     then (if validb e then Some e else None) else sv_view pt s w) ∧
  (∀ q, path_ok q → walk (sys_mem s') (root_ppn pt) q = walk (sys_mem s) (root_ppn pt) q).
Proof.
  intros [Hwf Ho Ht] Ha He s'.
  assert (Hain : a ∈ sv_frames pt) by exact (tree_in _ _ _ Ht (vpath v) a (vpath_ok v) Ha).
  assert (Haok : ppn_ok a) by by eapply tree_ppn.
  assert (Hst : sys_step lo (sv_frames pt) s (sv_frames pt) s')
    by (apply sys_step_write; auto with hyp).
  split_and!.
  - split; [by eapply step_wf|by eapply owned_step|].
    by apply (tree_leaf_write _ _ _ Ht (vpath v) a); auto with hyp.
  - done.
  - intros w. unfold sv_view. simpl.
    rewrite (entry_leaf_write _ _ _ Ht (vpath v) a); auto with hyp.
    destruct (decide (w mod 2 ^ 27 = v mod 2 ^ 27)) as [Hk|Hk];
      rewrite <- vkey_eq_iff in Hk; [by rewrite decide_True|by rewrite decide_False].
  - intros q Hq. by apply (walk_leaf_write _ _ _ Ht (vpath v) a); auto with hyp.
Qed.

(** [map] as a sequence: create the directories, then test and write. *)
Lemma map_after_create pt v n fl s r pt' s1 a :
  find_pte_create pt v s = Ret ((r, pt'), s1) →
  r = Some (pte_slot a (vidx0 (vpn_0 v))) →
  map pt v n fl s =
  if validb (read_pte (sys_mem s1) (pte_slot a (vidx0 (vpn_0 v))))
  then Panic AssertFailed
  else Ret (pt', set_mem (λ m, write_pte m (pte_slot a (vidx0 (vpn_0 v)))
                   (pte_new n (flag.union fl flag.V))) s1).
Proof.
  intros Hc ->. unfold map, mbind, M_bind, lift, gets. rewrite Hc. simpl.
  rewrite is_valid_eq. by destruct (validb _).
Qed.

Lemma view_slot pt s v a :
  walk (sys_mem s) (root_ppn pt) (vpath v) = Some a →
  sv_view pt s v =
  let e := read_pte (sys_mem s) (pte_slot a (vidx0 v)) in
  if validb e then Some e else None.
Proof. intros Hw. unfold sv_view, entry. by rewrite Hw. Qed.

Lemma union_V_range fl : 0 ≤ flags_bits fl < 256 →
  0 ≤ flags_bits (flag.union fl flag.V) < 256.
Proof. intros. apply (lor_range _ _ 8); first [done|lia]. Qed.

Lemma new_entry_facts n fl :
  0 ≤ ppn_0 n < 2 ^ 44 → 0 ≤ flags_bits fl < 256 →
  0 ≤ bits (pte_new n (flag.union fl flag.V)) < W64 ∧
  validb (pte_new n (flag.union fl flag.V)) = true.
Proof.
  intros Hn Hf. pose proof (union_V_range fl Hf) as Hu. split.
  - destruct n as [n], (flag.union fl flag.V) as [u].
    pose proof (pte_new_range n u Hn Hu). unfold W64. lia.
  - destruct n as [n], fl as [f]. by apply validb_new_V.
Qed.

Lemma map_spec lo pt s v n fl pt' s' :
  sv_inv lo pt s → 0 ≤ ppn_0 n < 2 ^ 44 → 0 ≤ flags_bits fl < 256 →
  map pt v n fl s = Ret (pt', s') →
  sv_inv lo pt' s' ∧ sys_step lo (sv_frames pt) s (sv_frames pt') s' ∧
  sv_view pt s (vkey v) = None ∧
  (∀ w, sv_view pt' s' w =
     if decide (w mod 2 ^ 27 = vkey v)
     then Some (pte_new n (flag.union fl flag.V)) else sv_view pt s w) ∧
  sys_free s' = sys_free s - sv_need pt s (vkey v) ∧
  (∀ w, sv_need pt' s' w ≤ sv_need pt s w) ∧
  (∀ w, w / 512 = vkey v / 512 → 0 ≤ w → sv_need pt' s' w = 0).
Proof.
  intros Hi Hn Hf Hm. unfold vkey in *.
  destruct (find_pte_create pt v s) as [[[r pt1] s1]| | |] eqn:Hc;
    [|unfold map, mbind, M_bind in Hm; by rewrite Hc in Hm..].
  destruct (find_pte_create_spec lo pt v s r pt1 s1 Hi Hc) as (a&Hr&[I1 R1 S1 W1 V1 F1 M1]).
  rewrite (map_after_create pt v n fl s r pt1 s1 a Hc Hr) in Hm.
  destruct (new_entry_facts n fl Hn Hf) as [Hb Hv].
  destruct (validb _) eqn:Hval; [done|]. simplify_eq. rewrite <- R1 in W1.
  destruct (leaf_write_spec lo pt' s1 (vpn_0 v) a _ I1 W1 Hb) as (I2&S2&V2&K2).
  rewrite Hv in V2. split_and!; eauto using sys_step_trans.
  - rewrite <- sv_view_mod, <- V1, (view_slot _ _ _ a W1). simpl. by rewrite Hval.
  - intros w. rewrite V2, V1. done.
  - unfold sys_free in *. simpl. rewrite F1. by rewrite sv_need_mod.
  - intros w. apply sv_need_mono; [done|]. intros q b Hq Hb'.
    rewrite <- R1, K2 by done. rewrite R1. by apply M1.
  - intros w Hw Hw0. apply (sv_need_0 _ _ _ a).
    etrans; [apply K2; auto with hyp|]. rewrite <- W1.
    rewrite <- (vpath_mod (vpn_0 v)). by rewrite (vpath_block w (vpn_0 v mod 2 ^ 27)).
Qed.

Lemma map_total lo pt s v n fl :
  sv_inv lo pt s → sv_view pt s (vkey v) = None →
  sv_need pt s (vkey v) ≤ sys_free s → returns (map pt v n fl s).
Proof.
  unfold vkey. rewrite sv_need_mod, <- sv_view_mod. intros Hi Hv Hn.
  destruct (find_pte_create_total lo pt v s Hi Hn) as [[[r pt1] s1] Hc].
  destruct (find_pte_create_spec lo pt v s r pt1 s1 Hi Hc) as (a&Hr&[I1 R1 S1 W1 V1 F1 M1]).
  unfold returns. rewrite (map_after_create pt v n fl s r pt1 s1 a Hc Hr).
  rewrite <- V1 in Hv. rewrite <- R1 in W1. rewrite (view_slot _ _ _ a W1) in Hv.
  simpl in Hv. destruct (validb _); [done|eauto].
Qed.

Lemma sv_view_need pt s v : is_Some (sv_view pt s v) → sv_need pt s v = 0.
Proof.
  unfold sv_view, entry. destruct (walk _ _ (vpath v)) eqn:E; simpl; [|by intros []].
  intros _. by eapply sv_need_0.
Qed.

Lemma map_mapped lo pt s v n fl :
  sv_inv lo pt s → is_Some (sv_view pt s (vkey v)) →
  map pt v n fl s = Panic AssertFailed.
Proof.
  unfold vkey. rewrite <- sv_view_mod. intros Hi Hv.
  pose proof (sv_view_need _ _ _ Hv) as Hn.
  destruct (find_pte_create_total lo pt v s Hi) as [[[r pt1] s1] Hc].
  { rewrite Hn. destruct Hi as [[_ (al&Hal&Hw)] _ _]. unfold sys_free. rewrite Hal.
    destruct Hw. unfold free_count. lia. }
  destruct (find_pte_create_spec lo pt v s r pt1 s1 Hi Hc) as (a&Hr&[I1 R1 S1 W1 V1 F1 M1]).
  rewrite (map_after_create pt v n fl s r pt1 s1 a Hc Hr).
  rewrite <- V1 in Hv. rewrite <- R1 in W1. rewrite (view_slot _ _ _ a W1) in Hv.
  simpl in Hv. by destruct (validb _); [|destruct Hv].
Qed.

Lemma unmap_spec lo pt s v :
  sv_inv lo pt s → is_Some (sv_view pt s (vpn_0 v)) →
  ∃ s', unmap pt v s = Ret (pt, s') ∧ sv_inv lo pt s' ∧
    sys_step lo (sv_frames pt) s (sv_frames pt) s' ∧
    (∀ w, sv_view pt s' w =
       if decide (w mod 2 ^ 27 = vkey v) then None else sv_view pt s w).
Proof.
  intros Hi [e Hv]. unfold sv_view, entry in Hv.
  destruct (walk _ _ _) as [a|] eqn:Hw; simpl in Hv; [|done].
  destruct (validb _) eqn:Hval; [|done]. injection Hv as Hv.
  destruct (leaf_write_spec lo pt s (vpn_0 v) a pte_empty Hi Hw) as (I2&S2&V2&_).
  { simpl. unfold W64. lia. }
  eexists. split; [|eauto].
  unfold unmap, mbind, M_bind, lift, gets. rewrite find_pte_eq, Hw. simpl.
  rewrite is_valid_eq, Hval. done.
Qed.

(** The invariant and the map only depend on the table's own frames. *)
Lemma sv_frame lo pt s s' :
  sv_inv lo pt s → sys_wf lo s' → owned lo s' (sv_frames pt) →
  ∀ ps, same_outside ps (sys_mem s) (sys_mem s') →
    (∀ q, q ∈ sv_frames pt → q ∉ ps) →
    sv_inv lo pt s' ∧ (∀ v, sv_view pt s' v = sv_view pt s v) ∧
    (∀ v, sv_need pt s' v = sv_need pt s v).
Proof.
  intros [Hwf Ho Ht] Hwf' Ho' ps Hs Hd. split_and!.
  - split; [done..|]. by eapply tree_frame.
  - intros v. unfold sv_view. eapply entry_frame; eauto with hyp.
  - intros v. unfold sv_need.
    rewrite !(walk_frame _ _ _ _ _ Ht Hs Hd); auto with hyp.
Qed.

(** [map] comes back or panics, whatever the state. *)
Lemma is_valid_stops e : stops (is_valid e).
Proof.
  unfold is_valid, has_flag, pte_flags. apply stops_obind; [|auto with stops].
  apply stops_unwrap.
Qed.
Lemma pte_ref_stops p i : stops (pte_ref p i).
Proof. unfold pte_ref. destruct (_ && _); auto with stops. Qed.
Lemma alloc_stops al : stops (alloc al).
Proof.
  unfold alloc. destruct (vec_pop _) as [[??]|]; [auto with stops|].
  destruct (_ =? _); [auto with stops|]. stops_tac.
Qed.
#[export] Hint Resolve is_valid_stops pte_ref_stops alloc_stops : stops.

Lemma frame_alloc_stops s : stops (frame_alloc s).
Proof. unfold frame_alloc, tracker_new. stops_tac. case_match; stops_tac. Qed.
#[export] Hint Resolve frame_alloc_stops : stops.

Lemma descend_create_stops p i fs s : stops (descend_create p i fs s).
Proof. unfold descend_create. stops_tac. case_match; stops_tac. Qed.
#[export] Hint Resolve descend_create_stops : stops.

Lemma find_pte_create_loop_stops l p fs s : stops (find_pte_create_loop l p fs s).
Proof.
  revert p fs s. induction l as [|[i idx] l IH]; intros p fs s; simpl; [stops_tac|].
  destruct (i =? 2); stops_tac.
Qed.
#[export] Hint Resolve find_pte_create_loop_stops : stops.

Lemma map_stops pt v n fl s : stops (map pt v n fl s).
Proof. unfold map, find_pte_create. stops_tac. Qed.

#[export] Instance PageTableSv39_spec : PageTableSpec PageTableSv39.
Proof.
  refine {| pt_inv := sv_inv; pt_view := sv_view; pt_frames := sv_frames;
            pt_need := sv_need |}; simpl.
  - by intros lo p s [? ? ?].
  - apply sv_view_mod.
  - apply sv_need_range.
  - apply sv_frame.
  - apply map_total.
  - apply map_spec.
  - apply map_mapped.
  - apply map_stops.
  - intros lo p s v e _ Hv. unfold vkey in Hv. rewrite <- sv_view_mod in Hv.
    by apply translate_view.
Defined.
