(* ===== verification/Sv39Walk.v ===== *)
(** * The guest page walk

    [walk_page_table] reads a table through a closure, as the hypervisor does
    with a guest's own first-stage table.  On a table of the shape [map] keeps
    it finds the entry [translate] finds, and accepts it exactly when the
    architecture does. *)
From stdpp Require Import base tactics numbers list option gmap.
From S2P Require Import Prelude Constants Address Pte Mem FrameAllocator PageTable.
From S2P Require Import Sv39 Sv39Tree Sv39Facts.

(** Reading the memory the tables live in. *)
Definition raw_read (m : mem) (a : Z) : outcome Z := Ret (load 8 m a).

(** A leaf the walk accepts: readable or executable, and not write-only. *)
Definition accepted (e : PageTableEntry) : bool :=
  (readb e || execb e) && negb (writeb e && negb (readb e)).

Lemma va_index va k j :
  0 ≤ va → 0 ≤ k → 12 + k = j → Z.land (Z.shiftr va j) 0x1ff = ((va / 4096) / 2 ^ k) mod 512.
Proof.
  intros Hva Hk <-. rewrite (land_mask _ 9) by done. rewrite shiftr_div by lia.
  rewrite Z.div_div by (try apply Z.pow_nonzero; lia).
  rewrite Z.pow_add_r by lia. done.
Qed.

Lemma pointer_fields e :
  validb e = true → is_pointer e →
  writeb e = false ∧ readb e = false ∧ execb e = false ∧
  shl (Z.shiftr (bits e) 10) 12 = ppn_0 (pte_ppn e) * 4096.
Proof.
  intros Hv Hp. specialize (Hp Hv). pose proof (pte_ppn_range e) as Hr.
  unfold writeb, readb, execb. rewrite Hp.
  assert (∀ k, 0 < k < 8 → Z.testbit (ppn_0 (pte_ppn e) * 1024 + 1) k = false) as Hb.
  { intros k Hk. rewrite <- (testbit_mod _ 8 k) by lia.
    replace (ppn_0 (pte_ppn e) * 1024) with (ppn_0 (pte_ppn e) * 4 * 2 ^ 8) by lia.
    rewrite mod_lo by lia. apply Z.bits_above_log2; [lia|]. simpl. lia. }
  rewrite !Hb by lia. split_and!; [done..|].
  rewrite shiftr_div by done. change (2 ^ 10) with 1024. rewrite div_hi by lia.
  rewrite shl_small by (unfold W64; lia). done.
Qed.

(** One level of the walk. *)
Lemma walk_loop_cons m level levels lvl a i va path :
  ppn_ok a → idx_ok i → level_of level = Ret lvl →
  Z.land (Z.shiftr va (30 - 9 * level)) 0x1ff = i →
  walk_loop (level :: levels) (ppn_0 a * 4096) va (raw_read m) path =
  let e := read_pte m (pte_slot a i) in
  let path' := path ++ [MkWrapper (pte_slot a i) e lvl] in
  if negb (validb e) || (writeb e && negb (readb e)) then Ret None
  else if readb e || execb e then Ret (Some (MkWalk path' (leaf_pa lvl e va)))
  else walk_loop levels (shl (Z.shiftr (bits e) 10) 12) va (raw_read m) path'.
Proof.
  intros Ha Hi Hl Hidx. cbn [walk_loop]. rewrite Hidx.
  unfold ppn_ok, idx_ok in *. rewrite uadd_run by (unfold W64; lia). simpl.
  rewrite Hl. simpl. rewrite is_valid_eq, writable_eq, readable_eq, executable_eq. simpl.
  unfold pte_slot. rewrite frame_base_eq by done. done.
Qed.

(** An interior level: stop at an invalid entry, else descend to the child. *)
Lemma walk_loop_interior m root fs level levels lvl p a i va path :
  tree_ok m root fs → path_ok p → (length p ≤ 1)%nat → walk m root p = Some a →
  idx_ok i → level_of level = Ret lvl →
  Z.land (Z.shiftr va (30 - 9 * level)) 0x1ff = i →
  ∃ path', walk_loop (level :: levels) (ppn_0 a * 4096) va (raw_read m) path =
  match child m a i with
  | None => Ret None
  | Some b => walk_loop levels (ppn_0 b * 4096) va (raw_read m) path'
  end.
Proof.
  intros Ht Hp Hl Ha Hi Hlvl Hidx.
  assert (ppn_ok a) as Hok by (eapply (tree_ppn _ _ _ Ht), (tree_in _ _ _ Ht p); done).
  eexists. rewrite (walk_loop_cons m level levels lvl a i) by done. cbv zeta.
  unfold child. pose proof (tree_ptr _ _ _ Ht p a i Hp Hl Hi Ha) as Hptr.
  destruct (validb (read_pte m (pte_slot a i))) eqn:Hv; [|done].
  destruct (pointer_fields _ Hv Hptr) as (->&->&->&->). done.
Qed.

Lemma walk_page_table_view lo pt s va :
  sv_inv lo pt s → 0 ≤ va →
  ∃ path, walk_page_table (ppn_0 (root_ppn pt) * 4096) va (raw_read (sys_mem s)) =
    Ret (e ← sv_view pt s (va / 4096);
         if accepted e then Some (MkWalk path (leaf_pa Level4KB e va)) else None).
Proof.
  intros [_ _ Ht] Hva. destruct (vidx_range (va / 4096)) as (Hi2&Hi1&Hi0).
  unfold walk_page_table, sv_view, entry, vpath.
  destruct (walk_loop_interior (sys_mem s) _ _ 0 [1; 2] Level1GB [] (root_ppn pt)
    (vidx2 (va / 4096)) va [] Ht path_ok_nil ltac:(simpl; lia) eq_refl Hi2 eq_refl)
    as [path1 ->]; [by apply (va_index va 18)|].
  cbn [walk]. destruct (child _ _ _) as [b|] eqn:Hb; cbn [mbind option_bind]; [|by exists []].
  destruct (walk_loop_interior (sys_mem s) _ _ 1 [2] Level2MB [vidx2 (va / 4096)] b
    (vidx1 (va / 4096)) va path1 Ht ltac:(auto with hyp)
    ltac:(simpl; lia) ltac:(simpl; by rewrite Hb) Hi1 eq_refl) as [path2 ->];
    [by apply (va_index va 9)|].
  destruct (child (sys_mem s) b _) as [c|] eqn:Hc; cbn [mbind option_bind]; [|by exists []].
  assert (ppn_ok c) as Hok.
  { eapply (tree_ppn _ _ _ Ht), (tree_in _ _ _ Ht (vpath (va / 4096))).
    - auto with hyp.
    - simpl. rewrite Hb. simpl. by rewrite Hc. }
  rewrite (walk_loop_cons _ 2 [] Level4KB c (vidx0 (va / 4096))); [|done..|].
  2: { rewrite (va_index va 0) by lia. unfold vidx0. by rewrite Z.div_1_r. }
  eexists. cbv zeta. unfold accepted.
  destruct (validb _); [|done]. cbn [mbind option_bind].
  destruct (writeb _), (readb _), (execb _); done.
Qed.

Lemma sv_view_bits lo pt s v e : sv_inv lo pt s → sv_view pt s v = Some e → 0 ≤ bits e.
Proof.
  intros Hi. unfold sv_view, entry. destruct (walk _ _ _); [|done]. cbn [mbind option_bind].
  destruct (validb _); [|done]. intros [= <-].
  apply load_range, (sys_mem_ok _ _ (inv_sys _ _ _ Hi)).
Qed.

(** The physical address of a leaf whose reserved bits are clear. *)
Lemma leaf_pa_4k e va :
  0 ≤ bits e < 2 ^ 54 → 0 ≤ va → leaf_pa Level4KB e va = ppn_0 (pte_ppn e) * 4096 + va mod 4096.
Proof.
  intros He Hva. unfold leaf_pa. rewrite pte_ppn_eq. simpl ppn_0.
  rewrite (land_mask va 12) by done. rewrite shiftr_div by done. change (2 ^ 10) with 1024.
  rewrite (Z.mod_small (bits e / 1024)) by dlia.
  rewrite shl_small by (unfold W64; dlia). change (2 ^ 12) with 4096.
  apply (lor_shifted _ _ 12); [done|]. apply Z.mod_pos_bound. done.
Qed.

Lemma translate_va_view pt s va e :
  0 ≤ va → sv_view pt s (va / 4096) = Some e → bits e < 2 ^ 54 →
  translate_va pt va s = Ret (Some (ppn_0 (pte_ppn e) * 4096 + va mod 4096), s).
Proof.
  intros Hva Hv He. unfold translate_va.
  rewrite VirtPageNum_from_usize_mod, shiftr_div by done. change (2 ^ 12) with 4096.
  assert (sv_view pt s (vpn_0 (VPN ((va / 4096) mod 2 ^ 27))) = Some e) as Hv'
    by by rewrite <- Hv, (sv_view_mod _ _ (va / 4096)).
  unfold mbind, M_bind. rewrite (translate_view _ _ _ _ Hv'). unfold lift.
  pose proof (pte_ppn_range e) as Hr. pose proof (Z.mod_pos_bound va 4096 ltac:(done)).
  rewrite (land_mask va 12), shl_small by (unfold W64; lia). change (2 ^ 12) with 4096.
  rewrite uadd_run by (unfold W64; lia). done.
Qed.
