(* ===== verification/Sv39New.v ===== *)
(** * Fresh page tables

    [new] and [new_guest] of [Sv39]: the table they return is empty, owns its
    frames, and a guest root is 16 KiB aligned. *)
From stdpp Require Import base tactics numbers list option sets.
From S2P Require Import Prelude Constants Address Pte Mem FrameAllocator PageTable.
From S2P Require Import Sv39 Sv39Tree Sv39Facts.

(** Every entry of the frame is zero. *)
Definition zeroed (m : mem) (p : PhysPageNum) : Prop :=
  ∀ i, idx_ok i → read_pte m (pte_slot p i) = pte_empty.

Lemma zeroed_tree m root fs :
  zeroed m root → root ∈ fs → (∀ a, a ∈ fs → ppn_ok a) → tree_ok m root fs.
Proof.
  intros Hz Hin Hok.
  assert (Hw : ∀ p a, path_ok p → walk m root p = Some a → p = [] ∧ a = root).
  { intros [|i p] a [Hp _]; simpl; [by intros [= ->]|].
    apply Forall_cons in Hp as [Hi _]. unfold child. by rewrite Hz. }
  split; [done| | |].
  - intros p a Hp Ha. by destruct (Hw p a Hp Ha) as [-> ->].
  - intros p q a Hp Hq Ha Hb.
    destruct (Hw p a Hp Ha) as [-> _], (Hw q a Hq Hb) as [-> _]. done.
  - intros p a i Hp _ Hi Ha. destruct (Hw p a Hp Ha) as [-> ->].
    rewrite Hz by done. by intros Hv.
Qed.

Lemma zeroed_view m root v : zeroed m root → entry m root (vpath v) (vidx0 v) = None.
Proof.
  intros Hz. unfold entry, vpath. simpl.
  assert (child m root (vidx2 v) = None) as ->; [|done].
  unfold child. rewrite Hz by apply vidx_range. done.
Qed.

(** Frames owned while one more is allocated keep their contents. *)
Lemma fresh_zeroed lo s p s' q fs :
  fresh_frame lo s p s' → owned lo s fs → sys_wf lo s → q ∈ fs →
  zeroed (sys_mem s) q → zeroed (sys_mem s') q.
Proof.
  intros [_ Hok _ Hm Hni _ _ _ _] Ho Hwf Hq Hz i Hi. rewrite Hm.
  specialize (Hni _ Ho).
  rewrite read_zero_frame_other; [by apply Hz|done| |done|set_solver].
  by eapply owned_ppn_ok.
Qed.

Lemma fresh_is_zeroed lo s p s' : fresh_frame lo s p s' → zeroed (sys_mem s') p.
Proof.
  intros [_ Hok _ Hm _ _ _ _] i Hi. rewrite Hm. by apply read_zero_frame.
Qed.

(** A fresh table: the frames it took, and nothing mapped. *)
Record fresh_table (lo : Z) (s : Sys) (pt : PageTableSv39) (s' : Sys) : Prop := {
  ft_inv : sv_inv lo pt s';
  ft_step : sys_step lo [] s (sv_frames pt) s';
  ft_empty : ∀ v, sv_view pt s' v = None;
  ft_root : root_ppn pt ∈ sv_frames pt;
}.

Lemma fresh_table_intro lo s pt s' :
  sys_wf lo s → (∃ al, FRAME_ALLOCATOR s = Some al) →
  sys_step lo [] s (sv_frames pt) s' → root_ppn pt ∈ sv_frames pt →
  zeroed (sys_mem s') (root_ppn pt) → fresh_table lo s pt s'.
Proof.
  intros Hwf (al&Hal) Hst Hin Hz.
  assert (Ho : owned lo s' (sv_frames pt)).
  { apply (step_owned _ _ _ _ _ Hst []). split; [constructor|].
    exists al. split; [done|constructor]. }
  pose proof (step_wf _ _ _ _ _ Hst) as Hwf'.
  split; try done.
  - split; [done..|]. apply zeroed_tree; try done.
    intros a Ha. by eapply owned_ppn_ok.
  - intros v. by apply zeroed_view.
Qed.

Lemma new_spec lo s pt s' :
  sys_wf lo s → new s = Ret (pt, s') → fresh_table lo s pt s'.
Proof.
  intros Hwf Hn. unfold new in Hn. minv.
  match goal with H : frame_alloc s = Ret (Some ?t, _) |- _ =>
    pose proof (frame_alloc_some lo s t _ Hwf H) as Hff end.
  apply fresh_table_intro; simpl; try done.
  - destruct Hwf as [_ (al&?&_)]. eauto.
  - by apply (fresh_step lo [] s).
  - set_solver.
  - by eapply fresh_is_zeroed.
Qed.

(** [alloc_n] adds frames one by one and leaves owned frames alone. *)
Lemma alloc_n_spec lo n fs s fs' s' q :
  sys_wf lo s → owned lo s (ft_ppn <$> fs) → q ∈ ft_ppn <$> fs →
  zeroed (sys_mem s) q → alloc_n n fs s = Ret (fs', s') →
  sys_step lo (ft_ppn <$> fs) s (ft_ppn <$> fs') s' ∧ zeroed (sys_mem s') q ∧
  length fs' = (length fs + n)%nat.
Proof.
  revert fs s. induction n as [|n IH]; intros fs s Hwf Ho Hq Hz Ha; simpl in Ha; minv.
  - split_and!; [by apply sys_step_refl|done|lia].
  - match goal with H : frame_alloc s = Ret (Some ?t, _) |- _ =>
      pose proof (frame_alloc_some lo s t _ Hwf H) as Hff end.
    pose proof (fresh_step lo (ft_ppn <$> fs) _ _ _ Hwf Hff) as Hst.
    match goal with H : alloc_n n (vec_push fs ?t) ?s1 = _ |- _ =>
      assert (Hp : ft_ppn <$> vec_push fs t = (ft_ppn <$> fs) ++ [ft_ppn t])
        by (unfold vec_push; by rewrite fmap_app);
      apply IH in H as (S2&Z2&L2) end; rewrite ?Hp.
    + rewrite Hp in S2. split_and!; [by eapply sys_step_trans|done|].
      rewrite L2. unfold vec_push. rewrite length_app. simpl. lia.
    + by eapply step_wf.
    + by eapply owned_step.
    + set_solver.
    + by eapply fresh_zeroed.
Qed.

(** The search for an aligned root frame. *)
Lemma root_loop_spec lo fuel rf fs s rf' fs' s' :
  sys_wf lo s → owned lo s (ft_ppn <$> (fs ++ [rf])) → zeroed (sys_mem s) (ft_ppn rf) →
  root_loop fuel rf fs s = Ret ((rf', fs'), s') →
  sys_step lo (ft_ppn <$> (fs ++ [rf])) s (ft_ppn <$> (fs' ++ [rf'])) s' ∧
  zeroed (sys_mem s') (ft_ppn rf') ∧ ppn_0 (ft_ppn rf') mod 4 = 0.
Proof.
  revert rf fs s. induction fuel as [|fuel IH]; intros rf fs s Hwf Ho Hz Hr; simpl in Hr;
    rewrite (land_mask _ 2) in Hr by done; change (2 ^ 2) with 4 in Hr;
    destruct (Z.eqb_spec (ppn_0 (ft_ppn rf) mod 4) 0) as [E|E]; simpl in Hr; minv;
    try by (split_and!; [by apply sys_step_refl|done|done]).
  match goal with H : frame_alloc s = Ret (Some ?t, ?s1) |- _ =>
    pose proof (frame_alloc_some lo s t s1 Hwf H) as Hff; rename t into t1 end.
  pose proof (fresh_step lo (ft_ppn <$> (fs ++ [rf])) _ _ _ Hwf Hff) as Hst.
  assert (Hp : (ft_ppn <$> (fs ++ [rf])) ++ [ft_ppn t1] =
               ft_ppn <$> (vec_push fs rf ++ [t1])).
  { unfold vec_push. by rewrite !fmap_app. }
  rewrite Hp in Hst.
  match goal with H : root_loop fuel _ _ _ = _ |- _ => apply IH in H as (S2&Z2&A2) end.
  - split_and!; [by eapply sys_step_trans|done..].
  - by eapply step_wf.
  - by eapply owned_step.
  - by eapply fresh_is_zeroed.
Qed.

Lemma owned_nil lo s : sys_wf lo s → owned lo s [].
Proof.
  intros [_ (al&?&_)]. split; [constructor|]. exists al. split; [done|constructor].
Qed.

Lemma new_guest_spec lo s pt s' :
  sys_wf lo s → new_guest s = Ret (pt, s') →
  fresh_table lo s pt s' ∧ ppn_0 (root_ppn pt) mod 4 = 0.
Proof.
  intros Hwf Hn. unfold new_guest in Hn. minv0.
  match goal with H : frame_alloc s = Ret (Some ?t, ?s1) |- _ =>
    pose proof (frame_alloc_some lo s t s1 Hwf H) as Hff; rename t into t1; rename s1 into u1 end.
  pose proof (fresh_step lo [] _ _ _ Hwf Hff) as S1. simpl in S1.
  pose proof (owned_step _ _ _ _ _ S1 (owned_nil lo s Hwf)) as O1.
  match goal with H : root_loop _ _ _ _ = Ret (?r, ?s2) |- _ =>
    destruct r as [rf fs]; apply (root_loop_spec lo) in H as (S2&Z2&A2);
      [|by eapply step_wf|done|by eapply fresh_is_zeroed] end.
  cbn [fst snd] in *.
  match goal with H : alloc_n 3 _ _ = _ |- _ =>
    apply (alloc_n_spec lo _ _ _ _ _ (ft_ppn rf)) in H as (S3&Z3&L3) end.
  - split; [|done]. apply fresh_table_intro; simpl; try done.
    + destruct Hwf as [_ (al&?&_)]. eauto.
    + eapply sys_step_trans; [exact S1|]. by eapply sys_step_trans.
    + eapply prefix_elem; [exact (step_prefix _ _ _ _ _ S3)|].
      unfold vec_push. rewrite fmap_app. set_solver.
  - by eapply step_wf.
  - by eapply owned_step.
  - unfold vec_push. rewrite fmap_app. set_solver.
  - done.
Qed.

(** ** Termination and the boot-time layout *)

Lemma sys_free_nonneg lo s : sys_wf lo s → 0 ≤ sys_free s.
Proof.
  intros [_ (al&Hal&[])]. unfold sys_free. rewrite Hal. unfold free_count. lia.
Qed.

Lemma frame_alloc_returns lo s : sys_wf lo s → returns (frame_alloc s).
Proof.
  intros [_ (al&Hal&Hw)]. destruct (alloc_total lo al Hw) as ([[p|] al']&Ha&_).
  - eexists. apply frame_alloc_Ret. exists al, al'. eauto 10.
  - eexists. apply frame_alloc_Ret. exists al, al'. eauto 10.
Qed.

Lemma frame_alloc_fuel s : frame_alloc s ≠ NoFuel.
Proof.
  unfold frame_alloc, mbind, M_bind, gets, lift. destruct (FRAME_ALLOCATOR s) as [al|]; [|done].
  simpl. unfold alloc. destruct (vec_pop _) as [[p r]|]; [done|].
  destruct (_ =? _); [done|]. unfold uadd, usub, mbind, outcome_bind.
  destruct (_ <? _); [|done]. by destruct (_ <=? _).
Qed.

Lemma alloc_n_fuel n fs s : alloc_n n fs s ≠ NoFuel.
Proof.
  revert fs s. induction n as [|n IH]; intros fs s; [done|].
  simpl. unfold mbind, M_bind, lift. pose proof (frame_alloc_fuel s).
  destruct (frame_alloc s) as [[[t|] s1]| | |]; simpl; first [done|apply IH].
Qed.

(** The search never runs out of rounds. *)
Lemma root_loop_fuel lo fuel rf fs s :
  sys_wf lo s → sys_free s < Z.of_nat fuel → root_loop fuel rf fs s ≠ NoFuel.
Proof.
  revert rf fs s. induction fuel as [|fuel IH]; intros rf fs s Hwf Hf.
  - pose proof (sys_free_nonneg lo s Hwf). lia.
  - simpl. destruct (negb _); [|done].
    destruct (frame_alloc_returns lo s Hwf) as [[[t|] s1] Hfa];
      unfold mbind, M_bind, lift; rewrite Hfa; simpl; [|done].
    destruct (frame_alloc_some lo s t s1 Hwf Hfa). apply IH; [done|lia].
Qed.

(** An allocator that has not got any frame back hands out consecutive frames. *)
Definition boot_alloc (c e : Z) (s : Sys) : Prop :=
  FRAME_ALLOCATOR s = Some (MkAlloc c e []) ∧ 0 ≤ c ∧ e ≤ 2 ^ 44.
Definition tracker (c : Z) : FrameTracker := MkTracker (PPN c).

Lemma frame_alloc_boot c e s :
  boot_alloc c e s → c < e →
  ∃ s', frame_alloc s = Ret (Some (tracker c), s') ∧ boot_alloc (c + 1) e s' ∧
    sys_mem s' = zero_frame (sys_mem s) (PPN c).
Proof.
  intros (Hs&Hc&He) Hlt. exists (MkSys (zero_frame (sys_mem s) (PPN c)) (Some (MkAlloc (c + 1) e []))).
  split; [|split; [|done]; split; [done|lia]].
  apply frame_alloc_Ret. exists (MkAlloc c e []), (MkAlloc (c + 1) e []).
  split; [done|]. right. exists (PPN c). split; [|done].
  unfold alloc. simpl. rewrite (proj2 (Z.eqb_neq c e)) by lia.
  rewrite uadd_run by (unfold W64; lia). simpl. rewrite usub_run by lia. simpl.
  replace (c + 1 - 1) with c by lia. by rewrite from_usize_id by lia.
Qed.

Lemma alloc_n_boot n c e fs s :
  boot_alloc c e s → c + Z.of_nat n ≤ e →
  ∃ s', alloc_n n fs s = Ret (fs ++ (tracker <$> upto c n), s') ∧
    boot_alloc (c + Z.of_nat n) e s'.
Proof.
  revert c fs s. induction n as [|n IH]; intros c fs s Hb Hn.
  - exists s. simpl. rewrite app_nil_r. split; [done|].
    by rewrite Z.add_0_r.
  - destruct (frame_alloc_boot c e s Hb) as (s1&Ha&Hb1&_); [lia|].
    destruct (IH (c + 1) (vec_push fs (tracker c)) s1 Hb1) as (s2&Ha2&Hb2); [lia|].
    exists s2. simpl. unfold mbind, M_bind, lift. rewrite Ha. simpl. rewrite Ha2.
    unfold vec_push. rewrite <- app_assoc. split; [done|].
    by replace (c + Z.of_nat (S n)) with (c + 1 + Z.of_nat n) by lia.
Qed.

(** Distance to the next multiple of four. *)
Lemma root_loop_boot k fuel c e fs s :
  (k < fuel)%nat → (c + Z.of_nat k) mod 4 = 0 → (Z.of_nat k < 4) →
  boot_alloc (c + 1) e s → 0 ≤ c → c + Z.of_nat k < e →
  ∃ s', root_loop fuel (tracker c) fs s =
      Ret ((tracker (c + Z.of_nat k), fs ++ (tracker <$> upto c k)), s') ∧
    boot_alloc (c + Z.of_nat k + 1) e s'.
Proof.
  revert fuel c fs s. induction k as [|k IH]; intros [|fuel] c fs s Hfu Hm Hk Hb Hc He;
    try lia; simpl; rewrite (land_mask _ 2) by done; change (2 ^ 2) with 4.
  - rewrite Z.add_0_r in *. rewrite Hm. simpl. rewrite app_nil_r. eauto.
  - assert (c mod 4 ≠ 0) by (intros H0; rewrite Nat2Z.inj_succ in *;
      pose proof (Z.div_mod c 4); pose proof (Z.div_mod (c + Z.succ (Z.of_nat k)) 4); lia).
    rewrite (proj2 (Z.eqb_neq _ _)) by done. simpl.
    destruct (frame_alloc_boot (c + 1) e s Hb) as (s1&Ha&Hb1&_); [lia|].
    destruct (IH fuel (c + 1) (vec_push fs (tracker c)) s1) as (s2&Hr&Hb2);
      rewrite ?Nat2Z.inj_succ in *; try lia; try done.
    { by replace (c + 1 + Z.of_nat k) with (c + Z.succ (Z.of_nat k)) by lia. }
    exists s2. unfold mbind, M_bind, lift. rewrite Ha. simpl. rewrite Hr.
    unfold vec_push. rewrite <- app_assoc. simpl.
    replace (c + Z.succ (Z.of_nat k)) with (c + 1 + Z.of_nat k) by lia. done.
Qed.

(** At boot [new_guest] succeeds with seven frames and the four frames of the
    root are consecutive. *)
Lemma new_guest_boot c e s :
  boot_alloc c e s → c + 7 ≤ e →
  ∃ pt s', new_guest s = Ret (pt, s') ∧
    (∃ k : nat, (k < 4)%nat ∧ ppn_0 (root_ppn pt) = c + Z.of_nat k ∧
      frames pt = tracker <$> upto c (k + 4)) ∧
    ppn_0 (root_ppn pt) mod 4 = 0.
Proof.
  intros Hb He. pose proof (proj1 (proj2 Hb)) as Hc.
  destruct (frame_alloc_boot c e s Hb) as (s1&Ha&Hb1&_); [lia|].
  set (k := Z.to_nat ((- c) mod 4)).
  assert (Hk : 0 ≤ (- c) mod 4 < 4) by by apply Z.mod_pos_bound.
  assert (Hkm : (c + Z.of_nat k) mod 4 = 0).
  { unfold k. rewrite Z2Nat.id by lia. rewrite Z.add_mod_idemp_r by lia.
    replace (c + - c) with 0 by lia. done. }
  assert (Hfree : sys_free s1 = e - (c + 1)).
  { unfold sys_free. destruct Hb1 as [-> _]. done. }
  destruct (root_loop_boot k (S (Z.to_nat (sys_free s1))) c e [] s1) as (s2&Hr&Hb2);
    [unfold k; lia|done|lia|done|lia|lia|].
  destruct (alloc_n_boot 3 (c + Z.of_nat k + 1) e
    (vec_push ([] ++ (tracker <$> upto c k)) (tracker (c + Z.of_nat k))) s2 Hb2)
    as (s3&Hn&Hb3); [lia|].
  eexists _, s3. split; [|split; [exists k; split_and!|]].
  - unfold new_guest, mbind, M_bind, lift, gets. rewrite Ha. cbn [unwrap fst snd].
    rewrite Hr. cbn [fst snd]. rewrite Hn. done.
  - lia.
  - done.
  - simpl. unfold vec_push. rewrite upto_app, fmap_app, <- app_assoc. simpl.
    do 2 f_equal; f_equal; repeat (f_equal; try lia).
  - done.
Qed.

#[export] Instance PageTableSv39_new_spec : NewTableSpec PageTableSv39.
Proof.
  split. intros lo s p s' Hwf Hn. by destruct (new_spec lo s p s' Hwf Hn).
Qed.

#[export] Instance PageTableSv39_new_guest_spec : NewGuestSpec PageTableSv39.
Proof.
  split. intros lo s p s' Hwf Hn. by destruct (new_guest_spec lo s p s' Hwf Hn) as [[] _].
Qed.
