(* ===== verification/Sv39Claims.v ===== *)
(** * What the Sv39 table promises

    The operations of [src/src/page_table/sv39.rs] against an abstract map:
    any sequence of [map] and [unmap] behaves as insertions and deletions on a
    finite map from 27-bit page numbers to entries, and fails exactly when the
    abstract operations are undefined or frames run out. *)
From stdpp Require Import base tactics numbers list option gmap.
From S2P Require Import Prelude Constants Address Pte Mem FrameAllocator PageTable.
From S2P Require Import Sv39 Sv39Tree Sv39Facts Sv39Walk Sv39New.

(** ** Operations and their abstract meaning *)

Inductive pt_op :=
| OpMap (vpn : VirtPageNum) (ppn : PhysPageNum) (flags : PTEFlags)
| OpUnmap (vpn : VirtPageNum).

Definition op_ok (o : pt_op) : Prop :=
  match o with
  | OpMap _ n fl => 0 ≤ ppn_0 n < 2 ^ 44 ∧ 0 ≤ flags_bits fl < 256
  | OpUnmap _ => True
  end.

Definition run_op (pt : PageTableSv39) (o : pt_op) : M Sys PageTableSv39 :=
  match o with
  | OpMap v n fl => map pt v n fl
  | OpUnmap v => unmap pt v
  end.
Definition run_ops (ops : list pt_op) (pt : PageTableSv39) : M Sys PageTableSv39 :=
  mfold ops run_op pt.

(** The abstract state: a finite map. *)
Abbreviation amap := (gmap Z PageTableEntry).
Definition spec_op (m : amap) (o : pt_op) : option amap :=
  match o with
  | OpMap v n fl =>
      match m !! vkey v with
      | None => Some (<[vkey v := pte_new n (flag.union fl flag.V)]> m)
      | Some _ => None
      end
  | OpUnmap v =>
      match m !! vkey v with
      | Some _ => Some (delete (vkey v) m)
      | None => None
      end
  end.
Fixpoint spec_ops (m : amap) (ops : list pt_op) : option amap :=
  match ops with
  | [] => Some m
  | o :: ops' => m' ← spec_op m o; spec_ops m' ops'
  end.

(** The abstraction relation. *)
Record simulates (lo : Z) (m : amap) (pt : PageTableSv39) (s : Sys) : Prop := {
  sim_inv : sv_inv lo pt s;
  sim_view : ∀ w, sv_view pt s w = m !! (w mod 2 ^ 27);
}.

Definition op_need (o : pt_op) : Z := match o with OpMap _ _ _ => 2 | OpUnmap _ => 0 end.
Fixpoint ops_need (ops : list pt_op) : Z :=
  match ops with [] => 0 | o :: ops' => op_need o + ops_need ops' end.

Lemma vkey_mod v : vkey v mod 2 ^ 27 = vkey v.
Proof. unfold vkey. by apply Z.mod_mod. Qed.

Lemma sim_key lo m pt s v : simulates lo m pt s → sv_view pt s (vkey v) = m !! vkey v.
Proof. intros []. by rewrite sim_view0, vkey_mod. Qed.

(** The root of a table never moves. *)
Lemma map_root pt v n fl s pt' s' :
  map pt v n fl s = Ret (pt', s') → root_ppn pt' = root_ppn pt.
Proof. unfold map, find_pte_create. intros Hm. minv0. done. Qed.

(** [unmap] on every branch. *)
Lemma unmap_eq pt v s :
  unmap pt v s =
  match walk (sys_mem s) (root_ppn pt) (vpath (vpn_0 v)) with
  | None => Panic UnwrapNone
  | Some a =>
      let slot := pte_slot a (vidx0 (vpn_0 v)) in
      if validb (read_pte (sys_mem s) slot)
      then Ret (pt, set_mem (λ m, write_pte m slot pte_empty) s) else Panic AssertFailed
  end.
Proof.
  unfold unmap, mbind, M_bind, lift, gets. rewrite find_pte_eq.
  destruct (walk _ _ _); cbn [fmap option_fmap option_map unwrap]; [|done].
  rewrite is_valid_eq. by destruct (validb _).
Qed.

Lemma unmap_Ret pt v s pt' s' :
  unmap pt v s = Ret (pt', s') → is_Some (sv_view pt s (vpn_0 v)).
Proof.
  rewrite unmap_eq. unfold sv_view, entry. destruct (walk _ _ _); [|done].
  cbn [mbind option_bind]. destruct (validb _); [eauto|done].
Qed.

(** Removing a page leaves the directories in place. *)
Lemma unmap_need lo pt v s s' :
  sv_inv lo pt s → unmap pt v s = Ret (pt, s') → sv_need pt s' (vpn_0 v) = 0.
Proof.
  intros Hi. rewrite unmap_eq.
  destruct (walk (sys_mem s) (root_ppn pt) (vpath (vpn_0 v))) as [a|] eqn:Hw; [|done].
  cbv zeta. destruct (validb _); [|done]. intros [= <-].
  destruct (leaf_write_spec lo pt s (vpn_0 v) a pte_empty Hi Hw) as (_&_&_&K).
  { simpl. unfold W64. lia. }
  apply (sv_need_0 _ _ _ a). rewrite <- Hw. apply K. auto with hyp.
Qed.

Lemma sim_map lo m pt s v n fl pt' s' :
  simulates lo m pt s → op_ok (OpMap v n fl) → map pt v n fl s = Ret (pt', s') →
  m !! vkey v = None ∧
  simulates lo (<[vkey v := pte_new n (flag.union fl flag.V)]> m) pt' s' ∧
  sys_free s - 2 ≤ sys_free s'.
Proof.
  intros Hs [Hn Hf] Hm. pose proof (sim_key _ _ _ _ v Hs) as Hk.
  destruct Hs as [Hi Hv].
  destruct (map_spec lo pt s v n fl pt' s' Hi Hn Hf Hm) as (I&_&N&V&F&_&_).
  rewrite Hk in N. split_and!; [done| |pose proof (sv_need_range pt s (vkey v)); lia].
  split; [done|]. intros w. rewrite V, Hv. case_decide as Hd.
  - by rewrite Hd, lookup_insert_eq.
  - by rewrite lookup_insert_ne.
Qed.

Lemma sim_unmap lo m pt s v :
  simulates lo m pt s → is_Some (m !! vkey v) →
  ∃ s', unmap pt v s = Ret (pt, s') ∧ simulates lo (delete (vkey v) m) pt s' ∧
    sys_free s' = sys_free s.
Proof.
  intros [Hi Hv] Hs. unfold vkey in Hs. rewrite <- Hv in Hs.
  destruct (unmap_spec lo pt s v Hi Hs) as (s'&Hu&I&S&V). exists s'. split_and!; [done| |].
  - split; [done|]. intros w. rewrite V, Hv. case_decide as Hd.
    + by rewrite Hd, lookup_delete_eq.
    + by rewrite lookup_delete_ne.
  - rewrite (step_free _ _ _ _ _ S). lia.
Qed.

(** One operation, both ways. *)
Lemma run_op_sound lo m pt s o pt' s' :
  simulates lo m pt s → op_ok o → run_op pt o s = Ret (pt', s') →
  ∃ m', spec_op m o = Some m' ∧ simulates lo m' pt' s' ∧ sys_free s - op_need o ≤ sys_free s'.
Proof.
  intros Hs Hok Hr. destruct o as [v n fl|v]; simpl in *.
  - destruct (sim_map lo m pt s v n fl pt' s' Hs Hok Hr) as (->&?&?). eauto.
  - assert (is_Some (m !! vkey v)) as Hm.
    { rewrite <- (sim_key _ _ _ _ v Hs). unfold vkey. rewrite <- sv_view_mod. by eapply unmap_Ret. }
    destruct (sim_unmap lo m pt s v Hs Hm) as (s1&Hu&?&?). rewrite Hr in Hu. simplify_eq.
    destruct Hm as [e ->]. eexists. split_and!; [done..|lia].
Qed.

Lemma run_op_complete lo m pt s o m' :
  simulates lo m pt s → op_ok o → spec_op m o = Some m' → op_need o ≤ sys_free s →
  returns (run_op pt o s).
Proof.
  intros Hs Hok Ho Hn. destruct o as [v n fl|v]; simpl in *.
  - destruct (m !! vkey v) eqn:E; [done|].
    apply (map_total lo); [apply Hs|by rewrite (sim_key _ _ _ _ v Hs)|].
    pose proof (sv_need_range pt s (vkey v)). lia.
  - destruct (m !! vkey v) eqn:E; [|done].
    destruct (sim_unmap lo m pt s v Hs ltac:(by rewrite E)) as (s'&Hu&_). by eexists.
Qed.

Lemma run_ops_sound lo ops m pt s pt' s' :
  simulates lo m pt s → Forall op_ok ops → run_ops ops pt s = Ret (pt', s') →
  ∃ m', spec_ops m ops = Some m' ∧ simulates lo m' pt' s'.
Proof.
  unfold run_ops. revert m pt s. induction ops as [|o ops IH]; intros m pt s Hs Hok Hr.
  - simpl in Hr. minv0. exists m. done.
  - apply Forall_cons in Hok as [Ho Hok]. cbn [mfold] in Hr. minv0.
    match goal with H : run_op pt o s = Ret _ |- _ =>
      destruct (run_op_sound lo m pt s o _ _ Hs Ho H) as (m1&E1&S1&_) end.
    cbn [spec_ops]. rewrite E1. simpl. eauto.
Qed.

Lemma run_ops_complete lo ops m pt s m' :
  simulates lo m pt s → Forall op_ok ops → spec_ops m ops = Some m' →
  ops_need ops ≤ sys_free s → returns (run_ops ops pt s).
Proof.
  unfold run_ops. revert m pt s. induction ops as [|o ops IH]; intros m pt s Hs Hok Hr Hn.
  - by eexists.
  - apply Forall_cons in Hok as [Ho Hok]. cbn [spec_ops ops_need] in *.
    destruct (spec_op m o) as [m1|] eqn:E1; [|done]. simpl in Hr.
    assert (∀ l, 0 ≤ ops_need l) as Hpos.
    { induction l as [|[] l IHl]; simpl; lia. }
    pose proof (Hpos ops).
    destruct (run_op_complete lo m pt s o m1 Hs Ho E1 ltac:(lia)) as [[pt1 s1] E].
    destruct (run_op_sound lo m pt s o pt1 s1 Hs Ho E) as (m1'&E1'&S1&F1).
    simplify_eq. destruct (IH m1 pt1 s1 S1 Hok Hr ltac:(lia)) as [r Er].
    exists r. cbn [mfold]. unfold mbind, M_bind. by rewrite E.
Qed.

(** ** Claims *)

(** A pool of sixteen frames and an empty table in it. *)
Definition pool_sys : Sys := MkSys ∅ (Some (MkAlloc 0x80300 0x80310 [])).
Definition pool_pt : PageTableSv39 := MkSv39 (PPN 0x80300) [MkTracker (PPN 0x80300)].
Definition pool_sys1 : Sys :=
  MkSys (zero_frame ∅ (PPN 0x80300)) (Some (MkAlloc 0x80301 0x80310 [])).

Lemma pool_wf : sys_wf 0x80300 pool_sys.
Proof.
  split; [apply map_Forall_empty|]. eexists. split; [done|].
  split; simpl; try lia; constructor.
Qed.
Lemma pool_new : new pool_sys = Ret (pool_pt, pool_sys1).
Proof. reflexivity. Qed.
Lemma pool_empty : simulates 0x80300 ∅ pool_pt pool_sys1.
Proof.
  destruct (new_spec 0x80300 pool_sys pool_pt pool_sys1 pool_wf pool_new) as [I _ V _].
  split; [done|]. intros w. by rewrite V, lookup_empty.
Qed.

(** A page mapped in it. *)
Lemma pool_mapped :
  ∃ pt s, map pool_pt (VPN 7) (PPN 9) (MkFlags 2) pool_sys1 = Ret (pt, s) ∧
    sv_inv 0x80300 pt s ∧ ∀ w, sv_view pt s w =
      if decide (w mod 2 ^ 27 = 7) then Some (PTE 9219) else None.
Proof.
  pose proof (sim_inv _ _ _ _ pool_empty) as I0.
  destruct (map_total 0x80300 pool_pt pool_sys1 (VPN 7) (PPN 9) (MkFlags 2)) as [[pt s] Hm].
  { exact I0. }
  { by rewrite (sim_view _ _ _ _ pool_empty). }
  { vm_compute. congruence. }
  destruct (map_spec 0x80300 pool_pt pool_sys1 (VPN 7) (PPN 9) (MkFlags 2) pt s
    I0 ltac:(simpl; lia) ltac:(simpl; lia) Hm) as (I&_&_&V&_).
  exists pt, s. split_and!; [done..|]. intros w.
  by rewrite V, (sim_view _ _ _ _ pool_empty), lookup_empty.
Qed.

(** Two pages in one directory, one of them removed again. *)
Definition pool_ops : list pt_op :=
  [OpMap (VPN 0x90201) (PPN 0x90201) (MkFlags 6);
   OpMap (VPN 0x90202) (PPN 0x12345) (MkFlags 2);
   OpUnmap (VPN 0x90201)].
Lemma pool_ops_ok : Forall op_ok pool_ops.
Proof. repeat constructor; simpl; lia. Qed.

(** C7: refinement.  Every run of [map] and [unmap] calls that returns has a run
    of the abstract map operations, and the table then stands for the resulting
    map; and every run the abstract operations allow returns when two frames
    per [map] are free.  So the calls that fail are the insertions of a page
    already mapped, the removals of a page not mapped, and the insertions for
    which frames run out. *)
Theorem sv39_refines_map lo ops m pt s :
  simulates lo m pt s → Forall op_ok ops →
  (∀ pt' s', run_ops ops pt s = Ret (pt', s') →
     ∃ m', spec_ops m ops = Some m' ∧ simulates lo m' pt' s') ∧
  (∀ m', spec_ops m ops = Some m' → ops_need ops ≤ sys_free s →
     ∃ pt' s', run_ops ops pt s = Ret (pt', s') ∧ simulates lo m' pt' s').
Proof.
  intros Hs Hok. split.
  - intros pt' s' Hr. by eapply run_ops_sound.
  - intros m' Hm Hn. destruct (run_ops_complete lo ops m pt s m' Hs Hok Hm Hn) as [[pt' s'] Hr].
    destruct (run_ops_sound lo ops m pt s pt' s' Hs Hok Hr) as (m2&Hm2&Hs2).
    exists pt', s'. split; [done|]. congruence.
Qed.

Lemma sv39_refines_map_witness :
  ∃ m' pt' s', spec_ops ∅ pool_ops = Some m' ∧ run_ops pool_ops pool_pt pool_sys1 = Ret (pt', s') ∧
    simulates 0x80300 m' pt' s'.
Proof.
  destruct (sv39_refines_map 0x80300 pool_ops ∅ pool_pt pool_sys1 pool_empty pool_ops_ok) as [_ H].
  assert (∃ m', spec_ops ∅ pool_ops = Some m') as [m' Hm] by (eexists; vm_compute; reflexivity).
  destruct (H m' Hm ltac:(vm_compute; congruence)) as (pt'&s'&H1&H2).
  exists m', pt', s'. split; [exact Hm|]. split; [exact H1|exact H2].
Defined.

(** C8: [map] on a page already mapped panics and [map] on a free page returns
    as soon as the directories missing on the way (at most two) can be
    allocated; it then takes exactly that many frames. *)
Theorem sv39_map_outcome lo pt s v n fl :
  sv_inv lo pt s → 0 ≤ ppn_0 n < 2 ^ 44 → 0 ≤ flags_bits fl < 256 →
  (is_Some (sv_view pt s (vkey v)) → map pt v n fl s = Panic AssertFailed) ∧
  (sv_view pt s (vkey v) = None → sv_need pt s (vkey v) ≤ sys_free s →
   ∃ pt' s', map pt v n fl s = Ret (pt', s') ∧
     sys_free s' = sys_free s - sv_need pt s (vkey v) ∧
     translate pt' v s' = Ret (Some (pte_new n (flag.union fl flag.V)), s')).
Proof.
  intros Hi Hn Hf. split; [by apply (map_mapped lo)|]. intros Hv Hneed.
  destruct (map_total lo pt s v n fl Hi Hv Hneed) as [[pt' s'] Hm].
  exists pt', s'. destruct (map_spec lo pt s v n fl pt' s' Hi Hn Hf Hm) as (_&_&_&V&F&_&_).
  split_and!; [done..|]. apply translate_view. rewrite V. by rewrite decide_True.
Qed.

Lemma sv39_map_outcome_witness :
  ∃ pt' s', map pool_pt (VPN 7) (PPN 9) (MkFlags 2) pool_sys1 = Ret (pt', s') ∧
    sys_free s' = 13.
Proof.
  destruct (sv39_map_outcome 0x80300 pool_pt pool_sys1 (VPN 7) (PPN 9) (MkFlags 2)
    (sim_inv _ _ _ _ pool_empty) ltac:(done) ltac:(done)) as [_ H].
  destruct H as (pt'&s'&H1&H2&_).
  - rewrite (sim_view _ _ _ _ pool_empty). reflexivity.
  - vm_compute. congruence.
  - exists pt', s'. split; [exact H1|]. rewrite H2. vm_compute. reflexivity.
Defined.

(** C9: tables do not interfere.  Two tables that own different frames keep
    doing so when one of them is changed by [map], and the other one maps what
    it mapped before. *)
Theorem sv39_tables_separate lo pt1 pt2 s v n fl pt1' s' :
  sv_inv lo pt1 s → sv_inv lo pt2 s → owned lo s (sv_frames pt2 ++ sv_frames pt1) →
  0 ≤ ppn_0 n < 2 ^ 44 → 0 ≤ flags_bits fl < 256 →
  map pt1 v n fl s = Ret (pt1', s') →
  sv_inv lo pt1' s' ∧ sv_inv lo pt2 s' ∧ owned lo s' (sv_frames pt2 ++ sv_frames pt1') ∧
  ∀ w, sv_view pt2 s' w = sv_view pt2 s w.
Proof.
  intros H1 H2 Ho Hn Hf Hm.
  destruct (map_spec lo pt1 s v n fl pt1' s' H1 Hn Hf Hm) as (I&S&_).
  pose proof (step_owned _ _ _ _ _ S _ Ho) as Ho'.
  assert (owned lo s' (sv_frames pt2)) as Ho2.
  { destruct Ho' as (Hnd&al&Hal&Hu). apply NoDup_app in Hnd as (?&_&_).
    apply Forall_app in Hu as [? _]. split; eauto. }
  destruct (sv_frame lo pt2 s s' H2 (step_wf _ _ _ _ _ S) Ho2 (sv_frames pt1')
    (step_mem _ _ _ _ _ S)) as (I2&V2&_).
  { intros q Hq Hq'. destruct Ho' as (Hnd&_). apply NoDup_app in Hnd as (_&Hd&_).
    by apply (Hd q). }
  split_and!; done.
Qed.

(** C10: the page walk agrees with the table.  Run on the memory that holds a
    table, [walk_page_table] from its root returns exactly the leaf entries the
    table maps that are readable or executable and not write-only, at level
    4 KiB; and the address it computes is the one [translate_va] computes. *)
Theorem walk_agrees_with_translate lo pt s va :
  sv_inv lo pt s → 0 ≤ va →
  match sv_view pt s (va / 4096) with
  | Some e =>
      if accepted e then
        ∃ path, walk_page_table (ppn_0 (root_ppn pt) * 4096) va (raw_read (sys_mem s)) =
          Ret (Some (MkWalk path (leaf_pa Level4KB e va))) ∧
          (bits e < 2 ^ 54 → translate_va pt va s = Ret (Some (leaf_pa Level4KB e va), s))
      else walk_page_table (ppn_0 (root_ppn pt) * 4096) va (raw_read (sys_mem s)) = Ret None
  | None => walk_page_table (ppn_0 (root_ppn pt) * 4096) va (raw_read (sys_mem s)) = Ret None
  end.
Proof.
  intros Hi Hva. destruct (walk_page_table_view lo pt s va Hi Hva) as [path Hw].
  destruct (sv_view pt s (va / 4096)) as [e|] eqn:Hv; [|done]. cbn [mbind option_bind] in Hw.
  destruct (accepted e); [|done]. exists path. split; [done|]. intros He.
  pose proof (sv_view_bits lo pt s _ e Hi Hv).
  rewrite leaf_pa_4k by done. by apply translate_va_view.
Qed.

Lemma walk_agrees_with_translate_witness :
  ∃ pt s path, map pool_pt (VPN 7) (PPN 9) (MkFlags 2) pool_sys1 = Ret (pt, s) ∧
    walk_page_table (ppn_0 (root_ppn pt) * 4096) 0x7abc (raw_read (sys_mem s)) =
      Ret (Some (MkWalk path 0x9abc)).
Proof.
  destruct pool_mapped as (pt&s&Hm&I&V). exists pt, s.
  pose proof (walk_agrees_with_translate 0x80300 pt s 0x7abc I ltac:(lia)) as Hw.
  rewrite (V (0x7abc / 4096)) in Hw. change (decide _) with (left eq_refl : {7 = 7} + {7 ≠ 7}) in Hw.
  cbv iota in Hw. change (accepted _) with true in Hw. cbv iota in Hw.
  destruct Hw as (path&Hw&_). exists path. split; [exact Hm|]. exact Hw.
Defined.

(** A second table in the same pool. *)
Definition pool_pt2 : PageTableSv39 := MkSv39 (PPN 0x80301) [MkTracker (PPN 0x80301)].
Definition pool_sys2 : Sys :=
  MkSys (zero_frame (zero_frame ∅ (PPN 0x80300)) (PPN 0x80301))
    (Some (MkAlloc 0x80302 0x80310 [])).
Lemma pool_two :
  sv_inv 0x80300 pool_pt2 pool_sys2 ∧ sv_inv 0x80300 pool_pt pool_sys2 ∧
  owned 0x80300 pool_sys2 (sv_frames pool_pt ++ sv_frames pool_pt2) ∧
  (∀ w, sv_view pool_pt2 pool_sys2 w = None).
Proof.
  destruct (sim_inv _ _ _ _ pool_empty) as [Hwf Ho Ht].
  assert (new pool_sys1 = Ret (pool_pt2, pool_sys2)) as Hn by reflexivity.
  destruct (new_spec 0x80300 _ _ _ Hwf Hn) as [I S V _].
  pose proof (step_owned _ _ _ _ _ S (sv_frames pool_pt)) as Hso.
  rewrite app_nil_r in Hso. specialize (Hso Ho).
  split_and!; [done| |done|done].
  eapply (sv_frame 0x80300 pool_pt pool_sys1 pool_sys2); eauto using step_wf, step_mem.
  - by split.
  - split; [by apply NoDup_singleton|]. eexists. split; [done|]. repeat constructor; simpl; lia || set_solver.
  - intros q Hq. vm_compute in Hq. set_solver.
Qed.

Lemma sv39_tables_separate_witness :
  ∃ pt' s', map pool_pt2 (VPN 7) (PPN 9) (MkFlags 2) pool_sys2 = Ret (pt', s') ∧
    sv_inv 0x80300 pool_pt s' ∧ ∀ w, sv_view pool_pt s' w = sv_view pool_pt pool_sys2 w.
Proof.
  destruct pool_two as (I2&I1&Ho&V).
  destruct (map_total 0x80300 pool_pt2 pool_sys2 (VPN 7) (PPN 9) (MkFlags 2) I2 (V _))
    as [[pt' s'] Hm]; [vm_compute; congruence|].
  exists pt', s'. split; [exact Hm|].
  destruct (sv39_tables_separate 0x80300 pool_pt2 pool_pt pool_sys2 (VPN 7) (PPN 9) (MkFlags 2)
    pt' s' I2 I1 Ho ltac:(simpl; lia) ltac:(simpl; lia) Hm) as (_&H2&_&H4).
  split; [exact H2|exact H4].
Defined.

(** C17: removing a page.  [unmap] of a mapped page returns, afterwards exactly
    that page is unmapped, and mapping it again succeeds without taking a
    frame; [unmap] of a page that is not mapped panics and changes nothing. *)
Theorem sv39_unmap_outcome lo pt s v :
  sv_inv lo pt s →
  (is_Some (sv_view pt s (vpn_0 v)) →
   ∃ s', unmap pt v s = Ret (pt, s') ∧ sv_inv lo pt s' ∧
     (∀ w, sv_view pt s' w = if decide (w mod 2 ^ 27 = vkey v) then None else sv_view pt s w) ∧
     ∀ n fl, returns (map pt v n fl s')) ∧
  (sv_view pt s (vpn_0 v) = None → ∃ p, unmap pt v s = Panic p).
Proof.
  intros Hi. split.
  - intros Hs. destruct (unmap_spec lo pt s v Hi Hs) as (s'&Hu&I&St&V).
    exists s'. split_and!; try done. intros n fl. apply (map_total lo); [done| |].
    + rewrite V. unfold vkey. rewrite Z.mod_mod by done. by rewrite decide_True.
    + unfold vkey. rewrite sv_need_mod, (unmap_need lo pt v s s' Hi Hu).
      apply (sys_free_nonneg lo), I.
  - rewrite unmap_eq. unfold sv_view, entry. destruct (walk _ _ _); [|eauto].
    cbn [mbind option_bind]. destruct (validb _); [done|eauto].
Qed.

Lemma sv39_unmap_outcome_witness :
  ∃ pt s s', map pool_pt (VPN 7) (PPN 9) (MkFlags 2) pool_sys1 = Ret (pt, s) ∧
    unmap pt (VPN 7) s = Ret (pt, s') ∧ sv_view pt s' 7 = None ∧
    ∃ p, unmap pool_pt (VPN 7) pool_sys1 = Panic p.
Proof.
  pose proof (sim_inv _ _ _ _ pool_empty) as I0.
  destruct pool_mapped as (pt&s&Hm&I&V).
  destruct (proj1 (sv39_unmap_outcome 0x80300 pt s (VPN 7) I)) as (s'&H1&_&H3&_).
  { rewrite V. vm_compute. eexists. reflexivity. }
  exists pt, s, s'. split; [exact Hm|]. split; [exact H1|]. split; [rewrite H3; reflexivity|].
  apply (proj2 (sv39_unmap_outcome 0x80300 pool_pt pool_sys1 (VPN 7) I0)).
  rewrite (sim_view _ _ _ _ pool_empty). reflexivity.
Defined.

(** C18: the root of a guest table.  [new_guest] never runs out of rounds of its
    search loop; when it returns, the root frame is 16 KiB aligned, belongs to
    the table, and the table maps nothing; and with a fresh allocator and seven
    frames left it does return, with four consecutive frames from the root. *)
Theorem new_guest_root lo s :
  sys_wf lo s →
  new_guest s ≠ NoFuel ∧
  (∀ pt s', new_guest s = Ret (pt, s') →
     ppn_0 (root_ppn pt) mod 4 = 0 ∧ root_ppn pt ∈ sv_frames pt ∧
     sv_inv lo pt s' ∧ ∀ w, sv_view pt s' w = None) ∧
  (∀ c e, boot_alloc c e s → c + 7 ≤ e →
     ∃ pt s' k, new_guest s = Ret (pt, s') ∧ ppn_0 (root_ppn pt) = c + Z.of_nat k ∧
       frames pt = tracker <$> upto c (k + 4)).
Proof.
  intros Hwf. split_and!.
  - unfold new_guest, mbind at 1, M_bind at 1.
    destruct (frame_alloc_returns lo s Hwf) as [[[t|] s1] Ha]; rewrite Ha; [|done].
    destruct (frame_alloc_some lo s t s1 Hwf Ha) as [Hwf1 _ _ _ _ _ _ _].
    cbn [unwrap]. unfold mbind at 1, M_bind at 1, lift. unfold mbind at 1, M_bind at 1, gets.
    unfold mbind at 1, M_bind at 1.
    pose proof (root_loop_fuel lo (S (Z.to_nat (sys_free s1))) t [] s1 Hwf1) as Hf.
    destruct (root_loop _ _ _ s1) as [[[rf fs] s2]| | |] eqn:Hr;
      [|done..|exfalso; apply Hf; [pose proof (sys_free_nonneg lo s1 Hwf1); lia|done]].
    unfold mbind, M_bind. pose proof (alloc_n_fuel 3 (vec_push fs rf) s2).
    cbn [fst snd]. by destruct (alloc_n _ _ s2) as [[? ?]| | |].
  - intros pt s' Hn. destruct (new_guest_spec lo s pt s' Hwf Hn) as [[I S V R] ?]. done.
  - intros c e Hb He. destruct (new_guest_boot c e s Hb He) as (pt&s'&Hn&(k&_&?&?)&_). eauto 10.
Qed.

Lemma new_guest_root_witness :
  ∃ pt s' k, new_guest pool_sys = Ret (pt, s') ∧ ppn_0 (root_ppn pt) = 0x80300 + Z.of_nat k.
Proof.
  destruct (new_guest_root 0x80300 pool_sys pool_wf) as (_&_&H).
  destruct (H 0x80300 0x80310) as (pt&s'&k&H1&H2&_); [vm_compute; intuition congruence|lia|].
  exists pt, s', k. split; [exact H1|exact H2].
Defined.

(** C35: an unmapped page still translates.  After [unmap] the entry is all
    zero, but [translate] returns it as [Some], and [translate_va] turns it into
    the offset inside frame zero instead of reporting that the page is not
    mapped. *)
Theorem translate_after_unmap lo pt s va s' :
  sv_inv lo pt s → 0 ≤ va →
  unmap pt (VPN (va / 4096)) s = Ret (pt, s') →
  translate pt (VPN (va / 4096)) s' = Ret (Some pte_empty, s') ∧
  translate_va pt va s' = Ret (Some (va mod 4096), s').
Proof.
  intros Hi Hva. rewrite unmap_eq. cbn [vpn_0].
  destruct (walk (sys_mem s) (root_ppn pt) (vpath (va / 4096))) as [a|] eqn:Hw; [|done].
  cbv zeta. destruct (validb _); [|done]. intros [= <-].
  destruct (leaf_write_spec lo pt s (va / 4096) a pte_empty Hi Hw) as (_&_&_&K).
  { simpl. unfold W64. lia. }
  assert (∀ v, v mod 2 ^ 27 = (va / 4096) mod 2 ^ 27 →
    translate pt (VPN v) (set_mem (λ m, write_pte m (pte_slot a (vidx0 (va / 4096))) pte_empty) s)
    = Ret (Some pte_empty, set_mem (λ m, write_pte m (pte_slot a (vidx0 (va / 4096))) pte_empty) s))
    as Ht.
  { intros v Hv. rewrite translate_eq. cbn [vpn_0].
    apply vkey_eq_iff in Hv as [-> ->]. rewrite K by auto with hyp. rewrite Hw. cbn [fmap option_fmap option_map].
    do 3 f_equal. apply read_write_same. simpl. unfold W64. lia. }
  split; [by apply Ht|]. unfold translate_va.
  rewrite VirtPageNum_from_usize_mod, shiftr_div by done. change (2 ^ 12) with 4096.
  unfold mbind, M_bind. rewrite Ht by by apply Z.mod_mod.
  rewrite (land_mask va 12) by done. change (shl _ 12) with 0. unfold lift.
  pose proof (Z.mod_pos_bound va (2 ^ 12) ltac:(done)).
  rewrite uadd_run by (unfold W64; lia). done.
Qed.

Lemma translate_after_unmap_witness :
  ∃ pt s s', map pool_pt (VPN 7) (PPN 9) (MkFlags 2) pool_sys1 = Ret (pt, s) ∧
    unmap pt (VPN 7) s = Ret (pt, s') ∧ translate_va pt 0x7abc s' = Ret (Some 0xabc, s').
Proof.
  destruct pool_mapped as (pt&s&Hm&I&V).
  destruct (unmap_spec 0x80300 pt s (VPN 7) I) as (s'&H1&_).
  { rewrite V. vm_compute. eexists. reflexivity. }
  exists pt, s, s'. split; [exact Hm|]. split; [exact H1|].
  apply (translate_after_unmap 0x80300 pt s 0x7abc s' I ltac:(lia) H1).
Defined.

Lemma inv_root_ok lo pt s : sv_inv lo pt s → ppn_ok (root_ppn pt).
Proof.
  intros [_ _ Ht]. apply (tree_ppn _ _ _ Ht), (tree_in _ _ _ Ht []); [|done].
  by split; [constructor|simpl; lia].
Qed.
Lemma token_eq pt :
  0 ≤ ppn_0 (root_ppn pt) < 2 ^ 44 → token pt = 8 * 2 ^ 60 + ppn_0 (root_ppn pt).
Proof.
  intros Hr. unfold token. rewrite shl_small by (unfold W64; lia). apply lor_shifted; lia.
Qed.

(** The [satp]/[hgatp] value of a table has mode Sv39 (8) in its top four
    bits and the root page number below; [from_token] recovers the root from it
    and owns no frames. *)
Theorem token_roundtrip pt :
  0 ≤ ppn_0 (root_ppn pt) < 2 ^ 44 →
  token pt = 8 * 2 ^ 60 + ppn_0 (root_ppn pt) ∧ Z.shiftr (token pt) 60 = 8 ∧
  from_token (token pt) = MkSv39 (root_ppn pt) [].
Proof.
  intros Hr. rewrite token_eq by done. split_and!; [done| |].
  - rewrite shiftr_div by done. apply div_hi; lia.
  - unfold from_token. rewrite (land_mask _ 44) by done.
    rewrite PhysPageNum_from_usize_mod, Z.mod_mod by done.
    replace (8 * 2 ^ 60) with (2 ^ 19 * 2 ^ 44) by lia. rewrite mod_lo by lia.
    by destruct (root_ppn pt).
Qed.
Lemma token_roundtrip_witness : from_token (token pool_pt) = MkSv39 (PPN 0x80300) [].
Proof. apply (token_roundtrip pool_pt). simpl. lia. Defined.
