(* ===== verification/Fdt.v ===== *)
(** * Machine description from the device tree

    Module [fdt] of [src/src/hypervisor.rs].  The [fdt] crate is a parameter:
    what it yields for the memory node and for the nodes of a path is data; its
    [memory] panics when a blob has no such node, its [regions] when the node has
    no [reg] property. *)
From stdpp Require Import base tactics numbers list option sorting strings.
From S2P Require Import Prelude Constants.

Record Device := MkDevice { base_address : Z; dev_size : Z }.

#[export] Instance Device_eq_dec : EqDecision Device.
Proof. solve_decision. Defined.

Record MachineMeta := MkMeta {
  physical_memory_offset : Z;
  physical_memory_size : Z;
  virtio : list Device;
  test_finisher_address : option Device;
  uart : option Device;
  clint : option Device;
  plic : option Device;
  pci : option Device;
}.

Definition meta_default : MachineMeta := MkMeta 0 0 [] None None None None None.

(** A register region of the [fdt] crate: address and optional size. *)
Record Region := MkRegion { starting_address : Z; region_size : option Z }.
(** A node: its [reg] property, absent or a list of regions. *)
Definition Node : Type := option (list Region).

(** [node.reg().and_then(|mut reg| reg.next())]. *)
Definition first_reg (n : Node) : option Region := regs ← n; head regs.

(** The crate's view of one device tree blob. *)
Record Fdt := MkFdt {
  memory_node : option Node;
  find_all_nodes : string → list Node;
}.

(** [fdt.memory().regions()]. *)
Definition memory (f : Fdt) : outcome (list Region) := n ← unwrap (memory_node f); unwrap n.

(** Capacity of [ArrayVec<Device, 16>]. *)
Definition VIRTIO_CAP : Z := 16.

(** [ArrayVec::push]. *)
Definition arrayvec_push {A} (cap : Z) (l : list A) (x : A) : outcome (list A) :=
  if Z.of_nat (length l) <? cap then Ret (l ++ [x]) else Panic CapacityExceeded.

Section Parse.
(** [sort_unstable_by_key(|v| v.base_address)]: the standard library leaves the
    order of equal keys open, so the sort is a parameter. *)
Context (sort_devices : list Device → list Device).

Fixpoint parse_memory (rs : list Region) (meta : MachineMeta) : outcome MachineMeta :=
  match rs with
  | [] => Ret meta
  | r :: rs' =>
      sz ← unwrap (region_size r);
      parse_memory rs'
        (MkMeta (starting_address r) sz (virtio meta) (test_finisher_address meta)
           (uart meta) (clint meta) (plic meta) (pci meta))
  end.

Fixpoint parse_virtio (ns : list Node) (acc : list Device) : outcome (list Device) :=
  match ns with
  | [] => Ret acc
  | n :: ns' =>
      match first_reg n with
      | None => parse_virtio ns' acc
      | Some reg =>
          sz ← unwrap (region_size reg);
          acc' ← arrayvec_push VIRTIO_CAP acc (MkDevice (starting_address reg) sz);
          parse_virtio ns' acc'
      end
  end.

(** The five probing loops that keep the last node found. *)
Fixpoint parse_last (ns : list Node) (acc : option Device) : outcome (option Device) :=
  match ns with
  | [] => Ret acc
  | n :: ns' =>
      match first_reg n with
      | None => parse_last ns' acc
      | Some reg =>
          sz ← unwrap (region_size reg);
          parse_last ns' (Some (MkDevice (starting_address reg) sz))
      end
  end.

(** [MachineMeta::parse].  [dtb] is the result of [Fdt::from_ptr]. *)
Definition parse (dtb : option Fdt) : outcome MachineMeta :=
  fdt ← match dtb with Some f => Ret f | None => Panic UnwrapErr end;
  regions ← memory fdt;
  meta ← parse_memory regions meta_default;
  vs ← parse_virtio (find_all_nodes fdt "/soc/virtio_mmio") [];
  let vs := sort_devices vs in
  tst ← parse_last (find_all_nodes fdt "/soc/test") None;
  ua ← parse_last (find_all_nodes fdt "/soc/uart") None;
  cl ← parse_last (find_all_nodes fdt "/soc/clint") None;
  pl ← parse_last (find_all_nodes fdt "/soc/plic") None;
  pc ← parse_last (find_all_nodes fdt "/soc/pci") None;
  Ret (MkMeta (physical_memory_offset meta) (physical_memory_size meta) vs tst ua cl pl pc).
End Parse.

(** ** What a device tree has to contain *)

(** The registers the probing loops look at. *)
Definition regs_of (ns : list Node) : list Region := omap first_reg ns.
Definition sized (r : Region) : Prop := is_Some (region_size r).
Definition as_device (r : Region) : Device :=
  MkDevice (starting_address r) (default 0 (region_size r)).
Definition probed (f : Fdt) (path : string) : list Region := regs_of (find_all_nodes f path).

(** The regions of the memory node; [mjoin] is [None] without node or [reg]. *)
Definition memory_regions (f : Fdt) : list Region := default [] (mjoin (memory_node f)).

Record fdt_ok (f : Fdt) : Prop := {
  fo_node : is_Some (mjoin (memory_node f));
  fo_memory : Forall sized (memory_regions f);
  fo_nodes : Forall (λ p, Forall sized (probed f p))
    ["/soc/virtio_mmio"; "/soc/test"; "/soc/uart"; "/soc/clint"; "/soc/plic"; "/soc/pci"];
  fo_virtio : Z.of_nat (length (probed f "/soc/virtio_mmio")) ≤ VIRTIO_CAP;
}.

Lemma as_device_sized g z : region_size g = Some z → as_device g = MkDevice (starting_address g) z.
Proof. unfold as_device. by intros ->. Qed.

Lemma parse_last_Ret ns acc r :
  parse_last ns acc = Ret r ↔
  Forall sized (regs_of ns) ∧ r = default acc (Some <$> last (as_device <$> regs_of ns)).
Proof.
  revert acc. induction ns as [|n ns IH]; intros acc; simpl.
  { split; [intros [= ->]; by split|by intros [_ ->]]. }
  unfold regs_of in *. simpl. destruct (first_reg n) as [g|]; simpl; [|apply IH].
  rewrite Forall_cons. unfold sized at 1. destruct (region_size g) as [z|] eqn:Hz; simpl.
  - rewrite IH, last_cons, (as_device_sized g z Hz).
    destruct (last _); simpl; naive_solver.
  - split; [done|]. by intros [[[? ?] _] _].
Qed.

Lemma parse_virtio_Ret ns acc r :
  Z.of_nat (length acc) ≤ VIRTIO_CAP →
  parse_virtio ns acc = Ret r ↔
  Forall sized (regs_of ns) ∧ Z.of_nat (length acc + length (regs_of ns)) ≤ VIRTIO_CAP ∧
  r = acc ++ (as_device <$> regs_of ns).
Proof.
  revert acc. induction ns as [|n ns IH]; intros acc Ha; simpl.
  { rewrite Nat.add_0_r, app_nil_r. split; [intros [= ->]; by split|by intros (_&_&->)]. }
  unfold regs_of in *. simpl. destruct (first_reg n) as [g|]; simpl; [|by apply IH].
  rewrite Forall_cons. unfold sized at 1. destruct (region_size g) as [z|] eqn:Hz; simpl.
  - unfold arrayvec_push. destruct (Z.ltb_spec (Z.of_nat (length acc)) VIRTIO_CAP); simpl.
    + rewrite IH by (rewrite length_app; simpl; lia). rewrite length_app, <- app_assoc. simpl.
      rewrite (as_device_sized g z Hz).
      replace (length acc + 1 + length (omap first_reg ns))%nat
        with (length acc + S (length (omap first_reg ns)))%nat by lia. naive_solver.
    + split; [done|]. intros (_&?&_). lia.
  - split; [done|]. by intros ([[? ?] _]&_).
Qed.

Lemma parse_memory_Ret rs m r :
  parse_memory rs m = Ret r ↔
  Forall sized rs ∧
  r = match last (as_device <$> rs) with
      | Some d => MkMeta (base_address d) (dev_size d) (virtio m) (test_finisher_address m)
                    (uart m) (clint m) (plic m) (pci m)
      | None => m
      end.
Proof.
  revert m. induction rs as [|g rs IH]; intros m; simpl.
  { split; [intros [= ->]; by split|by intros [_ ->]]. }
  rewrite Forall_cons. unfold sized at 1. destruct (region_size g) as [z|] eqn:Hz; simpl.
  - rewrite IH, last_cons, (as_device_sized g z Hz).
    destruct (last _); simpl; naive_solver.
  - split; [done|]. by intros [[[? ?] _] _].
Qed.

(** The machine a device tree describes. *)
Definition described (sort_devices : list Device → list Device) (f : Fdt) : MachineMeta :=
  let mem := default (MkDevice 0 0) (last (as_device <$> memory_regions f)) in
  let dev path := last (as_device <$> probed f path) in
  MkMeta (base_address mem) (dev_size mem)
    (sort_devices (as_device <$> probed f "/soc/virtio_mmio"))
    (dev "/soc/test") (dev "/soc/uart") (dev "/soc/clint") (dev "/soc/plic") (dev "/soc/pci").

(** A loop that starts with nothing. *)
Lemma parse_last_None ns :
  Forall sized (regs_of ns) → parse_last ns None = Ret (last (as_device <$> regs_of ns)).
Proof. intros Hs. apply parse_last_Ret. split; [done|]. by destruct (last _). Qed.
Lemma parse_last_None_inv ns r :
  parse_last ns None = Ret r → Forall sized (regs_of ns) ∧ r = last (as_device <$> regs_of ns).
Proof. intros [? ->]%parse_last_Ret. split; [done|]. by destruct (last _). Qed.

Lemma memory_Ret f rs :
  memory f = Ret rs ↔ is_Some (mjoin (memory_node f)) ∧ rs = memory_regions f.
Proof.
  unfold memory, memory_regions. destruct (memory_node f) as [[rs'|]|]; simpl.
  - split; [by intros [= ->]|by intros [_ ->]].
  - split; [done|]. by intros [[? ?] _].
  - split; [done|]. by intros [[? ?] _].
Qed.
Lemma memory_missing f : mjoin (memory_node f) = None → memory f = Panic UnwrapNone.
Proof. unfold memory. by destruct (memory_node f) as [[]|]. Qed.

Lemma parse_Ret sort_devices f m :
  parse sort_devices (Some f) = Ret m ↔ fdt_ok f ∧ m = described sort_devices f.
Proof.
  assert (∀ k, (match last (as_device <$> memory_regions f) with
      | Some d => MkMeta (base_address d) (dev_size d) [] None None None None None
      | None => meta_default end) = k →
    physical_memory_offset k = base_address (default (MkDevice 0 0) (last (as_device <$> memory_regions f))) ∧
    physical_memory_size k = dev_size (default (MkDevice 0 0) (last (as_device <$> memory_regions f))))
    as Hmem by (intros k <-; by destruct (last _)).
  unfold parse. split.
  - intros Hp. minv0.
    repeat match goal with H : parse_last _ _ = _ |- _ => apply parse_last_None_inv in H as [? ->] end.
    match goal with H : parse_virtio _ _ = _ |- _ =>
      apply parse_virtio_Ret in H as (?&?&->); [|done] end.
    match goal with H : memory _ = _ |- _ => apply memory_Ret in H as [? ->] end.
    match goal with H : parse_memory _ _ = _ |- _ => apply parse_memory_Ret in H as [? Hk] end.
    symmetry in Hk. apply Hmem in Hk as [-> ->]. split; [|done].
    split; [done|done| |done]. by rewrite !Forall_cons.
  - intros [[Hd Hm Hn Hv] ->]. cbn [mbind outcome_bind].
    rewrite (proj2 (memory_Ret f _) (conj Hd eq_refl)). cbn [mbind outcome_bind].
    rewrite !Forall_cons in Hn. destruct Hn as (N1&N2&N3&N4&N5&N6&_).
    set (k := match last (as_device <$> memory_regions f) with
      | Some d => MkMeta (base_address d) (dev_size d) [] None None None None None
      | None => meta_default end).
    assert (parse_memory (memory_regions f) meta_default = Ret k) as -> by by apply parse_memory_Ret.
    assert (parse_virtio (find_all_nodes f "/soc/virtio_mmio") [] =
      Ret (as_device <$> probed f "/soc/virtio_mmio")) as Ev by by apply parse_virtio_Ret.
    cbn [mbind outcome_bind]. rewrite Ev. cbn [mbind outcome_bind].
    rewrite !parse_last_None by done. cbn [mbind outcome_bind].
    destruct (Hmem k eq_refl) as [-> ->]. done.
Qed.

(** C32: reading the device tree.  [MachineMeta::parse] returns exactly when the
    blob is valid, it has a memory node with a [reg] property, every register it
    looks at states its size and there are at most 16 virtio devices; without a
    memory node it panics.  Its result is the last memory region, the last
    node of each kind that has a register, and the virtio devices in the order
    of their addresses, none lost and none added. *)
Theorem parse_correct sort_devices f :
  (∀ l, sort_devices l ≡ₚ l) → (∀ l, StronglySorted Z.le (base_address <$> sort_devices l)) →
  parse sort_devices None = Panic UnwrapErr ∧
  (mjoin (memory_node f) = None → parse sort_devices (Some f) = Panic UnwrapNone) ∧
  (returns (parse sort_devices (Some f)) ↔ fdt_ok f) ∧
  ∀ m, parse sort_devices (Some f) = Ret m →
    m = described sort_devices f ∧
    virtio m ≡ₚ as_device <$> probed f "/soc/virtio_mmio" ∧
    StronglySorted Z.le (base_address <$> virtio m) ∧
    (length (virtio m) ≤ 16)%nat.
Proof.
  intros Hperm Hsort. split; [done|]. split.
  { intros Hn. unfold parse. cbn [mbind outcome_bind]. by rewrite memory_missing. }
  split.
  - split; [by intros [m [? _]%parse_Ret]|]. intros Hok. exists (described sort_devices f).
    by apply parse_Ret.
  - intros m [Hok ->]%parse_Ret. split; [done|]. simpl. split_and!; [apply Hperm|apply Hsort|].
    rewrite Hperm, length_fmap. pose proof (fo_virtio f Hok). unfold VIRTIO_CAP in *. lia.
Qed.

(** Insertion sort by address, and a tree with the nodes in the wrong order. *)
Fixpoint insert_device (d : Device) (l : list Device) : list Device :=
  match l with
  | [] => [d]
  | e :: l' => if base_address d <=? base_address e then d :: l else e :: insert_device d l'
  end.
Definition demo_sort : list Device → list Device := foldr insert_device [].
Definition demo_fdt : Fdt :=
  MkFdt (Some (Some [MkRegion 0x80000000 (Some 0x8000000)])) (λ p,
    if String.eqb p "/soc/virtio_mmio"
    then [Some [MkRegion 0x10002000 (Some 0x1000)]; None; Some [MkRegion 0x10001000 (Some 0x1000)]]
    else []).

Lemma insert_device_perm d l : insert_device d l ≡ₚ d :: l.
Proof.
  induction l as [|e l IH]; simpl; [done|]. destruct (_ <=? _); [done|]. rewrite IH. constructor.
Qed.
Lemma demo_sort_perm l : demo_sort l ≡ₚ l.
Proof. induction l as [|d l IH]; simpl; [done|]. by rewrite insert_device_perm, IH. Qed.
Lemma insert_device_sorted d l :
  StronglySorted Z.le (base_address <$> l) →
  StronglySorted Z.le (base_address <$> insert_device d l).
Proof.
  induction l as [|e l IH]; simpl; intros Hs; [by repeat constructor|].
  destruct (Z.leb_spec (base_address d) (base_address e)); simpl.
  - constructor; [done|]. apply StronglySorted_inv in Hs as [_ Hf]. constructor; [done|].
    eapply Forall_impl; [exact Hf|]. simpl. lia.
  - apply StronglySorted_inv in Hs as [Hs Hf]. constructor; [by apply IH|].
    rewrite insert_device_perm. simpl. constructor; [lia|done].
Qed.
Lemma demo_sort_sorted l : StronglySorted Z.le (base_address <$> demo_sort l).
Proof. induction l as [|d l IH]; simpl; [constructor|]. by apply insert_device_sorted. Qed.

Lemma parse_correct_witness :
  ∃ m, parse demo_sort (Some demo_fdt) = Ret m ∧
    virtio m = [MkDevice 0x10001000 0x1000; MkDevice 0x10002000 0x1000].
Proof.
  destruct (parse_correct demo_sort demo_fdt demo_sort_perm demo_sort_sorted) as (_&_&[_ Hr]&Hm).
  destruct Hr as [m Hp].
  - split; [eexists; reflexivity|apply (bool_decide_unpack _)|apply (bool_decide_unpack _)|]; vm_compute; try exact I.
    congruence.
  - exists m. split; [exact Hp|]. destruct (Hm m Hp) as [-> _]. reflexivity.
Defined.
