(* ===== verification/MemorySet.v ===== *)
(** * Memory sets

    [src/src/mm/memory_set.rs] and [src/src/mm/mod.rs]: areas of contiguous
    pages, the host and guest address spaces, and the functions that build
    them.  The code is generic in the page table; so are the definitions. *)
From stdpp Require Import base tactics numbers list option gmap.
From S2P Require Import Prelude Constants Address Pte Mem FrameAllocator PageTable Fdt.

Inductive MapType := Framed | Linear.

#[export] Instance MapType_eq_dec : EqDecision MapType.
Proof. solve_decision. Defined.

(** [bitflags! struct MapPermission: u8]. *)
Record MapPermission := MkPerm { perm_bits : Z }.
Module perm.
Definition R : MapPermission := MkPerm (Z.shiftl 1 1).
Definition W : MapPermission := MkPerm (Z.shiftl 1 2).
Definition X : MapPermission := MkPerm (Z.shiftl 1 3).
Definition U : MapPermission := MkPerm (Z.shiftl 1 4).
Definition union (a b : MapPermission) : MapPermission :=
  MkPerm (Z.lor (perm_bits a) (perm_bits b)).
Definition RX : MapPermission := union R X.
Definition RW : MapPermission := union R W.
Definition RWU : MapPermission := union (union R W) U.
Definition RWUX : MapPermission := union (union (union R W) U) X.
End perm.

Record MapArea := MkArea {
  vpn_range : VPNRange;
  ppn_range : option PPNRange;
  data_frames : gmap VirtPageNum FrameTracker;
  map_type : MapType;
  map_perm : MapPermission;
}.

(** [MapArea::new]. *)
Definition area_new (start_va end_va : VirtAddr) (start_pa end_pa : option PhysAddr)
    (mt : MapType) (mp : MapPermission) : outcome MapArea :=
  let start_vpn := VirtAddr_floor start_va in
  end_vpn ← VirtAddr_ceil end_va;
  match start_pa, end_pa with
  | Some spa, Some epa =>
      let start_ppn := PhysAddr_floor spa in
      end_ppn ← PhysAddr_ceil epa;
      vr ← range_new start_vpn end_vpn;
      pr ← range_new start_ppn end_ppn;
      Ret (MkArea vr (Some pr) ∅ mt mp)
  | _, _ =>
      vr ← range_new start_vpn end_vpn;
      Ret (MkArea vr None ∅ mt mp)
  end.

Section Areas.
Context {P : Type} `{PageTable P}.

(** [map_one].  Inserting into the [BTreeMap] drops a tracker it replaces. *)
Definition map_one (a : MapArea) (pt : P) (vpn : VirtPageNum)
    (ppn_ : option PhysPageNum) : M Sys (MapArea * P) :=
  r ← match map_type a with
      | Linear => ppn ← lift (unwrap ppn_); mret (ppn, a)
      | Framed =>
          fr ← frame_alloc;
          frame ← lift (unwrap fr);
          _ ← match data_frames a !! vpn with
              | Some old => drop_tracker old
              | None => mret tt
              end;
          mret (ft_ppn frame,
                MkArea (vpn_range a) (ppn_range a) (<[vpn := frame]> (data_frames a))
                  (map_type a) (map_perm a))
      end;
  pte_flags ← lift (unwrap (flag.from_bits (perm_bits (map_perm a))));
  pt' ← pt_map pt vpn r.1 pte_flags;
  mret (r.2, pt').

(** [unmap_one]: removing the tracker drops it. *)
Definition unmap_one (a : MapArea) (pt : P) (vpn : VirtPageNum) : M Sys (MapArea * P) :=
  a' ← (if decide (map_type a = Framed) then
          _ ← match data_frames a !! vpn with
              | Some old => drop_tracker old
              | None => mret tt
              end;
          mret (MkArea (vpn_range a) (ppn_range a) (delete vpn (data_frames a))
                  (map_type a) (map_perm a))
        else mret a);
  pt' ← pt_unmap pt vpn;
  mret (a', pt').

(** The [loop] of the linear branch: the exit test comes after the step. *)
Fixpoint map_linear_loop (fuel : nat) (a : MapArea) (pt : P) (pr : PPNRange)
    (vr : VPNRange) (ppn : PhysPageNum) (vpn : VirtPageNum) : M Sys (MapArea * P) :=
  match fuel with
  | O => nofuelM
  | S fuel' =>
      r ← map_one a pt vpn (Some ppn);
      ppn' ← lift (step ppn);
      vpn' ← lift (step vpn);
      if decide (ppn' = get_end pr ∧ vpn' = get_end vr) then mret r
      else map_linear_loop fuel' r.1 r.2 pr vr ppn' vpn'
  end.

Definition range_len (vr : VPNRange) : nat :=
  Z.to_nat (vpn_0 (get_end vr) - vpn_0 (get_start vr)).

(** Rounds of the linear loop: one per page of the range.  On an empty range the
    exit test comes too late and the loop goes on; it has failed by the time it
    meets a page number (modulo 2^27) it has mapped itself. *)
Definition linear_rounds (vr : VPNRange) : nat :=
  if decide (get_start vr = get_end vr) then Z.to_nat (2 ^ 27 + 1) else range_len vr.
#[global] Arguments linear_rounds : simpl never.

(** [MapArea::map]. *)
Definition area_map (a : MapArea) (pt : P) : M Sys (MapArea * P) :=
  let vr := vpn_range a in
  match ppn_range a with
  | Some pr =>
      let ppn_start := usize_from_PhysPageNum (get_start pr) in
      let ppn_end := usize_from_PhysPageNum (get_end pr) in
      let vpn_start := usize_from_VirtPageNum (get_start vr) in
      let vpn_end := usize_from_VirtPageNum (get_end vr) in
      pl ← lift (usub ppn_end ppn_start);
      vl ← lift (usub vpn_end vpn_start);
      _ ← lift (assert (pl =? vl));
      map_linear_loop (linear_rounds vr) a pt pr vr (get_start pr) (get_start vr)
  | None =>
      for_range (range_len vr) (into_iter vr)
        (λ st vpn, map_one st.1 st.2 vpn None) (a, pt)
  end.

Definition area_unmap (a : MapArea) (pt : P) : M Sys (MapArea * P) :=
  for_range (range_len (vpn_range a)) (into_iter (vpn_range a))
    (λ st vpn, unmap_one st.1 st.2 vpn) (a, pt).

(** [copy_data]: one page of [data] at a time. *)
Fixpoint copy_loop (fuel : nat) (pt : P) (data : list Z) (start : Z)
    (current_vpn : VirtPageNum) : M Sys unit :=
  match fuel with
  | O => nofuelM
  | S fuel' =>
      let len := Z.of_nat (length data) in
      stop ← lift (uadd start PAGE_SIZE);
      let src := take (Z.to_nat (len `min` stop - start)) (drop (Z.to_nat start) data) in
      r ← pt_translate pt current_vpn;
      pte ← lift (unwrap r);
      _ ← modify (set_mem (λ m, copy_bytes m (frame_base (pte_ppn pte)) src));
      let start' := stop in
      if len <=? start' then mret tt
      else vpn' ← lift (step current_vpn); copy_loop fuel' pt data start' vpn'
  end.
Definition copy_data (a : MapArea) (pt : P) (data : list Z) : M Sys unit :=
  _ ← lift (assert (bool_decide (map_type a = Framed)));
  copy_loop (S (length data / 4096)) pt data 0 (get_start (vpn_range a)).

(** [HostMemorySet<P>] and [GuestMemorySet<G>] have the same fields and the
    same [MemorySet] methods. *)
Record MemSet := MkSet {
  page_table : P;
  areas : list MapArea;
}.

Definition ms_token (ms : MemSet) : Z := pt_token (page_table ms).

Definition push (ms : MemSet) (a : MapArea) (data : option (list Z)) : M Sys MemSet :=
  r ← area_map a (page_table ms);
  _ ← match data with
      | Some d => copy_data r.1 r.2 d
      | None => mret tt
      end;
  mret (MkSet r.2 (areas ms ++ [r.1])).

Definition insert_framed_area (ms : MemSet) (start_va end_va : VirtAddr)
    (permission : MapPermission) : M Sys MemSet :=
  a ← lift (area_new start_va end_va None None Framed permission);
  push ms a None.

Definition map_trampoline (strampoline : Z) (ms : MemSet) : M Sys MemSet :=
  v ← lift (VirtPageNum_from_VirtAddr (VirtAddr_from_usize TRAMPOLINE));
  p ← lift (PhysPageNum_from_PhysAddr (PhysAddr_from_usize strampoline));
  pt' ← pt_map (page_table ms) v p (flag.union flag.R flag.X);
  mret (MkSet pt' (areas ms)).

Definition ms_translate (ms : MemSet) (vpn : VirtPageNum) : M Sys (option PageTableEntry) :=
  pt_translate (page_table ms) vpn.
Definition ms_translate_va (ms : MemSet) (va : Z) : M Sys (option Z) :=
  pt_translate_va (page_table ms) va.

(** The argument pattern of most calls: the same bounds for the virtual and the
    physical side, through [From<usize>]. *)
Definition identity_area (lo hi : Z) (mp : MapPermission) : outcome MapArea :=
  area_new (VirtAddr_from_usize lo) (VirtAddr_from_usize hi)
    (Some (PhysAddr_from_usize lo)) (Some (PhysAddr_from_usize hi)) Linear mp.
Definition push_identity (ms : MemSet) (lo hi : Z) (mp : MapPermission) : M Sys MemSet :=
  a ← lift (identity_area lo hi mp); push ms a None.
(** [(dev.base_address, dev.base_address + size)]. *)
Definition push_device (ms : MemSet) (d : Device) (size : Z) (mp : MapPermission)
    : M Sys MemSet :=
  hi ← lift (uadd (base_address d) size);
  push_identity ms (base_address d) hi mp.
Definition push_device_opt (ms : MemSet) (d : option Device) (size : Device → Z)
    (mp : MapPermission) : M Sys MemSet :=
  match d with
  | Some dev => push_device ms dev (size dev) mp
  | None => mret ms
  end.
End Areas.

Arguments MemSet P : clear implicits.
Abbreviation HostMemorySet := MemSet.
Abbreviation GuestMemorySet := MemSet.

(** The trait [MemorySet<P>] and its two implementations, whose bodies are the
    same; [strampoline] is the linker's symbol. *)
Record MemorySetOps (T : Type) := MkOps {
  op_token : T → Z;
  op_insert_framed_area : T → VirtAddr → VirtAddr → MapPermission → M Sys T;
  op_push : T → MapArea → option (list Z) → M Sys T;
  op_map_trampoline : T → M Sys T;
  op_translate : T → VirtPageNum → M Sys (option PageTableEntry);
  op_translate_va : T → Z → M Sys (option Z);
}.
Definition HostMemorySet_ops {P : Type} `{PageTable P} (strampoline : Z)
    : MemorySetOps (HostMemorySet P) :=
  MkOps _ ms_token insert_framed_area push (map_trampoline strampoline) ms_translate
    ms_translate_va.
Definition GuestMemorySet_ops {G : Type} `{GuestPageTable G} (strampoline : Z)
    : MemorySetOps (GuestMemorySet G) :=
  MkOps _ ms_token insert_framed_area push (map_trampoline strampoline) ms_translate
    ms_translate_va.

(** Symbols the linker script defines. *)
Record LinkerSymbols := MkSyms {
  stext : Z; etext : Z; srodata : Z; erodata : Z; sdata : Z; edata : Z;
  sbss_with_stack : Z; ebss : Z; ekernel : Z; strampoline : Z;
}.

Section Host.
Context {P : Type} `{PageTable P}.

Definition new_bare : M Sys (HostMemorySet P) :=
  pt ← pt_new; mret (MkSet pt []).

Definition new_host_vmm (sym : LinkerSymbols) (machine : MachineMeta)
    : M Sys (HostMemorySet P) :=
  hpm ← new_bare;
  hpm ← map_trampoline (strampoline sym) hpm;
  ctx ← lift (area_new (VirtAddr_from_usize TRAP_CONTEXT) (VirtAddr_from_usize TRAMPOLINE)
                None None Framed perm.RW);
  hpm ← push hpm ctx None;
  hpm ← push_identity hpm (stext sym) (etext sym) perm.RX;
  hpm ← push_identity hpm (srodata sym) (erodata sym) perm.R;
  hpm ← push_identity hpm (sdata sym) (edata sym) perm.RW;
  hpm ← push_identity hpm (sbss_with_stack sym) (ebss sym) perm.RW;
  hpm ← push_identity hpm (ekernel sym) MEMORY_END perm.RW;
  hpm ← push_device_opt hpm (test_finisher_address machine) dev_size perm.RW;
  hpm ← mfold (virtio machine)
          (λ hpm dev, push_device hpm dev (dev_size dev) perm.RW) hpm;
  push_device_opt hpm (plic machine) dev_size perm.RW.

Definition map_guest (hpm : HostMemorySet P) (start_pa gpm_size : Z)
    : M Sys (HostMemorySet P) :=
  hi ← lift (uadd start_pa gpm_size);
  push_identity hpm start_pa hi perm.RW.

(** [map_gpm]: every area of the guest at its physical addresses. *)
Definition map_gpm_area (hpm : HostMemorySet P) (area : MapArea)
    : M Sys (HostMemorySet P) :=
  pr ← lift (unwrap (ppn_range area));
  let start_pa := PhysAddr_from_PhysPageNum (get_start pr) in
  let end_pa := PhysAddr_from_PhysPageNum (get_end pr) in
  a ← lift (area_new (VirtAddr_from_usize (usize_from_PhysAddr start_pa))
              (VirtAddr_from_usize (usize_from_PhysAddr end_pa))
              (Some start_pa) (Some end_pa) (map_type area) (map_perm area));
  push hpm a None.
Definition map_gpm {G : Type} (hpm : HostMemorySet P) (gpm : GuestMemorySet G)
    : M Sys (HostMemorySet P) :=
  mfold (areas gpm) map_gpm_area hpm.
End Host.

Section Guest.
Context {G : Type} `{GuestPageTable G}.

Definition new_guest_bare : M Sys (GuestMemorySet G) :=
  pt ← pt_new_guest; mret (MkSet pt []).

Definition new_guest_without_load (tramp : Z) (gm : MachineMeta)
    : M Sys (GuestMemorySet G) :=
  gpm ← new_guest_bare;
  lo ← lift (usub (physical_memory_offset gm) 0x200000);
  hi ← lift (uadd (physical_memory_offset gm) (physical_memory_size gm));
  a ← lift (area_new (VA lo) (VA hi) (Some (PA lo)) (Some (PA hi)) Linear perm.RWUX);
  gpm ← push gpm a None;
  gpm ← map_trampoline tramp gpm;
  gpm ← match test_finisher_address gm with
        | Some t =>
            sz ← lift (uadd (base_address t) (dev_size t));
            hi ← lift (uadd sz 0x1000);
            push_identity gpm (base_address t) hi perm.RWUX
        | None => mret gpm
        end;
  gpm ← mfold (virtio gm) (λ gpm dev, push_device gpm dev (dev_size dev) perm.RWU) gpm;
  gpm ← push_device_opt gpm (uart gm) dev_size perm.RWU;
  gpm ← push_device_opt gpm (clint gm) dev_size perm.RWU;
  gpm ← push_device_opt gpm (plic gm) (λ _, 0x00200000) perm.RWU;
  push_device_opt gpm (pci gm) (λ _, 0x00200000) perm.RWU.

(** ** Loading an ELF image

    The [xmas_elf] crate is a parameter: [elf_new] is [ElfFile::new], and an
    image is what its accessors return. *)
Record ProgramHeader := MkPh {
  ph_type : option bool;  (* get_type(): Some true for Type::Load *)
  virtual_addr : Z;
  mem_size : Z;
  ph_offset : Z;
  file_size : Z;
  ph_read : bool;
  ph_write : bool;
  ph_execute : bool;
}.
Record Elf := MkElf {
  elf_magic : list Z;
  ph_count : Z;
  program_header : Z → option ProgramHeader;
}.

Definition ph_perm (ph : ProgramHeader) : MapPermission :=
  let p := perm.U in
  let p := if ph_read ph then perm.union p perm.R else p in
  let p := if ph_write ph then perm.union p perm.W else p in
  if ph_execute ph then perm.union p perm.X else p.

(** One program header: copy the segment to [paddr], advance [paddr] by whole
    pages, map the segment's addresses to what was advanced over.  The locals
    are the memory set, [paddr] and [last_paddr]. *)
Definition load_segment (guest_data : list Z) (elf : Elf)
    (st : GuestMemorySet G * Z * Z) (i : Z) : M Sys (GuestMemorySet G * Z * Z) :=
  let '(gpm, paddr, last_paddr) := st in
  ph ← lift (match program_header elf i with Some ph => Ret ph | None => Panic UnwrapErr end);
  is_load ← lift (match ph_type ph with Some b => Ret b | None => Panic UnwrapErr end);
  if is_load : bool then
    let start_va := VirtAddr_from_usize (virtual_addr ph) in
    e ← lift (uadd (virtual_addr ph) (mem_size ph));
    let end_va := VirtAddr_from_usize e in
    let src := take (Z.to_nat (file_size ph)) (drop (Z.to_nat (ph_offset ph)) guest_data) in
    _ ← modify (set_mem (λ m, copy_bytes m paddr src));
    sz ← lift (uadd (mem_size ph) PAGE_SIZE);
    sz ← lift (usub sz 1);
    let page_align_size := shl (Z.shiftr sz 12) 12 in
    let paddr' := paddr + page_align_size in
    a ← lift (area_new start_va end_va (Some (PA last_paddr)) (Some (PA paddr'))
                Linear (ph_perm ph));
    gpm' ← push gpm a None;
    mret (gpm', paddr', paddr')
  else mret st.

Definition new_guest_elf (elf_new : list Z → option Elf) (tramp : Z)
    (guest_data : list Z) (gpm_size : Z) (gm : MachineMeta) : M Sys (GuestMemorySet G) :=
  gpm ← new_guest_bare;
  elf ← lift (match elf_new guest_data with Some e => Ret e | None => Panic UnwrapErr end);
  _ ← lift (assert (bool_decide (elf_magic elf = [0x7f; 0x45; 0x4c; 0x46])));
  st ← mfold (upto 0 (Z.to_nat (ph_count elf))) (load_segment guest_data elf)
         (gpm, GUEST_START_PA, GUEST_START_PA);
  let '(gpm, paddr, _) := st in
  offset ← lift (usub paddr GUEST_START_PA);
  guest_end_pa ← lift (uadd GUEST_START_PA gpm_size);
  guest_end_va ← lift (uadd GUEST_START_VA gpm_size);
  lo ← lift (uadd offset GUEST_START_VA);
  a ← lift (area_new (VA lo) (VA guest_end_va) (Some (PA paddr)) (Some (PA guest_end_pa))
              Linear perm.RWUX);
  gpm ← push gpm a None;
  gpm ← map_trampoline tramp gpm;
  gpm ← push_device_opt gpm (test_finisher_address gm) dev_size perm.RWU;
  gpm ← mfold (virtio gm) (λ gpm dev, push_device gpm dev (dev_size dev) perm.RWU) gpm;
  gpm ← push_device_opt gpm (uart gm) dev_size perm.RWU;
  gpm ← push_device_opt gpm (clint gm) dev_size perm.RWU;
  match plic gm with
  | Some p => push_identity gpm (base_address p) (base_address p) perm.RWU
  | None => mret gpm
  end.
End Guest.
