(* ===== verification/MemorySetFacts.v ===== *)
(** * Correctness of memory sets

    Proved against the page table interface [PageTableSpec]: what mapping an
    area does to the address space, when it succeeds, and what it costs. *)
From stdpp Require Import base tactics numbers list option gmap sets.
From S2P Require Import Prelude Constants Address Pte Mem FrameAllocator PageTable Fdt.
From S2P Require Import Sv39Facts MemorySet.

(** The flags an area's pages get. *)
Definition area_flags (mp : MapPermission) : PTEFlags :=
  flag.union (MkFlags (perm_bits mp)) flag.V.
Definition perm_ok (mp : MapPermission) : Prop := 0 ≤ perm_bits mp < 256.

Lemma from_bits_total b : flag.from_bits b = Some (MkFlags b).
Proof. unfold flag.from_bits, flag.all_bits. simpl. by rewrite Z.land_0_r. Qed.

(** Directories crossed by [n] pages from [v]: two frames each, at most. *)
Definition blocks (v n : Z) : Z := (v + n - 1) / 512 - v / 512.

Lemma blocks_succ v n : 1 < n → 0 ≤ v →
  ((v + 1) / 512 = v / 512 ∧ blocks v n = blocks (v + 1) (n - 1)) ∨
  ((v + 1) / 512 = v / 512 + 1 ∧ blocks v n = blocks (v + 1) (n - 1) + 1).
Proof.
  intros Hn Hv. unfold blocks.
  replace (v + 1 + (n - 1) - 1) with (v + n - 1) by lia.
  assert ((v + 1) / 512 = v / 512 ∨ (v + 1) / 512 = v / 512 + 1) as [E|E].
  { pose proof (Z.div_mod v 512). pose proof (Z.mod_pos_bound v 512).
    pose proof (Z.div_mod (v + 1) 512). pose proof (Z.mod_pos_bound (v + 1) 512). lia. }
  - left. rewrite E. lia.
  - right. rewrite E. lia.
Qed.

Lemma blocks_nonneg v n : 0 < n → 0 ≤ blocks v n.
Proof. intros. unfold blocks. pose proof (Z.div_le_mono v (v + n - 1) 512). lia. Qed.

Section Facts.
Context {P : Type} `{PageTableSpec P}.
Implicit Types pt : P.

(** ** Mapping one page *)

Lemma map_one_linear a pt v n s :
  map_type a = Linear →
  map_one a pt v (Some n) s =
  (pt' ← pt_map pt v n (MkFlags (perm_bits (map_perm a))); mret (a, pt')) s.
Proof.
  intros Ha. unfold map_one. rewrite Ha, from_bits_total. reflexivity.
Qed.

(** ** The linear loop *)

Definition in_pages (v n w : Z) : Prop := v ≤ w mod 2 ^ 27 < v + n.
#[global] Instance in_pages_dec v n w : Decision (in_pages v n w).
Proof. unfold in_pages. apply _. Defined.

(** What mapping [n] pages from [v] onto frames from [p] does. *)
Record mapped (lo : Z) pt s (v p n : Z) (mp : MapPermission) pt' s' : Prop := {
  mp_inv : pt_inv lo pt' s';
  mp_step : sys_step lo (pt_frames pt) s (pt_frames pt') s';
  mp_before : ∀ w, in_pages v n w → pt_view pt s w = None;
  mp_view : ∀ w, pt_view pt' s' w =
    if decide (in_pages v n w)
    then Some (pte_new (PPN (p + (w mod 2 ^ 27 - v))) (area_flags mp))
    else pt_view pt s w;
  mp_cost : sys_free s - sys_free s' ≤ pt_need pt s v + 2 * blocks v n;
}.

Lemma vkey_small v : 0 ≤ v < 2 ^ 27 → vkey (VPN v) = v.
Proof. intros. by apply Z.mod_small. Qed.

(** One page. *)
Lemma map_page_mapped lo pt s v p mp pt' s' :
  pt_inv lo pt s → 0 ≤ v < 2 ^ 27 → 0 ≤ p < 2 ^ 44 → perm_ok mp →
  pt_map pt (VPN v) (PPN p) (MkFlags (perm_bits mp)) s = Ret (pt', s') →
  mapped lo pt s v p 1 mp pt' s' ∧
  (∀ w, pt_need pt' s' w ≤ pt_need pt s w) ∧
  (∀ w, w / 512 = v / 512 → 0 ≤ w → pt_need pt' s' w = 0).
Proof.
  intros Hi Hv Hp Hm Hmap.
  destruct (pt_map_spec lo pt s (VPN v) (PPN p) (MkFlags (perm_bits mp)) pt' s' Hi Hp Hm Hmap)
    as (I&S&N&V&F&M1&M0).
  rewrite vkey_small in * by done. split; [|done]. split; try done.
  - intros w Hw. rewrite pt_view_key. unfold in_pages in Hw.
    by replace (w mod 2 ^ 27) with v by lia.
  - intros w. rewrite V. unfold in_pages.
    destruct (decide (w mod 2 ^ 27 = v)) as [Hw|Hw].
    + rewrite decide_True by lia. do 3 f_equal. lia.
    + by rewrite decide_False by lia.
  - unfold blocks. replace (v + 1 - 1) with v by lia. lia.
Qed.

Lemma mapped_cons lo pt s v p n mp pt1 s1 pt2 s2 :
  0 < n → 0 ≤ v →
  mapped lo pt s v p 1 mp pt1 s1 →
  (∀ w, w / 512 = v / 512 → 0 ≤ w → pt_need pt1 s1 w = 0) →
  mapped lo pt1 s1 (v + 1) (p + 1) n mp pt2 s2 →
  mapped lo pt s v p (n + 1) mp pt2 s2.
Proof.
  intros Hn Hv [I1 S1 B1 V1 C1] Hb [I2 S2 B2 V2 C2]. split; [done| | | |].
  - by eapply sys_step_trans.
  - intros w Hw. unfold in_pages in *.
    destruct (decide (w mod 2 ^ 27 = v)) as [Hv'|Hv']; [apply B1; lia|].
    rewrite <- (B2 w) by lia. rewrite V1, decide_False; [done|]. lia.
  - intros w. rewrite V2, V1. unfold in_pages.
    repeat case_decide; try lia; [|done..]. do 3 f_equal. lia.
  - unfold blocks at 1 in C1. replace (v + 1 - 1) with v in C1 by lia.
    destruct (blocks_succ v (n + 1)) as [[E1 E2]|[E1 E2]]; [lia..| |];
      rewrite E2; replace (n + 1 - 1) with n by lia.
    + rewrite (Hb (v + 1)) in C2 by lia. lia.
    + pose proof (pt_need_range pt1 s1 (v + 1)). lia.
Qed.

Lemma step_VPN v : v + 1 < W64 → step (VPN v) = Ret (VPN (v + 1)).
Proof. intros. unfold step, VirtPageNum_step. simpl. by rewrite uadd_run. Qed.
Lemma step_PPN p : p + 1 < W64 → step (PPN p) = Ret (PPN (p + 1)).
Proof. intros. unfold step, PhysPageNum_step. simpl. by rewrite uadd_run. Qed.

(** The loop, one round at a time, while [n] pages are left. *)
Lemma map_linear_loop_round fuel a pt pr vr p v n s :
  map_type a = Linear → get_end pr = PPN (p + n) → get_end vr = VPN (v + n) →
  p < 2 ^ 44 → v < 2 ^ 27 →
  map_linear_loop (S fuel) a pt pr vr (PPN p) (VPN v) s =
  match pt_map pt (VPN v) (PPN p) (MkFlags (perm_bits (map_perm a))) s with
  | Ret (pt', s') =>
      if decide (n = 1) then Ret ((a, pt'), s')
      else map_linear_loop fuel a pt' pr vr (PPN (p + 1)) (VPN (v + 1)) s'
  | Panic e => Panic e
  | Hang => Hang
  | NoFuel => NoFuel
  end.
Proof.
  intros Ha Hpr Hvr Hp Hv. cbn [map_linear_loop].
  unfold mbind at 1, M_bind at 1. rewrite map_one_linear by done.
  unfold mbind at 1, M_bind at 1.
  destruct (pt_map _ _ _ _ s) as [[pt' s']| | |]; simpl; [|done..].
  unfold mbind, M_bind, lift. rewrite step_PPN, step_VPN by (unfold W64; lia).
  rewrite Hpr, Hvr. destruct (decide (n = 1)) as [->|].
  - rewrite decide_True by done. done.
  - rewrite decide_False; [done|]. intros [[=] _]. lia.
Qed.

Lemma map_linear_loop_spec lo fuel a pr vr p v n pt s a' pt' s' :
  map_type a = Linear → perm_ok (map_perm a) →
  get_end pr = PPN (p + n) → get_end vr = VPN (v + n) →
  0 < n → 0 ≤ v → v + n ≤ 2 ^ 27 → 0 ≤ p → p + n ≤ 2 ^ 44 →
  pt_inv lo pt s →
  map_linear_loop fuel a pt pr vr (PPN p) (VPN v) s = Ret ((a', pt'), s') →
  a' = a ∧ mapped lo pt s v p n (map_perm a) pt' s'.
Proof.
  intros Ha Hm Hpr Hvr. revert n pt p v s Hpr Hvr.
  induction fuel as [|fuel IH]; intros n pt p v s Hpr Hvr Hn Hv Hvn Hp Hpn Hi Hl; [done|].
  rewrite (map_linear_loop_round _ _ _ _ _ _ _ n) in Hl by (done || lia).
  destruct (pt_map _ _ _ _ s) as [[pt1 s1]| | |] eqn:Hmap; [|done..].
  apply (map_page_mapped lo) in Hmap as (M1&_&B1); try done; [|lia..].
  case_decide as Hd1; [by simplify_eq|].
  replace n with (n - 1 + 1) by lia.
  destruct (IH (n - 1) pt1 (p + 1) (v + 1) s1) as [-> M2]; try done; try lia.
  - rewrite Hpr. f_equal. lia.
  - rewrite Hvr. f_equal. lia.
  - apply M1.
  - split; [done|]. eapply mapped_cons; eauto. lia.
Qed.

Lemma map_linear_loop_total lo fuel a pr vr p v n pt s :
  map_type a = Linear → perm_ok (map_perm a) →
  get_end pr = PPN (p + n) → get_end vr = VPN (v + n) →
  0 < n ≤ Z.of_nat fuel → 0 ≤ v → v + n ≤ 2 ^ 27 → 0 ≤ p → p + n ≤ 2 ^ 44 →
  pt_inv lo pt s → (∀ w, in_pages v n w → pt_view pt s w = None) →
  pt_need pt s v + 2 * blocks v n ≤ sys_free s →
  returns (map_linear_loop fuel a pt pr vr (PPN p) (VPN v) s).
Proof.
  intros Ha Hm Hpr Hvr. revert n pt p v s Hpr Hvr.
  induction fuel as [|fuel IH]; intros n pt p v s Hpr Hvr Hn Hv Hvn Hp Hpn Hi Hnone Hc;
    [lia|].
  pose proof (blocks_nonneg v n ltac:(lia)) as Hb.
  destruct (pt_map_total lo pt s (VPN v) (PPN p) (MkFlags (perm_bits (map_perm a))) Hi)
    as [[pt1 s1] Hmap].
  { rewrite vkey_small by lia. apply Hnone. unfold in_pages.
    rewrite Z.mod_small by lia. lia. }
  { rewrite vkey_small by lia. lia. }
  unfold returns. rewrite (map_linear_loop_round _ _ _ _ _ _ _ n) by (done || lia).
  rewrite Hmap. case_decide as Hd1; [eauto|].
  apply (map_page_mapped lo) in Hmap as ([I1 _ _ V1 C1]&_&B1); try done; [|lia..].
  apply (IH (n - 1)); try done; try lia.
  - rewrite Hpr. f_equal. lia.
  - rewrite Hvr. f_equal. lia.
  - intros w Hw. rewrite V1. unfold in_pages in *. rewrite decide_False by lia.
    apply Hnone. lia.
  - unfold blocks at 1 in C1. replace (v + 1 - 1) with v in C1 by lia.
    destruct (blocks_succ v n) as [[E1 E2]|[E1 E2]]; [lia..| |].
    + rewrite (B1 (v + 1)) by lia. lia.
    + pose proof (pt_need_range pt1 s1 (v + 1)). lia.
Qed.

(** An empty range never leaves the loop with a result: the exit test compares
    after stepping past the end.  Whatever the bound on the number of rounds,
    the loop panics or is still running. *)
Lemma map_linear_loop_empty fuel a pt pr vr p v q w s r :
  get_end pr = PPN p → get_end vr = VPN v → p ≤ q → v ≤ w →
  map_linear_loop fuel a pt pr vr (PPN q) (VPN w) s ≠ Ret r.
Proof.
  intros Hpr Hvr. revert a pt q w s.
  induction fuel as [|fuel IH]; intros a pt q w s Hq Hw; [done|].
  cbn [map_linear_loop]. unfold mbind at 1, M_bind at 1.
  destruct (map_one _ _ _ _ s) as [[r1 s1]| | |]; [|done..].
  unfold mbind, M_bind, lift, step, PhysPageNum_step, VirtPageNum_step. simpl.
  unfold uadd. destruct (q + 1 <? W64); simpl; [|done].
  destruct (w + 1 <? W64); simpl; [|done].
  rewrite Hpr, Hvr. rewrite decide_False by (intros [[=] _]; lia).
  apply IH; lia.
Qed.

(** With a round for every page number the table can distinguish, and one more,
    it has panicked: the pages mapped so far are [v] to [w]. *)
Lemma map_linear_loop_empty_panics lo fuel a pr vr p v w pt s :
  map_type a = Linear → perm_ok (map_perm a) →
  get_end pr = PPN p → get_end vr = VPN v → 0 ≤ p → p + 2 ^ 27 < 2 ^ 44 →
  0 ≤ v < 2 ^ 27 → v ≤ w ≤ v + 2 ^ 27 → pt_inv lo pt s →
  (∀ j, v ≤ j < w → is_Some (pt_view pt s j)) → 2 ^ 27 < Z.of_nat fuel + (w - v) →
  ∃ e, map_linear_loop fuel a pt pr vr (PPN (p + (w - v))) (VPN w) s = Panic e.
Proof.
  intros Ha Hm Hpr Hvr Hp Hpb Hv. revert w pt s.
  induction fuel as [|fuel IH]; intros w pt s Hw Hi Hs Hf; [lia|].
  cbn [map_linear_loop]. unfold mbind at 1, M_bind at 1. rewrite map_one_linear by done.
  unfold mbind at 1, M_bind at 1.
  destruct (decide (w = v + 2 ^ 27)) as [->|Hne].
  { erewrite pt_map_mapped; [by eexists|done|]. unfold vkey. cbn [vpn_0].
    replace (v + 2 ^ 27) with (v + 1 * 2 ^ 27) by lia.
    rewrite Z.mod_add, Z.mod_small by lia. apply Hs. lia. }
  destruct (pt_map_stops pt (VPN w) (PPN (p + (w - v))) (MkFlags (perm_bits (map_perm a))) s)
    as [[[pt1 s1] Hmap]|[e Hmap]]; rewrite Hmap; [|by eexists].
  simpl. unfold mbind, M_bind, lift. rewrite step_PPN, step_VPN by (unfold W64; lia).
  rewrite Hpr, Hvr, decide_False by (intros [[=] _]; lia).
  replace (p + (w - v) + 1) with (p + (w + 1 - v)) by lia.
  eapply pt_map_spec in Hmap as (I1&_&_&V1&_); [|done|simpl; lia|done].
  apply IH; [lia|done| |lia].
  intros j Hj. rewrite V1. case_decide as Hk; [done|]. apply Hs.
  destruct (decide (j = w)) as [->|]; [by destruct Hk|lia].
Qed.

Lemma linear_rounds_empty vr :
  get_start vr = get_end vr → Z.of_nat (linear_rounds vr) = 2 ^ 27 + 1.
Proof. intros He. unfold linear_rounds. rewrite decide_True by done. apply Z2Nat.id. lia. Qed.

Lemma linear_rounds_nonempty vr :
  vpn_0 (get_start vr) ≠ vpn_0 (get_end vr) → linear_rounds vr = range_len vr.
Proof. intros Hn. unfold linear_rounds. rewrite decide_False by congruence. done. Qed.

(** ** Areas and [push] *)

Definition linear_area (v ve p pe : Z) (mp : MapPermission) : MapArea :=
  MkArea (MkRange (VPN v) (VPN ve)) (Some (MkRange (PPN p) (PPN pe))) ∅ Linear mp.

Lemma area_new_linear a b c d mp ar :
  0 ≤ a → 0 ≤ b < 2 ^ 56 → 0 ≤ c → 0 ≤ d < 2 ^ 56 →
  area_new (VA a) (VA b) (Some (PA c)) (Some (PA d)) Linear mp = Ret ar →
  ar = linear_area (a / 4096) ((b + 4095) / 4096) (c / 4096) ((d + 4095) / 4096) mp ∧
  1 ≤ b ∧ 1 ≤ d.
Proof.
  intros Ha Hb Hc Hd Hn. unfold area_new in Hn.
  assert (1 ≤ b).
  { destruct (decide (1 ≤ b)); [done|]. rewrite VirtAddr_ceil_spec, decide_True in Hn; simpl in *; [done|lia]. }
  rewrite VirtAddr_ceil_run in Hn by lia. simpl in Hn.
  assert (1 ≤ d).
  { destruct (decide (1 ≤ d)); [done|]. exfalso.
    unfold PhysAddr_ceil, usub in Hn. simpl in Hn.
    rewrite (proj2 (Z.leb_gt 1 d)) in Hn by lia. done. }
  rewrite PhysAddr_ceil_run in Hn by lia. simpl in Hn.
  unfold range_new in Hn. minv. done.
Qed.

Lemma area_new_linear_run a b c d mp :
  0 ≤ a → 1 ≤ b < 2 ^ 56 → 0 ≤ c → 1 ≤ d < 2 ^ 56 → a ≤ b → c ≤ d →
  area_new (VA a) (VA b) (Some (PA c)) (Some (PA d)) Linear mp =
  Ret (linear_area (a / 4096) ((b + 4095) / 4096) (c / 4096) ((d + 4095) / 4096) mp).
Proof.
  intros Ha Hb Hc Hd Hab Hcd. unfold area_new.
  rewrite VirtAddr_ceil_run, PhysAddr_ceil_run by lia. simpl.
  unfold range_new, ple, VirtPageNum_ple, PhysPageNum_ple. simpl.
  change PAGE_SIZE with 4096.
  rewrite !(proj2 (Z.leb_le _ _)); [done|apply Z.div_le_mono; lia..].
Qed.

Lemma push_linear_spec lo ms s v ve p pe mp ms' s' :
  pt_inv lo (page_table ms) s → perm_ok mp →
  0 ≤ v → ve ≤ 2 ^ 27 → 0 ≤ p → pe ≤ 2 ^ 44 →
  push ms (linear_area v ve p pe mp) None s = Ret (ms', s') →
  areas ms' = areas ms ++ [linear_area v ve p pe mp] ∧ v < ve ∧
  mapped lo (page_table ms) s v p (ve - v) mp (page_table ms') s'.
Proof.
  intros Hi Hm Hv Hve Hp Hpe Hpush. unfold push in Hpush. minv0.
  match goal with H : area_map _ _ s = Ret (?r, _) |- _ =>
    rename H into Hmap; destruct r as [a' pt'] end.
  unfold area_map in Hmap. simpl in Hmap. minv0.
  match goal with H : (_ =? _) = true |- _ => apply Z.eqb_eq in H end.
  match goal with H : map_linear_loop _ _ _ _ _ _ _ _ = _ |- _ => rename H into Hmap end.
  unfold usize_from_PhysPageNum, usize_from_VirtPageNum in *. cbn [ppn_0 vpn_0] in *.
  assert (v < ve).
  { destruct (decide (v < ve)); [done|]. exfalso.
    apply (map_linear_loop_empty _ _ _ _ _ pe ve p v s _) in Hmap; simpl in *; (done || lia). }
  apply (map_linear_loop_spec lo _ _ _ _ _ _ (ve - v)) in Hmap as [-> HM];
    try done; simpl; try lia; f_equal; lia.
Qed.

Lemma push_linear_total lo ms s v ve p pe mp :
  pt_inv lo (page_table ms) s → perm_ok mp →
  0 ≤ v < ve → ve ≤ 2 ^ 27 → 0 ≤ p → pe ≤ 2 ^ 44 → pe - p = ve - v →
  (∀ w, in_pages v (ve - v) w → pt_view (page_table ms) s w = None) →
  2 + 2 * blocks v (ve - v) ≤ sys_free s →
  returns (push ms (linear_area v ve p pe mp) None s).
Proof.
  intros Hi Hm Hv Hve Hp Hpe Heq Hnone Hc.
  assert (returns (area_map (linear_area v ve p pe mp) (page_table ms) s)) as [[[a pt] s1] Hr].
  { unfold area_map. simpl. unfold returns, mbind, M_bind, lift.
    rewrite !usub_run by lia. rewrite Heq, Z.eqb_refl. simpl.
    apply (map_linear_loop_total lo _ _ _ _ _ _ (ve - v)); simpl; try done; try lia.
    - f_equal. lia.
    - f_equal. lia.
    - rewrite linear_rounds_nonempty by (simpl; lia). unfold range_len. simpl. lia.
    - pose proof (pt_need_range (page_table ms) s v). lia. }
  eexists. unfold push, mbind, M_bind. rewrite Hr. simpl. done.
Qed.

(** ** Address spaces as segments *)

Record seg := MkSeg { seg_lo : Z; seg_hi : Z; seg_pa : Z; seg_flags : PTEFlags }.

Definition in_seg (g : seg) (w : Z) : Prop := seg_lo g ≤ w < seg_hi g.
Definition seg_entry (g : seg) (w : Z) : PageTableEntry :=
  pte_new (PPN (seg_pa g + (w - seg_lo g))) (seg_flags g).

(** The table maps exactly the pages of the segments. *)
Definition represents pt s (gs : list seg) : Prop :=
  ∀ w e, pt_view pt s w = Some e ↔
    ∃ g, g ∈ gs ∧ in_seg g (w mod 2 ^ 27) ∧ e = seg_entry g (w mod 2 ^ 27).

Lemma represents_mapped lo pt s gs v p n mp pt' s' :
  represents pt s gs → mapped lo pt s v p n mp pt' s' →
  represents pt' s' (gs ++ [MkSeg v (v + n) p (area_flags mp)]).
Proof.
  intros Hr [_ _ B V _] w e. rewrite V.
  setoid_rewrite elem_of_app. setoid_rewrite list_elem_of_singleton.
  case_decide as Hw.
  - pose proof (B w Hw) as Hn. split.
    + intros [= <-]. eexists. split; [by right|]. done.
    + intros (g&[Hg| ->]&Hin&->); [|done].
      assert (pt_view pt s w = Some (seg_entry g (w mod 2 ^ 27))) as Hs
        by (apply Hr; eauto). congruence.
  - rewrite (Hr w e). split.
    + intros (g&Hg&?&?). eauto.
    + intros (g&[Hg| ->]&Hin&->); [eauto|]. unfold in_seg, in_pages in *. simpl in *. lia.
Qed.

Lemma represents_none pt s gs w :
  represents pt s gs → (∀ g, g ∈ gs → ¬ in_seg g (w mod 2 ^ 27)) →
  pt_view pt s w = None.
Proof.
  intros Hr Hn. destruct (pt_view pt s w) as [e|] eqn:E; [|done].
  apply Hr in E as (g&Hg&Hin&_). by destruct (Hn g).
Qed.
End Facts.
