(* ===== verification/Framed.v ===== *)
(** * Framed areas

    [Framed] areas of [src/src/mm/memory_set.rs]: every page gets a frame of its
    own.  Proved against the page table interface. *)
From stdpp Require Import base tactics numbers list option gmap sets.
From S2P Require Import Prelude Constants Address Pte Mem FrameAllocator PageTable Fdt.
From S2P Require Import Sv39Facts MemorySet MemorySetFacts.

Lemma owned_perm lo s ps qs : ps ≡ₚ qs → owned lo s ps → owned lo s qs.
Proof.
  intros Hp (Hn&al&Ha&Hf). split; [by rewrite <- Hp|]. exists al. split; [done|].
  by rewrite <- Hp.
Qed.

Lemma owned_cons_notin lo s p ps : owned lo s (p :: ps) → p ∉ ps.
Proof. intros [Hn _]. by apply NoDup_cons in Hn as [? _]. Qed.

Lemma owned_app_r lo s ps qs : owned lo s (ps ++ qs) → owned lo s qs.
Proof.
  intros (Hn&al&Ha&Hf). apply NoDup_app in Hn as (_&_&Hn). split; [done|].
  exists al. split; [done|]. by apply Forall_app in Hf as [_ ?].
Qed.

Definition frame_zero (m : mem) (f : PhysPageNum) : Prop :=
  ∀ a, frame_base f ≤ a < frame_base f + 4096 → rd8 m a = 0.

Lemma frame_zero_outside ps m m' f :
  same_outside ps m m' → ppn_ok f → f ∉ ps → frame_zero m f → frame_zero m' f.
Proof. intros Hs Hf Hn Hz a Ha. rewrite (Hs f a) by done. by apply Hz. Qed.

Section Framed.
Context {P : Type} `{PageTableSpec P}.
Implicit Types (pt : P) (s : Sys).

(** What mapping [n] pages from [v] onto the new frames [fs] does: the frames
    are owned beside everything owned before and the table's, and read zero. *)
Record framed (lo : Z) pt s (v n : Z) (mp : MapPermission) (fs : list PhysPageNum)
    pt' s' : Prop := {
  fr_inv : pt_inv lo pt' s';
  fr_len : Z.of_nat (length fs) = n;
  fr_owned : ∀ rest, owned lo s (rest ++ pt_frames pt) →
    owned lo s' (rest ++ fs ++ pt_frames pt');
  fr_mem : same_outside (fs ++ pt_frames pt') (sys_mem s) (sys_mem s');
  fr_prefix : pt_frames pt `prefix_of` pt_frames pt';
  fr_zero : Forall (frame_zero (sys_mem s')) fs;
  fr_before : ∀ w, in_pages v n w → pt_view pt s w = None;
  fr_view : ∀ w, pt_view pt' s' w =
    if decide (in_pages v n w)
    then (λ f, pte_new f (area_flags mp)) <$> fs !! Z.to_nat (w mod 2 ^ 27 - v)
    else pt_view pt s w;
  fr_cost : sys_free s - 3 * n ≤ sys_free s';
  fr_end : sys_end s' = sys_end s;
  fr_fresh : none_recycled s → none_recycled s';
}.

Lemma framed_nil lo pt s v mp : pt_inv lo pt s → framed lo pt s v 0 mp [] pt s.
Proof.
  intros Hi. split; simpl; auto using same_outside_refl; try lia.
  - unfold in_pages. lia.
  - intros w. rewrite decide_False; [done|]. unfold in_pages. lia.
Qed.

(** Allocation leaves the table alone. *)
Lemma alloc_keeps_table lo pt s f s1 :
  pt_inv lo pt s → fresh_frame lo s f s1 →
  pt_inv lo pt s1 ∧ (∀ v, pt_view pt s1 v = pt_view pt s v) ∧
  (∀ v, pt_need pt s1 v = pt_need pt s v).
Proof.
  intros Hi Hf. destruct (pt_inv_wf _ _ _ Hi) as [Hwf Ho].
  apply (pt_inv_frame lo pt s s1 Hi (ff_wf _ _ _ _ Hf)) with (ps := [f]).
  - destruct (ff_owned _ _ _ _ Hf _ Ho) as (Hn&al&Ha&Hu). apply NoDup_app in Hn as (?&?&?).
    split; [done|]. exists al. split; [done|]. by apply Forall_app in Hu as [? _].
  - rewrite (ff_mem _ _ _ _ Hf). apply same_outside_zero, Hf.
  - intros q Hq ->%list_elem_of_singleton. by apply (ff_notin _ _ _ _ Hf _ Ho).
Qed.

(** A fresh frame followed by its insertion. *)
Lemma framed_step lo pt s f s1 v mp pt' s' :
  pt_inv lo pt s → fresh_frame lo s f s1 → 0 ≤ v < 2 ^ 27 → perm_ok mp →
  pt_map pt (VPN v) f (MkFlags (perm_bits mp)) s1 = Ret (pt', s') →
  framed lo pt s v 1 mp [f] pt' s'.
Proof.
  intros Hi Hf Hv Hm Hmap. destruct (alloc_keeps_table _ _ _ _ _ Hi Hf) as (Hi1&V1&N1).
  destruct f as [p].
  destruct (map_page_mapped lo pt s1 v p mp pt' s') as ([I2 S2 B2 V2 C2]&_&_); try done.
  { apply Hf. }
  assert (Hown : ∀ rest, owned lo s (rest ++ pt_frames pt) →
    owned lo s' (rest ++ [PPN p] ++ pt_frames pt')).
  { intros rest Ho. apply (ff_owned _ _ _ _ Hf) in Ho.
    rewrite app_assoc. apply (step_owned _ _ _ _ _ S2).
    eapply owned_perm; [|exact Ho]. by rewrite <- !app_assoc, (Permutation_app_comm [_]). }
  assert (PPN p ∉ pt_frames pt').
  { eapply owned_cons_notin, (Hown []), pt_inv_wf. done. }
  split; try done; try apply S2.
  - eapply same_outside_mono, same_outside_trans, S2;
      [|rewrite (ff_mem _ _ _ _ Hf); apply same_outside_zero, Hf]. done.
  - constructor; [|done]. eapply frame_zero_outside; [apply S2|apply Hf|done|].
    intros a Ha. rewrite (ff_mem _ _ _ _ Hf). by apply rd8_zero_frame.
  - intros w Hw. rewrite <- V1. by apply B2.
  - intros w. rewrite V2, V1. case_decide as Hw; [|done]. unfold in_pages in Hw.
    replace (w mod 2 ^ 27 - v) with 0 by lia. simpl. by rewrite Z.add_0_r.
  - rewrite (ff_count _ _ _ _ Hf) in C2. pose proof (pt_need_range pt s1 v).
    unfold blocks in C2. replace (v + 1 - 1) with v in C2 by lia. lia.
  - rewrite (step_end _ _ _ _ _ S2). apply Hf.
  - intros Hr. by apply (step_fresh _ _ _ _ _ S2), Hf.
Qed.

Lemma framed_cons lo pt s v n mp f fs pt1 s1 pt2 s2 :
  0 ≤ n → framed lo pt s v 1 mp [f] pt1 s1 → framed lo pt1 s1 (v + 1) n mp fs pt2 s2 →
  pt_inv lo pt s → framed lo pt s v (1 + n) mp (f :: fs) pt2 s2.
Proof.
  intros Hn [I1 L1 O1 M1 P1 Z1 B1 V1 C1 E1 R1] [I2 L2 O2 M2 P2 Z2 B2 V2 C2 E2 R2] Hi.
  destruct (pt_inv_wf _ _ _ Hi) as [Hwf Ho].
  destruct (pt_inv_wf _ _ _ I2) as [Hwf2 _].
  pose proof (O2 [f] (O1 [] Ho)) as Hf.
  split; try done; simpl in *; try lia.
  - intros rest Hr. specialize (O2 (rest ++ [f])). rewrite <- !app_assoc in O2. by apply O2, O1.
  - eapply same_outside_mono, same_outside_trans; [|exact M1|exact M2].
    apply prefix_elem in P2. simpl. set_solver.
  - by transitivity (pt_frames pt1).
  - constructor; [|done]. inversion_clear Z1.
    eapply frame_zero_outside; [exact M2| | |done].
    + eapply owned_ppn_ok; [done|exact Hf|by left].
    + by eapply owned_cons_notin.
  - intros w Hw. unfold in_pages in *.
    destruct (decide (w mod 2 ^ 27 = v)); [apply B1; lia|].
    rewrite <- (B2 w) by lia. rewrite V1, decide_False; [done|]. lia.
  - intros w. rewrite V2, V1. unfold in_pages. repeat case_decide; try lia; try done.
    + replace (w mod 2 ^ 27 - v) with (1 + (w mod 2 ^ 27 - (v + 1))) by lia.
      by rewrite Z2Nat.inj_add by lia.
    + by replace (w mod 2 ^ 27 - v) with 0 by lia.
  - auto.
Qed.

(** ** The loop over a framed area *)

Fixpoint add_frames (d : gmap VirtPageNum FrameTracker) (v : Z) (fs : list PhysPageNum)
    : gmap VirtPageNum FrameTracker :=
  match fs with
  | [] => d
  | f :: fs => add_frames (<[VPN v := MkTracker f]> d) (v + 1) fs
  end.
Definition with_frames (a : MapArea) (v : Z) (fs : list PhysPageNum) : MapArea :=
  MkArea (vpn_range a) (ppn_range a) (add_frames (data_frames a) v fs) (map_type a) (map_perm a).

Lemma add_frames_lookup d v fs w :
  add_frames d v fs !! VPN w =
  if decide (v ≤ w < v + Z.of_nat (length fs))
  then MkTracker <$> fs !! Z.to_nat (w - v) else d !! VPN w.
Proof.
  revert d v. induction fs as [|f fs IH]; intros d v; simpl.
  - by rewrite decide_False by lia.
  - rewrite IH. destruct (decide (w = v)) as [->|Hne].
    + rewrite decide_False, decide_True by lia. rewrite lookup_insert_eq.
      by rewrite Z.sub_diag.
    + rewrite lookup_insert_ne by congruence.
      destruct (decide (v + 1 ≤ w < v + 1 + Z.of_nat (length fs))).
      * rewrite decide_True by lia.
        replace (w - v) with (1 + (w - (v + 1))) by lia. by rewrite Z2Nat.inj_add by lia.
      * by rewrite decide_False by lia.
Qed.

Lemma map_one_framed a pt v s :
  map_type a = Framed → data_frames a !! VPN v = None →
  map_one a pt (VPN v) None s =
  (fr ← frame_alloc; f ← lift (unwrap fr);
   pt' ← pt_map pt (VPN v) (ft_ppn f) (MkFlags (perm_bits (map_perm a)));
   mret (with_frames a v [ft_ppn f], pt')) s.
Proof.
  intros Ha Hd. unfold map_one. rewrite Ha, Hd, from_bits_total.
  unfold mbind, M_bind. destruct (frame_alloc s) as [[[[f]|] s1]| | |]; [|done..].
  simpl. unfold with_frames. by rewrite Ha.
Qed.

Lemma framed_loop_spec lo n a pt v s a' pt' s' :
  map_type a = Framed → perm_ok (map_perm a) → 0 ≤ v → v + Z.of_nat n ≤ 2 ^ 27 →
  (∀ w, v ≤ w → data_frames a !! VPN w = None) → pt_inv lo pt s →
  mfold (VPN <$> upto v n) (λ st vpn, map_one st.1 st.2 vpn None) (a, pt) s =
    Ret ((a', pt'), s') →
  ∃ fs, a' = with_frames a v fs ∧ framed lo pt s v (Z.of_nat n) (map_perm a) fs pt' s'.
Proof.
  revert a pt v s. induction n as [|n IH]; intros a pt v s Ha Hm Hv Hvn Hd Hi Hl.
  { simpl in Hl. minv. exists []. split; [by destruct a'|]. by apply framed_nil. }
  cbn [upto fmap list_fmap mfold] in Hl. minv0.
  match goal with H : map_one _ _ _ _ _ = _ |- _ =>
    cbn [fst snd] in H; rewrite map_one_framed in H by auto with lia end.
  minv0. match goal with H : frame_alloc _ = Ret (Some ?t, _) |- _ =>
    apply (frame_alloc_some lo) in H as Hf; [|by eapply pt_inv_wf]; clear H end.
  match goal with H : pt_map _ _ _ _ _ = _ |- _ =>
    eapply (framed_step lo) in H as F1; eauto; [|lia] end.
  match goal with H : mfold _ _ _ _ = _ |- _ =>
    apply IH in H as (fs&->&F2); simpl; auto; [|lia..| |apply F1] end.
  - eexists (_ :: fs). split; [done|].
    replace (Z.of_nat (S n)) with (1 + Z.of_nat n) by lia. eapply framed_cons; eauto. lia.
  - intros w Hw. rewrite lookup_insert_ne by (intros [=]; lia). apply Hd. lia.
Qed.

Lemma framed_loop_total lo n a pt v s :
  map_type a = Framed → perm_ok (map_perm a) → 0 ≤ v → v + Z.of_nat n ≤ 2 ^ 27 →
  (∀ w, v ≤ w → data_frames a !! VPN w = None) → pt_inv lo pt s →
  (∀ w, in_pages v (Z.of_nat n) w → pt_view pt s w = None) → 3 * Z.of_nat n ≤ sys_free s →
  returns (mfold (VPN <$> upto v n) (λ st vpn, map_one st.1 st.2 vpn None) (a, pt) s).
Proof.
  revert a pt v s. induction n as [|n IH]; intros a pt v s Ha Hm Hv Hvn Hd Hi Hn Hc;
    [by eexists|].
  cbn [upto fmap list_fmap mfold]. unfold returns, mbind, M_bind. cbn [fst snd].
  rewrite map_one_framed by auto with lia.
  destruct (frame_alloc_total lo s) as (t&s1&Ht); [by eapply pt_inv_wf|lia|].
  apply (frame_alloc_some lo) in Ht as Hf; [|by eapply pt_inv_wf].
  destruct (alloc_keeps_table _ _ _ _ _ Hi Hf) as (Hi1&V1&N1).
  destruct (pt_map_total lo pt s1 (VPN v) (ft_ppn t) (MkFlags (perm_bits (map_perm a))) Hi1)
    as [[pt2 s2] Hmap].
  { rewrite V1, vkey_small by lia. apply Hn. unfold in_pages. rewrite Z.mod_small; lia. }
  { rewrite (ff_count _ _ _ _ Hf). pose proof (pt_need_range pt s1 (vkey (VPN v))). lia. }
  unfold mbind, M_bind, lift. rewrite Ht. simpl. rewrite Hmap.
  assert (0 ≤ v < 2 ^ 27) as Hv1 by lia.
  pose proof (framed_step lo _ _ _ _ _ _ _ _ Hi Hf Hv1 Hm Hmap) as F1.
  apply IH; simpl; auto; try lia.
  - intros w Hw. rewrite lookup_insert_ne by (intros [=]; lia). apply Hd. lia.
  - apply F1.
  - intros w Hw. rewrite (fr_view _ _ _ _ _ _ _ _ _ F1). unfold in_pages in *.
    rewrite decide_False by lia. apply Hn. lia.
  - pose proof (fr_cost _ _ _ _ _ _ _ _ _ F1). lia.
Qed.

(** ** [push] and [insert_framed_area] *)

Definition framed_area (v ve : Z) (mp : MapPermission) : MapArea :=
  MkArea (MkRange (VPN v) (VPN ve)) None ∅ Framed mp.

Lemma area_new_framed a b mp :
  0 ≤ a ≤ b → 1 ≤ b < 2 ^ 56 →
  area_new (VA a) (VA b) None None Framed mp =
  Ret (framed_area (a / 4096) ((b + 4095) / 4096) mp).
Proof.
  intros Ha Hb. unfold area_new. rewrite VirtAddr_ceil_run by lia. simpl.
  unfold range_new, ple, VirtPageNum_ple. simpl. change PAGE_SIZE with 4096.
  rewrite (proj2 (Z.leb_le _ _)); [done|]. apply Z.div_le_mono; lia.
Qed.

Lemma area_map_framed v ve mp pt s :
  v ≤ ve ≤ 2 ^ 27 →
  area_map (framed_area v ve mp) pt s =
  mfold (VPN <$> upto v (Z.to_nat (ve - v))) (λ st vpn, map_one st.1 st.2 vpn None)
    (framed_area v ve mp, pt) s.
Proof.
  intros Hv. unfold area_map. cbn [ppn_range framed_area vpn_range].
  unfold range_len, into_iter, iter_new, get_start, get_end. cbn [range_l range_r vpn_0].
  rewrite <- for_range_VPN by (unfold W64; lia). by replace (v + Z.of_nat (Z.to_nat (ve - v)))
    with ve by lia.
Qed.

Lemma push_framed_spec lo (ms : MemSet P) s v ve mp ms' s' :
  pt_inv lo (page_table ms) s → perm_ok mp → 0 ≤ v ≤ ve → ve ≤ 2 ^ 27 →
  push ms (framed_area v ve mp) None s = Ret (ms', s') →
  ∃ fs, areas ms' = areas ms ++ [with_frames (framed_area v ve mp) v fs] ∧
    framed lo (page_table ms) s v (ve - v) mp fs (page_table ms') s'.
Proof.
  intros Hi Hm Hv Hve Hp. unfold push in Hp. minv0.
  match goal with H : area_map _ _ s = Ret (?r, _) |- _ =>
    rename H into Hmap; destruct r as [a' pt'] end.
  rewrite area_map_framed in Hmap by lia.
  apply (framed_loop_spec lo) in Hmap as (fs&->&F); try done; [|lia..].
  exists fs. split; [done|]. simpl in F. by rewrite Z2Nat.id in F by lia.
Qed.

Lemma push_framed_total lo (ms : MemSet P) s v ve mp :
  pt_inv lo (page_table ms) s → perm_ok mp → 0 ≤ v ≤ ve → ve ≤ 2 ^ 27 →
  (∀ w, in_pages v (ve - v) w → pt_view (page_table ms) s w = None) →
  3 * (ve - v) ≤ sys_free s → returns (push ms (framed_area v ve mp) None s).
Proof.
  intros Hi Hm Hv Hve Hn Hc.
  assert (returns (area_map (framed_area v ve mp) (page_table ms) s)) as [[[a pt] s1] Hr].
  { rewrite area_map_framed by lia.
    apply (framed_loop_total lo); rewrite ?Z2Nat.id by lia; simpl; try done; lia. }
  eexists. unfold push, mbind, M_bind. rewrite Hr. simpl. done.
Qed.

Lemma insert_framed_area_eq (ms : MemSet P) a b mp s :
  0 ≤ a ≤ b → 1 ≤ b < 2 ^ 56 →
  insert_framed_area ms (VA a) (VA b) mp s =
  push ms (framed_area (a / 4096) ((b + 4095) / 4096) mp) None s.
Proof. intros. unfold insert_framed_area. by rewrite area_new_framed. Qed.
End Framed.
