(* ===== verification/GuestSpace.v ===== *)
(** * The guest physical address space

    What [GuestMemorySet::new_guest_without_load] builds, for any page table
    that satisfies the interface: exactly the regions of the guest's device
    tree, identity mapped, plus the trampoline page without the [U] flag. *)
From stdpp Require Import base tactics numbers list option gmap sets.
From S2P Require Import Prelude Constants Address Pte Mem FrameAllocator PageTable Fdt.
From S2P Require Import Sv39Facts MemorySet MemorySetFacts.

(** An identity-mapped byte range, rounded out to pages. *)
Definition id_seg (lo hi : Z) (mp : MapPermission) : seg :=
  MkSeg (lo / 4096) ((hi + 4095) / 4096) (lo / 4096) (area_flags mp).
Definition dev_seg (size : Device → Z) (mp : MapPermission) (d : Device) : seg :=
  id_seg (base_address d) (base_address d + size d) mp.

Definition mem_seg (gm : MachineMeta) : seg :=
  id_seg (physical_memory_offset gm - 0x200000)
    (physical_memory_offset gm + physical_memory_size gm) perm.RWUX.
Definition tramp_seg (tramp : Z) : seg :=
  MkSeg (2 ^ 27 - 1) (2 ^ 27) (tramp / 4096) (area_flags perm.RX).
Definition opt_seg (size : Device → Z) (mp : MapPermission) (d : option Device) : list seg :=
  match d with Some d => [dev_seg size mp d] | None => [] end.

(** The regions of a guest machine, in the order the code maps them. *)
Definition guest_segs (tramp : Z) (gm : MachineMeta) : list seg :=
  [mem_seg gm; tramp_seg tramp] ++
  opt_seg (λ t, dev_size t + 0x1000) perm.RWUX (test_finisher_address gm) ++
  (dev_seg dev_size perm.RWU <$> virtio gm) ++
  opt_seg dev_size perm.RWU (uart gm) ++
  opt_seg dev_size perm.RWU (clint gm) ++
  opt_seg (λ _, 0x200000) perm.RWU (plic gm) ++
  opt_seg (λ _, 0x200000) perm.RWU (pci gm).

(** Every device lies below the 39-bit limit of [VirtAddr], with room for the
    extra pages the code adds. *)
Definition dev_ok (d : Device) : Prop :=
  0 ≤ base_address d ∧ 0 ≤ dev_size d ∧
  base_address d + dev_size d + 0x1000 < 2 ^ 39 ∧ base_address d + 0x200000 < 2 ^ 39.
Definition opt_ok (d : option Device) : Prop :=
  match d with Some d => dev_ok d | None => True end.
Record meta_ok (gm : MachineMeta) : Prop := {
  mo_off : 0 ≤ physical_memory_offset gm;
  mo_size : 0 ≤ physical_memory_size gm;
  mo_mem : physical_memory_offset gm + physical_memory_size gm < 2 ^ 39;
  mo_test : opt_ok (test_finisher_address gm);
  mo_virtio : Forall dev_ok (virtio gm);
  mo_uart : opt_ok (uart gm);
  mo_clint : opt_ok (clint gm);
  mo_plic : opt_ok (plic gm);
  mo_pci : opt_ok (pci gm);
}.

Lemma perm_ok_all : perm_ok perm.R ∧ perm_ok perm.RX ∧ perm_ok perm.RW ∧
  perm_ok perm.RWU ∧ perm_ok perm.RWUX.
Proof. unfold perm_ok. vm_compute. intuition congruence. Qed.

Section Space.
Context {P : Type} `{PageTableSpec P}.
Implicit Types ms : MemSet P.

(** The state of a construction: the table is sound and maps the segments so
    far; it started in [s0] with a table owning [fs0]. *)
Record building (lo : Z) (fs0 : list PhysPageNum) (s0 : Sys) ms (s : Sys) (gs : list seg)
    : Prop := {
  bd_inv : pt_inv lo (page_table ms) s;
  bd_rep : represents (page_table ms) s gs;
  bd_step : sys_step lo fs0 s0 (pt_frames (page_table ms)) s;
}.

Lemma building_mapped lo fs0 s0 ms s gs v p n mp ms' s' :
  building lo fs0 s0 ms s gs →
  mapped lo (page_table ms) s v p n mp (page_table ms') s' →
  building lo fs0 s0 ms' s' (gs ++ [MkSeg v (v + n) p (area_flags mp)]).
Proof.
  intros [I R S] Hm. split; [apply Hm|by eapply represents_mapped|].
  eapply sys_step_trans; [done|apply Hm].
Qed.

Lemma push_identity_spec lo fs0 s0 ms s gs l h mp ms' s' :
  building lo fs0 s0 ms s gs → perm_ok mp → 0 ≤ l < 2 ^ 39 → 0 ≤ h < 2 ^ 39 →
  push_identity ms l h mp s = Ret (ms', s') →
  building lo fs0 s0 ms' s' (gs ++ [id_seg l h mp]).
Proof.
  intros Hb Hm Hl Hh Hp. unfold push_identity, identity_area in Hp. minv0.
  rewrite !VirtAddr_from_usize_mod, !PhysAddr_from_usize_mod in *.
  rewrite !Z.mod_small in * by lia.
  match goal with H : area_new _ _ _ _ _ _ = Ret _ |- _ =>
    apply area_new_linear in H as (->&?&?) end; [|lia..].
  match goal with H : push _ _ _ _ = Ret _ |- _ =>
    apply (push_linear_spec lo) in H as (_&Hlt&HM) end; [|apply Hb|done|dlia..].
  unfold id_seg. replace ((h + 4095) / 4096) with
    (l / 4096 + ((h + 4095) / 4096 - l / 4096)) by lia.
  by eapply building_mapped.
Qed.

Lemma push_device_spec lo fs0 s0 ms s gs d sz mp ms' s' :
  building lo fs0 s0 ms s gs → perm_ok mp → 0 ≤ base_address d → 0 ≤ sz →
  base_address d + sz < 2 ^ 39 →
  push_device ms d sz mp s = Ret (ms', s') →
  building lo fs0 s0 ms' s' (gs ++ [id_seg (base_address d) (base_address d + sz) mp]).
Proof.
  intros Hb Hm Hd Hs Hlt Hp. unfold push_device in Hp. minv0.
  eapply push_identity_spec; eauto; lia.
Qed.

Lemma push_device_opt_spec lo fs0 s0 ms s gs d size mp ms' s' :
  building lo fs0 s0 ms s gs → perm_ok mp → opt_ok d →
  (∀ x, dev_ok x → 0 ≤ size x ∧ base_address x + size x < 2 ^ 39) →
  push_device_opt ms d size mp s = Ret (ms', s') →
  building lo fs0 s0 ms' s' (gs ++ opt_seg size mp d).
Proof.
  intros Hb Hm Hd Hs Hp. destruct d as [d|]; simpl in *.
  - destruct (Hs d Hd), Hd as (?&?&?). eapply push_device_spec; eauto.
  - minv0. by rewrite app_nil_r.
Qed.

Lemma push_devices_spec lo fs0 s0 mp ds ms s gs ms' s' :
  building lo fs0 s0 ms s gs → perm_ok mp → Forall dev_ok ds →
  mfold ds (λ ms dev, push_device ms dev (dev_size dev) mp) ms s = Ret (ms', s') →
  building lo fs0 s0 ms' s' (gs ++ (dev_seg dev_size mp <$> ds)).
Proof.
  intros Hb Hm. revert ms s gs Hb.
  induction ds as [|d ds IH]; intros ms s gs Hb Hd Hp; simpl in Hp; minv0.
  - by rewrite app_nil_r.
  - apply Forall_cons in Hd as [Hd Hds]. pose proof Hd as (?&?&?&?).
    match goal with H : push_device _ _ _ _ _ = _ |- _ =>
      eapply push_device_spec in H; eauto; [|lia] end.
    match goal with H : mfold _ _ _ _ = _ |- _ => eapply IH in H; eauto end.
    rewrite fmap_cons. by rewrite <- app_assoc in *.
Qed.

Lemma map_trampoline_spec lo fs0 s0 ms s gs tramp ms' s' :
  building lo fs0 s0 ms s gs → 0 ≤ tramp < 2 ^ 56 →
  map_trampoline tramp ms s = Ret (ms', s') →
  building lo fs0 s0 ms' s' (gs ++ [tramp_seg tramp]).
Proof.
  intros Hb Ht Hp. unfold map_trampoline in Hp. minv0.
  match goal with H : VirtPageNum_from_VirtAddr _ = Ret ?v |- _ =>
    vm_compute in H; injection H as <- end.
  match goal with H : PhysPageNum_from_PhysAddr _ = Ret ?p |- _ =>
    rewrite PhysAddr_from_usize_mod, Z.mod_small in H by done;
    unfold PhysPageNum_from_PhysAddr in H end. minv0.
  unfold PhysAddr_floor in *. cbn [pa_0] in *. change PAGE_SIZE with 4096 in *.
  match goal with H : pt_map _ _ _ _ _ = _ |- _ =>
    change (flag.union flag.R flag.X) with (MkFlags (perm_bits perm.RX)) in H;
    apply (map_page_mapped lo) in H as (HM&_&_) end; [..|apply perm_ok_all].
  - unfold tramp_seg. replace (2 ^ 27) with (2 ^ 27 - 1 + 1) at 2 by lia.
    eapply building_mapped; [done|]. done.
  - apply Hb.
  - lia.
  - split; [apply Z.div_pos; lia|]. apply Z.div_lt_upper_bound; lia.
Qed.
End Space.

(** ** Progress

    Pairwise disjoint, non-empty segments and enough free frames are all the
    construction needs. *)

Definition apart (g g' : seg) : Prop := seg_hi g ≤ seg_lo g' ∨ seg_hi g' ≤ seg_lo g.
Fixpoint segs_ok (gs : list seg) : Prop :=
  match gs with
  | [] => True
  | g :: gs' => seg_lo g < seg_hi g ∧ Forall (apart g) gs' ∧ segs_ok gs'
  end.
#[export] Instance segs_ok_dec gs : Decision (segs_ok gs).
Proof. induction gs; simpl; unfold apart; apply _. Defined.

(** Frames the segments may take: two for the first page and two for every
    further 2 MiB block. *)
Definition seg_cost (g : seg) : Z := 2 + 2 * blocks (seg_lo g) (seg_hi g - seg_lo g).
Fixpoint segs_cost (gs : list seg) : Z :=
  match gs with [] => 0 | g :: gs' => seg_cost g + segs_cost gs' end.

Lemma segs_cost_app gs gs' : segs_cost (gs ++ gs') = segs_cost gs + segs_cost gs'.
Proof. induction gs; simpl; lia. Qed.

Lemma segs_ok_app gs gs' :
  segs_ok (gs ++ gs') → segs_ok gs ∧ segs_ok gs' ∧ ∀ g g', g ∈ gs → g' ∈ gs' → apart g g'.
Proof.
  induction gs as [|g gs IH]; simpl; [set_solver|].
  intros (Hlt&Hf&Hok). apply Forall_app in Hf as [Hf1 Hf2].
  destruct (IH Hok) as (?&?&Ha). split_and!; try done.
  intros a b [->|Hin]%elem_of_cons Hb; [|by apply Ha].
  rewrite Forall_forall in Hf2. by apply Hf2.
Qed.

Lemma segs_cost_nonneg gs : segs_ok gs → 0 ≤ segs_cost gs.
Proof.
  induction gs as [|g gs IH]; simpl; [done|]. intros (?&_&?).
  pose proof (blocks_nonneg (seg_lo g) (seg_hi g - seg_lo g) ltac:(lia)).
  unfold seg_cost. specialize (IH ltac:(done)). lia.
Qed.

Section Progress.
Context {P : Type} `{PageTableSpec P}.
Implicit Types ms : MemSet P.

(** [f] adds the segments [gs'] to whatever is mapped already. *)
Definition builds (f : MemSet P → M Sys (MemSet P)) (gs' : list seg) : Prop :=
  ∀ lo fs0 s0 ms s gs, building lo fs0 s0 ms s gs → segs_ok (gs ++ gs') →
    segs_cost gs' ≤ sys_free s →
    ∃ ms' s', f ms s = Ret (ms', s') ∧ building lo fs0 s0 ms' s' (gs ++ gs') ∧
      sys_free s - segs_cost gs' ≤ sys_free s'.

Lemma builds_ret : builds mret [].
Proof.
  intros lo fs0 s0 ms s gs Hb _ _. exists ms, s. rewrite app_nil_r. simpl.
  split_and!; [done..|lia].
Qed.

Lemma builds_bind f g gs1 gs2 :
  builds f gs1 → builds g gs2 → builds (λ ms, ms' ← f ms; g ms') (gs1 ++ gs2).
Proof.
  intros Hf Hg lo fs0 s0 ms s gs Hb Hok Hc. rewrite app_assoc in *.
  pose proof (segs_ok_app _ _ Hok) as (Hok1&Hok2&_).
  pose proof (segs_cost_nonneg _ Hok2). rewrite segs_cost_app in *.
  destruct (Hf lo fs0 s0 ms s gs) as (ms1&s1&E1&B1&F1); [done..|lia|].
  destruct (Hg lo fs0 s0 ms1 s1 (gs ++ gs1)) as (ms2&s2&E2&B2&F2); [done..|lia|].
  exists ms2, s2. split_and!; [|done|lia].
  unfold mbind, M_bind. by rewrite E1.
Qed.

Lemma builds_push_linear v ve p mp :
  perm_ok mp → 0 ≤ v → ve ≤ 2 ^ 27 → 0 ≤ p → p + (ve - v) ≤ 2 ^ 44 →
  builds (λ ms, push ms (linear_area v ve p (p + (ve - v)) mp) None)
    [MkSeg v ve p (area_flags mp)].
Proof.
  intros Hm Hv Hve Hp Hpe lo fs0 s0 ms s gs Hb Hok Hc.
  pose proof (segs_ok_app _ _ Hok) as (_&[Hlt _]&Hap). simpl in Hlt.
  cbn [segs_cost] in *.
  destruct (push_linear_total lo ms s v ve p (p + (ve - v)) mp) as [[ms' s'] E];
    try done; try lia; try apply Hb.
  { intros w Hw. eapply represents_none; [apply Hb|]. intros g Hg [? ?].
    specialize (Hap g _ Hg ltac:(by apply list_elem_of_singleton)).
    unfold in_pages, apart in *. simpl in *. lia. }
  { unfold seg_cost in Hc. simpl in Hc. lia. }
  exists ms', s'. split; [done|].
  apply (push_linear_spec lo) in E as (_&_&HM); try done; try lia; try apply Hb.
  split.
  - replace (MkSeg v ve p (area_flags mp)) with (MkSeg v (v + (ve - v)) p (area_flags mp))
      by (f_equal; lia). by eapply building_mapped.
  - pose proof (mp_cost _ _ _ _ _ _ _ _ _ HM). unfold seg_cost. simpl.
    pose proof (pt_need_range (page_table ms) s v). lia.
Qed.

Lemma builds_identity l h mp :
  perm_ok mp → 0 ≤ l < 2 ^ 39 → 0 < h < 2 ^ 39 → l ≤ h →
  builds (λ ms, push_identity ms l h mp) [id_seg l h mp].
Proof.
  intros Hm Hl Hh Hle lo fs0 s0 ms s gs Hb Hok Hc.
  unfold push_identity, identity_area.
  rewrite !VirtAddr_from_usize_mod, !PhysAddr_from_usize_mod, !Z.mod_small by lia.
  rewrite area_new_linear_run by lia.
  destruct (builds_push_linear (l / 4096) ((h + 4095) / 4096) (l / 4096) mp
    Hm ltac:(dlia) ltac:(dlia) ltac:(dlia) ltac:(dlia) lo fs0 s0 ms s gs Hb Hok Hc)
    as (ms'&s'&E&B&F).
  exists ms', s'. split_and!; [|done..].
  unfold mbind, M_bind, lift. rewrite <- E. do 2 f_equal. unfold linear_area.
  do 3 f_equal. lia.
Qed.

Lemma builds_device d sz mp :
  perm_ok mp → 0 ≤ base_address d → 0 < sz → base_address d + sz < 2 ^ 39 →
  builds (λ ms, push_device ms d sz mp) [id_seg (base_address d) (base_address d + sz) mp].
Proof.
  intros Hm Hd Hs Hlt lo fs0 s0 ms s gs Hb Hok Hc.
  destruct (builds_identity (base_address d) (base_address d + sz) mp Hm
    ltac:(lia) ltac:(lia) ltac:(lia) lo fs0 s0 ms s gs Hb Hok Hc) as (ms'&s'&E&?).
  exists ms', s'. split; [|done]. unfold push_device, mbind, M_bind, lift.
  rewrite uadd_run by (unfold W64; lia). exact E.
Qed.

Lemma builds_device_opt d size mp :
  perm_ok mp →
  (∀ x, d = Some x → 0 ≤ base_address x ∧ 0 < size x ∧ base_address x + size x < 2 ^ 39) →
  builds (λ ms, push_device_opt ms d size mp) (opt_seg size mp d).
Proof.
  intros Hm Hd. destruct d as [d|]; [|apply builds_ret].
  destruct (Hd d eq_refl) as (?&?&?). by apply builds_device.
Qed.

Lemma builds_devices ds mp :
  perm_ok mp → Forall (λ d, dev_ok d ∧ 0 < dev_size d) ds →
  builds (mfold ds (λ ms dev, push_device ms dev (dev_size dev) mp))
    (dev_seg dev_size mp <$> ds).
Proof.
  intros Hm. induction 1 as [|d ds [(?&?&?&?) ?] _ IH]; [apply builds_ret|].
  rewrite fmap_cons. apply (builds_bind _ _ [_]); [|done].
  apply builds_device; [done|lia..].
Qed.

Lemma builds_trampoline tramp :
  0 ≤ tramp < 2 ^ 56 → tramp mod 4096 = 0 →
  builds (map_trampoline tramp) [tramp_seg tramp].
Proof.
  intros Ht Hal lo fs0 s0 ms s gs Hb Hok Hc.
  pose proof (segs_ok_app _ _ Hok) as (_&_&Hap). simpl in Hc.
  destruct (pt_map_total lo (page_table ms) s (VPN (2 ^ 27 - 1)) (PPN (tramp / 4096))
    (flag.union flag.R flag.X)) as [[pt' s'] E]; [apply Hb| | |].
  { eapply represents_none; [apply Hb|]. intros g Hg [? ?].
    specialize (Hap g _ Hg ltac:(by apply list_elem_of_singleton)).
    unfold apart in Hap. simpl in *. change (vkey _ mod _) with (2 ^ 27 - 1) in *. lia. }
  { pose proof (pt_need_range (page_table ms) s (vkey (VPN (2 ^ 27 - 1)))).
    change (seg_cost (tramp_seg tramp)) with 2 in Hc. lia. }
  exists (MkSet pt' (areas ms)), s'.
  assert (map_trampoline tramp ms s = Ret (MkSet pt' (areas ms), s')) as Hr.
  { unfold map_trampoline, mbind, M_bind, lift.
    change (VirtPageNum_from_VirtAddr _) with (Ret (VPN (2 ^ 27 - 1))).
    rewrite PhysAddr_from_usize_mod, Z.mod_small by done.
    unfold PhysPageNum_from_PhysAddr, PhysAddr_page_offset, PhysAddr_floor. simpl.
    rewrite (land_mask _ 12) by done. change (2 ^ 12) with 4096. rewrite Hal. simpl.
    change PAGE_SIZE with 4096. by rewrite E. }
  split; [done|]. split; [by eapply map_trampoline_spec|].
  apply (pt_map_spec lo) in E as (_&_&_&_&F&_&_); [|apply Hb| |done].
  - pose proof (pt_need_range (page_table ms) s (vkey (VPN (2 ^ 27 - 1)))).
    change (segs_cost _) with 2. lia.
  - simpl. split; [apply Z.div_pos; lia|]. apply Z.div_lt_upper_bound; lia.
Qed.
End Progress.

Section GuestSpace.
Context {G : Type} `{PageTableSpec G} `{!GuestPageTable G} `{!NewGuestSpec G}.

Lemma new_guest_without_load_spec lo tramp gm s gpm s' :
  sys_wf lo s → 0 ≤ tramp < 2 ^ 56 → meta_ok gm →
  new_guest_without_load (G := G) tramp gm s = Ret (gpm, s') →
  building lo [] s gpm s' (guest_segs tramp gm).
Proof.
  intros Hwf Ht [Ho Hsz Hmem Htest Hvio Hua Hcl Hpl Hpc] Hn.
  destruct perm_ok_all as (_&_&_&HRWU&HRWUX).
  unfold new_guest_without_load, new_guest_bare in Hn. minv0.
  match goal with H : pt_new_guest s = Ret (?p, ?s1) |- _ =>
    apply (pt_new_guest_spec lo) in H as (I0&S0&V0); [|done] end.
  match goal with H : area_new _ _ _ _ _ _ = Ret _ |- _ =>
    apply area_new_linear in H as (->&?&?) end; [|lia..].
  match goal with H : push _ (linear_area _ _ _ _ _) _ _ = Ret _ |- _ =>
    apply (push_linear_spec lo) in H as (_&Hlt&HM) end; [|done|done|dlia..].
  match goal with H : map_trampoline _ ?ms ?s2 = _ |- _ =>
    assert (building lo [] s ms s2 [mem_seg gm]) as B1 end.
  { split; [apply HM| |eapply sys_step_trans; [exact S0|apply HM]].
    unfold mem_seg, id_seg.
    match goal with |- context [MkSeg ?l ?h _ _] =>
      replace h with (l + (h - l)) by lia end.
    eapply (represents_mapped _ _ _ []); [|exact HM].
    intros w e. simpl. rewrite V0. set_solver. }
  match goal with H : map_trampoline _ _ _ = _ |- _ =>
    eapply map_trampoline_spec in H as B2; eauto end.
  match goal with H : match test_finisher_address gm with _ => _ end ?s3 = Ret (?ms, ?s4) |- _ =>
    assert (building lo [] s ms s4 ([mem_seg gm; tramp_seg tramp] ++
      opt_seg (λ t, dev_size t + 0x1000) perm.RWUX (test_finisher_address gm))) as B3 end.
  { destruct (test_finisher_address gm) as [t|]; minv0; [|done].
    destruct Htest as (?&?&?&?).
    match goal with H : push_identity _ _ _ _ _ = _ |- _ =>
      eapply push_identity_spec in H; eauto; try lia end.
    simpl. unfold dev_seg. by rewrite Z.add_assoc. }
  unfold guest_segs. rewrite !app_assoc.
  eapply push_device_opt_spec; [|done|done| |done]; [|unfold dev_ok; lia].
  eapply push_device_opt_spec; [|done|done| |done]; [|unfold dev_ok; lia].
  eapply push_device_opt_spec; [|done|done| |done]; [|unfold dev_ok; lia].
  eapply push_device_opt_spec; [|done|done| |done]; [|unfold dev_ok; lia].
  eapply push_devices_spec; eauto.
Qed.
End GuestSpace.

(** ** The whole construction terminates with a result *)

Definition live (d : Device) : Prop := 0 < dev_size d.
Definition opt_live (d : option Device) : Prop :=
  match d with Some d => live d | None => True end.
(** What the device tree of the guest has to satisfy. *)
Record meta_live (gm : MachineMeta) : Prop := {
  ml_off : 0x200000 ≤ physical_memory_offset gm;
  ml_virtio : Forall live (virtio gm);
  ml_uart : opt_live (uart gm);
  ml_clint : opt_live (clint gm);
}.

(** Everything after the creation of the table, with the address arithmetic
    done. *)
Definition map_regions {P : Type} `{PageTable P} (tramp : Z) (gm : MachineMeta)
    (gpm : MemSet P) : M Sys (MemSet P) :=
  gpm ← push_identity gpm (physical_memory_offset gm - 0x200000)
          (physical_memory_offset gm + physical_memory_size gm) perm.RWUX;
  gpm ← map_trampoline tramp gpm;
  gpm ← push_device_opt gpm (test_finisher_address gm) (λ t, dev_size t + 0x1000) perm.RWUX;
  gpm ← mfold (virtio gm) (λ gpm dev, push_device gpm dev (dev_size dev) perm.RWU) gpm;
  gpm ← push_device_opt gpm (uart gm) dev_size perm.RWU;
  gpm ← push_device_opt gpm (clint gm) dev_size perm.RWU;
  gpm ← push_device_opt gpm (plic gm) (λ _, 0x00200000) perm.RWU;
  push_device_opt gpm (pci gm) (λ _, 0x00200000) perm.RWU.

Section Live.
Context {P : Type} `{PageTableSpec P}.

Lemma builds_guest tramp gm :
  0 ≤ tramp < 2 ^ 56 → tramp mod 4096 = 0 → meta_ok gm → meta_live gm →
  builds (P := P) (map_regions tramp gm) (guest_segs tramp gm).
Proof.
  intros Ht Hal [Ho Hsz Hmem Htest Hvio Hua Hcl Hpl Hpc] [Loff Lvio Lua Lcl].
  destruct perm_ok_all as (_&_&_&HRWU&HRWUX). unfold map_regions.
  apply (builds_bind _ _ [_]); [apply builds_identity; [done|lia..]|].
  apply (builds_bind _ _ [_]); [by apply builds_trampoline|].
  apply builds_bind.
  { apply builds_device_opt; [done|]. intros x Ex. rewrite Ex in Htest.
    destruct Htest as (?&?&?&?). lia. }
  apply builds_bind.
  { apply builds_devices; [done|]. apply Forall_and. by split. }
  repeat apply builds_bind; apply builds_device_opt; try done; intros x Ex;
    rewrite Ex in *; simpl in *; unfold dev_ok, live in *; lia.
Qed.
End Live.

Lemma new_guest_without_load_unfold {G : Type} `{GuestPageTable G} tramp gm s :
  meta_ok gm → 0x200000 ≤ physical_memory_offset gm →
  new_guest_without_load (G := G) tramp gm s =
  (pt ← pt_new_guest; map_regions tramp gm (MkSet pt [])) s.
Proof.
  intros [Ho Hsz Hmem Htest _ _ _ _ _] Hoff.
  unfold new_guest_without_load, new_guest_bare, map_regions, push_identity, identity_area.
  unfold mbind, M_bind, mret, M_ret, lift.
  destruct (pt_new_guest s) as [[pt s1]| | |]; [|done..].
  rewrite usub_run, uadd_run by (unfold W64; lia).
  rewrite !VirtAddr_from_usize_mod, !PhysAddr_from_usize_mod, !Z.mod_small by lia.
  destruct (area_new _ _ _ _ _ _); [|done..].
  destruct (push _ _ _ _) as [[? ?]| | |]; [|done..].
  destruct (map_trampoline _ _ _) as [[gpm s3]| | |]; [|done..].
  destruct (test_finisher_address gm) as [t|]; simpl; [|done].
  destruct Htest as (?&?&?&?). unfold push_device, push_identity, identity_area.
  unfold mbind, M_bind, lift.
  rewrite !uadd_run by (unfold W64; lia). simpl. by rewrite Z.add_assoc.
Qed.
