(* ===== verification/HostSpace.v ===== *)
(** * The hypervisor's own address space

    What [HostMemorySet::new_host_vmm] builds: the trampoline, a page for the
    trap context, the sections of the image, the pool of frames and the host's
    devices, with the permissions of each. *)
From stdpp Require Import base tactics numbers list option gmap sets.
From S2P Require Import Prelude Constants Address Pte Mem FrameAllocator PageTable Fdt.
From S2P Require Import Sv39 Sv39Tree Sv39Facts Sv39New MemorySet MemorySetFacts Framed GuestSpace.

(** The page of the trap context, below the trampoline, in frame [f]. *)
Definition ctx_seg (f : Z) : seg := MkSeg (2 ^ 27 - 2) (2 ^ 27 - 1) f (area_flags perm.RW).

(** The identity mapped part, in the order the code maps it. *)
Definition host_ids (sym : LinkerSymbols) (m : MachineMeta) : list seg :=
  [id_seg (stext sym) (etext sym) perm.RX] ++
  [id_seg (srodata sym) (erodata sym) perm.R] ++
  [id_seg (sdata sym) (edata sym) perm.RW] ++
  [id_seg (sbss_with_stack sym) (ebss sym) perm.RW] ++
  [id_seg (ekernel sym) MEMORY_END perm.RW] ++
  opt_seg dev_size perm.RW (test_finisher_address m) ++
  (dev_seg dev_size perm.RW <$> virtio m) ++
  opt_seg dev_size perm.RW (plic m).
Definition host_segs (sym : LinkerSymbols) (m : MachineMeta) (f : Z) : list seg :=
  [tramp_seg (strampoline sym); ctx_seg f] ++ host_ids sym m.

(** The sections are non-empty and below the 39-bit limit, the trampoline is on
    a page boundary. *)
Definition section_ok (l h : Z) : Prop := 0 ≤ l ∧ l ≤ h ∧ 0 < h < 2 ^ 39.
Record linker_ok (sym : LinkerSymbols) : Prop := {
  lk_tramp : 0 ≤ strampoline sym < 2 ^ 56;
  lk_tramp_page : strampoline sym mod 4096 = 0;
  lk_text : section_ok (stext sym) (etext sym);
  lk_rodata : section_ok (srodata sym) (erodata sym);
  lk_data : section_ok (sdata sym) (edata sym);
  lk_bss : section_ok (sbss_with_stack sym) (ebss sym);
  lk_kernel : section_ok (ekernel sym) MEMORY_END;
}.
(** The devices the host maps. *)
Record host_meta_ok (m : MachineMeta) : Prop := {
  hm_test : opt_ok (test_finisher_address m);
  hm_test_live : opt_live (test_finisher_address m);
  hm_virtio : Forall (λ d, dev_ok d ∧ 0 < dev_size d) (virtio m);
  hm_plic : opt_ok (plic m);
  hm_plic_live : opt_live (plic m);
}.

Lemma segs_ok_ctx sym m f f' : segs_ok (host_segs sym m f) → segs_ok (host_segs sym m f').
Proof.
  simpl. intros (A&Ht&B). split; [exact A|]. split; [|exact B].
  apply Forall_cons in Ht as [? ?]. by apply Forall_cons.
Qed.

(** The code after the trap context page. *)
Definition map_sections {P : Type} `{PageTable P} (sym : LinkerSymbols) (machine : MachineMeta)
    (hpm : HostMemorySet P) : M Sys (HostMemorySet P) :=
  hpm ← push_identity hpm (stext sym) (etext sym) perm.RX;
  hpm ← push_identity hpm (srodata sym) (erodata sym) perm.R;
  hpm ← push_identity hpm (sdata sym) (edata sym) perm.RW;
  hpm ← push_identity hpm (sbss_with_stack sym) (ebss sym) perm.RW;
  hpm ← push_identity hpm (ekernel sym) MEMORY_END perm.RW;
  hpm ← push_device_opt hpm (test_finisher_address machine) dev_size perm.RW;
  hpm ← mfold (virtio machine)
          (λ hpm dev, push_device hpm dev (dev_size dev) perm.RW) hpm;
  push_device_opt hpm (plic machine) dev_size perm.RW.

Section Host.
Context {P : Type} `{PageTableSpec P}.
Implicit Types ms : MemSet P.

Lemma builds_sections sym m :
  linker_ok sym → host_meta_ok m → builds (P := P) (map_sections sym m) (host_ids sym m).
Proof.
  intros [_ _ (?&?&?) (?&?&?) (?&?&?) (?&?&?) (?&?&?)] [Ht Htl Hv Hp Hpl].
  destruct perm_ok_all as (HR&HRX&HRW&_&_). unfold map_sections, host_ids.
  do 5 (apply (builds_bind _ _ [_]); [apply builds_identity; [done|lia..]|]).
  apply builds_bind; [|apply builds_bind].
  - apply builds_device_opt; [done|]. intros x Ex. rewrite Ex in *.
    simpl in *. unfold dev_ok, live in *. lia.
  - by apply builds_devices.
  - apply builds_device_opt; [done|]. intros x Ex. rewrite Ex in *.
    simpl in *. unfold dev_ok, live in *. lia.
Qed.

(** The same without assuming that it succeeds. *)
Lemma map_sections_spec lo fs0 s0 ms s gs sym m ms' s' :
  linker_ok sym → host_meta_ok m → building lo fs0 s0 ms s gs →
  map_sections sym m ms s = Ret (ms', s') →
  building lo fs0 s0 ms' s' (gs ++ host_ids sym m).
Proof.
  intros [_ _ (?&?&?) (?&?&?) (?&?&?) (?&?&?) (?&?&?)] [Ht Htl Hv Hp Hpl] Hb Hm.
  destruct perm_ok_all as (HR&HRX&HRW&_&_). unfold map_sections in Hm. minv0.
  unfold host_ids. rewrite !app_assoc.
  assert (∀ x, dev_ok x → 0 ≤ dev_size x ∧ base_address x + dev_size x < 2 ^ 39)
    by (unfold dev_ok; intros; lia).
  eapply push_device_opt_spec; [|done..].
  eapply push_devices_spec; [|done| |done];
    [|eapply Forall_impl; [exact Hv|]; by intros ? [? ?]].
  eapply push_device_opt_spec; [|done..].
  do 5 (eapply push_identity_spec; [|done|lia|lia|done]). done.
Qed.

(** The framed page as a segment. *)
Lemma building_framed lo ms s gs mp v f ms' s' :
  represents (page_table ms) s gs → 0 ≤ v →
  framed lo (page_table ms) s v 1 mp [f] (page_table ms') s' →
  building lo (pt_frames (page_table ms')) s' ms' s'
    (gs ++ [MkSeg v (v + 1) (ppn_0 f) (area_flags mp)]).
Proof.
  intros R Hv F.
  split; [apply F| |apply sys_step_refl; eapply pt_inv_wf, F].
  intros w e. rewrite (fr_view _ _ _ _ _ _ _ _ _ F).
  setoid_rewrite elem_of_app. setoid_rewrite list_elem_of_singleton.
  case_decide as Hw.
  - pose proof (fr_before _ _ _ _ _ _ _ _ _ F w Hw) as Hn. unfold in_pages in Hw.
    replace (w mod 2 ^ 27 - v) with 0 by lia. simpl. split.
    + intros [= <-]. eexists. split; [by right|]. split; [unfold in_seg; simpl; lia|].
      unfold seg_entry. simpl. f_equal. destruct f as [f]. simpl. f_equal. lia.
    + intros (g&[Hg| ->]&Hin&->).
      * assert (pt_view (page_table ms) s w = Some (seg_entry g (w mod 2 ^ 27))) as Hs
          by (apply R; eauto). congruence.
      * unfold seg_entry. simpl. do 2 f_equal. destruct f as [f]. simpl. f_equal. lia.
  - rewrite (R w e). split.
    + intros (g&Hg&?&?). eauto.
    + intros (g&[Hg| ->]&Hin&->); [eauto|]. unfold in_seg, in_pages in *. simpl in *. lia.
Qed.
End Host.

(** ** The whole construction, for Sv39 *)

(** What is left behind: a sound table that maps exactly the segments, and the
    frame of the trap context, which belongs to nobody else. *)
Record host_space (lo : Z) (s : Sys) (h : HostMemorySet PageTableSv39) (s' : Sys)
    (f : PhysPageNum) (gs : list seg) : Prop := {
  hs_inv : sv_inv lo (page_table h) s';
  hs_rep : represents (page_table h) s' gs;
  hs_owned : ∀ rest, owned lo s rest → owned lo s' (rest ++ [f] ++ sv_frames (page_table h));
  hs_end : sys_end s' = sys_end s;
  hs_fresh : none_recycled s → none_recycled s';
}.

Lemma new_host_vmm_eq sym m s :
  new_host_vmm (P := PageTableSv39) sym m s =
  (hpm ← new_bare;
   hpm ← map_trampoline (strampoline sym) hpm;
   hpm ← push hpm (framed_area (2 ^ 27 - 2) (2 ^ 27 - 1) perm.RW) None;
   map_sections sym m hpm) s.
Proof. reflexivity. Qed.

(** The table right after its creation. *)
Lemma new_building lo s pt s1 :
  sys_wf lo s → new s = Ret (pt, s1) → building lo [] s (MkSet pt []) s1 [].
Proof.
  intros Hwf Hn. destruct (new_spec lo s pt s1 Hwf Hn) as [I S V _].
  split; [done| |done]. intros w e. change (pt_view pt s1 w) with (sv_view pt s1 w).
  rewrite V. set_solver.
Qed.

(** Gluing the three phases together. *)
Lemma host_space_glue lo s ms1 s1 gs1 f ms2 s2 ms3 s3 gs3 :
  building lo [] s ms1 s1 gs1 →
  framed lo (page_table ms1) s1 (2 ^ 27 - 2) 1 perm.RW [f] (page_table ms2) s2 →
  building lo (pt_frames (page_table ms2)) s2 ms3 s3 gs3 →
  host_space lo s ms3 s3 f gs3.
Proof.
  intros B1 F B3. split; [apply B3|apply B3|..].
  - intros rest Ho. rewrite app_assoc. apply (step_owned _ _ _ _ _ (bd_step _ _ _ _ _ _ B3)).
    rewrite <- app_assoc. apply (fr_owned _ _ _ _ _ _ _ _ _ F).
    apply (step_owned _ _ _ _ _ (bd_step _ _ _ _ _ _ B1)). by rewrite app_nil_r.
  - rewrite (step_end _ _ _ _ _ (bd_step _ _ _ _ _ _ B3)), (fr_end _ _ _ _ _ _ _ _ _ F).
    apply (bd_step _ _ _ _ _ _ B1).
  - intros Hr. apply (step_fresh _ _ _ _ _ (bd_step _ _ _ _ _ _ B3)), F.
    by apply (bd_step _ _ _ _ _ _ B1).
Qed.

Lemma new_host_vmm_spec lo sym m s h s' :
  sys_wf lo s → linker_ok sym → host_meta_ok m →
  new_host_vmm sym m s = Ret (h, s') →
  ∃ f, host_space lo s h s' f (host_segs sym m (ppn_0 f)).
Proof.
  intros Hwf Hl Hm Hn. destruct perm_ok_all as (_&_&HRW&_&_).
  rewrite new_host_vmm_eq in Hn. unfold new_bare in Hn. minv0.
  match goal with H : pt_new s = Ret _ |- _ => apply (new_building lo) in H as B0; [|done] end.
  match goal with H : map_trampoline _ _ _ = _ |- _ =>
    eapply map_trampoline_spec in H as B1; [|done|apply Hl] end.
  match goal with H : push _ _ _ _ = _ |- _ =>
    apply (push_framed_spec lo) in H as (fs&_&F); [|apply B1|done|lia|lia] end.
  replace (2 ^ 27 - 1 - (2 ^ 27 - 2)) with 1 in F by lia.
  pose proof (fr_len _ _ _ _ _ _ _ _ _ F). destruct fs as [|f [|]]; try (simpl in *; lia).
  exists f. eapply host_space_glue; [exact B1|exact F|].
  eapply (map_sections_spec _ _ _ _ _ ([] ++ [tramp_seg (strampoline sym)] ++ [ctx_seg (ppn_0 f)]));
    [done|done| |done].
  rewrite app_assoc. eapply building_framed; [apply B1|lia|exact F].
Qed.

(** Frames it takes at most: the root, two directories for the top of the
    address space, the trap context page with its two, and the sections'. *)
Definition host_cost (sym : LinkerSymbols) (m : MachineMeta) : Z :=
  6 + segs_cost (host_ids sym m).

Lemma new_total lo s : sys_wf lo s → 0 < sys_free s →
  ∃ pt s1, new s = Ret (pt, s1) ∧ sys_free s1 = sys_free s - 1.
Proof.
  intros Hwf Hf. destruct (frame_alloc_total lo s Hwf Hf) as (t&s1&Ha).
  exists (MkSv39 (ft_ppn t) [t]), s1. split.
  - unfold new, mbind, M_bind. by rewrite Ha.
  - by destruct (frame_alloc_some lo s t s1 Hwf Ha).
Qed.

Lemma new_host_vmm_total lo sym m s :
  sys_wf lo s → linker_ok sym → host_meta_ok m → segs_ok (host_segs sym m 0) →
  host_cost sym m ≤ sys_free s →
  ∃ h s' f, new_host_vmm sym m s = Ret (h, s') ∧
    host_space lo s h s' f (host_segs sym m (ppn_0 f)) ∧
    sys_free s - host_cost sym m ≤ sys_free s'.
Proof.
  intros Hwf Hl Hm Hok Hc. destruct perm_ok_all as (_&_&HRW&_&_).
  pose proof (segs_ok_app _ _ Hok) as (_&Hids&_).
  pose proof (segs_cost_nonneg _ Hids). unfold host_cost in *.
  destruct (new_total lo s Hwf) as (pt&s0&En&F0); [lia|].
  pose proof (new_building lo s pt s0 Hwf En) as B0.
  destruct (builds_trampoline (strampoline sym) (lk_tramp _ Hl) (lk_tramp_page _ Hl)
    lo [] s (MkSet pt []) s0 [] B0) as (ms1&s1&E1&B1&F1);
    [by destruct Hok as (?&_&_)|change (segs_cost _) with 2; lia|].
  change (segs_cost _) with 2 in F1.
  destruct (push_framed_total lo ms1 s1 (2 ^ 27 - 2) (2 ^ 27 - 1) perm.RW) as [[ms2 s2] E2];
    [apply B1|done|lia|lia| |lia|].
  { intros w Hw. eapply represents_none; [apply B1|]. simpl.
    intros g ->%list_elem_of_singleton [? ?]. unfold in_pages in Hw. simpl in *. lia. }
  apply (push_framed_spec lo) in E2 as Hfr; [|apply B1|done|lia|lia].
  destruct Hfr as (fs&_&F). replace (2 ^ 27 - 1 - (2 ^ 27 - 2)) with 1 in F by lia.
  pose proof (fr_len _ _ _ _ _ _ _ _ _ F). destruct fs as [|f [|]]; try (simpl in *; lia).
  pose proof (fr_cost _ _ _ _ _ _ _ _ _ F).
  assert (building lo (pt_frames (page_table ms2)) s2 ms2 s2
    ([tramp_seg (strampoline sym)] ++ [ctx_seg (ppn_0 f)])) as B2
    by (eapply building_framed; [apply B1|lia|exact F]).
  destruct (builds_sections sym m Hl Hm lo _ s2 ms2 s2 _ B2) as (h&s3&E3&B3&F3);
    [by apply (segs_ok_ctx sym m 0 (ppn_0 f))|lia|].
  exists h, s3, f. split; [|split; [by eapply host_space_glue|lia]].
  rewrite new_host_vmm_eq. unfold new_bare, mbind, M_bind.
  change (pt_new (P := PageTableSv39) s) with (new s).
  rewrite En. cbn beta iota delta [mret M_ret]. rewrite E1, E2. exact E3.
Qed.
