(* ===== verification/GuestIsolation.v ===== *)
(** * Isolation and availability of the guest address space

    The results of [GuestSpace] for the Sv39 tables the hypervisor uses. *)
From stdpp Require Import base tactics numbers list option gmap sets.
From S2P Require Import Prelude Constants Address Pte Mem FrameAllocator PageTable Fdt.
From S2P Require Import Sv39 Sv39Tree Sv39Facts Sv39New MemorySet MemorySetFacts GuestSpace.

(** The ranges the code maps for the guest: all segments but the trampoline.
    They hold the regions of the device tree and more, see [declared] and
    [slack] below. *)
Definition guest_ranges (gm : MachineMeta) : list seg :=
  [mem_seg gm] ++
  opt_seg (λ t, dev_size t + 0x1000) perm.RWUX (test_finisher_address gm) ++
  (dev_seg dev_size perm.RWU <$> virtio gm) ++
  opt_seg dev_size perm.RWU (uart gm) ++
  opt_seg dev_size perm.RWU (clint gm) ++
  opt_seg (λ _, 0x200000) perm.RWU (plic gm) ++
  opt_seg (λ _, 0x200000) perm.RWU (pci gm).

Lemma guest_segs_split tramp gm g :
  g ∈ guest_segs tramp gm → g = tramp_seg tramp ∨ g ∈ guest_ranges gm.
Proof. unfold guest_segs, guest_ranges. rewrite !elem_of_app, !elem_of_cons. naive_solver. Qed.

(** Segments of a region: identity mapped, inside 39 bits. *)
Definition identity_seg (g : seg) : Prop :=
  seg_pa g = seg_lo g ∧ 0 ≤ seg_lo g ∧ seg_hi g ≤ 2 ^ 27 ∧
  (seg_flags g = area_flags perm.RWU ∨ seg_flags g = area_flags perm.RWUX).

Lemma id_seg_identity l h mp :
  0 ≤ l → 0 ≤ h < 2 ^ 39 → mp = perm.RWU ∨ mp = perm.RWUX → identity_seg (id_seg l h mp).
Proof.
  intros Hl Hh Hm. unfold identity_seg, id_seg. simpl.
  split_and!; [done|dlia|dlia|]. destruct Hm as [->| ->]; auto.
Qed.

Lemma opt_seg_identity size mp d g :
  opt_ok d → mp = perm.RWU ∨ mp = perm.RWUX →
  (∀ x, dev_ok x → 0 ≤ base_address x + size x < 2 ^ 39) →
  g ∈ opt_seg size mp d → identity_seg g.
Proof.
  intros Hd Hm Hs. destruct d as [d|]; simpl; [|by intros ?%elem_of_nil].
  intros ->%list_elem_of_singleton. specialize (Hs d Hd). destruct Hd as (?&?&?&?).
  by apply id_seg_identity.
Qed.

Lemma guest_range_identity gm g :
  meta_ok gm → 0x200000 ≤ physical_memory_offset gm → g ∈ guest_ranges gm → identity_seg g.
Proof.
  intros [Ho Hsz Hmem Htest Hvio Hua Hcl Hpl Hpc] Hoff. unfold guest_ranges.
  rewrite !elem_of_app.
  intros [H|[H|[H|[H|[H|[H|H]]]]]];
    try (eapply opt_seg_identity; [| | |exact H]; auto; unfold dev_ok; intros; lia).
  - apply list_elem_of_singleton in H as ->. apply id_seg_identity; auto; lia.
  - apply list_elem_of_fmap in H as (d&->&Hd). rewrite Forall_forall in Hvio.
    destruct (Hvio d Hd) as (?&?&?&?). apply id_seg_identity; auto; lia.
Qed.

(** ** The device tree and what the code adds to it

    A range of addresses [[lo, hi)] and the pages it touches. *)
Definition touches (r : Z * Z) (w : Z) : Prop := r.1 / 4096 ≤ w < (r.2 + 4095) / 4096.
Definition opt_range (f : Device → Z * Z) (d : option Device) : list (Z * Z) :=
  match d with Some d => [f d] | None => [] end.
Definition dev_range (d : Device) : Z * Z := (base_address d, base_address d + dev_size d).

(** The regions of the device tree's nodes. *)
Definition declared (gm : MachineMeta) : list (Z * Z) :=
  [(physical_memory_offset gm, physical_memory_offset gm + physical_memory_size gm)] ++
  opt_range dev_range (test_finisher_address gm) ++
  (dev_range <$> virtio gm) ++
  opt_range dev_range (uart gm) ++ opt_range dev_range (clint gm) ++
  opt_range dev_range (plic gm) ++ opt_range dev_range (pci gm).

(** What [new_guest_without_load] maps beyond them: 2 MiB below the memory, a
    page behind the test device, and the rest of the first 2 MiB of the
    interrupt controller and of the PCI window. *)
Definition rest_of_2m (d : Device) : Z * Z :=
  (base_address d + dev_size d, base_address d + 0x200000).
Definition slack (gm : MachineMeta) : list (Z * Z) :=
  [(physical_memory_offset gm - 0x200000, physical_memory_offset gm)] ++
  opt_range (λ t, (base_address t + dev_size t, base_address t + dev_size t + 0x1000))
    (test_finisher_address gm) ++
  opt_range rest_of_2m (plic gm) ++ opt_range rest_of_2m (pci gm).

(** A range that is mapped from the start of a region lies in it and in what
    follows it up to the range's end. *)
Lemma touches_split a b c w :
  touches (a, c) w → touches (a, b) w ∨ touches (b, c) w.
Proof. unfold touches. simpl. intros [? ?]. dlia. Qed.

Lemma opt_range_in f d r : r ∈ opt_range f d ↔ ∃ x, d = Some x ∧ r = f x.
Proof. destruct d; simpl; set_solver. Qed.
Lemma opt_seg_in size mp d g : g ∈ opt_seg size mp d ↔ ∃ x, d = Some x ∧ g = dev_seg size mp x.
Proof. destruct d; simpl; set_solver. Qed.

Lemma declared_in gm r : r ∈ declared gm ↔
  r = (physical_memory_offset gm, physical_memory_offset gm + physical_memory_size gm) ∨
  ∃ d, r = dev_range d ∧
    (test_finisher_address gm = Some d ∨ d ∈ virtio gm ∨ uart gm = Some d ∨ clint gm = Some d ∨
     plic gm = Some d ∨ pci gm = Some d).
Proof.
  unfold declared. rewrite !elem_of_app, !opt_range_in, list_elem_of_singleton, list_elem_of_fmap.
  naive_solver.
Qed.
Lemma slack_in gm r : r ∈ slack gm ↔
  r = (physical_memory_offset gm - 0x200000, physical_memory_offset gm) ∨
  (∃ d, test_finisher_address gm = Some d ∧
     r = (base_address d + dev_size d, base_address d + dev_size d + 0x1000)) ∨
  ∃ d, (plic gm = Some d ∨ pci gm = Some d) ∧ r = rest_of_2m d.
Proof.
  unfold slack. rewrite !elem_of_app, !opt_range_in, list_elem_of_singleton. naive_solver.
Qed.

(** Everything mapped for the guest is declared or an addition. *)
Lemma guest_range_declared gm g w :
  g ∈ guest_ranges gm → in_seg g w →
  ∃ r, (r ∈ declared gm ∨ r ∈ slack gm) ∧ touches r w.
Proof.
  unfold guest_ranges. rewrite !elem_of_app, !opt_seg_in, list_elem_of_singleton, list_elem_of_fmap.
  intros Hg Hin.
  assert (∀ a b c, touches (a, c) w → (a, b) ∈ declared gm ∨ (a, b) ∈ slack gm →
    (b, c) ∈ declared gm ∨ (b, c) ∈ slack gm →
    ∃ r, (r ∈ declared gm ∨ r ∈ slack gm) ∧ touches r w) as Hsplit.
  { intros a b c Ht Ha Hc. destruct (touches_split a b c w Ht); eauto. }
  setoid_rewrite declared_in in Hsplit. setoid_rewrite slack_in in Hsplit.
  setoid_rewrite declared_in. setoid_rewrite slack_in.
  destruct Hg as [->|[(d&Hd&->)|[(d&->&Hd)|[(d&Hd&->)|[(d&Hd&->)|[(d&Hd&->)|(d&Hd&->)]]]]]].
  - apply (Hsplit _ (physical_memory_offset gm) _ Hin); [right|left]; auto.
  - unfold in_seg in Hin. simpl in Hin. rewrite Z.add_assoc in Hin.
    apply (Hsplit _ (base_address d + dev_size d) _ Hin); [left|right]; eauto 10.
  - exists (dev_range d). split; [|exact Hin]. eauto 10.
  - exists (dev_range d). split; [|exact Hin]. eauto 10.
  - exists (dev_range d). split; [|exact Hin]. eauto 10.
  - apply (Hsplit _ (base_address d + dev_size d) _ Hin); [left|right]; unfold rest_of_2m; eauto 10.
  - apply (Hsplit _ (base_address d + dev_size d) _ Hin); [left|right]; unfold rest_of_2m; eauto 10.
Qed.

(** ** Entries of a segment *)

Lemma seg_entry_ppn g w :
  identity_seg g → in_seg g w → pte_ppn (seg_entry g w) = PPN w.
Proof.
  intros (Hpa&Hlo&Hhi&Hf) [? ?]. unfold seg_entry.
  destruct Hf as [-> | ->]; unfold area_flags, flag.union; simpl;
    (rewrite pte_ppn_new; [f_equal; lia|lia|done]).
Qed.

Lemma tramp_entry_not_user tramp w :
  0 ≤ tramp < 2 ^ 56 → in_seg (tramp_seg tramp) w →
  userb (seg_entry (tramp_seg tramp) w) = false.
Proof.
  intros Ht [? ?]. simpl in *. unfold seg_entry, userb, tramp_seg, area_flags, flag.union.
  cbn [seg_pa seg_lo seg_flags flags_bits].
  replace (w - (2 ^ 27 - 1)) with 0 by lia.
  rewrite testbit_pte_new; [done|dlia|done|lia].
Qed.

Lemma entry_valid tramp gm g w :
  0 ≤ tramp < 2 ^ 56 → meta_ok gm → 0x200000 ≤ physical_memory_offset gm →
  g ∈ guest_segs tramp gm → in_seg g w → validb (seg_entry g w) = true.
Proof.
  intros Ht Hm Hoff Hg [H1 H2]. apply guest_segs_split in Hg as [->|Hg].
  - simpl in *. unfold seg_entry, validb, tramp_seg, area_flags, flag.union.
  cbn [seg_pa seg_lo seg_flags flags_bits].
    replace (w - (2 ^ 27 - 1)) with 0 by lia.
    rewrite testbit_pte_new; [done|dlia|done|lia].
  - apply guest_range_identity in Hg as (Hpa&Hlo&Hhi&Hf); [|done..].
    unfold seg_entry. destruct Hf as [->| ->]; unfold area_flags;
      (apply validb_new_V; [lia|done]).
Qed.

(** A valid result of [translate] is the entry of the map. *)
Lemma translate_valid_view pt v s e s' :
  translate pt v s = Ret (Some e, s') → is_valid e = Ret true →
  sv_view pt s (vpn_0 v) = Some e ∧ s' = s.
Proof.
  rewrite translate_eq, is_valid_eq. unfold sv_view, entry.
  destruct (walk _ _ _) as [a|]; [|done]. intros [= <- ->] [= Hv]. simpl. by rewrite Hv.
Qed.

(** What the code sees of a mapping: [translate] finds a valid entry. *)
Definition maps_to (pt : PageTableSv39) (s : Sys) (w : Z) (e : PageTableEntry) : Prop :=
  translate pt (VPN w) s = Ret (Some e, s) ∧ is_valid e = Ret true.

Lemma sv_view_valid pt s w e : sv_view pt s w = Some e → is_valid e = Ret true.
Proof.
  rewrite is_valid_eq. unfold sv_view, entry. destruct (walk _ _ _) as [a|]; simpl; [|done].
  destruct (validb _) eqn:E; [|done]. intros [= <-]. by rewrite E.
Qed.
Lemma maps_to_view pt s w e : maps_to pt s w e ↔ sv_view pt s w = Some e.
Proof.
  split.
  - intros [Ht Hv]. by apply translate_valid_view in Ht as [? _].
  - intros Hv. split; [by apply (translate_view pt s (VPN w))|by eapply sv_view_valid].
Qed.

Lemma guest_offset {G : Type} `{GuestPageTable G} tramp gm s r :
  new_guest_without_load (G := G) tramp gm s = Ret r → 0x200000 ≤ physical_memory_offset gm.
Proof. destruct r. unfold new_guest_without_load. intros Hn. minv0. done. Qed.

(** Every entry of a new guest space: the trampoline or an identity region. *)
Lemma guest_space_entry lo tramp gm s (gpm : GuestMemorySet PageTableSv39) s' w e :
  sys_wf lo s → 0 ≤ tramp < 2 ^ 56 → meta_ok gm →
  new_guest_without_load tramp gm s = Ret (gpm, s') →
  sv_view (page_table gpm) s' w = Some e →
  (e = seg_entry (tramp_seg tramp) (w mod 2 ^ 27) ∧ in_seg (tramp_seg tramp) (w mod 2 ^ 27)) ∨
  ∃ g, g ∈ guest_ranges gm ∧ in_seg g (w mod 2 ^ 27) ∧ e = seg_entry g (w mod 2 ^ 27) ∧
    pte_ppn e = PPN (w mod 2 ^ 27).
Proof.
  intros Hwf Ht Hm Hn He. pose proof (guest_offset _ _ _ _ Hn) as Hoff.
  apply (new_guest_without_load_spec lo) in Hn as [_ R _]; [|done..].
  apply (R w e) in He as (g&Hg&Hin&->).
  apply guest_segs_split in Hg as [->|Hg]; [by left|right].
  exists g. split_and!; try done. apply seg_entry_ppn; [|done].
  by eapply guest_range_identity.
Qed.

Lemma boot_wf c e s : boot_alloc c e s → mem_ok (sys_mem s) → c ≤ e → sys_wf c s.
Proof.
  intros (Hb&?&?) Hm Hle. split; [done|]. exists (MkAlloc c e []).
  split; [done|]. split; simpl; try done; try lia. apply NoDup_nil_2.
Qed.

(** Everything [new_guest_without_load] does at boot. *)
Lemma guest_space_boot lo c e s tramp gm :
  boot_alloc c e s → sys_wf lo s → 0 ≤ tramp < 2 ^ 56 → tramp mod 4096 = 0 →
  meta_ok gm → meta_live gm → segs_ok (guest_segs tramp gm) →
  c + 7 + segs_cost (guest_segs tramp gm) ≤ e →
  ∃ (gpm : GuestMemorySet PageTableSv39) s',
    new_guest_without_load tramp gm s = Ret (gpm, s') ∧
    building lo [] s gpm s' (guest_segs tramp gm) ∧
    sys_free s - 7 - segs_cost (guest_segs tramp gm) ≤ sys_free s'.
Proof.
  intros Hb Hwf Ht Hal Hm Hl Hok He. pose proof (segs_cost_nonneg _ Hok) as Hnn.
  destruct (new_guest_boot c e s Hb) as (pt&s1&Hng&(k&Hk&_&Hfr)&_); [lia|].
  pose proof Hng as Hng'. apply (new_guest_spec lo) in Hng' as [[I S V _] _]; [|done].
  rewrite (new_guest_without_load_unfold tramp gm s) by (done || apply Hl).
  unfold mbind at 1, M_bind at 1. unfold pt_new_guest, PageTableSv39_guest. rewrite Hng.
  assert (sys_free s - 7 ≤ sys_free s1) as Hf1.
  { pose proof (step_free _ _ _ _ _ S) as F. unfold sv_frames in F. rewrite Hfr in F.
    rewrite !length_fmap, length_upto in F. simpl in F. lia. }
  assert (sys_free s = e - c) as Hf0.
  { destruct Hb as (Hb&_). unfold sys_free. by rewrite Hb. }
  destruct (builds_guest tramp gm Ht Hal Hm Hl lo [] s (MkSet pt []) s1 []) as (gpm&s2&E&B&F2).
  - split; [done| |done]. intros w x. change (pt_view pt s1 w) with (sv_view pt s1 w).
    rewrite V. set_solver.
  - done.
  - lia.
  - exists gpm, s2. split; [exact E|]. split; [exact B|lia].
Qed.

(** A guest with 2 MiB + 12 KiB of memory and five devices. *)
Definition demo_meta : MachineMeta :=
  MkMeta 0x90200000 0x3000 [MkDevice 0x10001000 0x1000; MkDevice 0x10002000 0x1000]
    (Some (MkDevice 0x100000 0x1000)) (Some (MkDevice 0x10000000 0x100))
    (Some (MkDevice 0x2000000 0x10000)) None None.
Definition demo_sys : Sys := MkSys ∅ (Some (MkAlloc 0x80300 0x88000 [])).
Definition demo_tramp : Z := 0x80201000.

Lemma demo_meta_ok : meta_ok demo_meta.
Proof. split; simpl; unfold dev_ok; simpl; try lia. repeat constructor; simpl; lia. Qed.
Lemma demo_meta_live : meta_live demo_meta.
Proof. split; simpl; unfold live; simpl; try lia. repeat constructor; simpl; lia. Qed.
Lemma demo_segs_ok : segs_ok (guest_segs demo_tramp demo_meta).
Proof. apply (bool_decide_unpack _). vm_compute. done. Qed.
Lemma demo_boot : boot_alloc 0x80300 0x88000 demo_sys ∧ mem_ok (sys_mem demo_sys).
Proof. split; [done|]. apply map_Forall_empty. Qed.
Lemma demo_wf : sys_wf 0x80300 demo_sys.
Proof.
  split; [apply demo_boot|]. eexists. split; [done|].
  split; simpl; try lia; constructor.
Qed.
Lemma demo_runs : ∃ (gpm : GuestMemorySet PageTableSv39) s',
  new_guest_without_load demo_tramp demo_meta demo_sys = Ret (gpm, s') ∧
  building 0x80300 [] demo_sys gpm s' (guest_segs demo_tramp demo_meta).
Proof.
  destruct (guest_space_boot 0x80300 0x80300 0x88000 demo_sys demo_tramp demo_meta)
    as (gpm&s'&E&B&_); [apply demo_boot|apply demo_wf|done|done| | | | |].
  - apply demo_meta_ok.
  - apply demo_meta_live.
  - apply demo_segs_ok.
  - vm_compute. congruence.
  - exists gpm, s'. exact (conj E B).
Qed.

(** ** Claims *)

(** C1: isolation of the guest.  In the second-stage table that
    [new_guest_without_load] builds, every entry [translate] finds that is
    valid and accessible to the guest (the [U] flag) maps its page to itself,
    and the page is touched by a region the guest's device tree declares or by
    what the code adds to them: the 2 MiB below the memory node, the page behind
    the test device, and the rest of the first 2 MiB of the interrupt controller
    and of the PCI window.  So a range of pages [a, b), such as hypervisor
    memory, that no declared region and none of these additions touches is not
    reachable by the guest. *)
Theorem guest_isolation lo tramp gm s (gpm : GuestMemorySet PageTableSv39) s' w e s'' :
  sys_wf lo s → 0 ≤ tramp < 2 ^ 56 → meta_ok gm →
  new_guest_without_load tramp gm s = Ret (gpm, s') →
  translate (page_table gpm) (VPN w) s' = Ret (Some e, s'') →
  is_valid e = Ret true → is_user e = Ret true →
  pte_ppn e = PPN (w mod 2 ^ 27) ∧
  (∃ r, (r ∈ declared gm ∨ r ∈ slack gm) ∧ touches r (w mod 2 ^ 27)) ∧
  (∀ a b, Forall (λ r, ∀ p, touches r p → p < a ∨ b ≤ p) (declared gm ++ slack gm) →
    ¬ (a ≤ ppn_0 (pte_ppn e) < b)).
Proof.
  intros Hwf Ht Hm Hn Htr Hv Hu. rewrite is_user_eq in Hu. injection Hu as Hu.
  apply translate_valid_view in Htr as [He _]; [|done].
  destruct (guest_space_entry lo tramp gm s gpm s' w e Hwf Ht Hm Hn He)
    as [[-> Hin]|(g&Hg&Hin&_&Hppn)].
  - by rewrite tramp_entry_not_user in Hu.
  - rewrite Hppn. destruct (guest_range_declared gm g _ Hg Hin) as (r&Hr&Htc).
    split_and!; [done|eauto|]. intros a b Hab. simpl. rewrite Forall_forall in Hab.
    destruct (Hab r ltac:(set_solver) _ Htc); lia.
Qed.

Lemma guest_isolation_witness :
  ∃ (gpm : GuestMemorySet PageTableSv39) s' e,
    new_guest_without_load demo_tramp demo_meta demo_sys = Ret (gpm, s') ∧
    translate (page_table gpm) (VPN 0x90201) s' = Ret (Some e, s') ∧
    pte_ppn e = PPN 0x90201 ∧ ¬ (0x80200 ≤ ppn_0 (pte_ppn e) < 0x88000).
Proof.
  assert (0 ≤ demo_tramp < 2 ^ 56) as Ht by done.
  assert (Forall (λ r, ∀ p, touches r p → p < 0x80200 ∨ 0x88000 ≤ p)
            (declared demo_meta ++ slack demo_meta)) as Hr.
  { let l := eval vm_compute in (declared demo_meta ++ slack demo_meta) in
      change (declared demo_meta ++ slack demo_meta) with l.
    repeat (apply Forall_cons_2; [unfold touches; simpl; intros p Hp; dlia|]). apply Forall_nil_2. }
  destruct demo_runs as (gpm&s'&E&[I R S]). exists gpm, s'.
  assert (sv_view (page_table gpm) s' 0x90201 = Some (seg_entry (mem_seg demo_meta) 0x90201))
    as Hv.
  { clear E. apply (R 0x90201 _). exists (mem_seg demo_meta). split; [|split; [|done]].
    - apply elem_of_cons. by left.
    - split; vm_compute; congruence. }
  apply (translate_view _ _ (VPN 0x90201)) in Hv.
  exists (seg_entry (mem_seg demo_meta) 0x90201). split; [exact E|]. split; [exact Hv|].
  destruct (guest_isolation _ _ _ _ _ _ _ _ _ demo_wf Ht demo_meta_ok E Hv
    ltac:(vm_compute; reflexivity) ltac:(vm_compute; reflexivity)) as (H1&_&H2).
  split; [exact H1|apply (H2 _ _ Hr)].
Defined.

(** The addition below the memory node is real: the guest reaches the 2 MiB in
    front of the memory its device tree declares. *)
Theorem guest_reaches_below_memory lo tramp gm s (gpm : GuestMemorySet PageTableSv39) s' w :
  sys_wf lo s → 0 ≤ tramp < 2 ^ 56 → meta_ok gm →
  new_guest_without_load tramp gm s = Ret (gpm, s') →
  (physical_memory_offset gm - 0x200000) / 4096 ≤ w < physical_memory_offset gm / 4096 →
  ∃ e, maps_to (page_table gpm) s' w e ∧ pte_ppn e = PPN w ∧ is_user e = Ret true.
Proof.
  intros Hwf Ht Hm Hn Hw. pose proof (guest_offset _ _ _ _ Hn) as Hoff.
  pose proof (mo_mem _ Hm). pose proof (mo_size _ Hm).
  assert (w mod 2 ^ 27 = w) as Hmod by (apply Z.mod_small; dlia).
  assert (in_seg (mem_seg gm) w) as Hin by (unfold in_seg; simpl; dlia).
  assert (mem_seg gm ∈ guest_ranges gm) as Hg by set_solver.
  apply (new_guest_without_load_spec lo) in Hn as [_ R _]; [|done..].
  exists (seg_entry (mem_seg gm) w). split_and!.
  - apply maps_to_view, R. exists (mem_seg gm). rewrite Hmod. set_solver.
  - apply seg_entry_ppn; [|done]. by eapply guest_range_identity.
  - rewrite is_user_eq. f_equal. unfold seg_entry, userb, mem_seg, id_seg, area_flags, flag.union.
    cbn [seg_pa seg_lo seg_flags flags_bits]. rewrite testbit_pte_new; [done|dlia|done|lia].
Qed.

(** C4: the guest address space is exactly the segments the code maps.  Whatever
    [new_guest_without_load] returns maps a page to an entry if and only if the
    page lies in one of the segments of the machine description (memory from
    2 MiB below its start, trampoline, test device, virtio, uart, clint, plic,
    pci) and the entry is that segment's, with its permissions. *)
Theorem guest_space_exact lo tramp gm s (gpm : GuestMemorySet PageTableSv39) s' :
  sys_wf lo s → 0 ≤ tramp < 2 ^ 56 → meta_ok gm →
  new_guest_without_load tramp gm s = Ret (gpm, s') →
  ∀ w e, maps_to (page_table gpm) s' w e ↔
    ∃ g, g ∈ guest_segs tramp gm ∧ in_seg g (w mod 2 ^ 27) ∧ e = seg_entry g (w mod 2 ^ 27).
Proof.
  intros Hwf Ht Hm Hn w e. rewrite maps_to_view.
  apply (new_guest_without_load_spec lo) in Hn as [_ R _]; [|done..]. apply R.
Qed.

Lemma guest_space_exact_witness :
  ∃ (gpm : GuestMemorySet PageTableSv39) s',
    new_guest_without_load demo_tramp demo_meta demo_sys = Ret (gpm, s') ∧
    maps_to (page_table gpm) s' (2 ^ 27 - 1) (pte_new (PPN 0x80201) (MkFlags 11)).
Proof.
  assert (0 ≤ demo_tramp < 2 ^ 56) as Ht by done.
  assert (∃ g, g ∈ guest_segs demo_tramp demo_meta ∧ in_seg g ((2 ^ 27 - 1) mod 2 ^ 27) ∧
    pte_new (PPN 0x80201) (MkFlags 11) = seg_entry g ((2 ^ 27 - 1) mod 2 ^ 27)) as Hg.
  { exists (tramp_seg demo_tramp). split; [set_solver|]. by split; vm_compute. }
  destruct demo_runs as (gpm&s'&E&_). exists gpm, s'. split; [exact E|].
  apply (guest_space_exact _ _ _ _ _ _ demo_wf Ht demo_meta_ok E). exact Hg.
Defined.

(** C5: booting a guest succeeds.  With an allocator that has not been used for
    anything it got back, a device tree whose regions are non-empty, inside 39
    bits and pairwise disjoint, and seven frames for the root plus two frames
    per region and per further 2 MiB of it, [new_guest_without_load] returns,
    and every page of every segment translates to that segment's entry. *)
Theorem guest_boot_succeeds c e s tramp gm :
  boot_alloc c e s → mem_ok (sys_mem s) → 0 ≤ tramp < 2 ^ 56 → tramp mod 4096 = 0 →
  meta_ok gm → meta_live gm → segs_ok (guest_segs tramp gm) →
  c + 7 + segs_cost (guest_segs tramp gm) ≤ e →
  ∃ (gpm : GuestMemorySet PageTableSv39) s',
    new_guest_without_load tramp gm s = Ret (gpm, s') ∧
    ∀ g w, g ∈ guest_segs tramp gm → in_seg g (w mod 2 ^ 27) →
      maps_to (page_table gpm) s' w (seg_entry g (w mod 2 ^ 27)).
Proof.
  intros Hb Hmem Ht Hal Hm Hl Hok Hc.
  pose proof (segs_cost_nonneg _ Hok).
  destruct (guest_space_boot c c e s tramp gm) as (gpm&s'&E&[_ R _]&_);
    [done|apply (boot_wf _ e); [done..|lia]|done..|].
  exists gpm, s'. split; [done|]. intros g w Hg Hin. apply maps_to_view, R. eauto.
Qed.

Lemma guest_boot_succeeds_witness :
  ∃ (gpm : GuestMemorySet PageTableSv39) s',
    new_guest_without_load demo_tramp demo_meta demo_sys = Ret (gpm, s').
Proof.
  destruct (guest_boot_succeeds 0x80300 0x88000 demo_sys demo_tramp demo_meta
    (proj1 demo_boot) (proj2 demo_boot) ltac:(done) ltac:(done) demo_meta_ok demo_meta_live
    demo_segs_ok ltac:(vm_compute; congruence)) as (gpm&s'&E&_).
  exists gpm, s'. exact E.
Defined.

(** C6: the guest cannot change its own second-stage table.  When the pool of
    frames is disjoint from the ranges mapped for the guest, any change of memory
    confined to pages of those ranges, such as the stores of the guest, leaves every
    translation as it was. *)
Theorem guest_stores_keep_table lo tramp gm s (gpm : GuestMemorySet PageTableSv39) s' m' ps :
  sys_wf lo s → 0 ≤ tramp < 2 ^ 56 → meta_ok gm →
  new_guest_without_load tramp gm s = Ret (gpm, s') →
  Forall (λ g, seg_hi g ≤ lo ∨ sys_end s ≤ seg_lo g) (guest_ranges gm) →
  mem_ok m' → same_outside ps (sys_mem s') m' →
  (∀ p, p ∈ ps → ∃ g, g ∈ guest_ranges gm ∧ in_seg g (ppn_0 p)) →
  ∀ w e, maps_to (page_table gpm) (set_mem (λ _, m') s') w e ↔
         maps_to (page_table gpm) s' w e.
Proof.
  intros Hwf Ht Hm Hn Hpool Hm' Hs Hps w e. rewrite !maps_to_view.
  apply (new_guest_without_load_spec lo) in Hn as [I _ St]; [|done..].
  pose proof (pt_inv_wf _ _ _ I) as [[Hmo (al&Hal&Hw)] Ho].
  pose proof (step_end _ _ _ _ _ St) as Hend.
  unfold set_mem. destruct s' as [m al']; simpl in *.
  assert (sv_view (page_table gpm) (MkSys m' al') w = sv_view (page_table gpm) (MkSys m al') w)
    as ->; [|done].
  eapply (sv_frame lo (page_table gpm) (MkSys m al') (MkSys m' al') I); eauto.
  - split; simpl; eauto.
  - intros q Hq Hin. destruct (Hps q Hin) as (g&Hg&[? ?]).
    rewrite Forall_forall in Hpool. specialize (Hpool g Hg).
    destruct Ho as (_&al0&Hal0&Hu). simpl in *. rewrite Forall_forall in Hu.
    destruct (Hu q Hq) as [Hq' _]. rewrite Hal in *. simplify_eq.
    unfold sys_end at 1 in Hend. simpl in Hend. destruct Hw. lia.
Qed.

Lemma guest_stores_keep_table_witness :
  ∃ (gpm : GuestMemorySet PageTableSv39) s',
    new_guest_without_load demo_tramp demo_meta demo_sys = Ret (gpm, s') ∧
    let m' := write_pte (sys_mem s') (pte_slot (PPN 0x90201) 5) (PTE 42) in
    ∀ w e, maps_to (page_table gpm) (set_mem (λ _, m') s') w e ↔
           maps_to (page_table gpm) s' w e.
Proof.
  assert (0 ≤ demo_tramp < 2 ^ 56) as Ht by done.
  assert (Forall (λ g, seg_hi g ≤ 0x80300 ∨ sys_end demo_sys ≤ seg_lo g)
            (guest_ranges demo_meta)) as Hr.
  { repeat constructor; vm_compute; intuition congruence. }
  assert (∀ p, p ∈ [PPN 0x90201] → ∃ g, g ∈ guest_ranges demo_meta ∧ in_seg g (ppn_0 p)) as Hp.
  { intros p ->%list_elem_of_singleton. exists (mem_seg demo_meta).
    split; [apply elem_of_cons; by left|]. split; vm_compute; congruence. }
  assert (ppn_ok (PPN 0x90201) ∧ idx_ok 5 ∧ 0 ≤ bits (PTE 42) < W64) as (Hk1&Hk2&Hk3) by done.
  destruct demo_runs as (gpm&s'&E&[I _ _]). exists gpm, s'. split; [exact E|].
  pose proof (sys_mem_ok _ _ (proj1 (pt_inv_wf _ _ _ I))) as Hok.
  apply (guest_stores_keep_table _ _ _ _ _ _ _ [PPN 0x90201] demo_wf Ht demo_meta_ok E Hr);
    [apply store_ok; assumption|apply same_outside_write; assumption|exact Hp].
Defined.
