(* ===== verification/MemorySetClaims.v ===== *)
(** * Empty and framed areas, and the hypervisor's own space

    What [MapArea::map] does where its two branches differ from the linear
    mapping of a non-empty range: an empty linear range, and [Framed] areas,
    whose pages get frames of their own; and the address space [new_host_vmm]
    makes of such areas. *)
From stdpp Require Import base tactics numbers list option gmap sets.
From S2P Require Import Prelude Constants Address Pte Mem FrameAllocator PageTable Fdt.
From S2P Require Import Sv39 Sv39Tree Sv39Facts Sv39New MemorySet MemorySetFacts Framed GuestSpace.
From S2P Require Import HostSpace GuestIsolation.

(** ** Empty linear areas *)

Section Empty.
Context {P : Type} `{PageTableSpec P}.
Implicit Types (ms : MemSet P) (s : Sys).

Lemma area_map_empty_panics lo a v p pt s :
  map_type a = Linear → perm_ok (map_perm a) →
  vpn_range a = MkRange (VPN v) (VPN v) → ppn_range a = Some (MkRange (PPN p) (PPN p)) →
  0 ≤ p → p + 2 ^ 27 < 2 ^ 44 → 0 ≤ v < 2 ^ 27 → pt_inv lo pt s →
  ∃ e, area_map a pt s = Panic e.
Proof.
  intros Ha Hm Hvr Hpr Hp Hpb Hv Hi. unfold area_map. rewrite Hpr, Hvr.
  unfold get_start, get_end, usize_from_PhysPageNum, usize_from_VirtPageNum.
  cbn [range_l range_r ppn_0 vpn_0].
  unfold mbind, M_bind, lift. rewrite !usub_run by lia. rewrite !Z.sub_diag. cbn [assert Z.eqb].
  destruct (map_linear_loop_empty_panics lo (linear_rounds (MkRange (VPN v) (VPN v))) a
    (MkRange (PPN p) (PPN p)) (MkRange (VPN v) (VPN v)) p v v pt s) as [e He];
    try done; try lia.
  - rewrite linear_rounds_empty by done. lia.
  - exists e. by rewrite Z.sub_diag, Z.add_0_r in He.
Qed.

Lemma identity_area_empty b mp :
  1 ≤ b < 2 ^ 39 → b mod 4096 = 0 →
  identity_area b b mp = Ret (linear_area (b / 4096) (b / 4096) (b / 4096) (b / 4096) mp).
Proof.
  intros Hb Hal. unfold identity_area.
  rewrite VirtAddr_from_usize_mod, PhysAddr_from_usize_mod, !Z.mod_small by lia.
  rewrite area_new_linear_run by lia.
  by replace ((b + 4095) / 4096) with (b / 4096) by dlia.
Qed.

Lemma push_identity_empty lo ms s b mp :
  pt_inv lo (page_table ms) s → perm_ok mp → 1 ≤ b < 2 ^ 39 → b mod 4096 = 0 →
  ∃ e, push_identity ms b b mp s = Panic e.
Proof.
  intros Hi Hm Hb Hal. unfold push_identity. rewrite identity_area_empty by done.
  destruct (area_map_empty_panics lo
    (linear_area (b / 4096) (b / 4096) (b / 4096) (b / 4096) mp)
    (b / 4096) (b / 4096) (page_table ms) s) as [e He]; try done; try dlia.
  exists e. unfold mbind, M_bind. cbn [lift]. unfold push, mbind, M_bind. by rewrite He.
Qed.
End Empty.

(** A push of an empty area does not return, in whatever state. *)
Lemma push_identity_empty_never {P : Type} `{PageTable P} (ms : MemSet P) s b mp r :
  1 ≤ b < 2 ^ 39 → b mod 4096 = 0 → push_identity ms b b mp s ≠ Ret r.
Proof.
  intros Hb Hal Hp. unfold push_identity in Hp. rewrite identity_area_empty in Hp by done.
  destruct r as [ms' s']. minv0. unfold push in *. minv0.
  match goal with H : area_map _ _ _ = Ret _ |- _ => rename H into Ha end.
  unfold area_map in Ha. simpl in Ha. minv0.
  match goal with H : map_linear_loop _ _ _ _ _ _ _ _ = _ |- _ =>
    by apply (map_linear_loop_empty _ _ _ _ _ (b / 4096) (b / 4096)) in H end.
Qed.

(** C34: an empty linear area is fatal.  [MapArea::map] tests for the end of the
    range only after a page, so pushing an area from a page to itself panics
    after mapping unrelated pages; hence the ELF loader [new_guest], which maps
    the interrupt controller this way, never returns for a machine that has
    one. *)
Theorem empty_linear_area_panics lo (ms : GuestMemorySet PageTableSv39) s b mp :
  sv_inv lo (page_table ms) s → perm_ok mp → 1 ≤ b < 2 ^ 39 → b mod 4096 = 0 →
  (∃ e, push_identity ms b b mp s = Panic e) ∧
  ∀ elf_new tramp data size gm d s0 (r : GuestMemorySet PageTableSv39 * Sys),
    plic gm = Some d → base_address d = b → new_guest_elf elf_new tramp data size gm s0 ≠ Ret r.
Proof.
  intros Hi Hm Hb Hal. split; [by apply (push_identity_empty lo)|].
  intros elf_new tramp data size gm d s0 [ms' s'] Hpl Hd He.
  unfold new_guest_elf in He. minv0. do 2 case_match. minv0.
  destruct (plic gm) as [q|]; [|done]. injection Hpl as ->.
  by eapply push_identity_empty_never.
Qed.

Lemma empty_linear_area_panics_witness :
  ∃ (ms : GuestMemorySet PageTableSv39) s,
    new_guest_without_load demo_tramp demo_meta demo_sys = Ret (ms, s) ∧
    ∃ e, push_identity ms 0xc000000 0xc000000 perm.RWU s = Panic e.
Proof.
  assert (perm_ok perm.RWU) as Hp by done.
  destruct demo_runs as (gpm&s'&E&[I R S]). exists gpm, s'. split; [exact E|].
  apply (empty_linear_area_panics _ gpm s' 0xc000000 perm.RWU I Hp); [lia|reflexivity].
Defined.

(** ** Framed areas *)

(** C16: pages of a framed area get memory of their own.  When
    [insert_framed_area] returns, the pages of the area, and no others, are newly
    mapped, to frames that are pairwise different, read zero, and belong to
    nobody: not to what was owned before, nor to the table itself.  It does
    return when the pages are free and three frames per page are. *)
Theorem framed_area_fresh lo (ms : HostMemorySet PageTableSv39) s a b mp :
  sv_inv lo (page_table ms) s → perm_ok mp → 0 ≤ a ≤ b → 1 ≤ b ≤ 2 ^ 39 →
  let v := a / 4096 in let n := (b + 4095) / 4096 - v in
  (∀ ms' s', insert_framed_area ms (VA a) (VA b) mp s = Ret (ms', s') →
     ∃ fs, Z.of_nat (length fs) = n ∧ Forall (frame_zero (sys_mem s')) fs ∧
       (∀ rest, owned lo s (rest ++ sv_frames (page_table ms)) →
          owned lo s' (rest ++ fs ++ sv_frames (page_table ms'))) ∧
       sv_inv lo (page_table ms') s' ∧
       ∀ w, sv_view (page_table ms') s' w =
         if decide (in_pages v n w)
         then (λ f, pte_new f (area_flags mp)) <$> fs !! Z.to_nat (w mod 2 ^ 27 - v)
         else sv_view (page_table ms) s w) ∧
  ((∀ w, in_pages v n w → sv_view (page_table ms) s w = None) → 3 * n ≤ sys_free s →
   returns (insert_framed_area ms (VA a) (VA b) mp s)).
Proof.
  intros Hi Hm Ha Hb. cbv zeta.
  assert (0 ≤ a / 4096 ≤ (b + 4095) / 4096 ∧ (b + 4095) / 4096 ≤ 2 ^ 27) as [Hv Hve] by dlia.
  rewrite insert_framed_area_eq by lia. split.
  - intros ms' s' Hp. apply (push_framed_spec lo) in Hp as (fs&_&F); try done.
    exists fs. by destruct F.
  - intros Hn Hc. by apply (push_framed_total lo).
Qed.

Lemma framed_area_fresh_witness :
  ∃ (pt : PageTableSv39) s (ms' : HostMemorySet PageTableSv39) s' f0 f1,
    new demo_sys = Ret (pt, s) ∧
    insert_framed_area (MkSet pt []) (VA 0x7fffffa000) (VA 0x7fffffc000) perm.RW s =
      Ret (ms', s') ∧
    sv_view (page_table ms') s' 0x7fffffb = Some (pte_new f1 (area_flags perm.RW)) ∧
    owned 0x80300 s' ([f0; f1] ++ sv_frames (page_table ms')).
Proof.
  assert (new demo_sys = Ret (MkSv39 (PPN 0x80300) [MkTracker (PPN 0x80300)],
    MkSys (zero_frame ∅ (PPN 0x80300)) (Some (MkAlloc 0x80301 0x88000 [])))) as E by reflexivity.
  set (pt := MkSv39 _ _) in E. set (s := MkSys _ _) in E.
  change (pt_new (P:=PageTableSv39) demo_sys = Ret (pt, s)) in E.
  destruct (pt_new_spec 0x80300 demo_sys pt s demo_wf E) as (I&_&V).
  destruct (framed_area_fresh 0x80300 (MkSet pt []) s 0x7fffffa000 0x7fffffc000 perm.RW I
    ltac:(done) ltac:(lia) ltac:(lia)) as [Hs Ht].
  destruct (Ht (λ w _, V w) ltac:(done)) as [[ms' s'] Hr].
  destruct (Hs _ _ Hr) as (fs&Hl&_&Ho&_&Hv).
  assert (length fs = 2%nat) as Hl2 by dlia.
  destruct fs as [|f0 [|f1 [|]]]; try discriminate Hl2.
  exists pt, s, ms', s', f0, f1. split; [exact E|]. split; [exact Hr|]. split.
  - rewrite Hv. reflexivity.
  - apply (Ho []). apply (pt_inv_wf _ _ _ I).
Defined.

(** ** The hypervisor's address space *)

(** A segment of the host: one of three permissions, inside physical memory. *)
Definition host_seg_ok (g : seg) : Prop :=
  0 ≤ seg_pa g ∧ seg_pa g + (seg_hi g - seg_lo g) ≤ 2 ^ 44 ∧
  seg_flags g ∈ [area_flags perm.RX; area_flags perm.R; area_flags perm.RW].

Lemma id_seg_host l h mp :
  0 ≤ l ≤ h → h < 2 ^ 39 → mp ∈ [perm.RX; perm.R; perm.RW] → host_seg_ok (id_seg l h mp).
Proof.
  intros Hl Hh Hm. unfold host_seg_ok, id_seg. simpl. split; [dlia|]. split; [dlia|].
  by apply (list_elem_of_fmap_2 area_flags) in Hm.
Qed.

Lemma opt_seg_host d g : opt_ok d → g ∈ opt_seg dev_size perm.RW d →
  host_seg_ok g ∧ seg_pa g = seg_lo g.
Proof.
  destruct d as [d|]; simpl; [|by intros _ ?%elem_of_nil].
  intros (?&?&?&?) ->%list_elem_of_singleton. split; [|done].
  apply id_seg_host; [lia|lia|set_solver].
Qed.

Lemma host_ids_ok sym m g :
  linker_ok sym → host_meta_ok m → g ∈ host_ids sym m → host_seg_ok g ∧ seg_pa g = seg_lo g.
Proof.
  intros [_ _ (?&?&?) (?&?&?) (?&?&?) (?&?&?) (?&?&?)] [Ht _ Hv Hp _].
  unfold host_ids. rewrite !elem_of_app, !list_elem_of_singleton.
  intros [->|[->|[->|[->|[->|[Hg|[Hg|Hg]]]]]]];
    try (split; [apply id_seg_host; [lia|lia|set_solver]|done]).
  - exact (opt_seg_host _ _ Ht Hg).
  - apply list_elem_of_fmap in Hg as (d&->&Hd). rewrite Forall_forall in Hv.
    destruct (Hv d Hd) as [(?&?&?&?) _].
    split; [apply id_seg_host; [lia|lia|set_solver]|done].
  - exact (opt_seg_host _ _ Hp Hg).
Qed.

Lemma host_segs_ok sym m f g :
  linker_ok sym → host_meta_ok m → ppn_ok (PPN f) → g ∈ host_segs sym m f →
  host_seg_ok g ∧ (seg_pa g = seg_lo g ∨ 2 ^ 27 - 2 ≤ seg_lo g).
Proof.
  intros Hl Hm Hf. pose proof (lk_tramp _ Hl). unfold host_segs.
  rewrite elem_of_app, !elem_of_cons, elem_of_nil. unfold ppn_ok in Hf. simpl in Hf.
  intros [[->|[->|[]]]|Hg].
  - split; [|by right]. unfold host_seg_ok. simpl. split; [dlia|]. split; [dlia|set_solver].
  - split; [|by right]. unfold host_seg_ok. simpl. split; [lia|]. split; [lia|set_solver].
  - apply (host_ids_ok sym m) in Hg as [? ?]; auto.
Qed.

(** Permissions of an entry of such a segment. *)
Lemma host_entry_perms g w :
  host_seg_ok g → in_seg g w →
  let e := seg_entry g w in
  userb e = false ∧ writeb e && execb e = false ∧
  pte_ppn e = PPN (seg_pa g + (w - seg_lo g)).
Proof.
  intros (Hp&Hpe&Hf) [? ?]. unfold seg_entry, userb, writeb, execb.
  assert (0 ≤ seg_pa g + (w - seg_lo g) < 2 ^ 44) as Hr by lia.
  rewrite !elem_of_cons, elem_of_nil in Hf.
  destruct Hf as [->|[->|[->|[]]]]; unfold area_flags, flag.union; cbn [flags_bits];
    rewrite !testbit_pte_new, pte_ppn_new by (done || lia || apply Hr); done.
Qed.

(** C15: the hypervisor's own pages.  Every valid entry of the table
    [new_host_vmm] builds is inaccessible to user mode and not both writable and
    executable, and except for the trampoline and the trap context at the top it
    maps its page to itself; and the construction returns when the sections and
    devices are disjoint and there are frames for them. *)
Theorem host_space_protected lo sym m s :
  sys_wf lo s → linker_ok sym → host_meta_ok m →
  (∀ (h : HostMemorySet PageTableSv39) s' w e s'',
     new_host_vmm sym m s = Ret (h, s') →
     translate (page_table h) (VPN w) s' = Ret (Some e, s'') → is_valid e = Ret true →
     is_user e = Ret false ∧ (writable e = Ret true → executable e = Ret false) ∧
     (w mod 2 ^ 27 < 2 ^ 27 - 2 → pte_ppn e = PPN (w mod 2 ^ 27))) ∧
  (segs_ok (host_segs sym m 0) → host_cost sym m ≤ sys_free s →
   returns (new_host_vmm (P := PageTableSv39) sym m s)).
Proof.
  intros Hwf Hl Hm. split.
  - intros h s' w e s'' Hn Ht Hv. apply translate_valid_view in Ht as [Ht _]; [|done].
    apply (new_host_vmm_spec lo) in Hn as [f [I R O _ _]]; [|done..].
    apply (R w e) in Ht as (g&Hg&Hin&->).
    assert (ppn_ok f) as Hf.
    { eapply owned_ppn_ok; [apply I|apply (O [])|by left].
      split; [constructor|]. destruct Hwf as [_ (al&?&_)]. eauto. }
    destruct f as [f]. apply host_segs_ok in Hg as [Hg Hpa]; [|done..].
    destruct (host_entry_perms g _ Hg Hin) as (Hu&Hwx&Hp).
    rewrite is_user_eq, writable_eq, executable_eq, Hu, Hp. split_and!; [done| |].
    + intros [= Hw]. rewrite Hw in Hwx. simpl in Hwx. by rewrite Hwx.
    + intros Hlt. f_equal. destruct Hin. destruct Hpa; lia.
  - intros Hok Hc. destruct (new_host_vmm_total lo sym m s) as (h&s'&f&E&_); [done..|].
    by eexists.
Qed.

(** An image of 1 MiB at the start of memory and three devices. *)
Definition demo_linker : LinkerSymbols :=
  MkSyms 0x80200000 0x80220000 0x80220000 0x80228000 0x80228000 0x8022a000
    0x8022a000 0x80300000 0x80300000 0x80201000.
Definition demo_machine : MachineMeta :=
  MkMeta 0x80000000 0x8000000 [MkDevice 0x10001000 0x1000] (Some (MkDevice 0x100000 0x1000))
    None None (Some (MkDevice 0xc000000 0x600000)) None.

Lemma demo_linker_ok : linker_ok demo_linker.
Proof. split; unfold section_ok; vm_compute; intuition congruence. Qed.
Lemma demo_machine_ok : host_meta_ok demo_machine.
Proof.
  split; try apply Forall_cons; unfold dev_ok, opt_ok, opt_live, live, dev_ok; simpl;
    try done; lia.
Qed.

Lemma host_space_protected_witness :
  returns (new_host_vmm (P := PageTableSv39) demo_linker demo_machine demo_sys).
Proof.
  apply (host_space_protected 0x80300 demo_linker demo_machine demo_sys demo_wf
    demo_linker_ok demo_machine_ok).
  - apply (bool_decide_unpack _). vm_compute. exact I.
  - vm_compute. congruence.
Defined.
