(* ===== verification/BootSpace.v ===== *)
(** * Memory at start-up

    The address spaces [hentry] builds one after the other, from the fresh pool
    of frames: the hypervisor's, the guest's, the guest's memory in the
    hypervisor's, and the hypervisor's stack for the guest.  Each construction
    leaves the tables built before it alone. *)
From stdpp Require Import base tactics numbers list option gmap sets.
From S2P Require Import Prelude Constants Address Pte Mem FrameAllocator PageTable Fdt.
From S2P Require Import Sv39 Sv39Tree Sv39Facts Sv39New Sv39Claims MemorySet MemorySetFacts Framed GuestSpace.
From S2P Require Import HostSpace GuestIsolation.

(** ** The root of a table never moves *)

Definition root_of (ms : MemSet PageTableSv39) : PhysPageNum := root_ppn (page_table ms).
Definition keeps_root (f : MemSet PageTableSv39 → M Sys (MemSet PageTableSv39)) : Prop :=
  ∀ ms s ms' s', f ms s = Ret (ms', s') → root_of ms' = root_of ms.

Lemma map_one_root a pt v p s a' pt' s' :
  map_one a pt v p s = Ret ((a', pt'), s') → root_ppn pt' = root_ppn pt.
Proof. unfold map_one. intros Hm. minv0. by eapply map_root. Qed.

Lemma map_linear_loop_root fuel a pt pr vr p v s a' pt' s' :
  map_linear_loop fuel a pt pr vr p v s = Ret ((a', pt'), s') → root_ppn pt' = root_ppn pt.
Proof.
  revert a pt p v s. induction fuel as [|fuel IH]; intros a pt p v s Hm; [done|].
  cbn [map_linear_loop] in Hm. minv0.
  match goal with H : map_one _ _ _ _ _ = Ret (?r, _) |- _ =>
    destruct r as [a1 pt1]; apply map_one_root in H as <- end.
  case_decide; minv0; [done|]. by eapply IH.
Qed.

Lemma for_range_root fuel it a pt s a' pt' s' :
  for_range fuel it (λ st vpn, map_one st.1 st.2 vpn None) (a, pt) s = Ret ((a', pt'), s') →
  root_ppn pt' = root_ppn pt.
Proof.
  revert it a pt s. induction fuel as [|fuel IH]; intros it a pt s Hm;
    cbn [for_range] in Hm; minv0; case_match; case_match; minv0; try done.
  match goal with H : map_one _ _ _ _ _ = Ret (?r, _) |- _ =>
    destruct r as [a1 pt1]; cbn [fst snd] in H; apply map_one_root in H as <- end.
  by eapply IH.
Qed.

Lemma push_root a : keeps_root (λ ms, push ms a None).
Proof.
  intros ms s ms' s' Hp. unfold push in Hp. minv0.
  match goal with H : area_map _ _ _ = Ret (?r, _) |- _ =>
    destruct r as [a' pt']; unfold area_map in H end.
  case_match; minv0; [by eapply map_linear_loop_root|by eapply for_range_root].
Qed.

Lemma root_bind f g : keeps_root f → keeps_root g → keeps_root (λ ms, ms' ← f ms; g ms').
Proof. intros Hf Hg ms s ms' s' Hb. minv0. etrans; [by eapply Hg|by eapply Hf]. Qed.
Lemma root_lift {A} (o : outcome A) f :
  (∀ a, keeps_root (f a)) → keeps_root (λ ms, a ← lift o; f a ms).
Proof. intros Hf ms s ms' s' Hb. minv0. by eapply Hf. Qed.
Lemma root_ret : keeps_root mret.
Proof. intros ms s ms' s' Hr. minv0. done. Qed.
Lemma root_identity l h mp : keeps_root (λ ms, push_identity ms l h mp).
Proof. apply root_lift. intros a. apply push_root. Qed.
Lemma root_device d sz mp : keeps_root (λ ms, push_device ms d sz mp).
Proof. apply root_lift. intros a. apply root_identity. Qed.
Lemma root_device_opt d size mp : keeps_root (λ ms, push_device_opt ms d size mp).
Proof. destruct d; [apply root_device|apply root_ret]. Qed.
Lemma root_devices ds mp :
  keeps_root (mfold ds (λ ms dev, push_device ms dev (dev_size dev) mp)).
Proof.
  induction ds as [|d ds IH]; [apply root_ret|]. apply (root_bind _ _ (root_device _ _ _) IH).
Qed.
Lemma root_trampoline t : keeps_root (map_trampoline t).
Proof.
  apply root_lift; intros v. apply root_lift; intros p. intros ms s ms' s' Hb. minv0.
  by eapply map_root.
Qed.
Create HintDb roots discriminated.
#[export] Hint Resolve root_bind root_ret root_identity root_device_opt root_devices
  root_trampoline push_root : roots.

Lemma root_regions tramp gm : keeps_root (map_regions tramp gm).
Proof. unfold map_regions. repeat first [apply root_bind | solve [auto with roots]]. Qed.

(** The root of a guest table is the aligned frame [new_guest] chose. *)
Lemma guest_root lo tramp gm s (gpm : GuestMemorySet PageTableSv39) s' :
  sys_wf lo s → meta_ok gm → new_guest_without_load tramp gm s = Ret (gpm, s') →
  ppn_0 (root_of gpm) mod 4 = 0.
Proof.
  intros Hwf Hm Hn. pose proof (guest_offset _ _ _ _ Hn) as Hoff.
  rewrite (new_guest_without_load_unfold tramp gm s) in Hn by done.
  apply bind_Ret in Hn as (pt&s1&Hg&Hr).
  destruct (new_guest_spec lo s pt s1 Hwf Hg) as [_ Hal].
  by rewrite (root_regions _ _ _ _ _ _ Hr).
Qed.

(** ** One construction after the other *)

(** The guest's memory in the hypervisor's space, and the pages of the
    hypervisor's stack for guest 0. *)
Definition guest_mem_seg : seg :=
  id_seg GUEST_START_PA (GUEST_START_PA + GUEST_DEFAULT_SIZE) perm.RW.
Definition stack_seg : seg := MkSeg (2 ^ 27 - 6) (2 ^ 27 - 2) 0 (area_flags perm.RW).

(** What the machine, the image and the guest's description have to satisfy. *)
Record boot_fits (sym : LinkerSymbols) (machine gm : MachineMeta) : Prop := {
  bf_linker : linker_ok sym;
  bf_kernel : MEMORY_START ≤ ekernel sym ≤ MEMORY_END;
  bf_text : stext sym < etext sym;
  bf_rodata : srodata sym < erodata sym;
  bf_data : sdata sym < edata sym;
  bf_host : host_meta_ok machine;
  bf_host_segs : segs_ok (host_segs sym machine 0 ++ [guest_mem_seg; stack_seg]);
  bf_guest : meta_ok gm;
  bf_live : meta_live gm;
  bf_guest_segs : segs_ok (guest_segs (strampoline sym) gm);
}.
(** Frames the start-up takes at most. *)
Definition boot_cost (sym : LinkerSymbols) (machine gm : MachineMeta) : Z :=
  host_cost sym machine + (7 + segs_cost (guest_segs (strampoline sym) gm)) +
  seg_cost guest_mem_seg + 12.

Lemma segs_ok_ctx_app sym m f f' gs :
  segs_ok (host_segs sym m f ++ gs) → segs_ok (host_segs sym m f' ++ gs).
Proof.
  simpl. intros (A&Ht&B). split; [exact A|]. split; [|exact B].
  apply Forall_cons in Ht as [? ?]. by apply Forall_cons.
Qed.

Lemma none_recycled_boot lo s :
  sys_wf lo s → none_recycled s → 0 ≤ lo → boot_alloc (sys_end s - sys_free s) (sys_end s) s.
Proof.
  intros [_ (al&Ha&Hw)] Hr Hlo. unfold none_recycled, boot_alloc, sys_end, sys_free in *.
  rewrite Ha in *. destruct al as [c e r]. simpl in *. subst r. destruct Hw. simpl in *.
  unfold free_count. simpl. split; [|lia]. do 2 f_equal. lia.
Qed.

(** A table is not affected by changes to frames that are not its own. *)
Lemma table_untouched lo (pt : PageTableSv39) s s' fs gs :
  sv_inv lo pt s → represents pt s gs → sys_wf lo s' → owned lo s' (sv_frames pt ++ fs) →
  same_outside fs (sys_mem s) (sys_mem s') → sv_inv lo pt s' ∧ represents pt s' gs.
Proof.
  intros Hi Hr Hwf Ho Hm.
  assert (owned lo s' (sv_frames pt)) as Ho'.
  { eapply owned_app_r, owned_perm, Ho. apply Permutation_app_comm. }
  assert (∀ q, q ∈ sv_frames pt → q ∉ fs) as Hd.
  { destruct Ho as [Hn _]. by apply NoDup_app in Hn as (_&?&_). }
  destruct (sv_frame lo pt s s' Hi Hwf Ho' fs Hm Hd) as (I&V&_). split; [done|].
  intros w e. rewrite <- (Hr w e). change (sv_view pt s' w = Some e ↔ sv_view pt s w = Some e).
  by rewrite V.
Qed.

Lemma map_guest_total lo fs0 s0 (h : HostMemorySet PageTableSv39) s gs :
  building lo fs0 s0 h s gs → segs_ok (gs ++ [guest_mem_seg]) →
  seg_cost guest_mem_seg ≤ sys_free s →
  ∃ h' s', map_guest h GUEST_START_PA GUEST_DEFAULT_SIZE s = Ret (h', s') ∧
    building lo fs0 s0 h' s' (gs ++ [guest_mem_seg]) ∧ root_of h' = root_of h ∧
    sys_free s - seg_cost guest_mem_seg ≤ sys_free s'.
Proof.
  intros Hb Hok Hc. destruct perm_ok_all as (_&_&HRW&_&_).
  assert (segs_cost [guest_mem_seg] = seg_cost guest_mem_seg) as Hs
    by (unfold segs_cost; apply Z.add_0_r).
  rewrite <- Hs in Hc |- *.
  destruct (builds_identity GUEST_START_PA (GUEST_START_PA + GUEST_DEFAULT_SIZE) perm.RW HRW
    ltac:(done) ltac:(done) ltac:(done) lo fs0 s0 h s gs Hb Hok Hc) as (h'&s'&E&B&F).
  exists h', s'. split_and!; [exact E|exact B| |exact F].
  by apply root_identity in E.
Qed.

(** The result of all four constructions. *)
Record boot_memory (lo : Z) (sym : LinkerSymbols) (machine gm : MachineMeta) (s : Sys)
    (h : HostMemorySet PageTableSv39) (s1 : Sys) (g : GuestMemorySet PageTableSv39) (s2 : Sys)
    (h2 : HostMemorySet PageTableSv39) (s3 : Sys) (h3 : HostMemorySet PageTableSv39) (s4 : Sys)
    (f : Z) : Prop := {
  bm_host : new_host_vmm sym machine s = Ret (h, s1);
  bm_guest : new_guest_without_load (strampoline sym) gm s1 = Ret (g, s2);
  bm_map : map_guest h GUEST_START_PA GUEST_DEFAULT_SIZE s2 = Ret (h2, s3);
  bm_host_rep : represents (page_table h2) s3 (host_segs sym machine f ++ [guest_mem_seg]);
  bm_stack : insert_framed_area h2 (VA (2 ^ 39 - 24576)) (VA (2 ^ 39 - 8192)) perm.RW s3 =
    Ret (h3, s4);
  bm_host_inv : sv_inv lo (page_table h3) s4;
  bm_guest_inv : sv_inv lo (page_table g) s4;
  bm_guest_rep : represents (page_table g) s4 (guest_segs (strampoline sym) gm);
  bm_apart : owned lo s4 (sv_frames (page_table g) ++ sv_frames (page_table h3));
  bm_root : root_of h3 = root_of h2;
  bm_guest_root : ppn_0 (root_of g) mod 4 = 0;
}.

Section Sequence.
Context (lo : Z) (sym : LinkerSymbols) (machine gm : MachineMeta).
Hypothesis Hlo : 0 ≤ lo.
Hypothesis Hfit : boot_fits sym machine gm.

(** The stack: four framed pages below the trap context. *)
Lemma stack_total (h2 : HostMemorySet PageTableSv39) s3 f :
  sv_inv lo (page_table h2) s3 →
  represents (page_table h2) s3 (host_segs sym machine f ++ [guest_mem_seg]) →
  12 ≤ sys_free s3 →
  ∃ h3 s4 fs, insert_framed_area h2 (VA (2 ^ 39 - 24576)) (VA (2 ^ 39 - 8192)) perm.RW s3 =
      Ret (h3, s4) ∧ root_of h3 = root_of h2 ∧
    framed lo (page_table h2) s3 (2 ^ 27 - 6) 4 perm.RW fs (page_table h3) s4.
Proof.
  intros I R Hc. destruct perm_ok_all as (_&_&HRW&_&_).
  rewrite insert_framed_area_eq by lia.
  change ((2 ^ 39 - 24576) / 4096) with (2 ^ 27 - 6).
  change ((2 ^ 39 - 8192 + 4095) / 4096) with (2 ^ 27 - 2).
  destruct (push_framed_total lo h2 s3 (2 ^ 27 - 6) (2 ^ 27 - 2) perm.RW) as [[h3 s4] E];
    [done|done|lia|lia| |lia|].
  { intros w Hw. eapply represents_none; [exact R|]. intros g Hg [? ?].
    pose proof (segs_ok_ctx_app _ _ _ f _ (bf_host_segs _ _ _ Hfit)) as Hok.
    change [guest_mem_seg; stack_seg] with ([guest_mem_seg] ++ [stack_seg]) in Hok.
    rewrite app_assoc in Hok. apply segs_ok_app in Hok as (_&_&Hap).
    specialize (Hap g stack_seg Hg ltac:(by apply list_elem_of_singleton)).
    unfold in_pages, apart, stack_seg in *. simpl in *. lia. }
  apply push_root in E as Er.
  apply (push_framed_spec lo) in E as Hs; [|done|done|lia|lia]. destruct Hs as (fs&_&F).
  exists h3, s4, fs. split; [done|]. split; [done|].
  by replace (2 ^ 27 - 2 - (2 ^ 27 - 6)) with 4 in F by lia.
Qed.

Lemma boot_memory_total s :
  sys_wf lo s → none_recycled s → boot_cost sym machine gm ≤ sys_free s →
  ∃ h s1 g s2 h2 s3 h3 s4 f, boot_memory lo sym machine gm s h s1 g s2 h2 s3 h3 s4 f.
Proof.
  intros Hwf Hnr Hc. destruct Hfit as [Hl Hk _ _ _ Hh Hhs Hg Hgl Hgs].
  pose proof (segs_cost_nonneg _ Hgs). unfold boot_cost in Hc.
  assert (0 ≤ seg_cost guest_mem_seg) by (vm_compute; congruence).
  change [guest_mem_seg; stack_seg] with ([guest_mem_seg] ++ [stack_seg]) in Hhs.
  rewrite app_assoc in Hhs. pose proof (segs_ok_app _ _ Hhs) as (Hhs1&_&_).
  destruct (new_host_vmm_total lo sym machine s) as (h&s1&f&E1&[I1 R1 O1 E1' N1]&F1);
    [done..|by apply segs_ok_app in Hhs1 as [? _]|lia|].
  assert (owned lo s []) as Ho by (by apply owned_nil).
  apply O1 in Ho. rewrite app_nil_l in Ho. pose proof (inv_sys _ _ _ I1) as Hwf1.
  destruct (guest_space_boot lo _ _ s1 (strampoline sym) gm
    (none_recycled_boot lo s1 Hwf1 (N1 Hnr) Hlo)) as (g&s2&E2&B2&F2);
    [done|apply Hl|apply Hl|done..|lia|].
  pose proof (step_owned _ _ _ _ _ (bd_step _ _ _ _ _ _ B2) (sv_frames (page_table h))
    ltac:(rewrite app_nil_r; by eapply owned_app_r)) as O2.
  destruct (table_untouched lo (page_table h) s1 s2 (sv_frames (page_table g))
    (host_segs sym machine (ppn_0 f))) as [I2 R2]; [done|done|apply B2|exact O2|apply B2|].
  destruct (map_guest_total lo (sv_frames (page_table h)) s2 h s2
    (host_segs sym machine (ppn_0 f))) as (h2&s3&E3&B3&Hr3&F3);
    [split; [done|done|apply sys_step_refl, B2]|by eapply segs_ok_ctx_app|lia|].
  pose proof (step_owned _ _ _ _ _ (bd_step _ _ _ _ _ _ B3) (sv_frames (page_table g))
    ltac:(by eapply owned_perm; [apply Permutation_app_comm|exact O2])) as O3.
  destruct (table_untouched lo (page_table g) s2 s3 (sv_frames (page_table h2))
    (guest_segs (strampoline sym) gm)) as [I3 R3]; [apply B2|apply B2|apply B3|exact O3|apply B3|].
  destruct (stack_total h2 s3 (ppn_0 f)) as (h3&s4&fs&E4&Hr4&F4); [apply B3|apply B3|lia|].
  pose proof (fr_owned _ _ _ _ _ _ _ _ _ F4 _ O3) as O4.
  destruct (table_untouched lo (page_table g) s3 s4 (fs ++ sv_frames (page_table h3))
    (guest_segs (strampoline sym) gm)) as [I4 R4];
    [done|done|eapply inv_sys, F4|exact O4|apply F4|].
  exists h, s1, g, s2, h2, s3, h3, s4, (ppn_0 f).
  split; try done; [apply B3|apply F4| |by eapply guest_root].
  eapply (owned_app_r _ _ fs), owned_perm, O4.
  by rewrite !app_assoc, (Permutation_app_comm fs).
Qed.
End Sequence.
