(* ===== verification/Pmap.v ===== *)
(** * Guest address translation and instruction decoding

    Module [pmap] of [src/src/guest/mod.rs] and [translate_guest_va] of
    [src/src/page_table/mod.rs].  The decoder crate is a parameter. *)
From stdpp Require Import base tactics numbers list option gmap.
From S2P Require Import Prelude Constants Address Pte Mem FrameAllocator PageTable.
From S2P Require Import Sv39 Sv39Tree Sv39Facts Sv39Walk Sv39New Sv39Claims MemorySet.

(** [segment_layout::GUEST_SEGMENT_SIZE]. *)
Definition GUEST_SEGMENT_SIZE : Z := 128 * 1024 * 1024.

Definition gpa2hpa (va guest_id : Z) : outcome Z :=
  o ← umul guest_id GUEST_SEGMENT_SIZE; uadd va o.
Definition hpa2gpa (pa guest_id : Z) : outcome Z :=
  o ← umul guest_id GUEST_SEGMENT_SIZE; usub pa o.

(** The last element of a walk: [t.path[t.path.len() - 1]]. *)
Definition last_wrapper (t : PageWalk) : outcome PteWrapper :=
  i ← usub (Z.of_nat (length (walk_path t))) 1; index (walk_path t) i.

Section Translate.
Context {G : Type} `{GuestPageTable G}.

Definition translate_guest_va (guest_id root guest_va : Z)
    : M Sys (option AddressTranslation) :=
  m ← gets sys_mem;
  r ← lift (pt_walk_page_table (P := G) root guest_va
              (λ va, pa ← gpa2hpa va guest_id; Ret (load 8 m pa)));
  match r with
  | None => mret None
  | Some t =>
      w ← lift (last_wrapper t);
      mret (Some (MkTranslation (pw_pte w) (pw_addr w) (walk_pa t) (pw_level w) t))
  end.

(** [(vsatp & 0x3ff_ffff_ffff) << 12]. *)
Definition guest_root_of (vsatp : Z) : Z := shl (Z.land vsatp 0x3ffffffffff) 12.

Definition fast_two_stage_translation (guest_id guest_va vsatp : Z) : M Sys (option Z) :=
  let guest_root := guest_root_of vsatp in
  if negb (guest_root =? 0) then
    r ← translate_guest_va guest_id guest_root guest_va;
    match r with
    | Some translation => mret (Some (at_guest_pa translation))
    | None => mret None
    end
  else mret (Some guest_va).

Definition two_stage_translation (guest_id guest_va vsatp : Z) (gpm : GuestMemorySet G)
    : M Sys (option Z) :=
  let guest_root := guest_root_of vsatp in
  g ← (if negb (guest_root =? 0) then
         r ← translate_guest_va guest_id guest_root guest_va;
         match r with
         | Some translation => mret (Some (at_guest_pa translation))
         | None => mret None
         end
       else mret (Some guest_va));
  match g with
  | None => mret None
  | Some guest_pa =>
      r ← ms_translate_va gpm guest_pa;
      match r with
      | Some host_va => mret (Some host_va)
      | None => mret None
      end
  end.
End Translate.

(** ** The decoder crate [riscv_decode]

    What the code asks of it: the length of an instruction from its first 16
    bits, decoding, and whether the result is [Lw] (with [rd]) or [Sw] (with
    [rs2]). *)
Inductive InstView := Lw (rd : Z) | Sw (rs2 : Z) | OtherInst.

Class Decoder := {
  Instruction : Type;
  instruction_length : Z → Z;
  decode : Z → option Instruction;
  inst_view : Instruction → InstView;
}.

Section Decode.
Context `{Decoder}.

Definition decode_inst (inst : Z) : outcome (Z * option Instruction) :=
  let i1 := inst mod W16 in
  let len := instruction_length i1 in
  i ← match len with
      | 2 => Ret i1
      | 4 => Ret (inst mod W32)
      | _ => Panic Unreachable
      end;
  Ret (len, decode i).

Definition decode_inst_at_addr (host_va : Z) : M Sys (Z * option Instruction) :=
  i1 ← gets (λ s, load 2 (sys_mem s) host_va);
  let len := instruction_length i1 in
  i ← match len with
      | 2 => mret i1
      | 4 => gets (λ s, load 4 (sys_mem s) host_va)
      | _ => panicM Unreachable
      end;
  mret (len, decode i).
End Decode.

(** ** Facts *)

Lemma gpa_roundtrip va guest_id hpa :
  0 ≤ va → gpa2hpa va guest_id = Ret hpa → hpa2gpa hpa guest_id = Ret va.
Proof.
  intros Hg Hh. unfold gpa2hpa in Hh. minv0. unfold hpa2gpa.
  rewrite umul_run by done. simpl. unfold GUEST_SEGMENT_SIZE in *.
  rewrite usub_run by lia. f_equal. lia.
Qed.

(** The two translations differ by the second stage only. *)
Lemma two_stage_split {G : Type} `{GuestPageTable G} gid va vsatp (gpm : GuestMemorySet G) s :
  two_stage_translation gid va vsatp gpm s =
  (g ← fast_two_stage_translation (G := G) gid va vsatp;
   match g with None => mret None | Some pa => ms_translate_va gpm pa end) s.
Proof.
  unfold two_stage_translation, fast_two_stage_translation, mbind, M_bind.
  destruct (negb _).
  - destruct (translate_guest_va _ _ _ s) as [[[t|] s1]| | |]; try done.
    unfold mret, M_ret. cbn. destruct (ms_translate_va gpm _ s1) as [[[?|] ?]| | |]; done.
  - unfold mret, M_ret. destruct (ms_translate_va gpm va s) as [[[?|] ?]| | |]; done.
Qed.

(** A walk that succeeds has visited at least one entry. *)
Lemma walk_loop_path levels table va read path w :
  walk_loop levels table va read path = Ret (Some w) → (0 < length (walk_path w))%nat.
Proof.
  revert table path. induction levels as [|l ls IH]; intros table path; [done|].
  cbn [walk_loop]. intros Hw. minv0.
  destruct (_ || _); [done|]. destruct (_ || _); [|by eapply IH].
  simplify_eq. simpl. unfold vec_push. rewrite length_app. simpl. lia.
Qed.

(** ** The first stage as the architecture describes it

    The walk of the privileged manual over an arbitrary table of the guest, in
    arithmetic: [k] counts the levels below, a leaf [k] levels above the last
    maps [region k] bytes, and the table is read at guest physical addresses,
    which lie [base] higher in host memory. *)
Inductive walk_result :=
| Mapped (gpa : Z)  (* a leaf was found *)
| Fault             (* an invalid or write-only entry, or no leaf at the last level *)
| Reserved.         (* an entry with one of the bits 63..54 set is used *)

Definition region (k : nat) : Z := 4096 * 512 ^ Z.of_nat k.

Fixpoint sv39_walk (m : mem) (base : Z) (k : nat) (table va : Z) : walk_result :=
  let e := load 8 m (base + (table + 8 * (va / region k mod 512))) in
  let V := Z.testbit e 0 in let R := Z.testbit e 1 in
  let W := Z.testbit e 2 in let X := Z.testbit e 3 in
  let ppn := e / 1024 in
  if negb V || (W && negb R) then Fault
  else if 2 ^ 54 <=? e then Reserved
  else if R || X then Mapped (ppn / 512 ^ Z.of_nat k * region k + va mod region k)
  else match k with
       | O => Fault
       | S k' => sv39_walk m base k' (ppn * 4096) va
       end.

(** The root is the low 42 bits of [vsatp]; zero means no translation. *)
Definition guest_stage (m : mem) (base vsatp va : Z) : walk_result :=
  let root := vsatp mod 2 ^ 42 in
  if root =? 0 then Mapped va else sv39_walk m base 2 (root * 4096) va.

(** What the code computes at the level that has [k] levels below. *)
Lemma level_arith k e va :
  (k ≤ 2)%nat → 0 ≤ e < 2 ^ 54 → 0 ≤ va →
  Z.land (Z.shiftr va (30 - 9 * (2 - Z.of_nat k))) 0x1ff = va / region k mod 512 ∧
  ∃ lvl, level_of (2 - Z.of_nat k) = Ret lvl ∧
    leaf_pa lvl (PTE e) va = e / 1024 / 512 ^ Z.of_nat k * region k + va mod region k.
Proof.
  intros Hk He Hva.
  assert (∀ j m, 0 ≤ j ≤ 18 → m = 2 ^ (12 + j) - 1 →
    Z.lor (shl (Z.shiftr e (10 + j)) (12 + j)) (Z.land va m) =
    e / 1024 / 2 ^ j * (4096 * 2 ^ j) + va mod (4096 * 2 ^ j)) as Hleaf.
  { intros j m Hj ->. rewrite (land_mask va (12 + j)), shiftr_div by lia.
    rewrite (Z.pow_add_r 2 10), (Z.pow_add_r 2 12), <- Z.div_div by lia.
    change (2 ^ 10) with 1024. change (2 ^ 12) with 4096.
    assert (0 < 2 ^ j) by (apply Z.pow_pos_nonneg; lia).
    assert (0 ≤ e / 1024 < 2 ^ 44) as Hp by dlia.
    assert (0 ≤ e / 1024 / 2 ^ j) as Hd by (apply Z.div_pos; lia).
    assert (e / 1024 / 2 ^ j * 2 ^ j ≤ e / 1024) as Hm
      by (pose proof (Z.mul_div_le (e / 1024) (2 ^ j)); lia).
    rewrite shl_small; rewrite ?(Z.pow_add_r 2 12) by lia; change (2 ^ 12) with 4096;
      [|lia|lia|unfold W64; nia].
    pose proof (lor_shifted (e / 1024 / 2 ^ j) (va mod (4096 * 2 ^ j)) (12 + j)) as Hl.
    rewrite (Z.pow_add_r 2 12) in Hl by lia. apply Hl; [lia|]. apply Z.mod_pos_bound. lia. }
  destruct k as [|[|[|]]]; [| | |lia];
    (split; [rewrite (land_mask _ 9), shiftr_div by done; done|eexists; split; [done|]]).
  - exact (Hleaf 0 0xfff ltac:(lia) eq_refl).
  - exact (Hleaf 9 0x1fffff ltac:(lia) eq_refl).
  - exact (Hleaf 18 0x3fffffff ltac:(lia) eq_refl).
Qed.

(** One level of the loop, reading the guest's memory. *)
Lemma walk_loop_guest m gid k levels table va path :
  0 ≤ gid → gid * GUEST_SEGMENT_SIZE + 2 ^ 56 ≤ W64 →
  (k ≤ 2)%nat → 0 ≤ table ≤ 2 ^ 56 - 4096 → 0 ≤ va →
  ∃ lvl path', level_of (2 - Z.of_nat k) = Ret lvl ∧
  let read := λ a, pa ← gpa2hpa a gid; Ret (load 8 m pa) in
  let e := load 8 m (gid * GUEST_SEGMENT_SIZE + (table + 8 * (va / region k mod 512))) in
  walk_loop ((2 - Z.of_nat k) :: levels) table va read path =
  if negb (Z.testbit e 0) || (Z.testbit e 2 && negb (Z.testbit e 1)) then Ret None
  else if Z.testbit e 1 || Z.testbit e 3 then Ret (Some (MkWalk path' (leaf_pa lvl (PTE e) va)))
  else walk_loop levels (shl (Z.shiftr e 10) 12) va read path'.
Proof.
  intros Hg0 Hg Hk Ht Hva. destruct (level_arith k 0 va Hk ltac:(lia) Hva) as (Hi&lvl&Hl&_).
  eexists lvl, _. split; [done|]. cbv zeta. cbn [walk_loop]. rewrite Hi, Hl.
  pose proof (Z.mod_pos_bound (va / region k) 512 ltac:(done)) as Hb.
  rewrite (Z.mul_comm 8).
  rewrite uadd_run by (unfold W64 in *; lia). cbn [mbind outcome_bind].
  unfold gpa2hpa. rewrite umul_run by lia. cbn [mbind outcome_bind].
  rewrite uadd_run by (unfold W64 in *; lia). cbn [mbind outcome_bind].
  rewrite (Z.add_comm (table + _)).
  rewrite is_valid_eq, writable_eq, readable_eq, executable_eq. cbn [mbind outcome_bind]. done.
Qed.

(** The loop is that walk. *)
Lemma walk_loop_sv39 m gid k table va path :
  mem_ok m → 0 ≤ gid → gid * GUEST_SEGMENT_SIZE + 2 ^ 56 ≤ W64 →
  (k ≤ 2)%nat → 0 ≤ table ≤ 2 ^ 56 - 4096 → 0 ≤ va →
  let r := walk_loop (upto (2 - Z.of_nat k) (S k)) table va
             (λ a, pa ← gpa2hpa a gid; Ret (load 8 m pa)) path in
  match sv39_walk m (gid * GUEST_SEGMENT_SIZE) k table va with
  | Mapped gpa => ∃ path', r = Ret (Some (MkWalk path' gpa))
  | Fault => r = Ret None
  | Reserved => True
  end.
Proof.
  intros Hm Hg0 Hg. revert table path. induction k as [|k IH]; intros table path Hk Ht Hva;
    cbn [upto sv39_walk]; cbv zeta.
  all: match goal with |- context [walk_loop (_ :: ?ls) _ _ _ _] =>
    destruct (walk_loop_guest m gid _ ls table va path Hg0 Hg Hk Ht Hva)
      as (lvl&path'&Hl&Hw); cbv zeta in Hw; rewrite Hw end.
  all: set (e := load 8 m _) in *;
    assert (0 ≤ e < W64) as He by (apply (load_range 8 m _ Hm)); clearbody e;
    destruct (negb _ || _); [done|]; destruct (Z.leb_spec (2 ^ 54) e) as [|Hlt]; [done|];
    destruct (level_arith _ e va Hk ltac:(lia) Hva) as (_&lvl'&Hl'&Hpa);
    rewrite Hl in Hl'; injection Hl' as <-;
    (destruct (Z.testbit e 1 || Z.testbit e 3); [eexists; by rewrite Hpa|]).
  - done.
  - rewrite shiftr_div by done. change (2 ^ 10) with 1024.
    rewrite shl_small by (unfold W64; dlia). change (2 ^ 12) with 4096.
    replace (2 - Z.of_nat (S k) + 1) with (2 - Z.of_nat k) by lia.
    apply IH; [lia|dlia|done].
Qed.

Lemma region_pos k : 0 < region k.
Proof. unfold region. pose proof (Z.pow_pos_nonneg 512 (Z.of_nat k)). lia. Qed.
Lemma sv39_walk_nonneg m base k table va gpa :
  mem_ok m → sv39_walk m base k table va = Mapped gpa → 0 ≤ gpa.
Proof.
  intros Hm. revert table. induction k as [|k IH]; intros table; cbn [sv39_walk]; cbv zeta;
    set (e := load 8 m _); assert (0 ≤ e) as He by apply (load_range 8 m _ Hm);
    destruct (negb _ || _); try done; destruct (2 ^ 54 <=? e); try done;
    (destruct (_ || _); [intros [= <-]|]); try done; try by apply IH.
  all: match goal with |- context [region ?k] => pose proof (region_pos k) as Hr;
    pose proof (Z.mod_pos_bound va _ Hr) end;
    apply Z.add_nonneg_nonneg; [|lia]; apply Z.mul_nonneg_nonneg; [|lia];
    apply Z.div_pos; [apply Z.div_pos; lia|apply Z.pow_pos_nonneg; lia].
Qed.
Lemma guest_stage_nonneg m base vsatp va :
  mem_ok m → 0 ≤ va →
  match guest_stage m base vsatp va with Mapped gpa => 0 ≤ gpa | _ => True end.
Proof.
  intros Hm Hva. unfold guest_stage. cbv zeta. destruct (_ =? 0); [done|].
  destruct (sv39_walk _ _ _ _ _) eqn:E; [|done..]. by apply sv39_walk_nonneg in E.
Qed.

Lemma guest_root_mod vsatp : guest_root_of vsatp = vsatp mod 2 ^ 42 * 4096.
Proof.
  unfold guest_root_of. rewrite (land_mask _ 42) by done.
  pose proof (Z.mod_pos_bound vsatp (2 ^ 42) ltac:(done)).
  apply shl_small; unfold W64; lia.
Qed.

Lemma fast_two_stage_stage gid va vsatp s :
  mem_ok (sys_mem s) → 0 ≤ va → 0 ≤ gid → gid * GUEST_SEGMENT_SIZE + 2 ^ 56 ≤ W64 →
  match guest_stage (sys_mem s) (gid * GUEST_SEGMENT_SIZE) vsatp va with
  | Mapped gpa => fast_two_stage_translation (G := PageTableSv39) gid va vsatp s = Ret (Some gpa, s)
  | Fault => fast_two_stage_translation (G := PageTableSv39) gid va vsatp s = Ret (None, s)
  | Reserved => True
  end.
Proof.
  intros Hm Hva Hg0 Hg. unfold guest_stage, fast_two_stage_translation. rewrite guest_root_mod.
  pose proof (Z.mod_pos_bound vsatp (2 ^ 42) ltac:(done)) as Hr.
  set (p := vsatp mod 2 ^ 42) in *. clearbody p. cbv zeta.
  destruct (Z.eqb_spec p 0) as [->|Hp]; [done|].
  rewrite (proj2 (Z.eqb_neq _ _)) by lia. cbn [negb].
  pose proof (walk_loop_sv39 (sys_mem s) gid 2 (p * 4096) va [] Hm Hg0 Hg ltac:(lia) ltac:(lia) Hva)
    as Hw. cbv zeta in Hw. change (upto (2 - Z.of_nat 2) 3) with [0; 1; 2] in Hw.
  set (read := λ a, pa ← gpa2hpa a gid; Ret (load 8 (sys_mem s) pa)) in Hw.
  assert (∀ r t, walk_loop [0; 1; 2] (p * 4096) va read [] = Ret r →
    match r with
    | None => t = None
    | Some w => ∃ l, last_wrapper w = Ret l ∧
        t = Some (MkTranslation (pw_pte l) (pw_addr l) (walk_pa w) (pw_level l) w)
    end → translate_guest_va (G := PageTableSv39) gid (p * 4096) va s = Ret (t, s)) as Htr.
  { intros r t Hlr Ht. unfold translate_guest_va.
    rewrite (bind_run (gets sys_mem) _ s (sys_mem s) s eq_refl).
    change (pt_walk_page_table (P := PageTableSv39)) with walk_page_table. unfold walk_page_table.
    fold read. rewrite (bind_run (lift _) _ s r s) by (unfold lift; by rewrite Hlr).
    destruct r as [w|]; [|by subst]. destruct Ht as (l&Hl&->).
    by rewrite (bind_run (lift _) _ s l s) by (unfold lift; by rewrite Hl). }
  destruct (sv39_walk _ _ _ _ _) as [gpa| |]; [|by rewrite (bind_run _ _ _ _ _ (Htr _ None Hw eq_refl))|done].
  destruct Hw as [path Hw]. pose proof (walk_loop_path _ _ _ _ _ _ Hw) as Hl. simpl in Hl.
  destruct (index_run path (Z.of_nat (length path) - 1) ltac:(lia)) as (w&Hx&_).
  assert (last_wrapper (MkWalk path gpa) = Ret w) as Hlw.
  { unfold last_wrapper. cbn [walk_path]. rewrite usub_run by lia. done. }
  by rewrite (bind_run _ _ _ _ _ (Htr _ (Some _) Hw (ex_intro _ w (conj Hlw eq_refl)))).
Qed.

(** The second stage uses the entry [translate] finds. *)
Lemma translate_va_entry pt s va :
  0 ≤ va →
  ∃ r, translate pt (VPN (va / 4096)) s = Ret (r, s) ∧
    translate_va pt va s = Ret ((λ e, ppn_0 (pte_ppn e) * 4096 + va mod 4096) <$> r, s).
Proof.
  intros Hva. unfold translate_va. rewrite VirtPageNum_from_usize_mod, shiftr_div by done.
  unfold mbind, M_bind. rewrite !translate_eq. cbn [vpn_0]. rewrite vpath_mod, vidx0_mod.
  eexists. split; [done|]. destruct (walk _ _ _) as [a|]; [|done]. cbn [fmap option_fmap option_map].
  set (e := read_pte _ _). pose proof (pte_ppn_range e) as Hr.
  pose proof (Z.mod_pos_bound va 4096 ltac:(done)). unfold lift.
  rewrite (land_mask va 12), shl_small by (unfold W64; lia). change (2 ^ 12) with 4096.
  by rewrite uadd_run by (unfold W64; lia).
Qed.

(** ** Claims *)

(** C11: two-stage translation is the composition of the two stages.  The guest's
    own table is arbitrary: it lies anywhere in the guest's memory, which for
    guest [gid] starts [gid] times 128 MiB up, and may hold superpages.  For
    every [vsatp] (the code looks at its low 42 bits only, and not at the mode):
    when the walk of that table faults, both translations give [None]; when it
    ends in a leaf, or there is no table, [fast_two_stage_translation] gives the
    guest physical address of the walk, and [two_stage_translation] gives the
    page of the entry that [translate] finds for it in the second-stage table,
    with the page offset kept, and [None] when there is no leaf table there (an
    entry that is found is used whether or not it is valid).  Nothing is said of
    a walk that uses an entry with a reserved bit set; the low page-number bits
    of a superpage leaf are ignored. *)
Theorem two_stage_composes gid va vsatp (gpm : GuestMemorySet PageTableSv39) s :
  mem_ok (sys_mem s) → 0 ≤ va → 0 ≤ gid → gid * GUEST_SEGMENT_SIZE + 2 ^ 56 ≤ W64 →
  match guest_stage (sys_mem s) (gid * GUEST_SEGMENT_SIZE) vsatp va with
  | Mapped gpa =>
      fast_two_stage_translation (G := PageTableSv39) gid va vsatp s = Ret (Some gpa, s) ∧
      ∃ r, translate (page_table gpm) (VPN (gpa / 4096)) s = Ret (r, s) ∧
        two_stage_translation gid va vsatp gpm s =
          Ret ((λ e, ppn_0 (pte_ppn e) * 4096 + gpa mod 4096) <$> r, s)
  | Fault =>
      fast_two_stage_translation (G := PageTableSv39) gid va vsatp s = Ret (None, s) ∧
      two_stage_translation gid va vsatp gpm s = Ret (None, s)
  | Reserved => True
  end.
Proof.
  intros Hm Hva Hg0 Hg. rewrite two_stage_split. unfold mbind, M_bind.
  pose proof (guest_stage_nonneg (sys_mem s) (gid * GUEST_SEGMENT_SIZE) vsatp va Hm Hva) as Hn.
  pose proof (fast_two_stage_stage gid va vsatp s Hm Hva Hg0 Hg) as Hf.
  destruct (guest_stage _ _ _ _) as [gpa| |]; [|by rewrite Hf|done]. split; [done|]. rewrite Hf.
  change (ms_translate_va gpm) with (translate_va (page_table gpm)). by apply translate_va_entry.
Qed.

(** A guest whose own table, at page 0x90000, maps a 2 MiB page, and a
    second-stage table at page 0x80300. *)
Definition demo_entries : list (Z * Z) :=
  [(0x90000 * 4096 + 8 * 1, 0x90001 * 1024 + 1); (0x90001 * 4096 + 8 * 1, 0x90200 * 1024 + 3);
   (0x80300 * 4096 + 8 * 2, 0x80301 * 1024 + 1); (0x80301 * 4096 + 8 * 129, 0x80302 * 1024 + 1);
   (0x80302 * 4096 + 8 * 1, 0x90201 * 1024 + 0x17)].
Definition demo_stages : Sys :=
  MkSys (foldr (λ e m, store 8 m e.1 e.2) ∅ demo_entries) None.
Definition demo_second : GuestMemorySet PageTableSv39 := MkSet (MkSv39 (PPN 0x80300) []) [].

Lemma two_stage_composes_witness :
  two_stage_translation 0 0x40201abc (8 * 2 ^ 60 + 0x90000) demo_second demo_stages =
    Ret (Some 0x90201abc, demo_stages).
Proof.
  assert (mem_ok (sys_mem demo_stages)) as Hm
    by (apply (bool_decide_unpack _); vm_compute; exact I).
  pose proof (two_stage_composes 0 0x40201abc (8 * 2 ^ 60 + 0x90000) demo_second demo_stages Hm
    ltac:(lia) ltac:(lia) ltac:(unfold GUEST_SEGMENT_SIZE, W64; lia)) as H.
  assert (guest_stage (sys_mem demo_stages) (0 * GUEST_SEGMENT_SIZE) (8 * 2 ^ 60 + 0x90000)
    0x40201abc = Mapped 0x90201abc) as E by (vm_compute; reflexivity).
  rewrite E in H. destruct H as (_&r&Hr&H).
  assert (translate (page_table demo_second) (VPN (0x90201abc / 4096)) demo_stages =
    Ret (Some (PTE (0x90201 * 1024 + 0x17)), demo_stages)) as E2 by (vm_compute; reflexivity).
  rewrite E2 in Hr. injection Hr as <-. rewrite H. reflexivity.
Defined.

(** The offset of a guest's memory segment is undone exactly: [hpa2gpa]
    inverts [gpa2hpa] for every guest, and the segments of different guests do
    not overlap. *)
Theorem guest_segments_disjoint a b i j ha hb :
  0 ≤ a < GUEST_SEGMENT_SIZE → 0 ≤ b < GUEST_SEGMENT_SIZE → 0 ≤ i → 0 ≤ j →
  gpa2hpa a i = Ret ha → gpa2hpa b j = Ret hb →
  hpa2gpa ha i = Ret a ∧ (ha = hb → i = j ∧ a = b).
Proof.
  intros Ha Hb Hi Hj H1 H2. split; [eapply gpa_roundtrip; [lia|done]|].
  unfold gpa2hpa in *. minv0. unfold GUEST_SEGMENT_SIZE in *. lia.
Qed.
Lemma guest_segments_disjoint_witness : hpa2gpa 0x8001000 1 = Ret 0x1000.
Proof.
  apply (guest_segments_disjoint 0x1000 0x1000 1 1 0x8001000 0x8001000);
    try reflexivity; unfold GUEST_SEGMENT_SIZE; lia.
Defined.
