(* ===== verification/Machine.v ===== *)
(** * The machine and the hypervisor's global state

    The trap context of [src/src/guest/context.rs], the virtual CPU, guest and
    [HostVmm] records of [src/src/guest/vcpu.rs], [src/src/guest/mod.rs] and
    [src/src/hypervisor.rs], the emulated interrupt controller's state of
    [src/src/device_emu/plic.rs], and the state the handlers run on: memory,
    control registers, the outside world, the trap context page and the
    mutex-protected [HOST_VMM]. *)
From stdpp Require Import base tactics numbers list option gmap.
From S2P Require Import Prelude Constants Address Pte Mem FrameAllocator PageTable Fdt.
From S2P Require Import Sv39 MemorySet.

(** ** Control and status registers *)

Inductive Csr :=
| stvec | sscratch | scause | sepc | stval | satp | sstatus | sie
| hstatus | hgatp | htval | htinst | hvip | hedeleg | hideleg | hcounteren
| vsatp | vstvec | vsepc | vscause | scounteren.

#[export] Instance Csr_eq_dec : EqDecision Csr.
Proof. solve_decision. Defined.

(** Bit positions in [hvip] and [sie]. *)
Definition VSSIP_BIT : Z := 2.
Definition VSTIP_BIT : Z := 6.
Definition VSEIP_BIT : Z := 10.
Definition SSOFT_BIT : Z := 1.
Definition STIMER_BIT : Z := 5.
Definition SEXT_BIT : Z := 9.

(** ** Trap context *)

Record TrapContext := MkCtx {
  x : list Z;             (* 32 general registers *)
  ctx_sstatus : Z;
  ctx_sepc : Z;
  ctx_hgatp : Z;
  kernel_sp : Z;
  ctx_trap_handler : Z;
  ctx_hstatus : Z;
}.

Definition set_x (f : list Z → list Z) (c : TrapContext) : TrapContext :=
  MkCtx (f (x c)) (ctx_sstatus c) (ctx_sepc c) (ctx_hgatp c) (kernel_sp c)
    (ctx_trap_handler c) (ctx_hstatus c).
Definition set_ctx_sepc (v : Z) (c : TrapContext) : TrapContext :=
  MkCtx (x c) (ctx_sstatus c) v (ctx_hgatp c) (kernel_sp c)
    (ctx_trap_handler c) (ctx_hstatus c).

(** [TrapContext::set_sp]. *)
Definition set_sp (c : TrapContext) (sp : Z) : outcome TrapContext :=
  x' ← update (x c) 2 sp; Ret (set_x (λ _, x') c).

(** Bit 8 of [sstatus] is [SPP], bit 7 of [hstatus] is [SPV]. *)
Definition initialize_context (sstatus_ hstatus_ entry sp hgatp_ ksp handler : Z)
    : outcome TrapContext :=
  let sstatus_ := Z.setbit sstatus_ 8 in
  let hstatus_ := Z.setbit hstatus_ 7 in
  set_sp (MkCtx (replicate 32 0) sstatus_ entry hgatp_ ksp handler hstatus_) sp.

(** ** Guests and the hypervisor *)

Record VCpu := MkVCpu { hart : Z; pending_events : list Z }.
Definition vcpu_new (hart : Z) : VCpu := MkVCpu hart [].

Record Guest := MkGuest {
  guest_machine : MachineMeta;
  gpm : GuestMemorySet PageTableSv39;
  guest_id : Z;
  vcpu : VCpu;
}.

Record PlicState := MkPlic { base_addr : Z; claim_complete : list Z }.
Definition plic_new (base : Z) : PlicState :=
  MkPlic base (replicate (Z.to_nat MAX_CONTEXTS) 0).

Record HostVmm := MkVmm {
  host_machine : MachineMeta;
  hpm : HostMemorySet PageTableSv39;
  guests : list (option Guest);
  cur_guest_id : Z;
  host_plic : option PlicState;
  irq_pending : bool;
  timer_irq : Z;
  external_irq : Z;
  guest_page_falut : Z;
}.

Definition set_hpm (h : HostMemorySet PageTableSv39) (v : HostVmm) : HostVmm :=
  MkVmm (host_machine v) h (guests v) (cur_guest_id v) (host_plic v) (irq_pending v)
    (timer_irq v) (external_irq v) (guest_page_falut v).
Definition set_guests (gs : list (option Guest)) (v : HostVmm) : HostVmm :=
  MkVmm (host_machine v) (hpm v) gs (cur_guest_id v) (host_plic v) (irq_pending v)
    (timer_irq v) (external_irq v) (guest_page_falut v).
Definition set_plic (p : option PlicState) (v : HostVmm) : HostVmm :=
  MkVmm (host_machine v) (hpm v) (guests v) (cur_guest_id v) p (irq_pending v)
    (timer_irq v) (external_irq v) (guest_page_falut v).
Definition set_irq_pending (b : bool) (v : HostVmm) : HostVmm :=
  MkVmm (host_machine v) (hpm v) (guests v) (cur_guest_id v) (host_plic v) b
    (timer_irq v) (external_irq v) (guest_page_falut v).
Definition set_timer_irq (n : Z) (v : HostVmm) : HostVmm :=
  MkVmm (host_machine v) (hpm v) (guests v) (cur_guest_id v) (host_plic v) (irq_pending v)
    n (external_irq v) (guest_page_falut v).
Definition set_external_irq (n : Z) (v : HostVmm) : HostVmm :=
  MkVmm (host_machine v) (hpm v) (guests v) (cur_guest_id v) (host_plic v) (irq_pending v)
    (timer_irq v) n (guest_page_falut v).
Definition set_page_falut (n : Z) (v : HostVmm) : HostVmm :=
  MkVmm (host_machine v) (hpm v) (guests v) (cur_guest_id v) (host_plic v) (irq_pending v)
    (timer_irq v) (external_irq v) n.

(** ** What lies outside the code

    Firmware behind [ecall], the [sbi_rt] crate, the platform's registers, and
    the hardware's choice of what a write to [hgatp] keeps.  [E] is the state of
    that world. *)
Class Env (E : Type) := {
  (** [ecall] with [a7], [a6], [a0]: the new [a0] and [a1] *)
  sbi_ecall : E → Z → Z → Z → (Z * Z) * E;
  rt_get_sbi_impl_id : E → Z * E;
  rt_get_sbi_impl_version : E → Z * E;
  rt_get_mvendorid : E → Z * E;
  rt_get_marchid : E → Z * E;
  rt_get_mimpid : E → Z * E;
  rt_set_timer : E → Z → E;
  mmio_read32 : E → Z → Z * E;
  mmio_write32 : E → Z → Z → E;
  hgatp_kept : Z → Z;
}.

(** ** The global state *)

(** A [spin::Mutex]: taking it twice on one hart never ends. *)
Record Mutex (A : Type) := MkMutex { locked : bool; inner : A }.
Arguments MkMutex {A} locked inner.
Arguments locked {A} m.
Arguments inner {A} m.

Section World.
Context {E : Type}.

Record World := MkWorld {
  w_sys : Sys;
  csr : Csr → Z;
  env : E;
  trap_ctx : TrapContext;
  HOST_VMM : option (Mutex HostVmm);
}.

Definition set_sys (s : Sys) (w : World) : World :=
  MkWorld s (csr w) (env w) (trap_ctx w) (HOST_VMM w).
Definition set_csr (c : Csr) (v : Z) (w : World) : World :=
  MkWorld (w_sys w) (λ c', if decide (c' = c) then v else csr w c') (env w)
    (trap_ctx w) (HOST_VMM w).
Definition set_env (e : E) (w : World) : World :=
  MkWorld (w_sys w) (csr w) e (trap_ctx w) (HOST_VMM w).
Definition set_ctx (c : TrapContext) (w : World) : World :=
  MkWorld (w_sys w) (csr w) (env w) c (HOST_VMM w).
Definition set_vmm (m : option (Mutex HostVmm)) (w : World) : World :=
  MkWorld (w_sys w) (csr w) (env w) (trap_ctx w) m.

(** Running a computation on memory. *)
Definition on_sys {A} (m : M Sys A) : M World A := λ w,
  match m (w_sys w) with
  | Ret (a, s) => Ret (a, set_sys s w)
  | Panic p => Panic p
  | Hang => Hang
  | NoFuel => NoFuel
  end.
(** A call to the outside. *)
Definition on_env {A} (f : E → A * E) : M World A := λ w,
  let (a, e) := f (env w) in Ret (a, set_env e w).

Definition csr_read (c : Csr) : M World Z := gets (λ w, csr w c).
Definition csr_write (c : Csr) (v : Z) : M World unit := modify (set_csr c v).
Definition csr_set_bit (c : Csr) (b : Z) : M World unit :=
  modify (λ w, set_csr c (Z.setbit (csr w c) b) w).
Definition csr_clear_bit (c : Csr) (b : Z) : M World unit :=
  modify (λ w, set_csr c (Z.clearbit (csr w c) b) w).

(** [HOST_VMM.get().unwrap().lock()]: the guard's view of the record. *)
Definition lock_vmm : M World HostVmm :=
  c ← gets HOST_VMM;
  m ← lift (unwrap c);
  if locked m then hangM
  else _ ← modify (set_vmm (Some (MkMutex true (inner m)))); mret (inner m).
(** [drop(host_vmm)]: the record as the guard left it. *)
Definition unlock_vmm (v : HostVmm) : M World unit :=
  modify (set_vmm (Some (MkMutex false v))).
End World.
Arguments World E : clear implicits.
