(* ===== verification/Sbi.v ===== *)
(** * SBI calls

    [src/src/sbi.rs], the wrappers around the firmware, and
    [src/src/guest/sbi.rs], the handler of the calls a guest makes. *)
From stdpp Require Import base tactics numbers list option.
From S2P Require Import Prelude Constants Machine.
Import riscv_regs.

Definition SBI_CONSOLE_PUTCHAR : Z := 1.
Definition SBI_CONSOLE_GETCHAR : Z := 2.
Definition SBI_SET_TIMER : Z := 0.

Definition SBI_SUCCESS : Z := 0.
(** The error codes are [isize]; [SBI_ERR_NOT_SUPPORTED] is used as [usize]. *)
Definition SBI_ERR_FAILUER : Z := -1.
Definition SBI_ERR_NOT_SUPPORTED : Z := W64 - 2.
Definition SBI_ERR_INAVLID_PARAM : Z := -3.
Definition SBI_ERR_DENIED : Z := -4.
Definition SBI_ERR_INVALID_ADDRESS : Z := -5.
Definition SBI_ERR_ALREADY_AVAILABLE : Z := -6.

Definition SBI_EXTID_BASE : Z := 0x10.
Definition SBI_GET_SBI_SPEC_VERSION_FID : Z := 0.
Definition SBI_GET_SBI_IMPL_ID_FID : Z := 1.
Definition SBI_GET_SBI_IMPL_VERSION_FID : Z := 2.
Definition SBI_PROBE_EXTENSION_FID : Z := 3.
Definition SBI_GET_MVENDORID_FID : Z := 4.
Definition SBI_GET_MARCHID_FID : Z := 5.
Definition SBI_GET_MIMPID_FID : Z := 6.
Definition SBI_EXTID_TIME : Z := 0x54494D45.
Definition SBI_SET_TIMER_FID : Z := 0.
Definition SBI_EXTID_IPI : Z := 0x735049.
Definition SBI_SEND_IPI_FID : Z := 0.
Definition SBI_EXTID_HSM : Z := 0x48534D.
Definition SBI_HART_START_FID : Z := 0.
Definition SBI_HART_STOP_FID : Z := 1.
Definition SBI_HART_STATUS_FID : Z := 2.
Definition SBI_EXTID_RFNC : Z := 0x52464E43.
Definition SBI_REMOTE_FENCE_I_FID : Z := 0.
Definition SBI_REMOTE_SFENCE_VMA_FID : Z := 1.
Definition SBI_REMOTE_SFENCE_VMA_ASID_FID : Z := 2.
Definition SBI_REMOTE_HFENCE_GVMA_FID : Z := 3.
Definition SBI_REMOTE_HFENCE_GVMA_VMID_FID : Z := 4.
Definition SBI_REMOTE_HFENCE_VVMA_FIDL : Z := 5.
Definition SBI_REMOTE_HFENCE_VVMA_ASID_FID : Z := 6.

Record SbiRet := MkSbiRet { error : Z; value : Z }.

Section Sbi.
Context {E : Type} `{Env E}.
Abbreviation W := (World E).

(** [sbi_call] of [src/sbi.rs]: [x16] is zeroed, only [x10] is read back. *)
Definition sbi_call (which arg0 arg1 arg2 : Z) : M W Z :=
  r ← on_env (λ e, sbi_ecall e which 0 arg0); mret r.1.
Definition console_putchar (c : Z) : M W unit :=
  _ ← sbi_call SBI_CONSOLE_PUTCHAR c 0 0; mret tt.
Definition console_getchar : M W Z := sbi_call SBI_CONSOLE_GETCHAR 0 0 0.
Definition set_timer (stime : Z) : M W unit := on_env (λ e, (tt, rt_set_timer e stime)).

Definition sbi_call_1 (eid fid arg0 : Z) : M W SbiRet :=
  r ← on_env (λ e, sbi_ecall e eid fid arg0); mret (MkSbiRet r.1 r.2).

(** The value of one of the [sbi_rt] queries. *)
Definition rt_value (f : E → Z * E) : M W SbiRet :=
  v ← on_env f; mret (MkSbiRet SBI_SUCCESS v).

Definition sbi_base_handler (fid : Z) : M W SbiRet :=
  ctx ← gets trap_ctx;
  if decide (fid = SBI_GET_SBI_SPEC_VERSION_FID) then sbi_call_1 SBI_EXTID_BASE fid 0
  else if decide (fid = SBI_GET_SBI_IMPL_ID_FID) then rt_value rt_get_sbi_impl_id
  else if decide (fid = SBI_GET_SBI_IMPL_VERSION_FID) then rt_value rt_get_sbi_impl_version
  else if decide (fid = SBI_PROBE_EXTENSION_FID) then
    extension ← lift (index (x ctx) (discriminant A0));
    sbi_call_1 SBI_EXTID_BASE fid extension
  else if decide (fid = SBI_GET_MVENDORID_FID) then rt_value rt_get_mvendorid
  else if decide (fid = SBI_GET_MARCHID_FID) then rt_value rt_get_marchid
  else if decide (fid = SBI_GET_MIMPID_FID) then rt_value rt_get_mimpid
  else panicM Explicit.

Definition sbi_console_putchar_handler (c : Z) : M W SbiRet :=
  _ ← console_putchar c; mret (MkSbiRet SBI_SUCCESS 0).
Definition sbi_console_getchar_handler : M W SbiRet :=
  c ← console_getchar; mret (MkSbiRet SBI_SUCCESS c).

Definition sbi_time_handler (stime fid : Z) : M W SbiRet :=
  if negb (fid =? SBI_SET_TIMER_FID) then mret (MkSbiRet SBI_ERR_NOT_SUPPORTED 0)
  else
    _ ← set_timer stime;
    _ ← csr_clear_bit hvip VSTIP_BIT;
    _ ← csr_set_bit sie STIMER_BIT;
    mret (MkSbiRet SBI_SUCCESS 0).

Definition sbi_legacy_set_time (stime : Z) : M W SbiRet :=
  _ ← set_timer stime;
  _ ← csr_clear_bit hvip VSTIP_BIT;
  _ ← csr_set_bit sie STIMER_BIT;
  mret (MkSbiRet SBI_SUCCESS 0).

(** [ctx.x[i] = v] on the trap context page. *)
Definition ctx_write (i v : Z) : M W unit :=
  ctx ← gets trap_ctx;
  x' ← lift (update (x ctx) i v);
  modify (λ w, set_ctx (set_x (λ _, x') (trap_ctx w)) w).
Definition ctx_read (i : Z) : M W Z :=
  ctx ← gets trap_ctx; lift (index (x ctx) i).

(** The [match] on the extension. *)
Definition sbi_dispatch (ext_id fid : Z) : M W SbiRet :=
  if decide (ext_id = SBI_EXTID_BASE) then sbi_base_handler fid
  else if decide (ext_id = SBI_EXTID_TIME) then
    a0 ← ctx_read (discriminant A0); sbi_time_handler a0 fid
  else if decide (ext_id = SBI_CONSOLE_PUTCHAR) then
    a0 ← ctx_read (discriminant A0); sbi_console_putchar_handler a0
  else if decide (ext_id = SBI_CONSOLE_GETCHAR) then sbi_console_getchar_handler
  else if decide (ext_id = SBI_SET_TIMER) then
    a0 ← ctx_read (discriminant A0); sbi_legacy_set_time a0
  else panicM Explicit.

Definition sbi_vs_handler : M W VmmResult :=
  ext_id ← ctx_read (discriminant A7);
  fid ← ctx_read (discriminant A6);
  sbi_ret ← sbi_dispatch ext_id fid;
  _ ← ctx_write (discriminant A0) (error sbi_ret);
  _ ← ctx_write (discriminant A1) (value sbi_ret);
  mret None.
End Sbi.
