(* ===== verification/Console.v ===== *)
(** * Output, the panic handler, and the uniprocessor cell

    [src/src/console.rs], [src/src/lang_items.rs], [shutdown] of
    [src/src/sbi.rs] and [src/src/sync/up.rs].  A [&str] is the list of its
    characters' code points; [core::fmt] hands the pieces of the formatted text
    to [write_str] one after the other. *)
From stdpp Require Import base tactics numbers list option strings.
From Stdlib Require Import Ascii.
From S2P Require Import Prelude Constants Machine Sbi.

(** The characters of a literal. *)
Fixpoint chars (s : string) : list Z :=
  match s with
  | EmptyString => []
  | String c s' => Z.of_N (N_of_ascii c) :: chars s'
  end.
Definition newline : list Z := [10].
(** [\x1b[1;]{n}[m] and [\x1b[0m]. *)
Definition colour (n : string) : list Z := [27] ++ chars "[1;" ++ chars n ++ chars "m".
Definition colour_off : list Z := [27] ++ chars "[0m".

(** [{}] and [{:#x}] of a 64-bit number: at most 20 decimal and 16 hexadecimal
    digits. *)
Definition digit (d : Z) : Z := if d <? 10 then 48 + d else 87 + d.
Fixpoint digits (fuel : nat) (base n : Z) (acc : list Z) : list Z :=
  match fuel with
  | O => acc
  | S fuel' =>
      let acc := digit (n mod base) :: acc in
      if n / base =? 0 then acc else digits fuel' base (n / base) acc
  end.
Definition fmt_dec (n : Z) : list Z := digits 20 10 n [].
Definition fmt_hex (n : Z) : list Z := chars "0x" ++ digits 16 16 n [].

Section Console.
Context {E : Type} `{Env E}.
Abbreviation W := (World E).

Fixpoint write_str (s : list Z) : M W unit :=
  match s with
  | [] => mret tt
  | c :: s' => _ ← console_putchar c; write_str s'
  end.
Fixpoint print (args : list (list Z)) : M W unit :=
  match args with
  | [] => mret tt
  | s :: args' => _ ← write_str s; print args'
  end.

(** The macros. *)
Definition println (args : list (list Z)) : M W unit := print (args ++ [newline]).
Definition hdebug (args : list (list Z)) : M W unit :=
  print ([chars "[Hypervisor] "] ++ args ++ [newline]).
Definition hwarning (args : list (list Z)) : M W unit :=
  print ([chars "[Warning] "] ++ args ++ [newline]).
Definition htracking (args : list (list Z)) : M W unit :=
  print ([colour "32" ++ chars "[Tracking] "] ++ args ++ [colour_off ++ newline]).
Definition herror (args : list (list Z)) : M W unit :=
  print ([colour "31" ++ chars "[Error] "] ++ args ++ [colour_off ++ newline]).

(** ** Panics *)

(** Firmware's system reset: [None] is a machine that has been switched off. *)
Context (system_reset : E → option E).

(** [shutdown]: [inl] when the machine is off, [inr] when the call came back and
    [unreachable!] panics. *)
Definition shutdown : M W (unit + unit) := λ w,
  match system_reset (env w) with
  | None => Ret (inl tt, w)
  | Some e => Ret (inr tt, set_env e w)
  end.

Record Location := MkLocation { loc_file : list Z; loc_line : list Z }.
Definition panic_message (location : option Location) (message : list Z) : list (list Z) :=
  match location with
  | Some l => [colour "31" ++ chars "[hypervisor] Panicked at "; loc_file l; chars ":"; loc_line l;
               chars " "; message; colour_off]
  | None => [chars "[kernel] Panicked: "; message]
  end.

(** The handler; where [shutdown] comes back it is entered again, for the
    [unreachable!] in [sbi.rs].  [fuel] bounds how often. *)
Fixpoint panic_handler (fuel : nat) (location : option Location) (message : list Z) : M W unit :=
  match fuel with
  | O => nofuelM
  | S fuel' =>
      _ ← println (panic_message location message);
      r ← shutdown;
      match r with
      | inl _ => mret tt
      | inr _ =>
          panic_handler fuel' (Some (MkLocation (chars "src/sbi.rs") (chars "87")))
            (chars "internal error: entered unreachable code")
      end
  end.

(** ** Facts *)

(** The firmware after a text was written. *)
Definition putc (e : E) (c : Z) : E := (sbi_ecall e SBI_CONSOLE_PUTCHAR 0 c).2.

Lemma write_str_run s w : write_str s w = Ret (tt, set_env (foldl putc (env w) s) w).
Proof.
  revert w. induction s as [|c s IH]; intros w; [by destruct w|]. cbn [write_str].
  rewrite (bind_run _ _ _ tt (set_env (putc (env w) c) w)); [by rewrite IH|].
  unfold console_putchar, sbi_call, on_env, mbind, M_bind, putc. simpl.
  by destruct (sbi_ecall _ _ _ _).
Qed.

(** Printing always returns and changes nothing but the firmware's state, which
    sees the characters of all the pieces in order. *)
Lemma print_run args w : print args w = Ret (tt, set_env (foldl putc (env w) (concat args)) w).
Proof.
  revert w. induction args as [|s args IH]; intros w; [by destruct w|]. cbn [print concat].
  rewrite (bind_run _ _ _ _ _ (write_str_run s w)), IH. simpl. by rewrite foldl_app.
Qed.

(** What the logging macros do to the firmware's state. *)
Definition logged (text : list (list Z)) (e : E) : E := foldl putc e (concat text).
Definition tracking_text (args : list (list Z)) : list (list Z) :=
  [colour "32" ++ chars "[Tracking] "] ++ args ++ [colour_off ++ newline].
Lemma htracking_run args w :
  htracking args w = Ret (tt, set_env (logged (tracking_text args) (env w)) w).
Proof. apply print_run. Qed.
Lemma herror_run args w : ∃ e, herror args w = Ret (tt, set_env e w).
Proof. eexists. apply print_run. Qed.

(** A panic prints its message and switches the machine off; with a firmware
    that ignores the request it prints for ever. *)
Lemma panic_stops fuel location message w :
  (∀ e, system_reset e = None) → (0 < fuel)%nat →
  panic_handler fuel location message w =
  Ret (tt, set_env (foldl putc (env w) (concat (panic_message location message) ++ newline)) w).
Proof.
  intros Hr Hf. destruct fuel as [|fuel]; [lia|]. cbn [panic_handler]. unfold println.
  rewrite (bind_run _ _ _ _ _ (print_run _ w)). unfold mbind, M_bind, shutdown. rewrite Hr.
  by rewrite concat_app.
Qed.
Lemma panic_repeats fuel location message w :
  (∀ e, is_Some (system_reset e)) → panic_handler fuel location message w = NoFuel.
Proof.
  intros Hr. revert location message w.
  induction fuel as [|fuel IH]; intros location message w; [done|]. cbn [panic_handler].
  unfold println. rewrite (bind_run _ _ _ _ _ (print_run _ w)). unfold mbind, M_bind, shutdown.
  destruct (Hr (env (set_env (foldl putc (env w) (concat (panic_message location message ++ [newline]))) w)))
    as [e ->]. apply IH.
Qed.
End Console.

(** ** Numbers in messages *)

(** The number a text of digits stands for. *)
Definition digit_value (c : Z) : Z := if c <? 58 then c - 48 else c - 87.
Definition number (base : Z) (text : list Z) : Z :=
  foldl (λ n c, n * base + digit_value c) 0 text.

Lemma digit_value_digit d : 0 ≤ d < 16 → digit_value (digit d) = d.
Proof.
  intros Hd. unfold digit, digit_value. destruct (Z.ltb_spec d 10).
  - destruct (Z.ltb_spec (48 + d) 58); lia.
  - destruct (Z.ltb_spec (87 + d) 58); lia.
Qed.

Lemma foldl_number base acc n m :
  foldl (λ n c, n * base + digit_value c) n acc = foldl (λ n c, n * base + digit_value c) m acc +
    (n - m) * base ^ Z.of_nat (length acc).
Proof.
  revert n m. induction acc as [|c acc IH]; intros n m; [simpl; lia|].
  cbn [foldl length]. rewrite (IH _ (m * base + digit_value c)).
  rewrite Nat2Z.inj_succ, Z.pow_succ_r by lia. ring.
Qed.

(** The digits printed are those of the number. *)
Lemma digits_number fuel base n acc :
  2 ≤ base ≤ 16 → 0 ≤ n < base ^ Z.of_nat fuel →
  number base (digits fuel base n acc) =
  n * base ^ Z.of_nat (length acc) + number base acc.
Proof.
  intros Hb. revert n acc. induction fuel as [|fuel IH]; intros n acc Hn.
  - simpl in *. replace n with 0 by lia. lia.
  - rewrite Nat2Z.inj_succ, Z.pow_succ_r in Hn by lia. cbn [digits].
    pose proof (Z.mod_pos_bound n base ltac:(lia)) as Hm.
    pose proof (Z.div_mod n base ltac:(lia)) as Hd.
    assert (number base (digit (n mod base) :: acc) =
      n mod base * base ^ Z.of_nat (length acc) + number base acc) as Hcons.
    { unfold number. cbn [foldl]. rewrite digit_value_digit by lia.
      rewrite (foldl_number base acc _ 0). ring. }
    destruct (Z.eqb_spec (n / base) 0) as [H0|H0].
    + rewrite Hcons. replace (n mod base) with n by lia. done.
    + rewrite IH, Hcons.
      * cbn [length]. rewrite Nat2Z.inj_succ, Z.pow_succ_r by lia.
        rewrite Hd at 3. ring.
      * split; [apply Z.div_pos; lia|]. apply Z.div_lt_upper_bound; lia.
Qed.
Lemma fmt_dec_number n : 0 ≤ n < W64 → number 10 (fmt_dec n) = n.
Proof. intros Hn. unfold fmt_dec. rewrite digits_number; unfold number, W64 in *; simpl; lia. Qed.

(** ** [UPSafeCell] *)

(** A [RefCell] and whether its content is borrowed. *)
Record UPSafeCell (T : Type) := MkCell { cell_borrowed : bool; cell_inner : T }.
Arguments MkCell {T} cell_borrowed cell_inner.
Arguments cell_borrowed {T} u.
Arguments cell_inner {T} u.

Definition cell_new {T} (value : T) : UPSafeCell T := MkCell false value.
Definition exclusive_access {T} (c : UPSafeCell T) : outcome (T * UPSafeCell T) :=
  if cell_borrowed c then Panic AlreadyBorrowed else Ret (cell_inner c, MkCell true (cell_inner c)).
(** The guard goes out of scope with its final value. *)
Definition release {T} (value : T) (c : UPSafeCell T) : UPSafeCell T := MkCell false value.

(** While one guard is alive a second access panics; after it is dropped the
    next access sees its value. *)
Lemma exclusive_access_once {T} (c : UPSafeCell T) v c' v' :
  exclusive_access c = Ret (v, c') →
  exclusive_access c' = Panic AlreadyBorrowed ∧
  exclusive_access (release v' c') = Ret (v', MkCell true v').
Proof. unfold exclusive_access. destruct (cell_borrowed c); [done|]. by intros [= <- <-]. Qed.
