(* ===== verification/Plic.v ===== *)
(** * The emulated interrupt controller

    [src/src/device_emu/plic.rs]: the guest's accesses to the threshold and
    claim/complete registers are trapped and served here. *)
From stdpp Require Import base tactics numbers list option strings.
From S2P Require Import Prelude Constants Machine Pmap Sbi Console.

(** The register ranges of the controller: priority, pending, enable, and
    threshold with claim and completion. *)
Definition PLIC_OFFSET : list (Z * Z) :=
  [(0x0, 0x1000); (0x1000, 0x1000); (0x2000, 0x200000 - 0x2000); (0x200000, 0x600000 - 0x200000)].

Definition is_plic_access (addr : Z) : bool :=
  (0x0c000000 <=? addr) && (addr <? 0x10000000).

Section Plic.
Context {E : Type} `{Env E} `{Decoder}.
Abbreviation W := (World E).

(** [host_vmm] is the record behind the guard the caller holds; the result is
    its new value.  [write_volatile] reaches the platform's controller. *)
Definition handle_plic_access (host_vmm : HostVmm) (guest_pa : Z) (instr : Instruction)
    : M W (VmmResult * HostVmm) :=
  plic ← lift (unwrap (host_plic host_vmm));
  let offset := wrapping_sub guest_pa (base_addr plic) in
  if (0x200000 <=? offset) && (offset <? 0x200000 + 0x1000 * MAX_CONTEXTS) then
    let hart := (offset - 0x200000) / 0x1000 in
    let idx := Z.shiftr (Z.land (offset - 0x200000) 0xfff) 2 in
    if idx =? 0 then
      match inst_view instr with
      | Sw rs2 =>
          v ← ctx_read rs2;
          _ ← htracking [chars "write PLIC threshold reg, addr: "; fmt_hex guest_pa;
                         chars ", value: "; fmt_hex (v mod W32)];
          _ ← on_env (λ e, (tt, mmio_write32 e guest_pa (v mod W32)));
          mret (None, host_vmm)
      | _ => mret (Some UnexpectedInst, host_vmm)
      end
    else if idx =? 1 then
      match inst_view instr with
      | Lw rd =>
          c ← lift (index (claim_complete plic) hart);
          _ ← ctx_write rd c;
          mret (None, host_vmm)
      | Sw rs2 =>
          v ← ctx_read rs2;
          _ ← on_env (λ e, (tt, mmio_write32 e guest_pa (v mod W32)));
          cc ← lift (update (claim_complete plic) hart 0);
          _ ← csr_clear_bit hvip VSEIP_BIT;
          mret (None, set_plic (Some (MkPlic (base_addr plic) cc)) host_vmm)
      | OtherInst => mret (Some UnexpectedInst, host_vmm)
      end
    else mret (None, host_vmm)
  else panicM Explicit.
End Plic.
