(* ===== verification/Vmexit.v ===== *)
(** * Leaving and entering the guest

    [src/src/guest/vmexit.rs]: the trap handler and everything it calls.  The
    functions that never return end in a jump; their model returns the target
    of that jump. *)
From stdpp Require Import base tactics numbers list option gmap strings.
From S2P Require Import Prelude Constants Address Pte Mem FrameAllocator PageTable Fdt.
From S2P Require Import Sv39 MemorySet Pmap Machine Sbi Console Plic.
Import riscv_regs.

(** ** Trap causes

    The [riscv] crate decodes [scause]; the causes the code tells apart. *)
Inductive Exception :=
| UserEnvCall | VirtualSupervisorEnvCall | VirtualInstruction
| InstructionGuestPageFault | LoadGuestPageFault | StoreGuestPageFault
| IllegalInstruction | OtherException.
Inductive Interrupt := SupervisorExternal | SupervisorTimer | OtherInterrupt.
Inductive Trap := TrapException (e : Exception) | TrapInterrupt (i : Interrupt).

Class CauseDecoder := scause_cause : Z → Trap.

(** Addresses of the assembly routines, set by the linker. *)
Record TrapSymbols := MkTrapSyms {
  sym_alltraps : Z;
  sym_alltraps_k : Z;
  sym_restore : Z;
  sym_trap_from_kernel : Z;
  sym_trap_handler : Z;
}.

Section Vmexit.
Context {E : Type} `{Env E} `{Decoder} `{CauseDecoder}.
Context (syms : TrapSymbols).
Abbreviation W := (World E).

(** The address of a routine in the trampoline page:
    [f as usize - __alltraps as usize + TRAMPOLINE]. *)
Definition trampoline_va (f : Z) : outcome Z :=
  d ← usub f (sym_alltraps syms); uadd d TRAMPOLINE.

Definition set_kernel_trap_entry : M W unit :=
  va ← lift (trampoline_va (sym_alltraps_k syms));
  _ ← csr_write stvec va;
  csr_write sscratch (sym_trap_from_kernel syms).
Definition set_user_trap_entry : M W unit := csr_write stvec TRAMPOLINE.
Definition trap_init : M W unit := set_kernel_trap_entry.
Definition enable_timer_interrupt : M W unit := csr_set_bit sie STIMER_BIT.
Definition disable_timer_interrupt : M W unit := csr_clear_bit sie STIMER_BIT.

Definition privileged_inst_handler : M W VmmResult := panicM Todo.

(** The instruction that faulted: from [htinst], or from guest memory. *)
Definition fault_instruction (host_vmm : HostVmm) : M W (VmmError + Z) :=
  inst ← csr_read htinst;
  if inst =? 0 then
    ctx ← gets trap_ctx;
    vs ← csr_read vsatp;
    r ← on_sys (fast_two_stage_translation (G := PageTableSv39) (cur_guest_id host_vmm)
                  (ctx_sepc ctx) vs);
    match r with
    | Some host_inst_addr =>
        i ← gets (λ w, load 8 (sys_mem (w_sys w)) host_inst_addr); mret (inr i)
    | None =>
        _ ← herror [chars "inst addr: "; fmt_hex (ctx_sepc ctx)];
        mret (inl TranslationError)
    end
  else if (inst =? 0x3020) || (inst =? 0x3000) then
    _ ← herror [chars "fault on 1st stage page table walk"];
    mret (inl PseudoInst)
  else mret (inr inst).

Definition guest_page_fault_handler (host_vmm : HostVmm) : M W (VmmResult * HostVmm) :=
  hv ← csr_read htval;
  let addr := shl hv 2 in
  if is_plic_access addr then
    fi ← fault_instruction host_vmm;
    match fi with
    | inl e => mret (Some e, host_vmm)
    | inr inst =>
        d ← lift (decode_inst inst);
        match d.2 with
        | Some i =>
            r ← handle_plic_access host_vmm addr i;
            match r.1 with
            | Some e => mret (Some e, r.2)
            | None =>
                ctx ← gets trap_ctx;
                pc ← lift (uadd (ctx_sepc ctx) d.1);
                _ ← modify (λ w, set_ctx (set_ctx_sepc pc (trap_ctx w)) w);
                mret (None, r.2)
            end
        | None => mret (Some DecodeInstError, host_vmm)
        end
    end
  else
    ctx ← gets trap_ctx;
    _ ← herror [chars "addr: "; fmt_hex addr; chars ", sepc: "; fmt_hex (ctx_sepc ctx)];
    mret (Some DeviceNotFound, host_vmm).

Definition handle_irq (host_vmm : HostVmm) : M W HostVmm :=
  plic ← lift (unwrap (host_plic host_vmm));
  c ← lift (umul 2 (cur_guest_id host_vmm));
  context_id ← lift (uadd c 1);
  a ← lift (uadd (base_addr plic) 0x00200004);
  o ← lift (umul 0x1000 context_id);
  claim_and_complete_addr ← lift (uadd a o);
  irq ← on_env (λ e, mmio_read32 e claim_and_complete_addr);
  cc ← lift (update (claim_complete plic) context_id irq);
  _ ← csr_set_bit hvip VSEIP_BIT;
  mret (set_irq_pending true (set_plic (Some (MkPlic (base_addr plic) cc)) host_vmm)).

Definition forward_exception : M W unit :=
  ctx ← gets trap_ctx;
  sc ← csr_read scause;
  _ ← csr_write vsepc (ctx_sepc ctx);
  _ ← csr_write vscause sc;
  tv ← csr_read vstvec;
  modify (λ w, set_ctx (set_ctx_sepc tv (trap_ctx w)) w).

Definition handle_internal_vmm_error (err : VmmError) : M W unit := panicM Explicit.

(** The shared part of [switch_to_guest] and [hart_entry_1]. *)
Definition load_hgatp : M W unit :=
  ctx ← gets trap_ctx;
  cur ← csr_read hgatp;
  if negb (cur =? ctx_hgatp ctx) then
    _ ← csr_write hgatp (hgatp_kept (ctx_hgatp ctx));
    now ← csr_read hgatp;
    lift (assert (ctx_hgatp ctx =? now))
  else mret tt.

(** The result is the address jumped to, with [a0 = TRAP_CONTEXT]. *)
Definition switch_to_guest : M W Z :=
  _ ← set_user_trap_entry;
  _ ← load_hgatp;
  lift (trampoline_va (sym_restore syms)).

(** [hart_entry_1]: falls into [hart_entry_2]. *)
Definition hart_entry_1 : M W unit :=
  _ ← set_user_trap_entry;
  load_hgatp.

(** The message on every thousandth data fault. *)
Definition log_page_fault (n : Z) : M W unit :=
  if n mod 1000 =? 0 then
    hv ← csr_read htval;
    htracking [chars "guest page fault: "; fmt_dec n; chars ", addr: "; fmt_hex (shl hv 2)]
  else mret tt.

(** The arms of the [match] on the cause: the error to report and the record. *)
Definition handle_trap (cause : Trap) (host_vmm : HostVmm) : M W (VmmResult * HostVmm) :=
  match cause with
  | TrapException UserEnvCall => panicM Explicit
  | TrapException VirtualSupervisorEnvCall =>
      err ← sbi_vs_handler;
      ctx ← gets trap_ctx;
      pc ← lift (uadd (ctx_sepc ctx) 4);
      _ ← modify (λ w, set_ctx (set_ctx_sepc pc (trap_ctx w)) w);
      mret (err, host_vmm)
  | TrapException VirtualInstruction =>
      err ← privileged_inst_handler; mret (err, host_vmm)
  | TrapException InstructionGuestPageFault =>
      vmm ← lock_vmm;
      o ← lift (index (guests vmm) (cur_guest_id vmm));
      g ← lift (unwrap o);
      ctx ← gets trap_ctx;
      vs ← csr_read vsatp;
      t ← on_sys (two_stage_translation (cur_guest_id vmm) (ctx_sepc ctx) vs (gpm g));
      _ ← match t with
          | Some host_va => herror [chars "host va: "; fmt_hex host_va]
          | None => herror [chars "Fail to translate exception pc."]
          end;
      panicM Explicit
  | TrapException LoadGuestPageFault | TrapException StoreGuestPageFault =>
      r ← guest_page_fault_handler host_vmm;
      n ← lift (uadd (guest_page_falut r.2) 1);
      _ ← log_page_fault n;
      mret (r.1, set_page_falut n r.2)
  | TrapInterrupt SupervisorExternal =>
      vmm ← handle_irq host_vmm;
      n ← lift (uadd (external_irq vmm) 1);
      mret (None, set_external_irq n vmm)
  | TrapInterrupt SupervisorTimer =>
      _ ← csr_set_bit hvip VSTIP_BIT;
      _ ← csr_clear_bit sie STIMER_BIT;
      n ← lift (uadd (timer_irq host_vmm) 1);
      mret (None, set_timer_irq n host_vmm)
  | _ => _ ← forward_exception; mret (None, host_vmm)
  end.

Definition trap_handler : M W Z :=
  _ ← set_kernel_trap_entry;
  sc ← csr_read scause;
  host_vmm ← lock_vmm;
  r ← handle_trap (scause_cause sc) host_vmm;
  _ ← unlock_vmm r.2;
  _ ← match r.1 with
      | Some err => handle_internal_vmm_error err
      | None => mret tt
      end;
  switch_to_guest.

(** [trap_from_kernel]: a trap taken in the hypervisor itself is fatal. *)
Definition trap_from_kernel : M W unit := panicM Explicit.
End Vmexit.
