(* ===== verification/VmexitFacts.v ===== *)
(** * Correctness of the trap handler

    What every trap preserves, what each kind of trap does to the guest, and
    the virtual interrupt protocol. *)
From stdpp Require Import base tactics numbers list option gmap relations strings.
From S2P Require Import Prelude Constants Address Pte Mem FrameAllocator PageTable Fdt.
From S2P Require Import Sv39 MemorySet Pmap Machine Sbi Console Plic Vmexit.
Import riscv_regs.

Create HintDb keeps discriminated.

Section Facts.
Context {E : Type} `{Env E} `{Decoder} `{CauseDecoder}.
Context (syms : TrapSymbols).
Abbreviation W := (World E).
Implicit Types w : W.

(** ** Registers *)

Lemma csr_set_same c v w : csr (set_csr c v w) c = v.
Proof. simpl. by rewrite decide_True. Qed.
Lemma csr_set_other c d v w : d ≠ c → csr (set_csr c v w) d = csr w d.
Proof. intros. simpl. by rewrite decide_False. Qed.

(** The guest's timer interrupt is pending exactly while the host's timer
    interrupt is off. *)
Definition timer_inv w : Prop :=
  Z.testbit (csr w hvip) VSTIP_BIT = negb (Z.testbit (csr w sie) STIMER_BIT).

(** ** What a handler leaves alone *)

Record keeps w w' : Prop := {
  k_vmm : HOST_VMM w' = HOST_VMM w;
  k_hgatp : csr w' hgatp = csr w hgatp;
  k_ctx_hgatp : ctx_hgatp (trap_ctx w') = ctx_hgatp (trap_ctx w);
  k_ksp : kernel_sp (trap_ctx w') = kernel_sp (trap_ctx w);
  k_handler : ctx_trap_handler (trap_ctx w') = ctx_trap_handler (trap_ctx w);
  k_len : length (x (trap_ctx w')) = length (x (trap_ctx w));
  k_timer : timer_inv w → timer_inv w';
}.
Definition keeps_m {A} (m : M W A) : Prop := ∀ w a w', m w = Ret (a, w') → keeps w w'.

#[export] Instance keeps_preorder : PreOrder keeps.
Proof.
  split.
  - intros w. by split.
  - intros w1 w2 w3 [] []. split; try congruence. tauto.
Qed.

Lemma keeps_bind {A B} (m : M W A) (f : A → M W B) :
  keeps_m m → (∀ a, keeps_m (f a)) → keeps_m (m ≫= f).
Proof. intros Hm Hf w b w' Hr. minv0. etrans; [by eapply Hm|by eapply Hf]. Qed.
Lemma keeps_ret {A} (a : A) : keeps_m (mret a : M W A).
Proof. intros w b w' Hr. minv0. done. Qed.
Lemma keeps_lift {A} (o : outcome A) : keeps_m (lift o : M W A).
Proof. intros w b w' Hr. minv0. done. Qed.
Lemma keeps_gets {A} (f : W → A) : keeps_m (gets f).
Proof. intros w b w' Hr. minv0. done. Qed.
Lemma keeps_panic {A} p : keeps_m (panicM p : M W A).
Proof. by intros w b w' Hr. Qed.
Lemma keeps_on_env {A} (f : E → A * E) : keeps_m (on_env f).
Proof. intros w b w' Hr. unfold on_env in Hr. destruct (f (env w)). minv0. by split. Qed.
Lemma keeps_on_sys {A} (m : M Sys A) : keeps_m (on_sys m).
Proof.
  intros w b w' Hr. unfold on_sys in Hr. destruct (m (w_sys w)) as [[? ?]| | |]; [|done..].
  minv0. by split.
Qed.
Lemma on_env_Ret {A} (f : E → A * E) w a w' :
  on_env f w = Ret (a, w') ↔ a = (f (env w)).1 ∧ w' = set_env (f (env w)).2 w.
Proof. unfold on_env. destruct (f (env w)). simpl. split; [by intros [= -> ->]|by intros [-> ->]]. Qed.
Lemma keeps_csr_read c : keeps_m (csr_read c : M W Z).
Proof. apply keeps_gets. Qed.
Lemma keeps_csr_write c v : c ≠ hgatp → c ≠ hvip → c ≠ sie → keeps_m (csr_write c v).
Proof.
  intros Hc1 Hc2 Hc3 w b w' Hr. unfold csr_write in Hr. minv0.
  split; try done.
  - by rewrite csr_set_other.
  - unfold timer_inv. by rewrite !csr_set_other by congruence.
Qed.
(** A change of [hvip] that leaves the timer bit alone. *)
Lemma keeps_hvip (f : Z → Z) :
  (∀ v, Z.testbit (f v) VSTIP_BIT = Z.testbit v VSTIP_BIT) →
  keeps_m (modify (λ w, set_csr hvip (f (csr w hvip)) w)).
Proof.
  intros Hf w b w' Hr. minv0. split; try done. unfold timer_inv.
  rewrite csr_set_same, csr_set_other by done. by rewrite Hf.
Qed.
Lemma keeps_set_vseip : keeps_m (csr_set_bit hvip VSEIP_BIT).
Proof. apply (keeps_hvip (λ v, Z.setbit v VSEIP_BIT)). intros v. by rewrite Z.setbit_neq. Qed.
Lemma keeps_clear_vseip : keeps_m (csr_clear_bit hvip VSEIP_BIT).
Proof. apply (keeps_hvip (λ v, Z.clearbit v VSEIP_BIT)). intros v. by rewrite Z.clearbit_neq. Qed.

Lemma keeps_set_ctx (f : TrapContext → TrapContext) :
  (∀ c, ctx_hgatp (f c) = ctx_hgatp c ∧ kernel_sp (f c) = kernel_sp c ∧
        ctx_trap_handler (f c) = ctx_trap_handler c ∧ length (x (f c)) = length (x c)) →
  keeps_m (modify (λ w, set_ctx (f (trap_ctx w)) w)).
Proof.
  intros Hf w b w' Hr. minv0. destruct (Hf (trap_ctx w)) as (?&?&?&?). by split.
Qed.
Lemma keeps_set_sepc pc : keeps_m (modify (λ w, set_ctx (set_ctx_sepc pc (trap_ctx w)) w)).
Proof. by apply (keeps_set_ctx (set_ctx_sepc pc)). Qed.

Lemma ctx_write_Ret i v w u w' :
  ctx_write i v w = Ret (u, w') ↔
  0 ≤ i < Z.of_nat (length (x (trap_ctx w))) ∧
  w' = set_ctx (set_x (λ _, <[Z.to_nat i := v]> (x (trap_ctx w))) (trap_ctx w)) w.
Proof.
  unfold ctx_write. split.
  - intros Hr. minv0. match goal with H : update _ _ _ = _ |- _ => apply update_Ret in H as [? ->] end.
    done.
  - intros [Hi ->]. unfold mbind, M_bind, gets, lift. rewrite update_run by done.
    by destruct u.
Qed.
Lemma ctx_read_run (i : nat) v w :
  x (trap_ctx w) !! i = Some v → ctx_read (Z.of_nat i) w = Ret (v, w).
Proof.
  intros Hi. unfold ctx_read, mbind, M_bind, gets, lift.
  rewrite (proj2 (index_Ret _ _ v)); [done|]. split; [lia|]. by rewrite Nat2Z.id.
Qed.
Lemma ctx_write_run (i : nat) v w :
  (i < length (x (trap_ctx w)))%nat →
  ctx_write (Z.of_nat i) v w =
  Ret (tt, set_ctx (set_x (λ _, <[i := v]> (x (trap_ctx w))) (trap_ctx w)) w).
Proof. intros Hi. apply ctx_write_Ret. split; [lia|]. by rewrite Nat2Z.id. Qed.
Lemma keeps_ctx_write i v : keeps_m (ctx_write i v).
Proof.
  intros w u w' Hr. apply ctx_write_Ret in Hr as [_ ->]. split; try done.
  simpl. by rewrite length_insert.
Qed.
Lemma keeps_ctx_read i : keeps_m (ctx_read i).
Proof. apply keeps_bind; [apply keeps_gets|]. intros. apply keeps_lift. Qed.
End Facts.

#[export] Hint Resolve keeps_ret keeps_lift keeps_gets keeps_panic keeps_on_env
  keeps_on_sys keeps_csr_read keeps_csr_write keeps_set_vseip keeps_clear_vseip
  keeps_set_sepc keeps_ctx_write keeps_ctx_read : keeps.

(** Walk through a computation, one bind or branch at a time. *)
Ltac keeps_tac :=
  repeat first
    [ progress intros
    | solve [auto with keeps; eauto with keeps; done]
    | apply keeps_bind
    | case_decide
    | match goal with
      | |- keeps_m (match ?t with _ => _ end) => destruct t
      | |- keeps_m (if ?t then _ else _) => destruct t
      end ].

Section Handlers.
Context {E : Type} `{Env E} `{Decoder} `{CauseDecoder}.
Context (syms : TrapSymbols).
Abbreviation W := (World E).
Implicit Types w : W.

(** ** The handlers *)

(** Arming the timer: pending off, host interrupt on. *)
Lemma arm_timer_Ret stime w r w' :
  sbi_legacy_set_time stime w = Ret (r, w') →
  r = MkSbiRet SBI_SUCCESS 0 ∧
  w' = set_csr sie (Z.setbit (csr w sie) STIMER_BIT)
         (set_csr hvip (Z.clearbit (csr w hvip) VSTIP_BIT)
            (set_env (rt_set_timer (env w) stime) w)).
Proof.
  unfold sbi_legacy_set_time, set_timer, on_env, csr_set_bit, csr_clear_bit. intros Hr.
  minv0. split; [done|]. unfold set_csr. simpl. done.
Qed.

Lemma keeps_arm_timer stime : keeps_m (sbi_legacy_set_time stime).
Proof.
  intros w r w' Hr. apply arm_timer_Ret in Hr as [_ ->]. split; try done.
  intros _. unfold timer_inv. rewrite csr_set_same, csr_set_other, csr_set_same by done.
  by rewrite Z.clearbit_eq, Z.setbit_eq.
Qed.

Lemma time_handler_eq stime fid w :
  sbi_time_handler stime fid w =
  if decide (fid = SBI_SET_TIMER_FID) then sbi_legacy_set_time stime w
  else Ret (MkSbiRet SBI_ERR_NOT_SUPPORTED 0, w).
Proof.
  unfold sbi_time_handler. case_decide as Hf.
  - subst. done.
  - by rewrite (proj2 (Z.eqb_neq _ _)).
Qed.

Lemma keeps_time_handler stime fid : keeps_m (sbi_time_handler stime fid).
Proof.
  intros w r w'. rewrite time_handler_eq. case_decide; [apply keeps_arm_timer|].
  intros [= _ ->]. done.
Qed.

Lemma keeps_base_handler fid : keeps_m (sbi_base_handler fid).
Proof. unfold sbi_base_handler, sbi_call_1, rt_value. keeps_tac. Qed.
Lemma keeps_putchar c : keeps_m (sbi_console_putchar_handler c).
Proof. unfold sbi_console_putchar_handler, console_putchar, sbi_call. keeps_tac. Qed.
Lemma keeps_getchar : keeps_m sbi_console_getchar_handler.
Proof. unfold sbi_console_getchar_handler, console_getchar, sbi_call. keeps_tac. Qed.
#[local] Hint Resolve keeps_arm_timer keeps_time_handler keeps_base_handler keeps_putchar
  keeps_getchar : keeps.

(** The SBI services do not touch the trap context. *)
Lemma base_handler_ctx fid w r w' :
  sbi_base_handler fid w = Ret (r, w') → trap_ctx w' = trap_ctx w.
Proof.
  unfold sbi_base_handler, sbi_call_1, rt_value. intros Hr. minv0.
  repeat (case_decide; [minv0; match goal with H : on_env _ _ = _ |- _ =>
    apply on_env_Ret in H as [_ ->] end; done|]). done.
Qed.
Lemma putchar_ctx c w r w' :
  sbi_console_putchar_handler c w = Ret (r, w') → trap_ctx w' = trap_ctx w.
Proof.
  unfold sbi_console_putchar_handler, console_putchar, sbi_call. intros Hr. minv0.
  match goal with H : on_env _ _ = _ |- _ => apply on_env_Ret in H as [_ ->] end. done.
Qed.
Lemma getchar_ctx w r w' :
  sbi_console_getchar_handler w = Ret (r, w') → trap_ctx w' = trap_ctx w.
Proof.
  unfold sbi_console_getchar_handler, console_getchar, sbi_call. intros Hr. minv0.
  match goal with H : on_env _ _ = _ |- _ => apply on_env_Ret in H as [_ ->] end. done.
Qed.
Lemma set_time_ctx stime w r w' :
  sbi_legacy_set_time stime w = Ret (r, w') → trap_ctx w' = trap_ctx w.
Proof. intros Hr. by apply arm_timer_Ret in Hr as [_ ->]. Qed.
Lemma time_handler_ctx stime fid w r w' :
  sbi_time_handler stime fid w = Ret (r, w') → trap_ctx w' = trap_ctx w.
Proof.
  rewrite time_handler_eq. case_decide; [apply set_time_ctx|]. by intros [= _ ->].
Qed.

Lemma dispatch_ctx ext fid w r w' :
  sbi_dispatch ext fid w = Ret (r, w') → trap_ctx w' = trap_ctx w.
Proof.
  unfold sbi_dispatch. intros Hr.
  repeat (case_decide; [unfold ctx_read in *; minv0;
    eauto using base_handler_ctx, putchar_ctx, getchar_ctx, set_time_ctx, time_handler_ctx|]). done.
Qed.

(** Answering a call: the two result registers, and nothing else of the guest. *)
Definition answered (r : SbiRet) (c : TrapContext) : TrapContext :=
  set_x (λ l, <[11%nat := value r]> (<[10%nat := error r]> l)) c.

Lemma sbi_vs_handler_Ret w r w' :
  sbi_vs_handler w = Ret (r, w') →
  r = None ∧ ∃ ret, trap_ctx w' = answered ret (trap_ctx w).
Proof.
  unfold sbi_vs_handler, ctx_read. intros Hr. minv0. split; [done|].
  match goal with H : sbi_dispatch _ _ _ = _ |- _ => apply dispatch_ctx in H as Hw2 end.
  repeat match goal with H : ctx_write _ _ _ = _ |- _ => apply ctx_write_Ret in H as [_ ->] end.
  eexists. unfold answered. simpl. rewrite Hw2. done.
Qed.

Lemma sbi_vs_handler_run w ext fid r w2 :
  length (x (trap_ctx w)) = 32%nat →
  x (trap_ctx w) !! 17%nat = Some ext → x (trap_ctx w) !! 16%nat = Some fid →
  sbi_dispatch ext fid w = Ret (r, w2) →
  sbi_vs_handler w = Ret (None, set_ctx (answered r (trap_ctx w)) w2).
Proof.
  intros Hl H17 H16 Hd. apply dispatch_ctx in Hd as Hc. unfold sbi_vs_handler.
  rewrite (bind_run _ _ _ _ _ (ctx_read_run 17 _ _ H17)).
  rewrite (bind_run _ _ _ _ _ (ctx_read_run 16 _ _ H16)).
  rewrite (bind_run _ _ _ _ _ Hd).
  rewrite (bind_run _ _ _ _ _ (ctx_write_run 10 (error r) w2 ltac:(rewrite Hc; lia))).
  erewrite (bind_run (ctx_write (discriminant A1) (value r)));
    [|apply (ctx_write_run 11); simpl; rewrite length_insert, Hc; lia].
  simpl. rewrite Hc. done.
Qed.

Lemma keeps_sbi : keeps_m sbi_vs_handler.
Proof. unfold sbi_vs_handler, sbi_dispatch. keeps_tac. Qed.
(** Messages change the firmware's state only. *)
Lemma keeps_print args : keeps_m (print args).
Proof. intros w u w' Hr. rewrite print_run in Hr. injection Hr as _ <-. by split. Qed.
Lemma keeps_htracking args : keeps_m (htracking args).
Proof. apply keeps_print. Qed.
Lemma keeps_herror args : keeps_m (herror args).
Proof. apply keeps_print. Qed.
#[local] Hint Resolve keeps_htracking keeps_herror : keeps.
Lemma keeps_log_page_fault n : keeps_m (log_page_fault n).
Proof. unfold log_page_fault. keeps_tac. Qed.
#[local] Hint Resolve keeps_log_page_fault : keeps.

(** The firmware's state after the data fault number [n] at [addr] was
    counted. *)
Definition fault_logged (n addr : Z) (e : E) : E :=
  if n mod 1000 =? 0 then
    logged (tracking_text [chars "guest page fault: "; fmt_dec n; chars ", addr: "; fmt_hex addr]) e
  else e.
Lemma log_page_fault_run n w :
  log_page_fault n w = Ret (tt, set_env (fault_logged n (shl (csr w htval) 2) (env w)) w).
Proof.
  unfold log_page_fault, fault_logged. destruct (_ =? 0); [|by destruct w].
  rewrite (bind_run (csr_read htval) _ w (csr w htval) w eq_refl). apply htracking_run.
Qed.

Lemma keeps_plic vmm pa i : keeps_m (handle_plic_access vmm pa i).
Proof. unfold handle_plic_access. keeps_tac. Qed.
Lemma keeps_fault_instruction vmm : keeps_m (fault_instruction (E := E) vmm).
Proof. unfold fault_instruction. keeps_tac. Qed.
#[local] Hint Resolve keeps_sbi keeps_plic keeps_fault_instruction : keeps.
Lemma keeps_page_fault vmm : keeps_m (guest_page_fault_handler vmm).
Proof. unfold guest_page_fault_handler. keeps_tac. Qed.
Lemma keeps_irq vmm : keeps_m (handle_irq vmm).
Proof. unfold handle_irq. keeps_tac. Qed.
Lemma keeps_forward : keeps_m (forward_exception (E := E)).
Proof. unfold forward_exception. keeps_tac. Qed.
#[local] Hint Resolve keeps_page_fault keeps_irq keeps_forward : keeps.

Lemma ifault_no_return vmm w r : handle_trap (TrapException InstructionGuestPageFault) vmm w ≠ Ret r.
Proof. destruct r. simpl. intros Hr. minv0. Qed.

Lemma keeps_handle_trap cause vmm : keeps_m (handle_trap cause vmm).
Proof.
  destruct cause as [[]|[]]; cbn [handle_trap];
    try (unfold privileged_inst_handler; keeps_tac; fail).
  - intros w r w' Hr. by apply ifault_no_return in Hr.
  - intros w r w' Hr. unfold csr_set_bit, csr_clear_bit in Hr. minv0. split; try done.
    intros _. unfold timer_inv. rewrite csr_set_same, csr_set_other, csr_set_same by done.
    by rewrite Z.clearbit_eq, Z.setbit_eq.
Qed.

(** ** The record behind the lock *)

Record vmm_keeps (v v' : HostVmm) : Prop := {
  vk_machine : host_machine v' = host_machine v;
  vk_hpm : hpm v' = hpm v;
  vk_guests : guests v' = guests v;
  vk_id : cur_guest_id v' = cur_guest_id v;
  vk_plic : base_addr <$> host_plic v' = base_addr <$> host_plic v;
  vk_claims : length ∘ claim_complete <$> host_plic v' = length ∘ claim_complete <$> host_plic v;
}.

#[export] Instance vmm_keeps_preorder : PreOrder vmm_keeps.
Proof.
  split.
  - intros v. by split.
  - intros v1 v2 v3 [] []. split; congruence.
Qed.

(** Replacing the claims of the controller by as many. *)
Lemma vmm_keeps_plic v p cc i c :
  host_plic v = Some p → update (claim_complete p) i c = Ret cc →
  vmm_keeps v (set_plic (Some (MkPlic (base_addr p) cc)) v).
Proof.
  intros Hp Hu. apply update_Ret in Hu as [_ ->]. split; simpl; rewrite ?Hp; try done.
  simpl. by rewrite length_insert.
Qed.

Lemma plic_access_vmm vmm pa i w r vmm' w' :
  handle_plic_access vmm pa i w = Ret ((r, vmm'), w') → vmm_keeps vmm vmm'.
Proof.
  unfold handle_plic_access. intros Hr. minv0.
  destruct (_ && _); [|done]. destruct (_ =? 0); [|destruct (_ =? 1)].
  - destruct (inst_view i); minv0; done.
  - destruct (inst_view i); minv0; [done| |done]. by eapply vmm_keeps_plic.
  - minv0. done.
Qed.

Lemma page_fault_vmm vmm w r vmm' w' :
  guest_page_fault_handler vmm w = Ret ((r, vmm'), w') → vmm_keeps vmm vmm'.
Proof.
  unfold guest_page_fault_handler. intros Hr. minv0.
  destruct (is_plic_access _); minv0; [|done].
  match goal with H : match ?fi with _ => _ end _ = _ |- _ => destruct fi; minv0; [done|] end.
  match goal with H : match ?o with _ => _ end _ = _ |- _ => destruct o; minv0; [|done] end.
  match goal with H : handle_plic_access _ _ _ _ = Ret (?r, _) |- _ =>
    destruct r as [r1 v1]; apply plic_access_vmm in H end.
  cbn [fst snd] in *. destruct r1; minv0; done.
Qed.

Lemma handle_irq_vmm vmm w vmm' w' : handle_irq vmm w = Ret (vmm', w') → vmm_keeps vmm vmm'.
Proof.
  unfold handle_irq. intros Hr. minv0. etrans; [by eapply vmm_keeps_plic|]. by split.
Qed.

Lemma handle_trap_vmm cause vmm w r vmm' w' :
  handle_trap cause vmm w = Ret ((r, vmm'), w') → vmm_keeps vmm vmm'.
Proof.
  destruct cause as [[]|[]]; cbn [handle_trap]; intros Hr; minv0; try done.
  1,2: match goal with H : guest_page_fault_handler _ _ = Ret (?r, _) |- _ =>
    destruct r; etrans; [by eapply page_fault_vmm|by split] end.
  - etrans; [by eapply handle_irq_vmm|by split].
Qed.

(** ** Entering the guest *)

Lemma switch_to_guest_Ret w va w' :
  switch_to_guest syms w = Ret (va, w') →
  trampoline_va syms (sym_restore syms) = Ret va ∧
  csr w' stvec = TRAMPOLINE ∧ csr w' hgatp = ctx_hgatp (trap_ctx w) ∧
  (∀ c, c ≠ stvec → c ≠ hgatp → csr w' c = csr w c) ∧
  w_sys w' = w_sys w ∧ env w' = env w ∧ trap_ctx w' = trap_ctx w ∧ HOST_VMM w' = HOST_VMM w.
Proof.
  unfold switch_to_guest, set_user_trap_entry, load_hgatp, csr_write, csr_read. intros Hr. minv0.
  match goal with H : (if negb (?a =? ?b) then _ else _) _ = _ |- _ =>
    destruct (Z.eqb_spec a b) as [Heq|Hne]; cbn [negb] in H; minv0 end.
  - split; [done|]. split; [by rewrite csr_set_same|]. split; [done|]. split; [|done].
    intros c Hc1 _. by rewrite csr_set_other.
  - match goal with H : (_ =? _) = true |- _ => apply Z.eqb_eq in H; rename H into Hk end.
    split; [done|]. split; [by rewrite csr_set_other, csr_set_same|].
    split; [by rewrite <- Hk|]. split; [|done].
    intros c Hc1 Hc2. by rewrite !csr_set_other.
Qed.

(** The whole handler: what the arms are given and what follows them. *)
Lemma trap_handler_Ret w va w' :
  trap_handler syms w = Ret (va, w') →
  ∃ vmm vmm' k w1 w2,
    trampoline_va syms (sym_alltraps_k syms) = Ret k ∧
    HOST_VMM w = Some (MkMutex false vmm) ∧
    w1 = set_vmm (Some (MkMutex true vmm))
           (set_csr sscratch (sym_trap_from_kernel syms) (set_csr stvec k w)) ∧
    handle_trap (scause_cause (csr w scause)) vmm w1 = Ret ((None, vmm'), w2) ∧
    switch_to_guest syms (set_vmm (Some (MkMutex false vmm')) w2) = Ret (va, w').
Proof.
  unfold trap_handler, set_kernel_trap_entry, csr_write, csr_read, lock_vmm, unlock_vmm.
  intros Hr. minv0.
  match goal with H : (if locked ?m then _ else _) _ = _ |- _ =>
    destruct m as [[] vmm]; cbn [locked inner] in H; minv0 end.
  match goal with H : handle_trap _ _ _ = Ret (?r, ?w2) |- _ =>
    destruct r as [[e|] vmm'] end.
  { unfold handle_internal_vmm_error in *. cbn [fst] in *. minv0. }
  cbn [fst snd] in *. minv0. eexists _, _, _, _, _. split_and!; done.
Qed.
End Handlers.
