(* ===== verification/VmexitClaims.v ===== *)
(** * What the hypervisor promises a running guest

    Guest execution and traps as a transition system, and the effect of each
    kind of trap. *)
From stdpp Require Import base tactics numbers list option gmap relations strings.
From S2P Require Import Prelude Constants Address Pte Mem FrameAllocator PageTable Fdt.
From S2P Require Import Sv39 MemorySet Pmap Machine Sbi Console Plic Vmexit VmexitFacts.
Import riscv_regs.

(** ** A platform to run examples on

    Firmware that answers every call with success and the argument, a PLIC that
    reports interrupt 8, and a log of what was written where.  The decoder and
    the causes follow the RISC-V manuals. *)
Record Platform := MkPlatform { pf_timer : Z; pf_log : list (Z * Z) }.
#[export] Instance Platform_env : Env Platform := {
  sbi_ecall e eid fid a0 := ((0, a0), MkPlatform (pf_timer e) (pf_log e ++ [(eid, a0)]));
  rt_get_sbi_impl_id e := (1, e);
  rt_get_sbi_impl_version e := (2, e);
  rt_get_mvendorid e := (0, e);
  rt_get_marchid e := (0, e);
  rt_get_mimpid e := (0, e);
  rt_set_timer e t := MkPlatform t (pf_log e);
  mmio_read32 e a := (8, e);
  mmio_write32 e a v := MkPlatform (pf_timer e) (pf_log e ++ [(a, v)]);
  hgatp_kept v := v;
}.
#[export] Instance Rv_decoder : Decoder := {
  Instruction := InstView;
  instruction_length i := if Z.land i 3 =? 3 then 4 else 2;
  decode i :=
    if (Z.land i 0x7f =? 0x03) && (Z.land (Z.shiftr i 12) 7 =? 2) then
      Some (Lw (Z.land (Z.shiftr i 7) 31))
    else if (Z.land i 0x7f =? 0x23) && (Z.land (Z.shiftr i 12) 7 =? 2) then
      Some (Sw (Z.land (Z.shiftr i 20) 31))
    else if i =? 0 then None else Some OtherInst;
  inst_view i := i;
}.
#[export] Instance Rv_cause : CauseDecoder := λ bits,
  if 2 ^ 63 <=? bits then
    TrapInterrupt (match bits - 2 ^ 63 with
                   | 5 => SupervisorTimer | 9 => SupervisorExternal | _ => OtherInterrupt end)
  else
    TrapException (match bits with
                   | 8 => UserEnvCall | 10 => VirtualSupervisorEnvCall
                   | 20 => InstructionGuestPageFault | 21 => LoadGuestPageFault
                   | 22 => VirtualInstruction | 23 => StoreGuestPageFault
                   | 2 => IllegalInstruction | _ => OtherException end).

Definition demo_syms : TrapSymbols := MkTrapSyms 0x80201000 0x80201200 0x80201100 0x80210000 0x80211000.
Definition demo_gpm : GuestMemorySet PageTableSv39 := MkSet (MkSv39 (PPN 0x80304) []) [].
Definition demo_vmm : HostVmm :=
  MkVmm meta_default (MkSet (MkSv39 (PPN 0x80300) []) [])
    [Some (MkGuest meta_default demo_gpm 0 (vcpu_new 0)); None; None; None] 0
    (Some (plic_new 0x0c000000)) false 0 0 0.
(** A guest about to trap with the given cause. *)
Definition demo_csr (cause inst : Z) : Csr → Z := λ c,
  match c with
  | stvec => TRAMPOLINE | scause => cause | hgatp => 8 * 2 ^ 60 + 0x80304
  | sie => 0x222 | hvip => 0 | vstvec => 0xffff000 | htinst => inst
  | htval => (0x0c000000 + 0x201004) / 4 | _ => 0
  end.
Definition demo_ctx (regs : list Z) : TrapContext :=
  MkCtx regs 0x100 0x90200100 (8 * 2 ^ 60 + 0x80304) TRAP_CONTEXT 0x80211000 0x80.
Definition demo_world (cause inst : Z) (regs : list Z) : World Platform :=
  MkWorld (MkSys ∅ None) (demo_csr cause inst) (MkPlatform 0 []) (demo_ctx regs)
    (Some (MkMutex false demo_vmm)).

Section Claims.
Context {E : Type} `{Env E} `{Decoder} `{CauseDecoder}.
Context (syms : TrapSymbols).
Abbreviation W := (World E).
Implicit Types w : W.

(** ** The running system *)

Record vmm_wf (v : HostVmm) : Prop := {
  vw_guests : length (guests v) = Z.to_nat MAX_GUESTS;
  vw_id : 0 ≤ cur_guest_id v < MAX_GUESTS;
  vw_plic : ∀ p, host_plic v = Some p → length (claim_complete p) = Z.to_nat MAX_CONTEXTS;
}.

(** Ready to enter the guest. *)
Record entry_ok w : Prop := {
  eo_vmm : ∃ vmm, HOST_VMM w = Some (MkMutex false vmm) ∧ vmm_wf vmm;
  eo_len : length (x (trap_ctx w)) = 32%nat;
  eo_stvec : csr w stvec = TRAMPOLINE;
  eo_hgatp : csr w hgatp = ctx_hgatp (trap_ctx w);
  eo_timer : timer_inv w;
}.

(** What a guest may do until it traps: run, change its memory, its registers
    and the platform.  It does not reach the hypervisor's records, the host's
    interrupt enables, [hgatp], the pending timer bit, or the fields of the
    trap context that the entry code does not store to. *)
Record guest_runs w w1 : Prop := {
  gr_vmm : HOST_VMM w1 = HOST_VMM w;
  gr_sie : csr w1 sie = csr w sie;
  gr_timer : Z.testbit (csr w1 hvip) VSTIP_BIT = Z.testbit (csr w hvip) VSTIP_BIT;
  gr_hgatp : csr w1 hgatp = csr w hgatp;
  gr_ctx : ctx_hgatp (trap_ctx w1) = ctx_hgatp (trap_ctx w) ∧
           kernel_sp (trap_ctx w1) = kernel_sp (trap_ctx w) ∧
           ctx_trap_handler (trap_ctx w1) = ctx_trap_handler (trap_ctx w);
  gr_len : length (x (trap_ctx w1)) = length (x (trap_ctx w));
}.

Inductive vm_step : W → W → Prop :=
| run_and_trap w w1 va w' :
    guest_runs w w1 → trap_handler syms w1 = Ret (va, w') → vm_step w w'.

Lemma vmm_wf_keeps v v' : vmm_wf v → vmm_keeps v v' → vmm_wf v'.
Proof.
  intros [Hg Hi Hp] [Em Eh Eg Ei Eb Ec]. split.
  - by rewrite Eg.
  - by rewrite Ei.
  - intros p Hp'. rewrite Hp' in Ec. destruct (host_plic v) as [q|] eqn:Hq; [|done].
    simpl in Ec. injection Ec as ->. by apply Hp.
Qed.

(** What a trap does to the state the hypervisor relies on. *)
Lemma trap_handler_keeps w va w' :
  trap_handler syms w = Ret (va, w') →
  ∃ vmm vmm', HOST_VMM w = Some (MkMutex false vmm) ∧ HOST_VMM w' = Some (MkMutex false vmm') ∧
    vmm_keeps vmm vmm' ∧ csr w' stvec = TRAMPOLINE ∧
    csr w' hgatp = ctx_hgatp (trap_ctx w') ∧
    ctx_hgatp (trap_ctx w') = ctx_hgatp (trap_ctx w) ∧
    kernel_sp (trap_ctx w') = kernel_sp (trap_ctx w) ∧
    ctx_trap_handler (trap_ctx w') = ctx_trap_handler (trap_ctx w) ∧
    length (x (trap_ctx w')) = length (x (trap_ctx w)) ∧
    (timer_inv w → timer_inv w') ∧
    trampoline_va syms (sym_restore syms) = Ret va.
Proof.
  intros Hr. destruct (trap_handler_Ret syms w va w' Hr) as (vmm&vmm'&k&w1&w2&Hk&Hv&Hw1&Hh&Hs).
  destruct (keeps_handle_trap _ _ _ _ _ Hh) as [K1 K2 K3 K4 K5 K6 K7].
  apply handle_trap_vmm in Hh.
  destruct (switch_to_guest_Ret syms _ va w' Hs) as (S1&S2&S3&S4&_&_&S5&S6).
  exists vmm, vmm'. rewrite S5, S6, S2, S3. subst w1. cbn in K3, K4, K5, K6 |- *.
  split_and!; try done. intros Ht.
  assert (timer_inv w2) as Ht2.
  { apply K7. unfold timer_inv in *. simpl. done. }
  unfold timer_inv in *. rewrite !S4 by done. done.
Qed.

Lemma entry_ok_step w w' : entry_ok w → vm_step w w' →
  entry_ok w' ∧ csr w' hgatp = csr w hgatp ∧
  ∃ v v', HOST_VMM w = Some (MkMutex false v) ∧ HOST_VMM w' = Some (MkMutex false v') ∧ vmm_keeps v v'.
Proof.
  intros [(vmm&Hv&Hwf) Hl Hst Hhg Ht] Hs. inversion Hs as [? w1 va ? [G1 G2 G3 G4 (G5&G6&G7) G8] Hr]; subst.
  destruct (trap_handler_keeps w1 va w' Hr) as (v&v'&T1&T2&T3&T4&T5&T6&T7&T8&T9&T10&_).
  rewrite G1, Hv in T1. injection T1 as <-.
  split; [|split; [congruence|eauto]]. split.
  - exists v'. split; [done|]. by eapply vmm_wf_keeps.
  - congruence.
  - done.
  - done.
  - apply T10. unfold timer_inv in *. congruence.
Qed.

Lemma entry_ok_reach w w' : rtc (vm_step) w w' → entry_ok w →
  entry_ok w' ∧ csr w' hgatp = csr w hgatp ∧
  ∃ v v', HOST_VMM w = Some (MkMutex false v) ∧ HOST_VMM w' = Some (MkMutex false v') ∧ vmm_keeps v v'.
Proof.
  induction 1 as [w|w1 w2 w3 Hs _ IH]; intros Hok.
  - split; [done|]. split; [done|]. destruct Hok as [(v&Hv&_) _ _ _ _]. by exists v, v.
  - destruct (entry_ok_step w1 w2 Hok Hs) as (Hok2&Hh2&v1&v2&V1&V2&K12).
    destruct (IH Hok2) as (Hok3&Hh3&v2'&v3&V2'&V3&K23).
    rewrite V2 in V2'. injection V2' as <-.
    split; [done|]. split; [congruence|]. exists v1, v3. split_and!; [done..|]. by etrans.
Qed.

(** ** What single traps do *)

(** The trampoline routines lie in one page. *)
Definition syms_ok : Prop :=
  0 ≤ sym_alltraps syms ∧ sym_alltraps syms ≤ sym_alltraps_k syms < sym_alltraps syms + 4096 ∧
  sym_alltraps syms ≤ sym_restore syms < sym_alltraps syms + 4096.
Definition tramp_of (f : Z) : Z := f - sym_alltraps syms + TRAMPOLINE.

Lemma trampoline_va_run f :
  sym_alltraps syms ≤ f < sym_alltraps syms + 4096 → trampoline_va syms f = Ret (tramp_of f).
Proof.
  intros Hf. unfold trampoline_va. rewrite usub_run by lia. simpl.
  rewrite uadd_run; [done|]. unfold TRAMPOLINE, W64, PAGE_SIZE. lia.
Qed.

(** The state the arms start from. *)
Definition entered (vmm : HostVmm) w : W :=
  set_vmm (Some (MkMutex true vmm))
    (set_csr sscratch (sym_trap_from_kernel syms)
       (set_csr stvec (tramp_of (sym_alltraps_k syms)) w)).
(** The state the guest is entered with. *)
Definition left_with (vmm : HostVmm) w : W :=
  set_csr stvec TRAMPOLINE (set_vmm (Some (MkMutex false vmm)) w).

Lemma set_kernel_run w :
  sym_alltraps syms ≤ sym_alltraps_k syms < sym_alltraps syms + 4096 →
  set_kernel_trap_entry syms w = Ret (tt,
    set_csr sscratch (sym_trap_from_kernel syms)
      (set_csr stvec (tramp_of (sym_alltraps_k syms)) w)).
Proof.
  intros Hs. unfold set_kernel_trap_entry, mbind, M_bind, lift. by rewrite trampoline_va_run.
Qed.
Lemma lock_run w vmm :
  HOST_VMM w = Some (MkMutex false vmm) →
  lock_vmm w = Ret (vmm, set_vmm (Some (MkMutex true vmm)) w).
Proof. intros Hv. unfold lock_vmm, mbind, M_bind, gets. by rewrite Hv. Qed.
(** The instruction of a data fault: the one [htinst] gives or, where that is
    zero, the eight bytes at the program counter, translated by the guest's own
    table. *)
Definition faulting_inst vmm w (inst : Z) : Prop :=
  (csr w htinst ≠ 0 ∧ csr w htinst ≠ 0x3020 ∧ csr w htinst ≠ 0x3000 ∧ inst = csr w htinst) ∨
  (csr w htinst = 0 ∧ ∃ a,
    fast_two_stage_translation (G := PageTableSv39) (cur_guest_id vmm) (ctx_sepc (trap_ctx w))
      (csr w vsatp) (w_sys w) = Ret (Some a, w_sys w) ∧ inst = load 8 (sys_mem (w_sys w)) a).

Lemma fault_instruction_run vmm w inst :
  faulting_inst vmm w inst → fault_instruction vmm w = Ret (inr inst, w).
Proof.
  unfold fault_instruction. rewrite (bind_run (csr_read htinst) _ w (csr w htinst) w eq_refl).
  intros [(N0&N1&N2&->)|(N0&a&Ht&->)].
  - by rewrite (proj2 (Z.eqb_neq _ _) N0), (proj2 (Z.eqb_neq _ _) N1), (proj2 (Z.eqb_neq _ _) N2).
  - rewrite N0. cbn [Z.eqb]. rewrite (bind_run (gets trap_ctx) _ w (trap_ctx w) w eq_refl).
    rewrite (bind_run (csr_read vsatp) _ w (csr w vsatp) w eq_refl).
    rewrite (bind_run (on_sys _) _ w (Some a) w); [done|].
    unfold on_sys. rewrite Ht. by destruct w.
Qed.

Lemma trap_handler_run w vmm vmm' w2 :
  syms_ok → HOST_VMM w = Some (MkMutex false vmm) →
  handle_trap (scause_cause (csr w scause)) vmm (entered vmm w) = Ret ((None, vmm'), w2) →
  csr w hgatp = ctx_hgatp (trap_ctx w) →
  trap_handler syms w = Ret (tramp_of (sym_restore syms), left_with vmm' w2).
Proof.
  intros (Hs0&Hs1&Hs2) Hv Hh Hg.
  destruct (keeps_handle_trap _ _ _ _ _ Hh) as [_ K2 K3 _ _ _ _].
  unfold trap_handler. rewrite (bind_run _ _ _ _ _ (set_kernel_run w Hs1)).
  set (w0 := set_csr sscratch _ _).
  rewrite (bind_run (csr_read scause) _ w0 (csr w scause) w0 eq_refl).
  rewrite (bind_run lock_vmm _ _ _ _ (lock_run w0 vmm Hv)).
  change (set_vmm (Some (MkMutex true vmm)) w0) with (entered vmm w).
  rewrite (bind_run _ _ _ _ _ Hh). cbn [fst snd].
  rewrite (bind_run (unlock_vmm vmm') _ w2 tt (set_vmm (Some (MkMutex false vmm')) w2) eq_refl).
  set (w3 := set_vmm (Some (MkMutex false vmm')) w2).
  rewrite (bind_run (mret tt) _ w3 tt w3 eq_refl).
  unfold switch_to_guest. rewrite (bind_run set_user_trap_entry _ w3 tt (left_with vmm' w2) eq_refl).
  rewrite (bind_run load_hgatp _ _ tt (left_with vmm' w2)).
  - unfold lift. by rewrite trampoline_va_run.
  - unfold load_hgatp, mbind, M_bind, gets, csr_read. 
    assert ((csr (left_with vmm' w2) hgatp =? ctx_hgatp (trap_ctx (left_with vmm' w2))) = true) as E2.
    { apply Z.eqb_eq. change (csr w2 hgatp = ctx_hgatp (trap_ctx w2)). rewrite K2, K3. exact Hg. }
    unfold gets. by rewrite E2.
Qed.

(** ** The interrupt controller *)

(** The claim/complete register of context [c]. *)
Definition claim_reg (p : PlicState) (c : Z) : Z := base_addr p + 0x200004 + 0x1000 * c.

(** How [handle_plic_access] reads an address. *)
Lemma claim_reg_decode p c :
  0 ≤ base_addr p → 0 ≤ c < MAX_CONTEXTS → claim_reg p c < W64 →
  let offset := wrapping_sub (claim_reg p c) (base_addr p) in
  (0x200000 <=? offset) && (offset <? 0x200000 + 0x1000 * MAX_CONTEXTS) = true ∧
  (offset - 0x200000) / 0x1000 = c ∧ Z.shiftr (Z.land (offset - 0x200000) 0xfff) 2 = 1.
Proof.
  intros Hb Hc Hlt. unfold claim_reg, wrapping_sub, MAX_CONTEXTS in *. cbv zeta.
  replace (base_addr p + 0x200004 + 0x1000 * c - base_addr p) with (0x200004 + c * 4096) by lia.
  rewrite Z.mod_small by (unfold W64; lia).
  replace (0x200004 + c * 4096 - 0x200000) with (c * 4096 + 4) by lia.
  split; [|split].
  - apply andb_true_intro. split; [apply Z.leb_le|apply Z.ltb_lt]; lia.
  - apply div_hi; lia.
  - rewrite (land_mask _ 12) by done. change (2 ^ 12) with 4096. by rewrite mod_lo by lia.
Qed.

Lemma plic_claim_run vmm p c i (rd : nat) v w :
  host_plic vmm = Some p → 0 ≤ base_addr p → 0 ≤ c < MAX_CONTEXTS → claim_reg p c < W64 →
  inst_view i = Lw (Z.of_nat rd) → (rd < length (x (trap_ctx w)))%nat →
  claim_complete p !! Z.to_nat c = Some v →
  handle_plic_access vmm (claim_reg p c) i w =
  Ret ((None, vmm), set_ctx (set_x (λ _, <[rd := v]> (x (trap_ctx w))) (trap_ctx w)) w).
Proof.
  intros Hp Hb Hc Hlt Hi Hrd Hv. destruct (claim_reg_decode p c Hb Hc Hlt) as (H1'&H2'&H3').
  unfold handle_plic_access. rewrite Hp. rewrite (bind_run (lift (unwrap (Some p))) _ w p w eq_refl).
  cbv zeta. rewrite H1', H2', H3'. cbn [Z.eqb Pos.eqb]. rewrite Hi.
  rewrite (bind_run (lift _) _ w v w).
  2: { unfold lift. rewrite (proj2 (index_Ret _ _ v)); [done|]. split; [lia|done]. }
  by rewrite (bind_run _ _ _ _ _ (ctx_write_run rd v w Hrd)).
Qed.

Lemma plic_complete_run vmm p c i (rs2 : nat) v w :
  host_plic vmm = Some p → 0 ≤ base_addr p → 0 ≤ c < MAX_CONTEXTS → claim_reg p c < W64 →
  length (claim_complete p) = Z.to_nat MAX_CONTEXTS →
  inst_view i = Sw (Z.of_nat rs2) → x (trap_ctx w) !! rs2 = Some v →
  handle_plic_access vmm (claim_reg p c) i w =
  Ret ((None, set_plic (Some (MkPlic (base_addr p) (<[Z.to_nat c := 0]> (claim_complete p)))) vmm),
    set_csr hvip (Z.clearbit (csr w hvip) VSEIP_BIT)
      (set_env (mmio_write32 (env w) (claim_reg p c) (v mod W32)) w)).
Proof.
  intros Hp Hb Hc Hlt Hlen Hi Hv. destruct (claim_reg_decode p c Hb Hc Hlt) as (H1'&H2'&H3').
  unfold handle_plic_access. rewrite Hp. rewrite (bind_run (lift (unwrap (Some p))) _ w p w eq_refl).
  cbv zeta. rewrite H1', H2', H3'. cbn [Z.eqb Pos.eqb]. rewrite Hi.
  rewrite (bind_run _ _ _ _ _ (ctx_read_run rs2 v w Hv)).
  set (w1 := set_env (mmio_write32 (env w) (claim_reg p c) (v mod W32)) w).
  rewrite (bind_run (on_env (λ e, (tt, mmio_write32 e (claim_reg p c) (v mod W32)))) _ w tt w1 eq_refl).
  rewrite (bind_run (lift _) _ w1 (<[Z.to_nat c := 0]> (claim_complete p)) w1).
  2: { unfold lift. rewrite update_run; [done|]. rewrite Hlen. unfold MAX_CONTEXTS in *. lia. }
  done.
Qed.

(** A load or store fault whose instruction [htinst] gives. *)
Definition plic_fault w (addr : Z) (len : Z) (i : Instruction) : Prop :=
  (scause_cause (csr w scause) = TrapException LoadGuestPageFault ∨
   scause_cause (csr w scause) = TrapException StoreGuestPageFault) ∧
  shl (csr w htval) 2 = addr ∧ is_plic_access addr = true ∧
  csr w htinst ≠ 0 ∧ csr w htinst ≠ 0x3020 ∧ csr w htinst ≠ 0x3000 ∧
  decode_inst (csr w htinst) = Ret (len, Some i).

(** A data fault in the controller's window, up to the emulated access. *)
Lemma window_fault_eq vmm w inst len i :
  is_plic_access (shl (csr w htval) 2) = true →
  faulting_inst vmm w inst → decode_inst inst = Ret (len, Some i) →
  guest_page_fault_handler vmm w =
  (r ← handle_plic_access vmm (shl (csr w htval) 2) i;
   match r.1 with
   | Some e => mret (Some e, r.2)
   | None =>
       ctx ← gets trap_ctx;
       pc ← lift (uadd (ctx_sepc ctx) len);
       _ ← modify (λ w, set_ctx (set_ctx_sepc pc (trap_ctx w)) w);
       mret (None, r.2)
   end) w.
Proof.
  intros Ha Hi Hd. unfold guest_page_fault_handler.
  rewrite (bind_run (csr_read htval) _ w (csr w htval) w eq_refl). cbv zeta. rewrite Ha.
  rewrite (bind_run _ _ _ _ _ (fault_instruction_run vmm w inst Hi)).
  rewrite (bind_run (lift _) _ w (len, Some i) w) by (unfold lift; by rewrite Hd). done.
Qed.

(** A data fault: what the guest is resumed with. *)
Definition fault_done (vmm' : HostVmm) w2 (len : Z) : W :=
  let w3 := set_ctx (set_ctx_sepc (ctx_sepc (trap_ctx w2) + len) (trap_ctx w2)) w2 in
  let n := guest_page_falut vmm' + 1 in
  left_with (set_page_falut n vmm')
    (set_env (fault_logged n (shl (csr w2 htval) 2) (env w2)) w3).

Definition data_fault w : Prop :=
  scause_cause (csr w scause) = TrapException LoadGuestPageFault ∨
  scause_cause (csr w scause) = TrapException StoreGuestPageFault.

Lemma data_fault_run w vmm inst len i vmm' w2 :
  syms_ok → HOST_VMM w = Some (MkMutex false vmm) → csr w hgatp = ctx_hgatp (trap_ctx w) →
  data_fault w → is_plic_access (shl (csr w htval) 2) = true →
  faulting_inst vmm w inst → decode_inst inst = Ret (len, Some i) →
  handle_plic_access vmm (shl (csr w htval) 2) i (entered vmm w) = Ret ((None, vmm'), w2) →
  ctx_sepc (trap_ctx w2) + len < W64 → guest_page_falut vmm' + 1 < W64 →
  trap_handler syms w = Ret (tramp_of (sym_restore syms), fault_done vmm' w2 len).
Proof.
  intros Hs Hv Hg Hc Ha Hi Hd Hh Hpc Hn.
  apply (trap_handler_run w vmm); try done. set (w1 := entered vmm w) in *.
  set (w3 := set_ctx (set_ctx_sepc (ctx_sepc (trap_ctx w2) + len) (trap_ctx w2)) w2).
  assert (guest_page_fault_handler vmm w1 = Ret ((None, vmm'), w3)) as Hf.
  { rewrite (window_fault_eq vmm w1 inst len i Ha Hi Hd).
    change (csr w1 htval) with (csr w htval). rewrite (bind_run _ _ _ _ _ Hh). cbn [fst snd].
    rewrite (bind_run (gets trap_ctx) _ w2 (trap_ctx w2) w2 eq_refl).
    rewrite (bind_run (lift _) _ w2 (ctx_sepc (trap_ctx w2) + len) w2); [done|].
    unfold lift. by rewrite uadd_run. }
  destruct Hc as [-> | ->]; cbn [handle_trap]; rewrite (bind_run _ _ _ _ _ Hf); cbn [fst snd];
    (rewrite (bind_run (lift _) _ w3 (guest_page_falut vmm' + 1) w3);
      [by rewrite (bind_run _ _ _ _ _ (log_page_fault_run _ w3))|unfold lift; by rewrite uadd_run]).
Qed.

Lemma plic_fault_run w vmm addr len i vmm' w2 :
  syms_ok → HOST_VMM w = Some (MkMutex false vmm) → csr w hgatp = ctx_hgatp (trap_ctx w) →
  plic_fault w addr len i →
  handle_plic_access vmm addr i (entered vmm w) = Ret ((None, vmm'), w2) →
  ctx_sepc (trap_ctx w2) + len < W64 → guest_page_falut vmm' + 1 < W64 →
  trap_handler syms w = Ret (tramp_of (sym_restore syms), fault_done vmm' w2 len).
Proof.
  intros Hs Hv Hg (Hc&<-&Hp&N0&N1&N2&Hd) Hh Hpc Hn.
  apply (data_fault_run w vmm (csr w htinst) len i); try done. left. done.
Qed.

(** ** Data faults that are not emulated *)

Lemma fatal_run w vmm :
  syms_ok → HOST_VMM w = Some (MkMutex false vmm) → data_fault w →
  guest_page_falut vmm + 1 < W64 →
  (∃ e w2, guest_page_fault_handler vmm (entered vmm w) = Ret ((Some e, vmm), w2)) ∨
  guest_page_fault_handler vmm (entered vmm w) = Panic Explicit →
  trap_handler syms w = Panic Explicit.
Proof.
  intros (Hs0&Hs1&Hs2) Hv Hc Hn Hcase. unfold trap_handler.
  rewrite (bind_run _ _ _ _ _ (set_kernel_run w ltac:(done))).
  set (w0 := set_csr sscratch _ _).
  rewrite (bind_run (csr_read scause) _ w0 (csr w scause) w0 eq_refl).
  rewrite (bind_run lock_vmm _ _ _ _ (lock_run w0 vmm Hv)).
  change (set_vmm (Some (MkMutex true vmm)) w0) with (entered vmm w).
  assert (handle_trap (scause_cause (csr w scause)) vmm (entered vmm w) =
    (r ← guest_page_fault_handler vmm;
     n ← lift (uadd (guest_page_falut r.2) 1);
     _ ← log_page_fault n; mret (r.1, set_page_falut n r.2)) (entered vmm w)) as Hh
    by (by destruct Hc as [-> | ->]).
  unfold mbind at 1, M_bind at 1. rewrite Hh.
  destruct Hcase as [(e&w2&Hf)|Hf].
  - rewrite (bind_run _ _ _ _ _ Hf). cbn [fst snd].
    rewrite (bind_run (lift _) _ w2 (guest_page_falut vmm + 1) w2)
      by (unfold lift; by rewrite uadd_run).
    by rewrite (bind_run _ _ _ _ _ (log_page_fault_run _ w2)).
  - unfold mbind at 1, M_bind at 1. by rewrite Hf.
Qed.

Lemma outside_fault_eq vmm w :
  is_plic_access (shl (csr w htval) 2) = false →
  ∃ w2, guest_page_fault_handler vmm w = Ret ((Some DeviceNotFound, vmm), w2).
Proof.
  intros Ha. unfold guest_page_fault_handler.
  rewrite (bind_run (csr_read htval) _ w (csr w htval) w eq_refl). cbv zeta. rewrite Ha.
  rewrite (bind_run (gets trap_ctx) _ w (trap_ctx w) w eq_refl).
  destruct (herror_run [chars "addr: "; fmt_hex (shl (csr w htval) 2); chars ", sepc: ";
    fmt_hex (ctx_sepc (trap_ctx w))] w) as [e He].
  rewrite (bind_run _ _ _ _ _ He). by eexists.
Qed.

Lemma no_inst_eq vmm w e w2 :
  is_plic_access (shl (csr w htval) 2) = true → fault_instruction vmm w = Ret (inl e, w2) →
  guest_page_fault_handler vmm w = Ret ((Some e, vmm), w2).
Proof.
  intros Ha Hi. unfold guest_page_fault_handler.
  rewrite (bind_run (csr_read htval) _ w (csr w htval) w eq_refl). cbv zeta. rewrite Ha.
  by rewrite (bind_run _ _ _ _ _ Hi).
Qed.
Lemma pseudo_inst_eq vmm w :
  csr w htinst = 0x3020 ∨ csr w htinst = 0x3000 →
  ∃ w2, fault_instruction vmm w = Ret (inl PseudoInst, w2).
Proof.
  intros Hi. unfold fault_instruction.
  rewrite (bind_run (csr_read htinst) _ w (csr w htinst) w eq_refl).
  destruct (herror_run [chars "fault on 1st stage page table walk"] w) as [e He].
  eexists. destruct Hi as [-> | ->]; cbn [Z.eqb Pos.eqb orb];
    by rewrite (bind_run _ _ _ _ _ He).
Qed.
Lemma untranslated_inst_eq vmm w :
  csr w htinst = 0 →
  fast_two_stage_translation (G := PageTableSv39) (cur_guest_id vmm) (ctx_sepc (trap_ctx w))
    (csr w vsatp) (w_sys w) = Ret (None, w_sys w) →
  ∃ w2, fault_instruction vmm w = Ret (inl TranslationError, w2).
Proof.
  intros Hi Ht. unfold fault_instruction.
  rewrite (bind_run (csr_read htinst) _ w (csr w htinst) w eq_refl), Hi. cbn [Z.eqb].
  rewrite (bind_run (gets trap_ctx) _ w (trap_ctx w) w eq_refl).
  rewrite (bind_run (csr_read vsatp) _ w (csr w vsatp) w eq_refl).
  rewrite (bind_run (on_sys _) _ w None w) by (unfold on_sys; rewrite Ht; by destruct w).
  destruct (herror_run [chars "inst addr: "; fmt_hex (ctx_sepc (trap_ctx w))] w) as [e He].
  rewrite (bind_run _ _ _ _ _ He). by eexists.
Qed.
Lemma undecoded_eq vmm w inst len :
  is_plic_access (shl (csr w htval) 2) = true → faulting_inst vmm w inst →
  decode_inst inst = Ret (len, None) →
  guest_page_fault_handler vmm w = Ret ((Some DecodeInstError, vmm), w).
Proof.
  intros Ha Hi Hd. unfold guest_page_fault_handler.
  rewrite (bind_run (csr_read htval) _ w (csr w htval) w eq_refl). cbv zeta. rewrite Ha.
  rewrite (bind_run _ _ _ _ _ (fault_instruction_run vmm w inst Hi)).
  by rewrite (bind_run (lift _) _ w (len, None) w) by (unfold lift; by rewrite Hd).
Qed.

(** The message of a store to a threshold register. *)
Definition threshold_text (addr v : Z) : list (list Z) :=
  tracking_text [chars "write PLIC threshold reg, addr: "; fmt_hex addr;
                 chars ", value: "; fmt_hex v].

(** An address outside the pages of the contexts. *)
Lemma plic_access_outside vmm p addr i w :
  host_plic vmm = Some p →
  (let offset := wrapping_sub addr (base_addr p) in
   ¬ (0x200000 ≤ offset < 0x200000 + 0x1000 * MAX_CONTEXTS)) →
  handle_plic_access vmm addr i w = Panic Explicit.
Proof.
  cbv zeta. intros Hp Ho. unfold handle_plic_access. rewrite Hp.
  rewrite (bind_run (lift (unwrap (Some p))) _ w p w eq_refl). cbv zeta.
  set (offset := wrapping_sub _ _) in *.
  assert ((0x200000 <=? offset) && (offset <? 0x200000 + 0x1000 * MAX_CONTEXTS) = false) as ->;
    [|done]. apply andb_false_iff.
  destruct (Z.leb_spec 0x200000 offset); [right|by left]. apply Z.ltb_ge. lia.
Qed.

(** An access by the register's index in the page of its context. *)
Lemma plic_access_inside vmm p addr i w :
  host_plic vmm = Some p →
  let offset := wrapping_sub addr (base_addr p) in
  let idx := offset mod 0x1000 / 4 in
  0x200000 ≤ offset < 0x200000 + 0x1000 * MAX_CONTEXTS →
  (2 ≤ idx → handle_plic_access vmm addr i w = Ret ((None, vmm), w)) ∧
  (idx = 1 → inst_view i = OtherInst →
    handle_plic_access vmm addr i w = Ret ((Some UnexpectedInst, vmm), w)) ∧
  (idx = 0 → (∀ r, inst_view i ≠ Sw r) →
    handle_plic_access vmm addr i w = Ret ((Some UnexpectedInst, vmm), w)) ∧
  (idx = 0 → ∀ (r : nat) v, inst_view i = Sw (Z.of_nat r) → x (trap_ctx w) !! r = Some v →
    handle_plic_access vmm addr i w =
    Ret ((None, vmm), set_env (mmio_write32 (logged (threshold_text addr (v mod W32)) (env w))
                                addr (v mod W32)) w)).
Proof.
  intros Hp offset idx Ho. unfold handle_plic_access. rewrite Hp.
  rewrite (bind_run (lift (unwrap (Some p))) _ w p w eq_refl). cbv zeta. fold offset.
  assert (Z.shiftr (Z.land (offset - 0x200000) 0xfff) 2 = idx) as ->.
  { rewrite (land_mask _ 12), shiftr_div by done. unfold idx. f_equal.
    replace (offset - 0x200000) with (offset + -512 * 2 ^ 12) by lia. by rewrite Z.mod_add. }
  assert ((0x200000 <=? offset) && (offset <? 0x200000 + 0x1000 * MAX_CONTEXTS) = true) as ->
    by (apply andb_true_intro; split; [apply Z.leb_le|apply Z.ltb_lt]; lia).
  clearbody idx. split_and!.
  - intros Hi. by rewrite (proj2 (Z.eqb_neq _ _)), (proj2 (Z.eqb_neq _ _)) by lia.
  - intros -> Hv. cbn [Z.eqb Pos.eqb]. by rewrite Hv.
  - intros -> Hv. cbn [Z.eqb]. destruct (inst_view i) as [|rs2|]; [done|by destruct (Hv rs2)|done].
  - intros -> r v Hv Hx. cbn [Z.eqb]. rewrite Hv.
    rewrite (bind_run _ _ _ _ _ (ctx_read_run r v w Hx)).
    by rewrite (bind_run _ _ _ _ _ (htracking_run _ w)).
Qed.

(** An [ecall] whose service returns. *)
Lemma ecall_run w vmm ext fid r w2 :
  syms_ok → HOST_VMM w = Some (MkMutex false vmm) →
  scause_cause (csr w scause) = TrapException VirtualSupervisorEnvCall →
  csr w hgatp = ctx_hgatp (trap_ctx w) → length (x (trap_ctx w)) = 32%nat →
  ctx_sepc (trap_ctx w) + 4 < W64 →
  x (trap_ctx w) !! 17%nat = Some ext → x (trap_ctx w) !! 16%nat = Some fid →
  sbi_dispatch ext fid (entered vmm w) = Ret (r, w2) →
  trap_handler syms w = Ret (tramp_of (sym_restore syms), left_with vmm
    (set_ctx (set_ctx_sepc (ctx_sepc (trap_ctx w) + 4) (answered r (trap_ctx w))) w2)).
Proof.
  intros Hs Hv Hc Hg Hl Hpc H17 H16 Hd. apply (trap_handler_run w vmm); try done.
  rewrite Hc. cbn [handle_trap].
  rewrite (bind_run _ _ _ _ _ (sbi_vs_handler_run (entered vmm w) ext fid r w2 Hl H17 H16 Hd)).
  set (w3 := set_ctx (answered r (trap_ctx (entered vmm w))) w2).
  rewrite (bind_run (gets trap_ctx) _ w3 (trap_ctx w3) w3 eq_refl).
  unfold mbind, M_bind, lift, modify.
  change (ctx_sepc (trap_ctx w3)) with (ctx_sepc (trap_ctx w)). rewrite uadd_run by done. done.
Qed.

(** ** Claims *)

(** C3: a running guest never leaves the hypervisor in a bad state.  From any
    state ready to enter the guest, however often the guest runs and traps: the
    lock is free, the vector is the trampoline, [hgatp] is the value of the
    trap context and has not changed, the register file has 32 entries, the
    host's page table, the guests and the interrupt controller's size are
    unchanged, and the guest's timer interrupt is pending exactly when the
    host's is masked. *)
Theorem vm_stays_ready w w' :
  entry_ok w → rtc vm_step w w' →
  entry_ok w' ∧ csr w' hgatp = csr w hgatp ∧
  ∃ v v', HOST_VMM w = Some (MkMutex false v) ∧ HOST_VMM w' = Some (MkMutex false v') ∧
    hpm v' = hpm v ∧ guests v' = guests v ∧ cur_guest_id v' = cur_guest_id v.
Proof.
  intros Hok Hr. destruct (entry_ok_reach w w' Hr Hok) as (H1'&H2'&v&v'&H3&H4&[]).
  split; [done|]. split; [done|]. exists v, v'. done.
Qed.

(** C21: answering a call.  When a guest's [ecall] returns to it, execution
    continues after the instruction, only [a0] and [a1] of the 32 registers may
    differ, and the hypervisor's record is unchanged. *)
Theorem ecall_effect w va w' :
  scause_cause (csr w scause) = TrapException VirtualSupervisorEnvCall →
  trap_handler syms w = Ret (va, w') →
  ctx_sepc (trap_ctx w') = ctx_sepc (trap_ctx w) + 4 ∧
  (∀ i, i ≠ 10%nat → i ≠ 11%nat → x (trap_ctx w') !! i = x (trap_ctx w) !! i) ∧
  HOST_VMM w' = HOST_VMM w.
Proof.
  intros Hc Hr. destruct (trap_handler_Ret syms w va w' Hr) as (vmm&vmm'&k&w1&w2&_&Hv&Hw1&Hh&Hs).
  rewrite Hc in Hh. cbn [handle_trap] in Hh. minv0.
  match goal with H : sbi_vs_handler _ = Ret _ |- _ =>
    apply sbi_vs_handler_Ret in H as (_&ret&Ectx) end.
  destruct (switch_to_guest_Ret syms _ va w' Hs) as (_&_&_&_&_&_&S5&S6).
  rewrite S5, S6. cbn. rewrite Ectx. cbn. split_and!; [done| |done].
  intros i Hi1 Hi2. by rewrite !list_lookup_insert_ne.
Qed.

(** C22: programming the timer.  An [ecall] with the TIME extension's
    [set_timer] (function 0), or the legacy one (any [a6]), always returns to the guest with success in
    [a0]; the firmware's timer is set to [a0], the guest's pending timer
    interrupt is withdrawn and the host's timer interrupt enabled. *)
Theorem set_timer_effect w vmm t ext fid :
  syms_ok → HOST_VMM w = Some (MkMutex false vmm) →
  scause_cause (csr w scause) = TrapException VirtualSupervisorEnvCall →
  csr w hgatp = ctx_hgatp (trap_ctx w) → length (x (trap_ctx w)) = 32%nat →
  ctx_sepc (trap_ctx w) + 4 < W64 →
  x (trap_ctx w) !! 17%nat = Some ext → x (trap_ctx w) !! 16%nat = Some fid →
  x (trap_ctx w) !! 10%nat = Some t →
  (ext = SBI_EXTID_TIME ∧ fid = SBI_SET_TIMER_FID) ∨ ext = SBI_SET_TIMER →
  ∃ w', trap_handler syms w = Ret (tramp_of (sym_restore syms), w') ∧
    env w' = rt_set_timer (env w) t ∧
    Z.testbit (csr w' hvip) VSTIP_BIT = false ∧ Z.testbit (csr w' sie) STIMER_BIT = true ∧
    x (trap_ctx w') = <[11%nat := 0]> (<[10%nat := SBI_SUCCESS]> (x (trap_ctx w))) ∧
    ctx_sepc (trap_ctx w') = ctx_sepc (trap_ctx w) + 4.
Proof.
  intros Hs Hv Hc Hg Hl Hpc H17 H16 H10 Hext.
  set (w1 := entered vmm w).
  set (w2 := set_csr sie (Z.setbit (csr w1 sie) STIMER_BIT)
         (set_csr hvip (Z.clearbit (csr w1 hvip) VSTIP_BIT)
            (set_env (rt_set_timer (env w1) t) w1))).
  assert (sbi_dispatch ext fid w1 = Ret (MkSbiRet SBI_SUCCESS 0, w2)) as Hd.
  { assert (sbi_legacy_set_time t w1 = Ret (MkSbiRet SBI_SUCCESS 0, w2)) as Harm by reflexivity.
    unfold sbi_dispatch. pose proof (ctx_read_run 10 t w1 H10) as Hrd.
    destruct Hext as [[-> ->]| ->].
    - rewrite decide_False, decide_True by done. by rewrite (bind_run _ _ _ _ _ Hrd).
    - rewrite !decide_False, decide_True by done. by rewrite (bind_run _ _ _ _ _ Hrd). }
  eexists. split; [by apply (ecall_run w vmm ext fid (MkSbiRet SBI_SUCCESS 0) w2)|]. unfold left_with.
  split_and!; try done; rewrite !csr_set_other by done.
  - cbn [csr set_vmm set_ctx]. unfold w2. rewrite csr_set_other, csr_set_same by done. apply Z.clearbit_eq.
  - cbn [csr set_vmm set_ctx]. unfold w2. rewrite csr_set_same. by apply Z.setbit_eq.
Qed.

(** C23: the timer fires.  A supervisor timer interrupt always returns to the
    interrupted instruction with all registers as they were; the guest's timer
    interrupt is pending, the host's is masked until the guest programs the
    timer again, and the count goes up by one. *)
Theorem timer_interrupt_effect w vmm :
  syms_ok → HOST_VMM w = Some (MkMutex false vmm) →
  scause_cause (csr w scause) = TrapInterrupt SupervisorTimer →
  csr w hgatp = ctx_hgatp (trap_ctx w) → timer_irq vmm + 1 < W64 →
  ∃ w', trap_handler syms w = Ret (tramp_of (sym_restore syms), w') ∧
    trap_ctx w' = trap_ctx w ∧ env w' = env w ∧
    Z.testbit (csr w' hvip) VSTIP_BIT = true ∧ Z.testbit (csr w' sie) STIMER_BIT = false ∧
    HOST_VMM w' = Some (MkMutex false (set_timer_irq (timer_irq vmm + 1) vmm)).
Proof.
  intros Hs Hv Hc Hg Hn. set (w1 := entered vmm w).
  set (w2 := set_csr sie (Z.clearbit (csr w1 sie) STIMER_BIT)
               (set_csr hvip (Z.setbit (csr w1 hvip) VSTIP_BIT) w1)).
  eexists. split; [apply (trap_handler_run w vmm (set_timer_irq (timer_irq vmm + 1) vmm) w2); try done|].
  - rewrite Hc. cbn [handle_trap]. unfold csr_set_bit, csr_clear_bit, mbind, M_bind, modify, lift.
    rewrite uadd_run by done. done.
  - unfold left_with. split_and!; try done; rewrite !csr_set_other by done; cbn [csr set_vmm]; unfold w2.
    + rewrite csr_set_other, csr_set_same by done. by apply Z.setbit_eq.
    + rewrite csr_set_same. apply Z.clearbit_eq.
Qed.

(** C27: an instruction page fault of the guest deadlocks.  The arm takes the
    lock the handler already holds, so instead of the panic message it was
    written to print, it never comes back. *)
Theorem instruction_fault_deadlock w vmm :
  syms_ok → HOST_VMM w = Some (MkMutex false vmm) →
  scause_cause (csr w scause) = TrapException InstructionGuestPageFault →
  trap_handler syms w = Hang.
Proof.
  intros (Hs0&Hs1&Hs2) Hv Hc.
  unfold trap_handler, set_kernel_trap_entry, csr_write, csr_read, lock_vmm, mbind, M_bind,
    gets, modify, lift. rewrite trampoline_va_run by done. cbn [HOST_VMM set_csr set_vmm].
  rewrite Hv. cbn [unwrap locked]. unfold mret, M_ret, mbind, M_bind.
  change (csr (set_csr sscratch (sym_trap_from_kernel syms)
    (set_csr stvec (tramp_of (sym_alltraps_k syms)) w)) scause) with (csr w scause).
  rewrite Hc. reflexivity.
Qed.

(** C26: exceptions the hypervisor does not handle go to the guest: [vsepc] is
    the faulting address, [vscause] the cause, execution continues at the
    guest's own vector, and its registers are untouched. *)
Theorem exception_forwarded w vmm :
  syms_ok → HOST_VMM w = Some (MkMutex false vmm) →
  scause_cause (csr w scause) = TrapException IllegalInstruction ∨
  scause_cause (csr w scause) = TrapException OtherException ∨
  scause_cause (csr w scause) = TrapInterrupt OtherInterrupt →
  csr w hgatp = ctx_hgatp (trap_ctx w) →
  ∃ w', trap_handler syms w = Ret (tramp_of (sym_restore syms), w') ∧
    csr w' vsepc = ctx_sepc (trap_ctx w) ∧ csr w' vscause = csr w scause ∧
    ctx_sepc (trap_ctx w') = csr w vstvec ∧ x (trap_ctx w') = x (trap_ctx w) ∧
    HOST_VMM w' = HOST_VMM w ∧ env w' = env w.
Proof.
  intros Hs Hv Hc Hg. set (w1 := entered vmm w).
  set (w2 := set_ctx (set_ctx_sepc (csr w vstvec) (trap_ctx w))
    (set_csr vscause (csr w scause) (set_csr vsepc (ctx_sepc (trap_ctx w)) w1))).
  assert (forward_exception w1 = Ret (tt, w2)) as Hf by reflexivity.
  exists (left_with vmm w2). split.
  - apply (trap_handler_run w vmm vmm w2); try done.
    destruct Hc as [-> | [-> | ->]]; cbn [handle_trap]; by rewrite (bind_run _ _ _ _ _ Hf).
  - split_and!; done.
Qed.

(** C24: an external interrupt.  It always returns to the interrupted
    instruction with all registers as they were; the interrupt claimed from the
    platform's controller is recorded for the current guest's context, and the
    guest's external interrupt is pending. *)
Theorem external_interrupt_effect w vmm p irq e' :
  syms_ok → HOST_VMM w = Some (MkMutex false vmm) → vmm_wf vmm →
  scause_cause (csr w scause) = TrapInterrupt SupervisorExternal →
  csr w hgatp = ctx_hgatp (trap_ctx w) → external_irq vmm + 1 < W64 →
  host_plic vmm = Some p → 0 ≤ base_addr p →
  let c := 2 * cur_guest_id vmm + 1 in
  claim_reg p c < W64 → mmio_read32 (env w) (claim_reg p c) = (irq, e') →
  ∃ w' vmm', trap_handler syms w = Ret (tramp_of (sym_restore syms), w') ∧
    env w' = e' ∧ trap_ctx w' = trap_ctx w ∧
    Z.testbit (csr w' hvip) VSEIP_BIT = true ∧ csr w' sie = csr w sie ∧
    HOST_VMM w' = Some (MkMutex false vmm') ∧ vmm_wf vmm' ∧
    host_plic vmm' = Some (MkPlic (base_addr p) (<[Z.to_nat c := irq]> (claim_complete p))).
Proof.
  intros Hs Hv Hwf Hc Hg Hn Hp Hb c Hlt Hrd. pose proof Hwf as [_ Hid Hcl].
  specialize (Hcl p Hp). unfold MAX_GUESTS, MAX_CONTEXTS in *.
  set (w1 := entered vmm w). set (cc := <[Z.to_nat c := irq]> (claim_complete p)).
  set (vmm1 := set_irq_pending true (set_plic (Some (MkPlic (base_addr p) cc)) vmm)).
  set (w2 := set_csr hvip (Z.setbit (csr w hvip) VSEIP_BIT) (set_env e' w1)).
  assert (handle_irq vmm w1 = Ret (vmm1, w2)) as Hirq.
  { unfold claim_reg in *. fold c in Hlt, Hrd. unfold handle_irq. rewrite Hp.
    unfold mbind, M_bind, lift. cbn [unwrap].
    rewrite (umul_run 2) by (unfold W64; lia). rewrite (uadd_run (2 * _)) by (unfold W64; lia).
    fold c. rewrite (uadd_run (base_addr p)) by (unfold c in *; lia).
    rewrite (umul_run 0x1000) by (unfold c, W64 in *; lia).
    rewrite uadd_run by done. unfold on_env. change (env w1) with (env w). rewrite Hrd.
    rewrite update_run by (unfold c; lia). done. }
  exists (left_with (set_external_irq (external_irq vmm + 1) vmm1) w2),
    (set_external_irq (external_irq vmm + 1) vmm1).
  split; [|split_and!; try done].
  - apply (trap_handler_run w vmm); try done. rewrite Hc. cbn [handle_trap].
    rewrite (bind_run _ _ _ _ _ Hirq). unfold mbind, M_bind, lift.
    change (external_irq vmm1) with (external_irq vmm). by rewrite uadd_run.
  - unfold left_with. rewrite csr_set_other by done. cbn [csr set_vmm]. unfold w2.
    rewrite csr_set_same. by apply Z.setbit_eq.
  - eapply vmm_wf_keeps; [exact Hwf|]. etrans; [by eapply handle_irq_vmm|]. by split.
Qed.

(** C25: the guest's side of an interrupt.  A [lw] of the claim register of a
    context puts the interrupt recorded for it in the destination register; an
    [sw] to it forwards the low 32 bits of the source register to the platform's
    controller, clears the record and withdraws the guest's external interrupt.
    Both continue after the instruction; apart from the forwarded write the
    outside sees only the message logged on every thousandth fault. *)
Theorem plic_claim_complete w vmm p c len i (r : nat) v :
  syms_ok → HOST_VMM w = Some (MkMutex false vmm) → vmm_wf vmm →
  csr w hgatp = ctx_hgatp (trap_ctx w) → host_plic vmm = Some p → 0 ≤ base_addr p →
  0 ≤ c < MAX_CONTEXTS → claim_reg p c < W64 →
  plic_fault w (claim_reg p c) len i → ctx_sepc (trap_ctx w) + len < W64 →
  guest_page_falut vmm + 1 < W64 → x (trap_ctx w) !! r = Some v →
  (inst_view i = Lw (Z.of_nat r) → ∀ irq, claim_complete p !! Z.to_nat c = Some irq →
    ∃ w', trap_handler syms w = Ret (tramp_of (sym_restore syms), w') ∧
      x (trap_ctx w') = <[r := irq]> (x (trap_ctx w)) ∧
      env w' = fault_logged (guest_page_falut vmm + 1) (claim_reg p c) (env w) ∧
      ctx_sepc (trap_ctx w') = ctx_sepc (trap_ctx w) + len ∧ csr w' hvip = csr w hvip) ∧
  (inst_view i = Sw (Z.of_nat r) →
    ∃ w' vmm', trap_handler syms w = Ret (tramp_of (sym_restore syms), w') ∧
      x (trap_ctx w') = x (trap_ctx w) ∧
      env w' = fault_logged (guest_page_falut vmm + 1) (claim_reg p c)
                 (mmio_write32 (env w) (claim_reg p c) (v mod W32)) ∧
      ctx_sepc (trap_ctx w') = ctx_sepc (trap_ctx w) + len ∧
      Z.testbit (csr w' hvip) VSEIP_BIT = false ∧
      HOST_VMM w' = Some (MkMutex false vmm') ∧
      host_plic vmm' = Some (MkPlic (base_addr p) (<[Z.to_nat c := 0]> (claim_complete p)))).
Proof.
  intros Hs Hv Hwf Hg Hp Hb Hc Hlt Hf Hpc Hn Hr. split.
  - intros Hi irq Hirq.
    pose proof (plic_claim_run vmm p c i r irq (entered vmm w) Hp Hb Hc Hlt Hi
      (lookup_lt_Some _ _ _ Hr) Hirq) as Hh.
    eexists. split; [apply (plic_fault_run w vmm _ _ _ _ _ Hs Hv Hg Hf Hh); done|].
    destruct Hf as (_&Hf&_). rewrite <- Hf. done.
  - intros Hi.
    pose proof (plic_complete_run vmm p c i r v (entered vmm w) Hp Hb Hc Hlt
      (vw_plic _ Hwf p Hp) Hi Hr) as Hh.
    eexists _, _. split; [apply (plic_fault_run w vmm _ _ _ _ _ Hs Hv Hg Hf Hh); done|].
    destruct Hf as (_&Hf&_). split; [done|]. split; [by rewrite <- Hf|]. split; [done|].
    split; [|done].
    unfold fault_done, left_with. rewrite csr_set_other by done.
    cbn [csr set_vmm set_ctx set_env]. rewrite csr_set_same. apply Z.clearbit_eq.
Qed.

(** C28: what becomes of a data fault.  A load or store fault of the guest shuts
    the hypervisor down when its address is outside the window
    0x0c000000-0x10000000, when [htinst] reports an access of the page walk,
    when the instruction cannot be found or decoded, when the address is not in
    one of the pages of the contexts, when the threshold register is accessed by
    anything but [sw], and when the claim register is accessed by anything but
    [lw] and [sw]: the guest is neither resumed nor given the fault.  A [sw] to
    the threshold register is logged and forwarded to the platform's
    controller.  At every other offset of a context's page the access is skipped
    without effect: the guest goes on after the instruction, its registers and
    the controller unchanged. *)
Theorem guest_fault_outcome w vmm :
  syms_ok → HOST_VMM w = Some (MkMutex false vmm) → data_fault w →
  guest_page_falut vmm + 1 < W64 →
  let addr := shl (csr w htval) 2 in
  let fatal := trap_handler syms w = Panic Explicit in
  (is_plic_access addr = false → fatal) ∧
  (is_plic_access addr = true → csr w htinst = 0x3020 ∨ csr w htinst = 0x3000 → fatal) ∧
  (is_plic_access addr = true → csr w htinst = 0 →
    fast_two_stage_translation (G := PageTableSv39) (cur_guest_id vmm) (ctx_sepc (trap_ctx w))
      (csr w vsatp) (w_sys w) = Ret (None, w_sys w) → fatal) ∧
  (∀ inst len, is_plic_access addr = true → faulting_inst vmm w inst →
    decode_inst inst = Ret (len, None) → fatal) ∧
  (∀ inst len i p, is_plic_access addr = true → faulting_inst vmm w inst →
    decode_inst inst = Ret (len, Some i) → host_plic vmm = Some p →
    let offset := wrapping_sub addr (base_addr p) in
    let index := offset mod 0x1000 / 4 in
    let n := guest_page_falut vmm + 1 in
    if decide (0x200000 ≤ offset < 0x200000 + 0x1000 * MAX_CONTEXTS) then
      (index = 0 → (∀ r, inst_view i ≠ Sw r) → fatal) ∧
      (index = 1 → inst_view i = OtherInst → fatal) ∧
      (csr w hgatp = ctx_hgatp (trap_ctx w) → ctx_sepc (trap_ctx w) + len < W64 →
       ∀ e', (2 ≤ index ∧ e' = env w) ∨
             (index = 0 ∧ ∃ (r : nat) v, inst_view i = Sw (Z.of_nat r) ∧
                x (trap_ctx w) !! r = Some v ∧
                e' = mmio_write32 (logged (threshold_text addr (v mod W32)) (env w))
                       addr (v mod W32)) →
       ∃ w', trap_handler syms w = Ret (tramp_of (sym_restore syms), w') ∧
         trap_ctx w' = set_ctx_sepc (ctx_sepc (trap_ctx w) + len) (trap_ctx w) ∧
         env w' = fault_logged n addr e' ∧ csr w' hvip = csr w hvip ∧ w_sys w' = w_sys w ∧
         HOST_VMM w' = Some (MkMutex false (set_page_falut n vmm)))
    else fatal).
Proof.
  intros Hs Hv Hc Hn addr fatal.
  pose proof (fatal_run w vmm Hs Hv Hc Hn) as Hfin. fold fatal in Hfin.
  split; [|split; [|split; [|split]]].
  - intros Ha. apply Hfin. left. eexists _. by apply outside_fault_eq.
  - intros Ha Hi. apply Hfin. left. destruct (pseudo_inst_eq vmm (entered vmm w) Hi) as [w2 H2].
    eexists _, _. by apply (no_inst_eq vmm (entered vmm w) _ _ Ha H2).
  - intros Ha Hi Ht. apply Hfin. left.
    destruct (untranslated_inst_eq vmm (entered vmm w) Hi Ht) as [w2 H2].
    eexists _, _. by apply (no_inst_eq vmm (entered vmm w) _ _ Ha H2).
  - intros inst len Ha Hi Hd. apply Hfin. left. eexists _, _. by eapply undecoded_eq.
  - intros inst len i p Ha Hi Hd Hp offset index n.
    pose proof (window_fault_eq vmm (entered vmm w) inst len i Ha Hi Hd) as Hw.
    change (shl (csr (entered vmm w) htval) 2) with addr in Hw.
    destruct (decide _) as [Ho|Ho].
    2: { apply Hfin. right. rewrite Hw. unfold mbind at 1, M_bind at 1.
         by rewrite (plic_access_outside vmm p addr i (entered vmm w) Hp Ho). }
    pose proof (plic_access_inside vmm p addr i (entered vmm w) Hp Ho) as HP. cbv zeta in HP.
    destruct HP as (P1&P2&P3&P4).
    fold offset index in P1, P2, P3, P4. split; [|split].
    + intros Hz Hsw. apply Hfin. left. eexists _, _. rewrite Hw.
      by rewrite (bind_run _ _ _ _ _ (P3 Hz Hsw)).
    + intros Hz Hsw. apply Hfin. left. eexists _, _. rewrite Hw.
      by rewrite (bind_run _ _ _ _ _ (P2 Hz Hsw)).
    + intros Hg Hpc e' He.
      assert (handle_plic_access vmm addr i (entered vmm w) =
        Ret ((None, vmm), set_env e' (entered vmm w))) as Hh.
      { destruct He as [[Hz ->]|(Hz&r&v&Hsw&Hx&->)]; [by apply P1|by apply (P4 Hz r v)]. }
      eexists. split; [by apply (data_fault_run w vmm inst len i vmm _ Hs Hv Hg Hc Ha Hi Hd Hh)|].
      done.
Qed.
End Claims.

(** ** Witnesses *)

Definition regs0 : list Z := replicate 32 5.
(** [lw a5, 4(a4)] and [sw a5, 4(a4)] as [htinst] gives them. *)
Definition demo_lw : Z := 0x00072783.
Definition demo_sw : Z := 0x00f72023.
(** Registers of a call of the TIME extension's [set_timer]. *)
Definition timer_regs : list Z :=
  <[17%nat := SBI_EXTID_TIME]> (<[16%nat := 0]> (<[10%nat := 1234]> regs0)).

Lemma demo_syms_ok : syms_ok demo_syms.
Proof. unfold syms_ok. simpl. lia. Qed.
Lemma demo_vmm_wf : vmm_wf demo_vmm.
Proof. split; simpl; [done|unfold MAX_GUESTS; lia|]. by intros p [= <-]. Qed.
Lemma demo_entry_ok : entry_ok (demo_world (2 ^ 63 + 5) 0 regs0).
Proof. split; try done. exists demo_vmm. split; [done|apply demo_vmm_wf]. Qed.

Lemma demo_timer_trap : ∃ va w',
  trap_handler demo_syms (demo_world (2 ^ 63 + 5) 0 regs0) = Ret (va, w').
Proof.
  eexists _, _. eapply (trap_handler_run demo_syms _ demo_vmm);
    [apply demo_syms_ok|reflexivity|reflexivity|reflexivity].
Qed.
Lemma demo_ecall_trap : ∃ va w',
  trap_handler demo_syms (demo_world 10 0 timer_regs) = Ret (va, w').
Proof.
  eexists _, _. eapply (ecall_run demo_syms _ demo_vmm SBI_EXTID_TIME 0);
    [apply demo_syms_ok|reflexivity..].
Qed.

Lemma vm_stays_ready_witness :
  ∃ w', rtc (vm_step demo_syms) (demo_world (2 ^ 63 + 5) 0 regs0) w' ∧ entry_ok w'.
Proof.
  destruct demo_timer_trap as (va&w'&Ht).
  assert (rtc (vm_step demo_syms) (demo_world (2 ^ 63 + 5) 0 regs0) w') as Hs.
  { apply rtc_once, (run_and_trap _ _ (demo_world (2 ^ 63 + 5) 0 regs0) va); [by split|exact Ht]. }
  exists w'. split; [exact Hs|]. apply (vm_stays_ready demo_syms _ _ demo_entry_ok Hs).
Defined.

Lemma ecall_effect_witness :
  ∃ va w', trap_handler demo_syms (demo_world 10 0 timer_regs) = Ret (va, w') ∧
    ctx_sepc (trap_ctx w') = 0x90200104.
Proof.
  destruct demo_ecall_trap as (va&w'&Hr).
  exists va, w'. split; [exact Hr|]. apply (ecall_effect demo_syms _ va w' eq_refl Hr).
Defined.

Lemma set_timer_effect_witness :
  ∃ w', trap_handler demo_syms (demo_world 10 0 timer_regs) =
      Ret (tramp_of demo_syms (sym_restore demo_syms), w') ∧ pf_timer (env w') = 1234.
Proof.
  destruct (set_timer_effect demo_syms (demo_world 10 0 timer_regs) demo_vmm 1234 SBI_EXTID_TIME
    0 demo_syms_ok eq_refl eq_refl eq_refl eq_refl ltac:(vm_compute; reflexivity) eq_refl eq_refl
    eq_refl ltac:(left; split; reflexivity)) as (w'&Hw&He&_).
  exists w'. split; [exact Hw|]. rewrite He. reflexivity.
Defined.

Lemma timer_interrupt_effect_witness :
  ∃ w', trap_handler demo_syms (demo_world (2 ^ 63 + 5) 0 regs0) =
      Ret (tramp_of demo_syms (sym_restore demo_syms), w') ∧
    Z.testbit (csr w' hvip) VSTIP_BIT = true.
Proof.
  destruct (timer_interrupt_effect demo_syms (demo_world (2 ^ 63 + 5) 0 regs0) demo_vmm
    demo_syms_ok eq_refl eq_refl eq_refl ltac:(vm_compute; reflexivity)) as (w'&Hw&_&_&Hb&_).
  exists w'. split; [exact Hw|exact Hb].
Defined.

Lemma instruction_fault_deadlock_witness :
  trap_handler demo_syms (demo_world 20 0 regs0) = Hang.
Proof.
  apply (instruction_fault_deadlock demo_syms (demo_world 20 0 regs0) demo_vmm
    demo_syms_ok eq_refl eq_refl).
Defined.

Lemma exception_forwarded_witness :
  ∃ w', trap_handler demo_syms (demo_world 2 0 regs0) =
      Ret (tramp_of demo_syms (sym_restore demo_syms), w') ∧
    ctx_sepc (trap_ctx w') = 0xffff000.
Proof.
  destruct (exception_forwarded demo_syms (demo_world 2 0 regs0) demo_vmm demo_syms_ok eq_refl
    ltac:(left; reflexivity) eq_refl) as (w'&Hw&_&_&Hp&_).
  exists w'. split; [exact Hw|exact Hp].
Defined.

Lemma external_interrupt_effect_witness :
  ∃ w', trap_handler demo_syms (demo_world (2 ^ 63 + 9) 0 regs0) =
      Ret (tramp_of demo_syms (sym_restore demo_syms), w') ∧
    Z.testbit (csr w' hvip) VSEIP_BIT = true.
Proof.
  destruct (external_interrupt_effect demo_syms (demo_world (2 ^ 63 + 9) 0 regs0) demo_vmm
    (plic_new 0x0c000000) 8 (MkPlatform 0 []) demo_syms_ok eq_refl demo_vmm_wf eq_refl eq_refl
    ltac:(vm_compute; reflexivity) eq_refl ltac:(vm_compute; congruence)
    ltac:(vm_compute; reflexivity) eq_refl) as (w'&vmm'&Hw&_&_&Hb&_).
  exists w'. split; [exact Hw|exact Hb].
Defined.

Lemma plic_claim_complete_witness :
  ∃ w', trap_handler demo_syms (demo_world 21 demo_lw regs0) =
      Ret (tramp_of demo_syms (sym_restore demo_syms), w') ∧
    x (trap_ctx w') = <[15%nat := 0]> regs0.
Proof.
  destruct (plic_claim_complete demo_syms (demo_world 21 demo_lw regs0) demo_vmm
    (plic_new 0x0c000000) 1 4 (Lw 15 : @Instruction Rv_decoder) 15 5 demo_syms_ok eq_refl demo_vmm_wf eq_refl eq_refl)
    as [Hlw _].
  - vm_compute. congruence.
  - unfold MAX_CONTEXTS. lia.
  - vm_compute. reflexivity.
  - unfold plic_fault. split; [left; reflexivity|].
    repeat (split; [first [reflexivity|vm_compute; congruence]|]). reflexivity.
  - vm_compute. reflexivity.
  - vm_compute. reflexivity.
  - reflexivity.
  - destruct (Hlw eq_refl 0 eq_refl) as (w'&Hw&Hx&_). exists w'. split; [exact Hw|exact Hx].
Defined.

(** An offset of a context's page that is not emulated: the store is skipped. *)
Definition skip_world : World Platform := set_csr htval (0xc201008 / 4) (demo_world 23 demo_sw regs0).
Lemma guest_fault_outcome_witness :
  trap_handler demo_syms (set_csr htval 0 (demo_world 23 demo_sw regs0)) = Panic Explicit ∧
  ∃ w', trap_handler demo_syms skip_world = Ret (tramp_of demo_syms (sym_restore demo_syms), w') ∧
    x (trap_ctx w') = regs0 ∧ env w' = env skip_world.
Proof.
  split.
  - destruct (guest_fault_outcome demo_syms (set_csr htval 0 (demo_world 23 demo_sw regs0)) demo_vmm
      demo_syms_ok eq_refl ltac:(right; reflexivity) ltac:(vm_compute; reflexivity)) as [H _].
    apply H. reflexivity.
  - destruct (guest_fault_outcome demo_syms skip_world demo_vmm
      demo_syms_ok eq_refl ltac:(right; reflexivity) ltac:(vm_compute; reflexivity))
      as (_&_&_&_&H).
    specialize (H demo_sw 4 (Sw 15 : @Instruction Rv_decoder) (plic_new 0x0c000000) eq_refl).
    assert (faulting_inst demo_vmm skip_world demo_sw) as Hi
      by (left; vm_compute; split_and!; congruence).
    specialize (H Hi eq_refl eq_refl). cbv zeta in H.
    rewrite decide_True in H by (vm_compute; split; congruence).
    destruct H as (_&_&H).
    destruct (H eq_refl ltac:(vm_compute; reflexivity) (env skip_world)) as (w'&Hr&Hc&He&_).
    { left. split; [vm_compute; congruence|reflexivity]. }
    exists w'. split; [exact Hr|]. split; [rewrite Hc; reflexivity|rewrite He; reflexivity].
Defined.
