(* ===== verification/Layout.v ===== *)
(** * Layout of [repr(C)] structures

    The structures that assembly code or a device sees: their fields in order
    with size and alignment, and the offsets the language gives them.  The
    [Sstatus], [Hstatus] and [Scause] values of the [riscv] crate are one word,
    the bits of the register. *)
From stdpp Require Import base tactics numbers list option strings.
From S2P Require Import Prelude Constants.
Import riscv_regs.

Record field := MkField { f_name : string; f_size : Z; f_align : Z }.
Definition struct : Type := list field.

Definition u32 (n : string) : field := MkField n 4 4.
Definition u64 (n : string) : field := MkField n 8 8.

(** The first multiple of [a] from [o] on. *)
Definition align_up (o a : Z) : Z := (o + a - 1) / a * a.

(** Fields follow each other, each at the next offset its alignment allows. *)
Fixpoint place (o : Z) (fs : struct) : list (string * Z) :=
  match fs with
  | [] => []
  | f :: fs' => let a := align_up o (f_align f) in (f_name f, a) :: place (a + f_size f) fs'
  end.
Fixpoint last_end (o : Z) (fs : struct) : Z :=
  match fs with
  | [] => o
  | f :: fs' => last_end (align_up o (f_align f) + f_size f) fs'
  end.
Definition struct_align (fs : struct) : Z := foldr (λ f a, Z.max (f_align f) a) 1 fs.
Definition size_of (fs : struct) : Z := align_up (last_end 0 fs) (struct_align fs).
(** A structure as a field of another. *)
Definition nested (n : string) (fs : struct) : field := MkField n (size_of fs) (struct_align fs).

Fixpoint assoc (n : string) (l : list (string * Z)) : option Z :=
  match l with
  | [] => None
  | (m, v) :: l' => if decide (m = n) then Some v else assoc n l'
  end.
(** [offset_of!]; a field that does not exist is a compile-time error. *)
Definition offset_of (fs : struct) (n : string) : Z := default (-1) (assoc n (place 0 fs)).

(** ** [src/src/guest/context.rs] *)

Definition GeneralPurposeRegisters_struct : struct := [MkField "0" (8 * 32) 8].

Definition TrapContext_struct : struct :=
  [MkField "x" (8 * 32) 8; u64 "sstatus"; u64 "sepc"; u64 "hgatp"; u64 "kernel_sp";
   u64 "trap_handler"; u64 "hstatus"].

Definition HypervisorCpuState : struct :=
  [nested "gprs" GeneralPurposeRegisters_struct; u64 "sstatus"; u64 "hstatus";
   u64 "scounteren"; u64 "stvec"; u64 "sscratch"].
Definition GuestCpuState : struct :=
  [nested "gprs" GeneralPurposeRegisters_struct; u64 "sstatus"; u64 "hstatus";
   u64 "scounteren"; u64 "sepc"].
Definition GuestVsCsrs : struct :=
  [u64 "htimedelta"; u64 "vsstatus"; u64 "vsie"; u64 "vstvec"; u64 "vsscratch";
   u64 "vsepc"; u64 "vscause"; u64 "vstval"; u64 "vsatp"; u64 "vstimecmp"].
Definition GuestVirtualHsCsrs : struct := [u64 "hie"; u64 "hgeie"; u64 "hgatp"].
Definition VmCpuTrapState : struct := [u64 "scause"; u64 "stval"; u64 "htval"; u64 "htinst"].
Definition VmCpuRegisters : struct :=
  [nested "hyp_regs" HypervisorCpuState; nested "guest_regs" GuestCpuState;
   nested "vs_csrs" GuestVsCsrs; nested "virtual_hs_csrs" GuestVirtualHsCsrs;
   nested "trap_csrs" VmCpuTrapState].

Definition hyp_gpr_offset (i : GprIndex) : Z :=
  offset_of VmCpuRegisters "hyp_regs" + offset_of HypervisorCpuState "gprs" + discriminant i * 8.
Definition guest_gpr_offset (i : GprIndex) : Z :=
  offset_of VmCpuRegisters "guest_regs" + offset_of GuestCpuState "gprs" + discriminant i * 8.
Definition hyp_csr_offset (reg : string) : Z :=
  offset_of VmCpuRegisters "hyp_regs" + offset_of HypervisorCpuState reg.
Definition guest_csr_offset (reg : string) : Z :=
  offset_of VmCpuRegisters "guest_regs" + offset_of GuestCpuState reg.

(** ** [src/src/detect.rs] *)

Definition TrapFrame_struct : struct :=
  [u64 "ra"; u64 "tp"; u64 "a0"; u64 "a1"; u64 "a2"; u64 "a3"; u64 "a4"; u64 "a5"; u64 "a6";
   u64 "a7"; u64 "t0"; u64 "t1"; u64 "t2"; u64 "t3"; u64 "t4"; u64 "t5"; u64 "t6";
   u64 "sstatus"; u64 "sepc"; u64 "scause"; u64 "stval"].

(** ** [src/src/drivers/iommu/registers.rs] *)

Definition IommuRegisters : struct :=
  [u64 "capabilities"; u32 "fctrl"; u32 "_reserved0"; u64 "ddtp"; u64 "cqb"; u32 "cqh"; u32 "cqt";
   u64 "fqb"; u32 "fqh"; u32 "fqt"; u64 "pqb"; u32 "pqh"; u32 "pqt"; u32 "cqcsr"; u32 "fqcsr";
   u32 "pqcsr"; u32 "ipsr"; MkField "_reserved1" (4 * 1002) 4].
Definition assert_register_layout : outcome unit := assert (size_of IommuRegisters =? 4096).

(** ** Facts *)

Lemma discriminant_range i : 0 ≤ discriminant i < 32.
Proof. destruct i; simpl; lia. Qed.
Lemma discriminant_inj i j : discriminant i = discriminant j → i = j.
Proof. by destruct i, j. Qed.

Definition field_wf (f : field) : Prop := 0 ≤ f_size f ∧ 0 < f_align f.

Lemma align_up_spec o a : 0 < a → o ≤ align_up o a ∧ align_up o a mod a = 0.
Proof.
  intros Ha. unfold align_up. rewrite Z.mod_mul by lia. split; [|done].
  pose proof (Z.div_mod (o + a - 1) a). pose proof (Z.mod_pos_bound (o + a - 1) a). nia.
Qed.

Lemma last_end_le o fs : Forall field_wf fs → o ≤ last_end o fs.
Proof.
  intros Hf. revert o. induction Hf as [|f fs [Hs Ha] _ IH]; intros o; simpl; [done|].
  pose proof (align_up_spec o (f_align f) Ha). specialize (IH (align_up o (f_align f) + f_size f)).
  lia.
Qed.

(** A field is aligned, and between the start and the end of the structure. *)
Lemma place_lookup o fs i f :
  Forall field_wf fs → fs !! i = Some f →
  ∃ p, place o fs !! i = Some (f_name f, p) ∧ o ≤ p ∧ p mod f_align f = 0 ∧
    p + f_size f ≤ last_end o fs.
Proof.
  intros Hf. revert o i. induction Hf as [|g fs [Hs Ha] Hf IH]; intros o [|i] Hi; try done; simpl in *.
  - injection Hi as ->. eexists. split; [done|].
    destruct (align_up_spec o (f_align f) Ha). split_and!; [done..|]. by apply last_end_le.
  - destruct (IH (align_up o (f_align g) + f_size g) i Hi) as (p&Hp&Hle&?&?). exists p.
    pose proof (align_up_spec o (f_align g) Ha). split_and!; try done. lia.
Qed.

(** Later fields lie behind earlier ones. *)
Lemma place_apart o fs i j f p m q :
  Forall field_wf fs → (i < j)%nat → fs !! i = Some f →
  place o fs !! i = Some (f_name f, p) → place o fs !! j = Some (m, q) → p + f_size f ≤ q.
Proof.
  intros Hf. revert o i j. induction Hf as [|g fs [Hs Ha] Hf IH]; intros o i j Hij Hi Hp Hq;
    [done|]. destruct j as [|j]; [lia|]. destruct i as [|i]; simpl in *.
  - simplify_eq. clear IH Hij. set (b := align_up o (f_align f) + f_size f) in *. clearbody b.
    revert b j Hq. induction Hf as [|g fs [Hs' Ha'] Hf IH]; intros b [|j] Hq; try done; simpl in Hq.
    + simplify_eq. by apply align_up_spec.
    + apply IH in Hq. pose proof (align_up_spec b (f_align g) Ha'). lia.
  - eapply (IH _ i j); [lia|done..].
Qed.

Lemma align_up_ge o a : 0 < a → o ≤ align_up o a.
Proof. intros. by apply align_up_spec. Qed.
Lemma struct_align_pos fs : 0 < struct_align fs.
Proof. induction fs; simpl; lia. Qed.

(** What code on the other side of a structure relies on. *)
Definition layout_sound (fs : struct) : Prop :=
  (∀ i f, fs !! i = Some f → ∃ p, place 0 fs !! i = Some (f_name f, p) ∧ 0 ≤ p ∧
     p mod f_align f = 0 ∧ p + f_size f ≤ size_of fs) ∧
  (∀ i j f p m q, (i < j)%nat → fs !! i = Some f → place 0 fs !! i = Some (f_name f, p) →
     place 0 fs !! j = Some (m, q) → p + f_size f ≤ q).

Lemma layout_sound_wf fs : Forall field_wf fs → layout_sound fs.
Proof.
  intros Hf. split.
  - intros i f Hi. destruct (place_lookup 0 fs i f Hf Hi) as (p&?&?&?&?). exists p.
    pose proof (align_up_ge (last_end 0 fs) _ (struct_align_pos fs)). unfold size_of.
    split_and!; try done. lia.
  - intros. by eapply place_apart.
Qed.

#[export] Instance field_wf_dec f : Decision (field_wf f).
Proof. unfold field_wf. apply _. Defined.

Definition shared_structs : list struct :=
  [TrapContext_struct; HypervisorCpuState; GuestCpuState; GuestVsCsrs; GuestVirtualHsCsrs;
   VmCpuTrapState; VmCpuRegisters; TrapFrame_struct; IommuRegisters].

Lemma shared_structs_wf : Forall (Forall field_wf) shared_structs.
Proof. apply (bool_decide_unpack _). vm_compute. exact I. Qed.

(** In each of them fields are aligned, lie inside the structure and do not
    overlap. *)
Lemma shared_structs_sound : Forall layout_sound shared_structs.
Proof. eapply Forall_impl; [exact shared_structs_wf|exact layout_sound_wf]. Qed.

(** The IOMMU's registers are where its specification has them and fill one
    page, so that [_assert_register_layout] passes. *)
Lemma iommu_registers_layout :
  place 0 IommuRegisters =
    [("capabilities", 0); ("fctrl", 8); ("_reserved0", 12); ("ddtp", 16); ("cqb", 24);
     ("cqh", 32); ("cqt", 36); ("fqb", 40); ("fqh", 48); ("fqt", 52); ("pqb", 56); ("pqh", 64);
     ("pqt", 68); ("cqcsr", 72); ("fqcsr", 76); ("pqcsr", 80); ("ipsr", 84);
     ("_reserved1", 88)] ∧
  assert_register_layout = Ret tt.
Proof. split; reflexivity. Qed.
