(* ===== verification/Iommu.v ===== *)
(** * Device identifiers and register fields of the IOMMU

    [src/src/drivers/iommu/device_directory.rs] and the bit fields of
    [src/src/drivers/iommu/registers.rs]; the register block itself is in
    [Layout]. *)
From stdpp Require Import base tactics numbers list option strings.
From S2P Require Import Prelude.

(** ** Device identifiers *)

Definition DEVICE_ID_BITS : Z := 24.
Definition LEAF_INDEX_BITS : Z := 6.
Definition NON_LEAF_INDEX_BITS : Z := 9.

Record DeviceId := MkDeviceId { device_0 : Z }.

(** [!x] on [u32]. *)
Definition not_u32 (x : Z) : Z := 2 ^ 32 - 1 - x.
Definition device_id_new (val : Z) : option DeviceId :=
  if Z.land val (not_u32 (Z.shiftl 1 DEVICE_ID_BITS - 1)) =? 0
  then Some (MkDeviceId val) else None.
Definition device_id_bits (d : DeviceId) : Z := device_0 d.

(** Shifting a [usize] by its width or more is an overflow. *)
Definition ushr (a n : Z) : outcome Z := if n <? 64 then Ret (Z.shiftr a n) else Panic Overflow.
Definition level_index_bits (d : DeviceId) (level : Z) : outcome Z :=
  if level =? 0 then Ret (Z.land (device_0 d) (Z.shiftl 1 LEAF_INDEX_BITS - 1))
  else
    l ← usub level 1;
    s ← umul NON_LEAF_INDEX_BITS l;
    shift ← uadd LEAF_INDEX_BITS s;
    v ← ushr (device_0 d) shift;
    Ret (Z.land v (Z.shiftl 1 NON_LEAF_INDEX_BITS - 1)).

(** ** Register fields *)

Record bitfield := MkBits { b_name : string; b_offset : Z; b_numbits : Z }.

Definition Capabilities : list bitfield :=
  [MkBits "Version" 0 8; MkBits "Sv32" 8 1; MkBits "Sv39" 9 1; MkBits "Sv48" 10 1;
   MkBits "Sv57" 11 1; MkBits "Sv32x4" 16 1; MkBits "Sv39x4" 17 1; MkBits "Sv48x4" 18 1;
   MkBits "Sv57x4" 19 1; MkBits "MsiFlat" 22 1; MkBits "MsiMrif" 23 1].
Definition DirectoryPointer : list bitfield :=
  [MkBits "Mode" 0 4; MkBits "Busy" 4 1; MkBits "Ppn" 10 44].
Definition QueueBase : list bitfield := [MkBits "Log2SzMinus1" 0 5; MkBits "Ppn" 10 44].
Definition CqControl : list bitfield :=
  [MkBits "Enable" 0 1; MkBits "InterruptEnable" 1 1; MkBits "MemoryFault" 8 1;
   MkBits "CommandTimeout" 9 1; MkBits "CommandIllegal" 10 1; MkBits "On" 16 1; MkBits "Busy" 17 1].

(** In a register of [w] bits the fields lie in order, one behind the other. *)
Fixpoint fields_fit (o w : Z) (l : list bitfield) : bool :=
  match l with
  | [] => o <=? w
  | b :: l' => (o <=? b_offset b) && (0 <? b_numbits b) && fields_fit (b_offset b + b_numbits b) w l'
  end.

(** ** Facts *)

Lemma land_high val : 0 ≤ val < 2 ^ 32 →
  Z.land val (not_u32 (2 ^ 24 - 1)) = val / 2 ^ 24 * 2 ^ 24.
Proof.
  intros Hv. change (not_u32 (2 ^ 24 - 1)) with (Z.shiftl (2 ^ 8 - 1) 24).
  replace (val / 2 ^ 24 * 2 ^ 24) with (Z.shiftl (Z.shiftr val 24) 24)
    by (rewrite Z.shiftl_mul_pow2, Z.shiftr_div_pow2; lia).
  apply Z.bits_inj'. intros n Hn. rewrite Z.land_spec, !Z.shiftl_spec by lia.
  destruct (Z.ltb_spec n 24).
  - rewrite (Z.testbit_neg_r _ (n - 24)) by lia. rewrite andb_false_r.
    by rewrite (Z.testbit_neg_r _ (n - 24)) by lia.
  - rewrite Z.shiftr_spec by lia. replace (n - 24 + 24) with n by lia.
    change (2 ^ 8 - 1) with (Z.ones 8). destruct (Z.ltb_spec (n - 24) 8).
    + by rewrite Z.ones_spec_low, andb_true_r by lia.
    + rewrite Z.ones_spec_high, andb_false_r by lia.
      by rewrite <- (Z.mod_small val (2 ^ 32)), Z.mod_pow2_bits_high by lia.
Qed.

Lemma device_id_new_Some val d :
  0 ≤ val < 2 ^ 32 →
  device_id_new val = Some d ↔ val < 2 ^ DEVICE_ID_BITS ∧ d = MkDeviceId val.
Proof.
  intros Hv. unfold device_id_new. change (Z.shiftl 1 DEVICE_ID_BITS - 1) with (2 ^ 24 - 1).
  change DEVICE_ID_BITS with 24. rewrite land_high by done.
  destruct (Z.eqb_spec (val / 2 ^ 24 * 2 ^ 24) 0) as [He|Hne].
  - split; [intros [= <-]|by intros [_ ->]]. split; [dlia|done].
  - split; [done|]. intros [Hlt _]. destruct Hne. dlia.
Qed.

(** A device identifier and its three table indices determine each other, and
    every level beyond them is an index of 0 until the shift overflows. *)
Lemma device_id_indices val d :
  0 ≤ val < 2 ^ 32 → device_id_new val = Some d →
  ∃ i0 i1 i2, level_index_bits d 0 = Ret i0 ∧ level_index_bits d 1 = Ret i1 ∧
    level_index_bits d 2 = Ret i2 ∧ 0 ≤ i0 < 2 ^ 6 ∧ 0 ≤ i1 < 2 ^ 9 ∧ 0 ≤ i2 < 2 ^ 9 ∧
    device_id_bits d = i2 * 2 ^ 15 + i1 * 2 ^ 6 + i0 ∧
    (∀ level, 7 < level → level_index_bits d level = Panic Overflow).
Proof.
  intros Hv [Hlt ->]%device_id_new_Some; [|done]. change DEVICE_ID_BITS with 24 in Hlt.
  unfold level_index_bits, device_id_bits. cbn [device_0].
  exists (val mod 2 ^ 6), (val / 2 ^ 6 mod 2 ^ 9), (val / 2 ^ 15 mod 2 ^ 9).
  split_and!; try dlia.
  - simpl. by rewrite (land_mask _ 6).
  - change (1 =? 0) with false. cbv iota. simpl. by rewrite (land_mask _ 9), Z.shiftr_div_pow2.
  - change (2 =? 0) with false. cbv iota. simpl. by rewrite (land_mask _ 9), Z.shiftr_div_pow2.
  - intros level Hl. rewrite (proj2 (Z.eqb_neq level 0)) by lia.
    unfold NON_LEAF_INDEX_BITS, LEAF_INDEX_BITS. rewrite usub_run by lia. cbn [mbind outcome_bind].
    unfold umul. destruct (9 * (level - 1) <? W64); [|done]. cbn [mbind outcome_bind].
    unfold uadd. destruct (6 + 9 * (level - 1) <? W64); [|done]. cbn [mbind outcome_bind].
    unfold ushr. by rewrite (proj2 (Z.ltb_ge _ 64)) by lia.
Qed.

Lemma register_fields_fit :
  fields_fit 0 64 Capabilities = true ∧ fields_fit 0 64 DirectoryPointer = true ∧
  fields_fit 0 64 QueueBase = true ∧ fields_fit 0 32 CqControl = true.
Proof. done. Qed.
