(* ===== verification/Riscv.v ===== *)
(** * Assembly code

    Instruction lists run on registers, control registers and memory: the
    fragment of RV64 that the hypervisor's assembly uses. *)
From stdpp Require Import base tactics numbers list option gmap.
From S2P Require Import Prelude Constants Machine.

(** ** The instructions used *)

Inductive instr :=
| Ild (rd off rs1 : Z)        (* ld rd, off(rs1) *)
| Isd (rs2 off rs1 : Z)       (* sd rs2, off(rs1) *)
| Imv (rd rs : Z)
| Ili (rd imm : Z)            (* also [la] *)
| Iaddi (rd rs imm : Z)
| Iadd (rd rs1 rs2 : Z)
| Imul (rd rs1 rs2 : Z)
| Icsrr (rd : Z) (c : Csr)
| Icsrw (c : Csr) (rs : Z)
| Icsrrw (rd : Z) (c : Csr) (rs : Z)
| Ifence_i.

(** All accesses are to aligned double words, so memory is a map from the
    address of a double word to its value. *)
Record cpu := MkCpu {
  gpr : Z → Z;
  cpu_csr : Csr → Z;
  dmem : Z → Z;
}.

Definition upd {A} `{EqDecision A} (f : A → Z) (a : A) (v : Z) : A → Z :=
  λ b, if decide (b = a) then v else f b.
(** [x0] ignores writes. *)
Definition set_gpr (rd v : Z) (s : cpu) : cpu :=
  if decide (rd = 0) then s else MkCpu (upd (gpr s) rd v) (cpu_csr s) (dmem s).
Definition set_cpu_csr (c : Csr) (v : Z) (s : cpu) : cpu :=
  MkCpu (gpr s) (upd (cpu_csr s) c v) (dmem s).
Definition set_dmem (a v : Z) (s : cpu) : cpu :=
  MkCpu (gpr s) (cpu_csr s) (upd (dmem s) a v).

Definition exec1 (i : instr) (s : cpu) : cpu :=
  match i with
  | Ild rd off rs1 => set_gpr rd (dmem s (wrapping_add (gpr s rs1) off)) s
  | Isd rs2 off rs1 => set_dmem (wrapping_add (gpr s rs1) off) (gpr s rs2) s
  | Imv rd rs => set_gpr rd (gpr s rs) s
  | Ili rd imm => set_gpr rd imm s
  | Iaddi rd rs imm => set_gpr rd (wrapping_add (gpr s rs) imm) s
  | Iadd rd rs1 rs2 => set_gpr rd (wrapping_add (gpr s rs1) (gpr s rs2)) s
  | Imul rd rs1 rs2 => set_gpr rd ((gpr s rs1 * gpr s rs2) mod W64) s
  | Icsrr rd c => set_gpr rd (cpu_csr s c) s
  | Icsrw c rs => set_cpu_csr c (gpr s rs) s
  | Icsrrw rd c rs => set_gpr rd (cpu_csr s c) (set_cpu_csr c (gpr s rs) s)
  | Ifence_i => s
  end.
Fixpoint exec (l : list instr) (s : cpu) : cpu :=
  match l with
  | [] => s
  | i :: l' => exec l' (exec1 i s)
  end.

(** Register numbers of the calling convention. *)
Definition sp : Z := 2.
Definition t0 : Z := 5.
Definition t1 : Z := 6.
Definition t2 : Z := 7.
Definition a0 : Z := 10.
Definition a1 : Z := 11.
Definition tp : Z := 4.

(** Runs of stores and loads relative to a base register: pairs of a register
    and a byte offset. *)
Definition store_all (rb : Z) (l : list (Z * Z)) : list instr :=
  (λ p, Isd p.1 p.2 rb) <$> l.
Definition load_all (rb : Z) (l : list (Z * Z)) : list instr :=
  (λ p, Ild p.1 p.2 rb) <$> l.
(** The same for control registers, through a scratch register each. *)
Record csr_slot := MkSlot { cs_tmp : Z; cs_csr : Csr; cs_off : Z }.
Definition save_csrs (rb : Z) (l : list csr_slot) : list instr :=
  l ≫= λ c, [Icsrr (cs_tmp c) (cs_csr c); Isd (cs_tmp c) (cs_off c) rb].
Definition load_csrs (rb : Z) (l : list csr_slot) : list instr :=
  l ≫= λ c, [Ild (cs_tmp c) (cs_off c) rb; Icsrw (cs_csr c) (cs_tmp c)].

(** ** Facts *)

Lemma exec_app l1 l2 s : exec (l1 ++ l2) s = exec l2 (exec l1 s).
Proof. revert s. induction l1 as [|i l1 IH]; intros s; simpl; auto. Qed.

Lemma upd_same {A} `{EqDecision A} (f : A → Z) a v : upd f a v a = v.
Proof. unfold upd. by rewrite decide_True. Qed.
Lemma upd_other {A} `{EqDecision A} (f : A → Z) a b v : b ≠ a → upd f a v b = f b.
Proof. intros. unfold upd. by rewrite decide_False. Qed.

Lemma gpr_set_gpr rd v s k : rd ≠ 0 →
  gpr (set_gpr rd v s) k = if decide (k = rd) then v else gpr s k.
Proof. intros. unfold set_gpr. by rewrite decide_False. Qed.
Lemma csr_set_gpr rd v s : cpu_csr (set_gpr rd v s) = cpu_csr s.
Proof. unfold set_gpr. by case_decide. Qed.
Lemma csr_set_csr c v s d : cpu_csr (set_cpu_csr c v s) d = if decide (d = c) then v else cpu_csr s d.
Proof. done. Qed.

Lemma exec_csrr rd c s : exec1 (Icsrr rd c) s = set_gpr rd (cpu_csr s c) s.
Proof. done. Qed.
Lemma exec_csrw c rs s : exec1 (Icsrw c rs) s = set_cpu_csr c (gpr s rs) s.
Proof. done. Qed.
Lemma exec_mv rd rs s : exec1 (Imv rd rs) s = set_gpr rd (gpr s rs) s.
Proof. done. Qed.
Lemma exec_li rd v s : exec1 (Ili rd v) s = set_gpr rd v s.
Proof. done. Qed.

Lemma gpr_set_csr c v s : gpr (set_cpu_csr c v s) = gpr s.
Proof. done. Qed.
Lemma gpr_set_dmem a v s : gpr (set_dmem a v s) = gpr s.
Proof. done. Qed.
Lemma dmem_set_gpr rd v s : dmem (set_gpr rd v s) = dmem s.
Proof. unfold set_gpr. by case_decide. Qed.
Lemma dmem_set_dmem a v s b : dmem (set_dmem a v s) b = if decide (b = a) then v else dmem s b.
Proof. done. Qed.

Lemma dmem_set_csr c v s : dmem (set_cpu_csr c v s) = dmem s.
Proof. done. Qed.
Lemma csr_set_dmem a v s : cpu_csr (set_dmem a v s) = cpu_csr s.
Proof. done. Qed.
Lemma wadd_run a o : 0 ≤ a + o < W64 → wrapping_add a o = a + o.
Proof. apply Z.mod_small. Qed.

(** Evaluate registers, control registers and memory of a state. *)
Ltac asm_eval :=
  repeat first
    [ rewrite gpr_set_gpr by done | rewrite csr_set_gpr | rewrite dmem_set_gpr
    | rewrite gpr_set_csr | rewrite csr_set_csr | rewrite dmem_set_csr
    | rewrite gpr_set_dmem | rewrite csr_set_dmem | rewrite dmem_set_dmem
    | match goal with
      | |- context [decide (?p = ?q)] =>
          first [rewrite (decide_True (P := p = q)) by reflexivity
                |rewrite (decide_False (P := p = q)) by discriminate]
      end ].

(** Decide equations between addresses. *)
Ltac addr_cases := repeat (case_decide; try lia); try done.

(** Offsets that stay inside the address space. *)
Definition offs_ok (b : Z) (l : list (Z * Z)) : Prop :=
  Forall (λ p, 0 ≤ b + p.2 < W64) l.

Lemma exec_store_all rb b l s :
  gpr s rb = b → offs_ok b l → NoDup l.*2 →
  let s' := exec (store_all rb l) s in
  gpr s' = gpr s ∧ cpu_csr s' = cpu_csr s ∧
  (∀ r o, (r, o) ∈ l → dmem s' (b + o) = gpr s r) ∧
  (∀ a, (∀ o, o ∈ l.*2 → a ≠ b + o) → dmem s' a = dmem s a).
Proof.
  intros Hb Ho Hn. revert s Hb. induction l as [|[r o] l IH]; intros s Hb; simpl.
  { split_and!; try done. intros r o. by rewrite elem_of_nil. }
  apply Forall_cons in Ho as [Hr Ho]. apply NoDup_cons in Hn as [Hno Hn]. simpl in Hr, Hno.
  rewrite Hb. unfold wrapping_add. rewrite Z.mod_small by done.
  destruct (IH Ho Hn (set_dmem (b + o) (gpr s r) s) Hb) as (I1&I2&I3&I4).
  split_and!; [done|done| |].
  - intros r' o' [[= -> ->]|Hin]%elem_of_cons; [|by apply I3].
    rewrite I4; [by rewrite dmem_set_dmem, decide_True|].
    intros o1 Ho1 Heq. apply Hno. by replace o with o1 by lia.
  - intros a Ha. rewrite I4; [|intros o' Ho'; apply Ha; by right].
    rewrite dmem_set_dmem, decide_False; [done|]. apply Ha. by left.
Qed.

Lemma exec_load_all rb b l s :
  gpr s rb = b → offs_ok b l → NoDup l.*1 → rb ∉ l.*1 → 0 ∉ l.*1 →
  let s' := exec (load_all rb l) s in
  dmem s' = dmem s ∧ cpu_csr s' = cpu_csr s ∧
  (∀ r o, (r, o) ∈ l → gpr s' r = dmem s (b + o)) ∧
  (∀ r, r ∉ l.*1 → gpr s' r = gpr s r).
Proof.
  intros Hb Ho Hn Hrb H0. revert s Hb. induction l as [|[r o] l IH]; intros s Hb; simpl.
  { split_and!; try done. intros r o. by rewrite elem_of_nil. }
  apply Forall_cons in Ho as [Hr Ho]. apply NoDup_cons in Hn as [Hnr Hn].
  simpl in Hr, Hnr, Hrb, H0. apply not_elem_of_cons in Hrb as [Hne Hrb].
  apply not_elem_of_cons in H0 as [Hr0 H0].
  rewrite Hb. unfold wrapping_add. rewrite Z.mod_small by done.
  set (s1 := set_gpr r (dmem s (b + o)) s).
  assert (∀ k, gpr s1 k = if decide (k = r) then dmem s (b + o) else gpr s k) as Hg
    by (intros k; by apply gpr_set_gpr).
  assert (dmem s1 = dmem s) as Hd by apply dmem_set_gpr.
  destruct (IH Ho Hn Hrb H0 s1) as (I1&I2&I3&I4); [by rewrite Hg, decide_False|].
  unfold load_all in *. split_and!; [by rewrite I1|by rewrite I2; apply csr_set_gpr| |].
  - intros r' o' [[= -> ->]|Hin]%elem_of_cons; [by rewrite I4, Hg, decide_True|].
    by rewrite (I3 _ _ Hin), Hd.
  - intros k [Hk Hkl]%not_elem_of_cons. by rewrite I4, Hg, decide_False.
Qed.

(** Scratch registers that are neither the base nor [x0]. *)
Definition slots_ok (b rb : Z) (l : list csr_slot) : Prop :=
  Forall (λ c, 0 ≤ b + cs_off c < W64 ∧ cs_tmp c ≠ rb ∧ cs_tmp c ≠ 0) l.

Lemma exec_save_csrs rb b l s :
  gpr s rb = b → slots_ok b rb l → NoDup (cs_off <$> l) →
  let s' := exec (save_csrs rb l) s in
  (∀ r, r ∉ cs_tmp <$> l → gpr s' r = gpr s r) ∧ cpu_csr s' = cpu_csr s ∧
  (∀ c, c ∈ l → dmem s' (b + cs_off c) = cpu_csr s (cs_csr c)) ∧
  (∀ a, (∀ o, o ∈ cs_off <$> l → a ≠ b + o) → dmem s' a = dmem s a).
Proof.
  intros Hb Ho Hn. revert s Hb. induction l as [|c l IH]; intros s Hb; simpl.
  { split_and!; try done. intros c. by rewrite elem_of_nil. }
  apply Forall_cons in Ho as [(Hr&Ht&H0) Ho]. simpl in Hn. apply NoDup_cons in Hn as [Hno Hn].
  rewrite gpr_set_gpr by done. rewrite decide_False by done. rewrite Hb, wadd_run by done.
  rewrite gpr_set_gpr, decide_True by done.
  set (s1 := set_dmem (b + cs_off c) (cpu_csr s (cs_csr c)) (set_gpr (cs_tmp c) _ s)).
  assert (∀ r, r ≠ cs_tmp c → gpr s1 r = gpr s r) as G1.
  { intros r Hr'. unfold s1. rewrite gpr_set_dmem, gpr_set_gpr by done. by rewrite decide_False. }
  assert (cpu_csr s1 = cpu_csr s) as G2 by apply csr_set_gpr.
  assert (∀ a, dmem s1 a = if decide (a = b + cs_off c) then cpu_csr s (cs_csr c) else dmem s a)
    as G3 by (intros a; unfold s1; by rewrite dmem_set_dmem, dmem_set_gpr).
  destruct (IH Ho Hn s1) as (I1&I2&I3&I4); [by rewrite G1|].
  split_and!.
  - intros r [Hr1 Hr2]%not_elem_of_cons. by rewrite I1, G1.
  - by rewrite I2.
  - intros d [->|Hin]%elem_of_cons; [|by rewrite I3, G2].
    rewrite I4, G3, decide_True; [done|done|]. intros o Ho1 Heq. apply Hno.
    by replace (cs_off c) with o by lia.
  - intros a Ha. rewrite I4, G3, decide_False; [done|apply Ha; by left|].
    intros o Ho'. apply Ha. by right.
Qed.

Lemma exec_load_csrs rb b l s :
  gpr s rb = b → slots_ok b rb l → NoDup (cs_csr <$> l) →
  let s' := exec (load_csrs rb l) s in
  (∀ r, r ∉ cs_tmp <$> l → gpr s' r = gpr s r) ∧ dmem s' = dmem s ∧
  (∀ c, c ∈ l → cpu_csr s' (cs_csr c) = dmem s (b + cs_off c)) ∧
  (∀ d, d ∉ cs_csr <$> l → cpu_csr s' d = cpu_csr s d).
Proof.
  intros Hb Ho Hn. revert s Hb. induction l as [|c l IH]; intros s Hb; simpl.
  { split_and!; try done. intros c. by rewrite elem_of_nil. }
  apply Forall_cons in Ho as [(Hr&Ht&H0) Ho]. simpl in Hn. apply NoDup_cons in Hn as [Hno Hn].
  rewrite Hb, wadd_run by done. rewrite gpr_set_gpr, decide_True by done.
  set (s1 := set_cpu_csr (cs_csr c) (dmem s (b + cs_off c)) (set_gpr (cs_tmp c) _ s)).
  assert (∀ r, r ≠ cs_tmp c → gpr s1 r = gpr s r) as G1.
  { intros r Hr'. unfold s1. rewrite gpr_set_csr, gpr_set_gpr by done. by rewrite decide_False. }
  assert (dmem s1 = dmem s) as G2 by apply dmem_set_gpr.
  assert (∀ d, cpu_csr s1 d = if decide (d = cs_csr c) then dmem s (b + cs_off c) else cpu_csr s d)
    as G3 by (intros d; unfold s1; by rewrite csr_set_csr, csr_set_gpr).
  destruct (IH Ho Hn s1) as (I1&I2&I3&I4); [by rewrite G1|].
  split_and!.
  - intros r [Hr1 Hr2]%not_elem_of_cons. by rewrite I1, G1.
  - by rewrite I2.
  - intros d [->|Hin]%elem_of_cons; [|by rewrite I3, G2].
    by rewrite I4, G3, decide_True.
  - intros d [Hd1 Hd2]%not_elem_of_cons. by rewrite I4, G3, decide_False.
Qed.
