(* ===== verification/GuestEntry.v ===== *)
(** * The second guest entry

    [_run_guest] and [_guest_exit] of [src/src/guest/guest.S], with the offsets
    [src/src/guest/context.rs] passes to the assembler.  The pointer in [a0] is
    to a [VmCpuRegisters]. *)
From stdpp Require Import base tactics numbers list option gmap strings.
From S2P Require Import Prelude Constants Machine Layout Riscv.
Import riscv_regs.

(** ** The code *)

(** The registers of the hypervisor that are saved, in the order of the code. *)
Definition hyp_saved : list GprIndex :=
  [RA; GP; TP; S0; S1; A1; A2; A3; A4; A5; A6; A7; S2; S3; S4; S5; S6; S7; S8; S9; S10; S11; SP].
(** The guest's, except [a0]. *)
Definition guest_saved : list GprIndex :=
  [RA; GP; TP; S0; S1; A1; A2; A3; A4; A5; A6; A7; S2; S3; S4; S5; S6; S7; S8; S9; S10; S11;
   T0; T1; T2; T3; T4; T5; T6; SP].

Definition hyp_slots : list (Z * Z) := (λ i, (discriminant i, hyp_gpr_offset i)) <$> hyp_saved.
Definition guest_slots : list (Z * Z) := (λ i, (discriminant i, guest_gpr_offset i)) <$> guest_saved.

(** [ld t1, in(a0); csrrw t1, c, t1; sd t1, out(a0)]. *)
Definition swap_csr (c : Csr) (off_in off_out : Z) : list instr :=
  [Ild t1 off_in a0; Icsrrw t1 c t1; Isd t1 off_out a0].

(** [_run_guest] up to [sret]; [guest_exit] is the address of [_guest_exit]. *)
Definition run_guest (guest_exit : Z) : list instr :=
  store_all a0 hyp_slots ++
  swap_csr sstatus (guest_csr_offset "sstatus") (hyp_csr_offset "sstatus") ++
  swap_csr hstatus (guest_csr_offset "hstatus") (hyp_csr_offset "hstatus") ++
  swap_csr scounteren (guest_csr_offset "scounteren") (hyp_csr_offset "scounteren") ++
  [Ild t1 (guest_csr_offset "sepc") a0; Icsrw sepc t1;
   Ili t1 guest_exit; Icsrrw t1 stvec t1; Isd t1 (hyp_csr_offset "stvec") a0;
   Icsrrw t1 sscratch a0; Isd t1 (hyp_csr_offset "sscratch") a0] ++
  load_all a0 guest_slots ++
  [Ild a0 (guest_gpr_offset A0) a0].

(** [_guest_exit] up to [ret]. *)
Definition guest_exit : list instr :=
  [Icsrrw a0 sscratch a0] ++
  store_all a0 guest_slots ++
  [Icsrr t0 sscratch; Isd t0 (guest_gpr_offset A0) a0] ++
  swap_csr sstatus (hyp_csr_offset "sstatus") (guest_csr_offset "sstatus") ++
  swap_csr hstatus (hyp_csr_offset "hstatus") (guest_csr_offset "hstatus") ++
  swap_csr scounteren (hyp_csr_offset "scounteren") (guest_csr_offset "scounteren") ++
  [Ild t1 (hyp_csr_offset "stvec") a0; Icsrw stvec t1;
   Ild t1 (hyp_csr_offset "sscratch") a0; Icsrw sscratch t1;
   Icsrr t1 sepc; Isd t1 (guest_csr_offset "sepc") a0] ++
  load_all a0 hyp_slots.

(** ** Facts *)

Lemma hyp_gpr_offset_eq i : hyp_gpr_offset i = discriminant i * 8.
Proof. done. Qed.
Lemma guest_gpr_offset_eq i : guest_gpr_offset i = 296 + discriminant i * 8.
Proof. done. Qed.

(** The pointed-to structure lies in the address space. *)
Definition regs_at (p : Z) : Prop := 0 ≤ p ∧ p + size_of VmCpuRegisters ≤ W64.

Lemma hyp_slots_ok p : regs_at p →
  offs_ok p hyp_slots ∧ NoDup (hyp_slots.*1) ∧ NoDup (hyp_slots.*2) ∧
  (a0 ∉ hyp_slots.*1) ∧ (0 ∉ hyp_slots.*1).
Proof.
  unfold regs_at. change (size_of VmCpuRegisters) with 720. intros [Hp Hs]. split.
  - apply Forall_fmap, Forall_true. intros i. simpl. rewrite hyp_gpr_offset_eq.
    pose proof (discriminant_range i). lia.
  - apply (bool_decide_unpack _). vm_compute. exact I.
Qed.
Lemma guest_slots_ok p : regs_at p →
  offs_ok p guest_slots ∧ NoDup (guest_slots.*1) ∧ NoDup (guest_slots.*2) ∧
  (a0 ∉ guest_slots.*1) ∧ (0 ∉ guest_slots.*1).
Proof.
  unfold regs_at. change (size_of VmCpuRegisters) with 720. intros [Hp Hs]. split.
  - apply Forall_fmap, Forall_true. intros i. simpl. rewrite guest_gpr_offset_eq.
    pose proof (discriminant_range i). lia.
  - apply (bool_decide_unpack _). vm_compute. exact I.
Qed.

Lemma slot_hyp i : i ∈ hyp_saved → (discriminant i, hyp_gpr_offset i) ∈ hyp_slots.
Proof. apply (list_elem_of_fmap_2 (λ i, (discriminant i, hyp_gpr_offset i))). Qed.
Lemma slot_guest i : i ∈ guest_saved → (discriminant i, guest_gpr_offset i) ∈ guest_slots.
Proof. apply (list_elem_of_fmap_2 (λ i, (discriminant i, guest_gpr_offset i))). Qed.
Lemma guest_saved_all i : i ≠ Zero → i ≠ A0 → i ∈ guest_saved.
Proof. intros H1 H2. destruct i; try done; set_solver. Qed.

(** Where the slots are: the hypervisor's in the first 296 bytes, the guest's
    after them. *)
Lemma hyp_slots_range o : o ∈ hyp_slots.*2 → 0 ≤ o < 256.
Proof.
  unfold hyp_slots. rewrite <- list_fmap_compose. intros (i&->&_)%list_elem_of_fmap. simpl.
  rewrite hyp_gpr_offset_eq. pose proof (discriminant_range i). lia.
Qed.
Lemma guest_slots_range o : o ∈ guest_slots.*2 → 296 ≤ o < 552.
Proof.
  unfold guest_slots. rewrite <- list_fmap_compose. intros (i&->&_)%list_elem_of_fmap. simpl.
  rewrite guest_gpr_offset_eq. pose proof (discriminant_range i). lia.
Qed.

(** Exchanging a control register with a slot. *)
Lemma exec_swap c oi oo p s :
  gpr s a0 = p → 0 ≤ p + oi < W64 → 0 ≤ p + oo < W64 →
  let s' := exec (swap_csr c oi oo) s in
  (∀ r, r ≠ t1 → gpr s' r = gpr s r) ∧
  (∀ d, cpu_csr s' d = if decide (d = c) then dmem s (p + oi) else cpu_csr s d) ∧
  (∀ a, dmem s' a = if decide (a = p + oo) then cpu_csr s c else dmem s a).
Proof.
  intros Hp Hi Ho. unfold swap_csr. cbn [exec exec1]. asm_eval. rewrite Hp, !wadd_run by done.
  split_and!.
  - intros r Hr. asm_eval. by rewrite !decide_False.
  - intros d. by asm_eval.
  - intros a. by asm_eval.
Qed.

(** The offsets of the control registers. *)
Ltac csr_offsets :=
  change (hyp_csr_offset "sstatus") with 256 in *;
  change (hyp_csr_offset "hstatus") with 264 in *;
  change (hyp_csr_offset "scounteren") with 272 in *;
  change (hyp_csr_offset "stvec") with 280 in *;
  change (hyp_csr_offset "sscratch") with 288 in *;
  change (guest_csr_offset "sstatus") with 552 in *;
  change (guest_csr_offset "hstatus") with 560 in *;
  change (guest_csr_offset "scounteren") with 568 in *;
  change (guest_csr_offset "sepc") with 576 in *.

(** Three exchanges in a row, between slots at [bi] and slots at [bo]. *)
Lemma exec_swaps bi bo p s :
  gpr s a0 = p → 0 ≤ p + bi → p + bi + 16 < W64 → 0 ≤ p + bo → p + bo + 16 < W64 →
  (bo + 16 < bi ∨ bi + 16 < bo) →
  let s' := exec (swap_csr sstatus bi bo ++ swap_csr hstatus (bi + 8) (bo + 8) ++
                  swap_csr scounteren (bi + 16) (bo + 16)) s in
  (∀ r, r ≠ t1 → gpr s' r = gpr s r) ∧
  cpu_csr s' sstatus = dmem s (p + bi) ∧ cpu_csr s' hstatus = dmem s (p + (bi + 8)) ∧
  cpu_csr s' scounteren = dmem s (p + (bi + 16)) ∧
  (∀ d, d ≠ sstatus → d ≠ hstatus → d ≠ scounteren → cpu_csr s' d = cpu_csr s d) ∧
  dmem s' (p + bo) = cpu_csr s sstatus ∧ dmem s' (p + (bo + 8)) = cpu_csr s hstatus ∧
  dmem s' (p + (bo + 16)) = cpu_csr s scounteren ∧
  (∀ a, a < p + bo ∨ p + bo + 16 < a → dmem s' a = dmem s a).
Proof.
  intros Hp H1 H2 H3 H4 H5. rewrite !exec_app.
  destruct (exec_swap sstatus bi bo p s Hp) as (A1&A2&A3); [lia..|].
  set (sa := exec (swap_csr sstatus bi bo) s) in *. clearbody sa.
  destruct (exec_swap hstatus (bi + 8) (bo + 8) p sa) as (B1&B2&B3); [by rewrite A1|lia..|].
  set (sb := exec (swap_csr hstatus _ _) sa) in *. clearbody sb.
  destruct (exec_swap scounteren (bi + 16) (bo + 16) p sb) as (C1&C2&C3);
    [by rewrite B1, A1|lia..|].
  split_and!.
  - intros r Hr. by rewrite C1, B1, A1.
  - rewrite C2, B2, A2. done.
  - rewrite C2, B2, A3. addr_cases.
  - rewrite C2, B3, A3. addr_cases.
  - intros d D1 D2 D3. by rewrite C2, B2, A2, !decide_False.
  - rewrite C3, B3, A3. addr_cases.
  - rewrite C3, B3, A2. addr_cases.
  - rewrite C3, B2, A2. addr_cases.
  - intros a Ha. rewrite C3, B3, A3. addr_cases.
Qed.

(** The two routines as sequences of the parts above. *)
Definition swaps (bi bo : Z) : list instr :=
  swap_csr sstatus bi bo ++ swap_csr hstatus (bi + 8) (bo + 8) ++
  swap_csr scounteren (bi + 16) (bo + 16).
Lemma run_guest_eq ge :
  run_guest ge =
  store_all a0 hyp_slots ++ swaps 552 256 ++
  [Ild t1 576 a0; Icsrw sepc t1; Ili t1 ge; Icsrrw t1 stvec t1; Isd t1 280 a0;
   Icsrrw t1 sscratch a0; Isd t1 288 a0] ++
  load_all a0 guest_slots ++ [Ild a0 (guest_gpr_offset A0) a0].
Proof. reflexivity. Qed.
Lemma guest_exit_eq :
  guest_exit =
  [Icsrrw a0 sscratch a0] ++ store_all a0 guest_slots ++
  [Icsrr t0 sscratch; Isd t0 (guest_gpr_offset A0) a0] ++ swaps 256 552 ++
  [Ild t1 280 a0; Icsrw stvec t1; Ild t1 288 a0; Icsrw sscratch t1; Icsrr t1 sepc; Isd t1 576 a0] ++
  load_all a0 hyp_slots.
Proof. reflexivity. Qed.

Lemma enter_tail ge p s :
  gpr s a0 = p → 0 ≤ p → p + 584 ≤ W64 →
  let s' := exec [Ild t1 576 a0; Icsrw sepc t1; Ili t1 ge; Icsrrw t1 stvec t1; Isd t1 280 a0;
                  Icsrrw t1 sscratch a0; Isd t1 288 a0] s in
  (∀ r, r ≠ t1 → gpr s' r = gpr s r) ∧
  (∀ d, cpu_csr s' d = if decide (d = sscratch) then p else if decide (d = stvec) then ge
                       else if decide (d = sepc) then dmem s (p + 576) else cpu_csr s d) ∧
  (∀ a, dmem s' a = if decide (a = p + 288) then cpu_csr s sscratch
                    else if decide (a = p + 280) then cpu_csr s stvec else dmem s a).
Proof.
  intros Hp H1 H2. cbn [exec exec1]. asm_eval. rewrite Hp, !wadd_run by lia.
  split_and!.
  - intros r Hr. asm_eval. by rewrite !decide_False.
  - intros d. by asm_eval.
  - intros a. by asm_eval.
Qed.
Lemma exit_tail p s :
  gpr s a0 = p → 0 ≤ p → p + 584 ≤ W64 →
  let s' := exec [Ild t1 280 a0; Icsrw stvec t1; Ild t1 288 a0; Icsrw sscratch t1; Icsrr t1 sepc;
                  Isd t1 576 a0] s in
  (∀ r, r ≠ t1 → gpr s' r = gpr s r) ∧
  (∀ d, cpu_csr s' d = if decide (d = sscratch) then dmem s (p + 288)
                       else if decide (d = stvec) then dmem s (p + 280) else cpu_csr s d) ∧
  (∀ a, dmem s' a = if decide (a = p + 576) then cpu_csr s sepc else dmem s a).
Proof.
  intros Hp H1 H2. cbn [exec exec1]. asm_eval. rewrite Hp, !wadd_run by lia.
  split_and!.
  - intros r Hr. asm_eval. by rewrite !decide_False.
  - intros d. by asm_eval.
  - intros a. by asm_eval.
Qed.

(** [_run_guest]: the guest's state is loaded, the hypervisor's saved. *)
Record entered (ge p : Z) (s s' : cpu) : Prop := {
  en_gpr : ∀ i, i ≠ Zero → gpr s' (discriminant i) = dmem s (p + guest_gpr_offset i);
  en_csr : cpu_csr s' sstatus = dmem s (p + guest_csr_offset "sstatus") ∧
    cpu_csr s' hstatus = dmem s (p + guest_csr_offset "hstatus") ∧
    cpu_csr s' scounteren = dmem s (p + guest_csr_offset "scounteren") ∧
    cpu_csr s' sepc = dmem s (p + guest_csr_offset "sepc");
  en_exit : cpu_csr s' stvec = ge ∧ cpu_csr s' sscratch = p;
  en_hyp : ∀ i, i ∈ hyp_saved → dmem s' (p + hyp_gpr_offset i) = gpr s (discriminant i);
  en_hyp_csr : dmem s' (p + hyp_csr_offset "sstatus") = cpu_csr s sstatus ∧
    dmem s' (p + hyp_csr_offset "hstatus") = cpu_csr s hstatus ∧
    dmem s' (p + hyp_csr_offset "scounteren") = cpu_csr s scounteren ∧
    dmem s' (p + hyp_csr_offset "stvec") = cpu_csr s stvec ∧
    dmem s' (p + hyp_csr_offset "sscratch") = cpu_csr s sscratch;
  en_mem : ∀ a, a < p ∨ p + 296 ≤ a → dmem s' a = dmem s a;
}.

Lemma run_guest_spec ge p s :
  gpr s a0 = p → regs_at p → entered ge p s (exec (run_guest ge) s).
Proof.
  intros Hp Hr. destruct (hyp_slots_ok p Hr) as (O1&_&O2&_&_).
  destruct (guest_slots_ok p Hr) as (G1&G2&_&G3&G4).
  unfold regs_at in Hr. change (size_of VmCpuRegisters) with 720 in Hr.
  rewrite run_guest_eq, !exec_app.
  destruct (exec_store_all a0 p hyp_slots s Hp O1 O2) as (A1&A2&A3&A4).
  set (sa := exec (store_all a0 hyp_slots) s) in *. clearbody sa.
  assert (∀ a, a < p ∨ p + 256 ≤ a → dmem sa a = dmem s a) as A5.
  { intros a Ha. apply A4. intros o Ho%hyp_slots_range. lia. }
  destruct (exec_swaps 552 256 p sa ltac:(by rewrite A1)) as (B1&B2&B3&B4&B5&B6&B7&B8&B9); [lia..|].
  fold (swaps 552 256) in *. set (sb := exec (swaps 552 256) sa) in *. clearbody sb.
  destruct (enter_tail ge p sb) as (C1&C2&C3); [by rewrite B1, A1|lia..|].
  set (sc := exec _ sb) in *. clearbody sc.
  assert (gpr sc a0 = p) as Ha0 by (by rewrite C1, B1, A1).
  destruct (exec_load_all a0 p guest_slots sc Ha0 G1 G2 G3 G4) as (D1&D2&D3&D4).
  set (sd := exec _ sc) in *. clearbody sd.
  assert (∀ a, p + 296 ≤ a → dmem sc a = dmem s a) as Hg.
  { intros a Ha. rewrite C3, !decide_False, B9, A5 by lia. done. }
  assert (gpr sd a0 = p) as Hd0 by (by rewrite D4).
  cbn [exec exec1]. rewrite Hd0, wadd_run by (rewrite guest_gpr_offset_eq; simpl; lia).
  split; csr_offsets; rewrite ?csr_set_gpr, ?dmem_set_gpr, ?D1, ?D2.
  - intros i Hi. rewrite gpr_set_gpr by done. change a0 with (discriminant A0) at 1.
    pose proof (discriminant_range i). rewrite <- Hg by (rewrite guest_gpr_offset_eq; lia).
    case_decide as Hia; [by apply discriminant_inj in Hia as ->|].
    apply D3, slot_guest, guest_saved_all; congruence.
  - rewrite !C2. cbn [decide Csr_eq_dec Csr_rect sumbool_rec sumbool_rect]. simpl.
    rewrite B2, B3, B4, B9, !A5 by lia. done.
  - by rewrite !C2.
  - intros i Hi. pose proof (discriminant_range i).
    rewrite C3, !decide_False, B9 by (rewrite hyp_gpr_offset_eq; lia). by apply A3, slot_hyp.
  - rewrite !C3, <- A2. split_and!; addr_cases; try (by rewrite B5); done.
  - intros a Ha. rewrite C3, !decide_False, B9, A5 by lia. done.
Qed.

(** [_guest_exit]: the reverse. *)
Record left (p : Z) (s s' : cpu) : Prop := {
  lf_gpr : ∀ i, i ∈ hyp_saved → gpr s' (discriminant i) = dmem s (p + hyp_gpr_offset i);
  lf_a0 : gpr s' a0 = p;
  lf_csr : cpu_csr s' sstatus = dmem s (p + hyp_csr_offset "sstatus") ∧
    cpu_csr s' hstatus = dmem s (p + hyp_csr_offset "hstatus") ∧
    cpu_csr s' scounteren = dmem s (p + hyp_csr_offset "scounteren") ∧
    cpu_csr s' stvec = dmem s (p + hyp_csr_offset "stvec") ∧
    cpu_csr s' sscratch = dmem s (p + hyp_csr_offset "sscratch");
  lf_guest : ∀ i, i ≠ Zero → dmem s' (p + guest_gpr_offset i) = gpr s (discriminant i);
  lf_guest_csr : dmem s' (p + guest_csr_offset "sstatus") = cpu_csr s sstatus ∧
    dmem s' (p + guest_csr_offset "hstatus") = cpu_csr s hstatus ∧
    dmem s' (p + guest_csr_offset "scounteren") = cpu_csr s scounteren ∧
    dmem s' (p + guest_csr_offset "sepc") = cpu_csr s sepc;
  lf_mem : ∀ a, a < p + 296 ∨ p + 584 ≤ a → dmem s' a = dmem s a;
}.

(** Up to the point where the guest's registers are in their slots. *)
Lemma guest_exit_saved p s :
  cpu_csr s sscratch = p → regs_at p →
  let s' := exec ([Icsrrw a0 sscratch a0] ++ store_all a0 guest_slots ++
                  [Icsrr t0 sscratch; Isd t0 (guest_gpr_offset A0) a0]) s in
  gpr s' a0 = p ∧ (∀ d, d ≠ sscratch → cpu_csr s' d = cpu_csr s d) ∧
  (∀ i, i ≠ Zero → dmem s' (p + guest_gpr_offset i) = gpr s (discriminant i)) ∧
  (∀ a, a < p + 296 ∨ p + 552 ≤ a → dmem s' a = dmem s a).
Proof.
  intros Hp Hr. destruct (guest_slots_ok p Hr) as (G1&_&G2&G3&_).
  unfold regs_at in Hr. change (size_of VmCpuRegisters) with 720 in Hr. rewrite !exec_app.
  set (sa := exec [Icsrrw a0 sscratch a0] s).
  assert (∀ r, gpr sa r = if decide (r = a0) then p else gpr s r) as A1
    by (intros r; unfold sa; cbn [exec exec1]; asm_eval; by rewrite Hp).
  assert (∀ d, cpu_csr sa d = if decide (d = sscratch) then gpr s a0 else cpu_csr s d) as A2
    by (intros d; unfold sa; cbn [exec exec1]; by asm_eval).
  assert (dmem sa = dmem s) as A3 by done. clearbody sa.
  assert (gpr sa a0 = p) as Ha by (by rewrite A1).
  destruct (exec_store_all a0 p guest_slots sa Ha G1 G2) as (B1&B2&B3&B4).
  set (sb := exec _ sa) in *. clearbody sb. cbn [exec exec1]. asm_eval.
  rewrite B1, B2, Ha, A2, wadd_run by (rewrite guest_gpr_offset_eq; simpl; lia).
  change (p + guest_gpr_offset A0) with (p + 376). split_and!.
  - done.
  - intros d Hd. by rewrite A2, decide_False.
  - intros i Hi. asm_eval.
    case_decide as Hia.
    { assert (i = A0) as ->; [|done]. apply discriminant_inj. simpl.
      rewrite guest_gpr_offset_eq in Hia. lia. }
    assert (i ≠ A0) by (by intros ->).
    rewrite (B3 (discriminant i)) by (by apply slot_guest, guest_saved_all).
    rewrite A1, decide_False; [done|]. intros Hd. by apply (discriminant_inj i A0) in Hd.
  - intros a Ha'. asm_eval. rewrite decide_False, B4, A3; [done| |lia].
    intros o Ho%guest_slots_range. lia.
Qed.

Lemma guest_exit_spec p s :
  cpu_csr s sscratch = p → regs_at p → left p s (exec guest_exit s).
Proof.
  intros Hp Hr. destruct (hyp_slots_ok p Hr) as (O1&O2&_&O3&O4).
  destruct (guest_exit_saved p s Hp Hr) as (A1&A2&A3&A4).
  unfold regs_at in Hr. change (size_of VmCpuRegisters) with 720 in Hr.
  rewrite guest_exit_eq. rewrite !exec_app in *.
  set (sa := exec [Icsrr _ _; _] _) in *. clearbody sa.
  destruct (exec_swaps 256 552 p sa A1) as (B1&B2&B3&B4&B5&B6&B7&B8&B9); [lia..|].
  fold (swaps 256 552) in *. set (sb := exec (swaps 256 552) sa) in *. clearbody sb.
  destruct (exit_tail p sb) as (C1&C2&C3); [by rewrite B1|lia..|].
  set (sc := exec _ sb) in *. clearbody sc.
  assert (gpr sc a0 = p) as Ha0 by (by rewrite C1, B1).
  destruct (exec_load_all a0 p hyp_slots sc Ha0 O1 O2 O3 O4) as (D1&D2&D3&D4).
  assert (∀ a, a < p + 296 → dmem sc a = dmem s a) as Hg.
  { intros a Ha. rewrite C3, decide_False, B9, A4 by lia. done. }
  split; csr_offsets; rewrite ?D1, ?D2.
  - intros i Hi. pose proof (discriminant_range i).
    rewrite <- Hg by (rewrite hyp_gpr_offset_eq; lia). by apply D3, slot_hyp.
  - by rewrite D4.
  - rewrite !C2. simpl. rewrite B2, B3, B4, !B9, !A4 by lia. done.
  - intros i Hi. pose proof (discriminant_range i).
    rewrite C3, decide_False, B9 by (rewrite guest_gpr_offset_eq; lia). by apply A3.
  - rewrite !C3, <- !A2 by done. split_and!; addr_cases; by rewrite B5.
  - intros a Ha. rewrite C3, decide_False, B9, A4 by lia. done.
Qed.

(** ** Claims *)

(** C31: entering and leaving the guest through [_run_guest] loses nothing.
    Whatever the guest does, as long as [sscratch] and the hypervisor's part of
    the structure stay, [_guest_exit] returns to the caller of [_run_guest] with
    [ra], [sp], [gp], [tp], the [s] registers, the arguments and the five control
    registers as they were; and calling [_run_guest] again continues the guest
    with all of its registers and status. *)
Theorem run_guest_roundtrip ge p s s2 :
  gpr s a0 = p → regs_at p →
  let s1 := exec (run_guest ge) s in
  cpu_csr s2 sscratch = cpu_csr s1 sscratch →
  (∀ a, p ≤ a < p + 296 → dmem s2 a = dmem s1 a) →
  let s3 := exec guest_exit s2 in
  (∀ i, i ∈ hyp_saved ∨ i = A0 → gpr s3 (discriminant i) = gpr s (discriminant i)) ∧
  (∀ c, c ∈ [sstatus; hstatus; scounteren; stvec; sscratch] → cpu_csr s3 c = cpu_csr s c) ∧
  let s4 := exec (run_guest ge) s3 in
  (∀ i, i ≠ Zero → gpr s4 (discriminant i) = gpr s2 (discriminant i)) ∧
  (∀ c, c ∈ [sstatus; hstatus; scounteren; sepc] → cpu_csr s4 c = cpu_csr s2 c).
Proof.
  intros Hp Hr s1 Hss Hm s3. destruct (run_guest_spec ge p s Hp Hr) as [_ _ [_ E2] E3 E4 _].
  fold s1 in E2, E3, E4. rewrite E2 in Hss.
  destruct (guest_exit_spec p s2 Hss Hr) as [L1 L2 L3 L4 L5 _]. fold s3 in L1, L2, L3, L4, L5.
  split; [|split].
  - intros i [Hi| ->]; [|by rewrite <- Hp in L2]. pose proof (discriminant_range i).
    rewrite L1, Hm, E3 by (done || (rewrite hyp_gpr_offset_eq; lia)). done.
  - csr_offsets. rewrite !Hm in L3 by lia. intros c. rewrite !elem_of_cons, elem_of_nil.
    intros Hc. destruct_or!; subst; intuition congruence.
  - destruct (run_guest_spec ge p s3 L2 Hr) as [N1 N2 _ _ _ _]. split.
    + intros i Hi. by rewrite N1, L4.
    + intros c. rewrite !elem_of_cons, elem_of_nil.
      intros Hc. destruct_or!; subst; intuition congruence.
Qed.

(** A guest that changes every register and nothing else. *)
Definition demo_entry : cpu := MkCpu (λ i, if decide (i = a0) then 0x80300000 else i) (λ _, 7) (λ _, 3).
Definition demo_guest_ran (s : cpu) : cpu := MkCpu (λ i, i + 1000) (cpu_csr s) (dmem s).
Lemma demo_guest_ran_keeps s :
  (∀ i, gpr (demo_guest_ran s) i = i + 1000) ∧ cpu_csr (demo_guest_ran s) = cpu_csr s ∧
  dmem (demo_guest_ran s) = dmem s.
Proof. done. Qed.
Lemma run_guest_roundtrip_witness :
  let s3 := exec guest_exit (demo_guest_ran (exec (run_guest 0x80200400) demo_entry)) in
  gpr s3 (discriminant S5) = 21 ∧
  gpr (exec (run_guest 0x80200400) s3) (discriminant T3) = 1028.
Proof.
  assert (S5 ∈ hyp_saved) as Hs by (unfold hyp_saved; set_solver).
  assert (regs_at 0x80300000) as Hr by (vm_compute; split; congruence).
  set (s1 := exec (run_guest 0x80200400) demo_entry).
  destruct (demo_guest_ran_keeps s1) as (G1&G2&G3).
  destruct (run_guest_roundtrip 0x80200400 0x80300000 demo_entry (demo_guest_ran s1) eq_refl Hr)
    as (H1&_&H2&_).
  - fold s1. rewrite G2. reflexivity.
  - intros a _. fold s1. rewrite G3. reflexivity.
  - intros s3. unfold s3. split.
    + rewrite (H1 S5 (or_introl Hs)). reflexivity.
    + rewrite (H2 T3 ltac:(discriminate)). apply G1.
Defined.
