(* ===== verification/Detect.v ===== *)
(** * Detecting the hypervisor extension

    [src/src/detect.rs]: [hgatp] is read with a trap handler in place that
    notes an illegal instruction and skips it.  The hardware's part, taking the
    exception and [sret], is modelled for a hart in supervisor mode. *)
From stdpp Require Import base tactics numbers list option gmap strings.
From S2P Require Import Prelude Constants Machine Vmexit Layout Riscv.

(** ** The trap handler *)

(** The length of an instruction from its first half word, 0 if unknown. *)
Definition riscv_illegal_insn_bits (insn : Z) : Z :=
  if insn =? 0 then 0
  else if negb (Z.land insn 3 =? 3) then 2
  else if negb (Z.land insn 28 =? 28) then 4
  else 0.

(** The aligned half word at [a]. *)
Definition load_u16 (s : cpu) (a : Z) : Z :=
  Z.land (Z.shiftr (dmem s (a - a mod 8)) (8 * (a mod 8))) 0xffff.

(** Fields of the [TrapFrame] at address [fr]. *)
Definition get_field (s : cpu) (fr : Z) (n : string) : Z :=
  dmem s (fr + offset_of TrapFrame_struct n).
Definition set_field (fr : Z) (n : string) (v : Z) (s : cpu) : cpu :=
  set_dmem (fr + offset_of TrapFrame_struct n) v s.

Section Detect.
Context `{CauseDecoder}.

Definition rust_detect_trap (trap_frame : Z) (s : cpu) : outcome cpu :=
  let s := set_field trap_frame "tp" (get_field s trap_frame "scause") s in
  match scause_cause (get_field s trap_frame "scause") with
  | TrapException IllegalInstruction =>
      let insn_bits :=
        riscv_illegal_insn_bits (Z.land (get_field s trap_frame "stval") 0xffff) in
      let insn_bits :=
        if insn_bits =? 0
        then riscv_illegal_insn_bits (load_u16 s (get_field s trap_frame "sepc"))
        else insn_bits in
      Ret (set_field trap_frame "sepc"
             (wrapping_add (get_field s trap_frame "sepc") insn_bits) s)
  | _ => Panic Unreachable
  end.

Definition t3 : Z := 28.

(** The registers [on_detect_trap] saves, with their offsets in the frame. *)
Definition det_slots : list (Z * Z) :=
  [(1, 0 * 8); (tp, 1 * 8); (10, 2 * 8); (11, 3 * 8); (12, 4 * 8); (13, 5 * 8); (14, 6 * 8);
   (15, 7 * 8); (16, 8 * 8); (17, 9 * 8); (t0, 10 * 8); (t1, 11 * 8); (t2, 12 * 8);
   (t3, 13 * 8); (29, 14 * 8); (30, 15 * 8); (31, 16 * 8)].
Definition det_csrs : list csr_slot :=
  [MkSlot t0 sstatus (17 * 8); MkSlot t1 sepc (18 * 8); MkSlot t2 scause (19 * 8);
   MkSlot t3 stval (20 * 8)].
(** [on_detect_trap] up to the call, and from its return to [sret]. *)
Definition detect_entry : list instr :=
  [Iaddi sp sp (-8 * 21)] ++ store_all sp det_slots ++ save_csrs sp det_csrs ++ [Imv a0 sp].
Definition detect_exit : list instr :=
  load_csrs sp det_csrs ++ load_all sp det_slots ++ [Iaddi sp sp (8 * 21)].

(** What compiled code does to the machine besides its own effects: it may use
    the caller-saved registers and the stack below [sp]. *)
Context (clobber : cpu → cpu).
Definition caller_saved (r : Z) : bool :=
  (r =? 1) || ((5 <=? r) && (r <=? 7)) || ((10 <=? r) && (r <=? 17)) || ((28 <=? r) && (r <=? 31)).
Record call_abi : Prop := {
  abi_gpr : ∀ s r, caller_saved r = false → gpr (clobber s) r = gpr s r;
  abi_csr : ∀ s, cpu_csr (clobber s) = cpu_csr s;
  abi_mem : ∀ s a, gpr s sp ≤ a → dmem (clobber s) a = dmem s a;
}.

Definition on_detect_trap (s : cpu) : outcome cpu :=
  let s := exec detect_entry s in
  s ← rust_detect_trap (gpr s a0) s;
  Ret (exec detect_exit (clobber s)).

(** ** The hardware *)

Definition SIE_BIT : Z := 1.
Definition SPIE_BIT : Z := 5.
Definition SPP_BIT : Z := 8.
Definition put_bit (v : Z) (b : Z) (x : bool) : Z := if x then Z.setbit v b else Z.clearbit v b.

(** An exception taken from supervisor mode into it. *)
Definition take_exception (cause tval pc : Z) (s : cpu) : cpu :=
  let st := cpu_csr s sstatus in
  let st := put_bit st SPIE_BIT (Z.testbit st SIE_BIT) in
  let st := Z.setbit (Z.clearbit st SIE_BIT) SPP_BIT in
  set_cpu_csr sstatus st (set_cpu_csr stval tval (set_cpu_csr scause cause (set_cpu_csr sepc pc s))).
(** [sret] to supervisor mode. *)
Definition sret (s : cpu) : cpu :=
  let st := cpu_csr s sstatus in
  let st := put_bit st SIE_BIT (Z.testbit st SPIE_BIT) in
  set_cpu_csr sstatus (Z.clearbit (Z.setbit st SPIE_BIT) SPP_BIT) s.

(** ** Detection *)

(** The address of [on_detect_trap]. *)
Context (on_detect_trap_addr : Z).

Definition init_detect_trap (param : Z) (s : cpu) : outcome ((bool * Z * Z) * cpu) :=
  let stored_sie := Z.testbit (cpu_csr s sstatus) SIE_BIT in
  let s := set_cpu_csr sstatus (Z.clearbit (cpu_csr s sstatus) SIE_BIT) s in
  let stored_stvec := cpu_csr s stvec in
  trap_addr ← (if negb (Z.land on_detect_trap_addr 1 =? 0) then uadd on_detect_trap_addr 1
               else Ret on_detect_trap_addr);
  let s := set_cpu_csr stvec trap_addr s in
  let stored_tp := gpr s tp in
  Ret ((stored_sie, stored_stvec, stored_tp), set_gpr tp param s).

Definition restore_detect_trap (sie_ : bool) (stvec_ tp_ : Z) (s : cpu) : Z * cpu :=
  let ans := gpr s tp in
  let s := set_cpu_csr stvec stvec_ (set_gpr tp tp_ s) in
  let s := if sie_ then set_cpu_csr sstatus (Z.setbit (cpu_csr s sstatus) SIE_BIT) s else s in
  (ans, s).

Definition with_detect_trap (param : Z) (f : cpu → outcome cpu) (s : cpu) : outcome (Z * cpu) :=
  r ← init_detect_trap param s;
  let '((sie_, stvec_, tp_), s) := r in
  s ← f s;
  Ret (restore_detect_trap sie_ stvec_ tp_ s).

(** The instruction [csrr rd, 0x680] at address [at]: whether the register
    exists, and what [stval] an illegal instruction leaves, is up to the
    hardware.  A return to any other place than the next instruction, and a
    vector other than the handler, is a path that does not come back. *)
Context (has_h : bool) (stval_of : Z → Z) (probe_at rd : Z).
Definition csrr_hgatp : Z := 0x680 * 2 ^ 20 + 2 * 2 ^ 12 + rd * 2 ^ 7 + 0x73.

Definition probe (s : cpu) : outcome cpu :=
  if has_h then Ret (set_gpr rd (cpu_csr s hgatp) s)
  else
    let s := take_exception 2 (stval_of csrr_hgatp) probe_at s in
    if cpu_csr s stvec - cpu_csr s stvec mod 4 =? on_detect_trap_addr then
      s ← on_detect_trap s;
      if cpu_csr s sepc =? probe_at + 4 then Ret (sret s) else Hang
    else Hang.

Definition detect_h_extension (s : cpu) : outcome (bool * cpu) :=
  r ← with_detect_trap 0 probe s;
  Ret (negb (r.1 =? 2), r.2).

(** ** Facts *)

Lemma det_slots_ok f : 0 ≤ f → f + 168 ≤ W64 →
  offs_ok f det_slots ∧ NoDup (det_slots.*1) ∧ NoDup (det_slots.*2) ∧
  (sp ∉ det_slots.*1) ∧ (0 ∉ det_slots.*1).
Proof.
  intros Hf Hw. split; [|apply (bool_decide_unpack _); vm_compute; exact I].
  assert (Forall (λ p : Z * Z, 0 ≤ p.2 < 136) det_slots) as Hr
    by (apply (bool_decide_unpack _); vm_compute; exact I).
  eapply Forall_impl; [exact Hr|]. intros p. simpl. lia.
Qed.
Lemma det_slots_off o : o ∈ det_slots.*2 → 0 ≤ o < 136.
Proof.
  intros Ho. assert (Forall (λ o, 0 ≤ o < 136) (det_slots.*2)) as Hr
    by (apply (bool_decide_unpack _); vm_compute; exact I).
  rewrite Forall_forall in Hr. by apply Hr.
Qed.
(** Every caller-saved register is in the frame, and [tp]. *)
Lemma det_slots_all r : caller_saved r = true ∨ r = tp → r ∈ det_slots.*1.
Proof.
  assert (∀ n, 0 ≤ n < 32 → caller_saved n = true ∨ n = tp → n ∈ det_slots.*1) as Hall.
  { intros n Hn. assert (Forall (λ n, caller_saved n = true ∨ n = tp → n ∈ det_slots.*1) (upto 0 32))
      as Hf by (apply (bool_decide_unpack _); vm_compute; exact I).
    rewrite Forall_forall in Hf. apply Hf, elem_of_upto. lia. }
  intros Hr. apply Hall; [|done]. destruct Hr as [Hr| ->]; [|done].
  unfold caller_saved in Hr. rewrite !orb_true_iff, !andb_true_iff, !Z.eqb_eq, !Z.leb_le in Hr. lia.
Qed.

Lemma det_csrs_ok f : 0 ≤ f → f + 168 ≤ W64 →
  slots_ok f sp det_csrs ∧ NoDup (cs_off <$> det_csrs) ∧ NoDup (cs_csr <$> det_csrs).
Proof.
  intros Hf Hw. split; [|apply (bool_decide_unpack _); vm_compute; exact I].
  assert (Forall (λ c, 0 ≤ cs_off c < 168 ∧ cs_tmp c ≠ sp ∧ cs_tmp c ≠ 0) det_csrs) as Hr
    by (apply (bool_decide_unpack _); vm_compute; exact I).
  eapply Forall_impl; [exact Hr|]. intros c. simpl. intuition lia.
Qed.
Lemma det_csrs_off o : o ∈ cs_off <$> det_csrs → 136 ≤ o < 168.
Proof.
  intros Ho. assert (Forall (λ o, 136 ≤ o < 168) (cs_off <$> det_csrs)) as Hr
    by (apply (bool_decide_unpack _); vm_compute; exact I).
  rewrite Forall_forall in Hr. by apply Hr.
Qed.
Lemma det_slots_tp p : p ∈ det_slots → (p.2 = 8 ↔ p.1 = tp).
Proof.
  intros Hp. assert (Forall (λ p : Z * Z, p.2 = 8 ↔ p.1 = tp) det_slots) as Hf
    by (apply (bool_decide_unpack _); vm_compute; exact I).
  rewrite Forall_forall in Hf. by apply Hf.
Qed.
Lemma det_csrs_sepc c : c ∈ det_csrs → (cs_off c = 144 ↔ cs_csr c = sepc).
Proof.
  intros Hc. assert (Forall (λ c, cs_off c = 144 ↔ cs_csr c = sepc) det_csrs) as Hf
    by (apply (bool_decide_unpack _); vm_compute; exact I).
  rewrite Forall_forall in Hf. by apply Hf.
Qed.
(** The scratch registers are saved ones. *)
Lemma det_csrs_tmp r : r ∈ cs_tmp <$> det_csrs → r ∈ det_slots.*1.
Proof.
  intros Hr. assert (Forall (λ r, r ∈ det_slots.*1) (cs_tmp <$> det_csrs)) as Hf
    by (apply (bool_decide_unpack _); vm_compute; exact I).
  rewrite Forall_forall in Hf. by apply Hf.
Qed.

(** The frame after the entry code. *)
Lemma detect_entry_spec s :
  168 ≤ gpr s sp < W64 →
  let s' := exec detect_entry s in let f := gpr s sp - 168 in
  gpr s' a0 = f ∧ gpr s' sp = f ∧ (∀ r, r ∉ det_slots.*1 → r ≠ sp → gpr s' r = gpr s r) ∧
  cpu_csr s' = cpu_csr s ∧
  (∀ r o, (r, o) ∈ det_slots → dmem s' (f + o) = gpr s r) ∧
  (∀ c, c ∈ det_csrs → dmem s' (f + cs_off c) = cpu_csr s (cs_csr c)) ∧
  (∀ a, a < f ∨ f + 168 ≤ a → dmem s' a = dmem s a).
Proof.
  intros Hsp s' f. unfold s', detect_entry. rewrite !exec_app.
  set (sa := exec [Iaddi sp sp (-8 * 21)] s).
  assert (∀ r, gpr sa r = if decide (r = sp) then f else gpr s r) as A1.
  { intros r. unfold sa. cbn [exec exec1]. asm_eval. unfold f. by rewrite wadd_run by lia. }
  assert (cpu_csr sa = cpu_csr s ∧ dmem sa = dmem s) as [A2 A3]
    by (unfold sa; cbn [exec exec1]; by rewrite csr_set_gpr, dmem_set_gpr).
  clearbody sa. destruct (det_slots_ok f) as (K1&_&K2&K3&_); [unfold f; lia..|].
  destruct (exec_store_all sp f det_slots sa ltac:(by rewrite A1) K1 K2) as (B1&B2&B3&B4).
  set (sb := exec _ sa) in *. clearbody sb.
  destruct (det_csrs_ok f) as (L1&L2&_); [unfold f; lia..|].
  destruct (exec_save_csrs sp f det_csrs sb ltac:(by rewrite B1, A1) L1 L2) as (C1&C2&C3&C4).
  set (sc := exec _ sb) in *. clearbody sc. cbn [exec exec1].
  assert (sp ∉ cs_tmp <$> det_csrs) as Hsp'
    by (apply (bool_decide_unpack _); vm_compute; exact I).
  rewrite csr_set_gpr, dmem_set_gpr, (C1 sp Hsp'), B1, A1. asm_eval. split_and!.
  - done.
  - by rewrite C1, B1, A1.
  - intros r Hr Hr2. asm_eval.
    assert (r ≠ a0) as Ha0 by (intros ->; apply Hr, det_slots_all; by left).
    rewrite decide_False, C1, B1, A1, decide_False by (done || by intros ?%det_csrs_tmp). done.
  - by rewrite C2, B2.
  - intros r o Hro. rewrite C4.
    + rewrite (B3 r o Hro), A1, decide_False; [done|]. intros ->. apply K3.
      by apply (list_elem_of_fmap_2 fst) in Hro.
    + intros o' Ho'%det_csrs_off. apply (list_elem_of_fmap_2 snd) in Hro. simpl in Hro.
      apply det_slots_off in Hro. lia.
  - intros c Hc. by rewrite C3, B2, A2.
  - intros a Ha. rewrite C4, B4, A3; [done| |].
    + intros o Ho%det_slots_off. lia.
    + intros o Ho%det_csrs_off. lia.
Qed.

(** What the exit code loads from the frame. *)
Lemma detect_exit_spec s :
  0 ≤ gpr s sp → gpr s sp + 168 < W64 →
  let s' := exec detect_exit s in let f := gpr s sp in
  gpr s' sp = f + 168 ∧ (∀ r, r ∉ det_slots.*1 → r ≠ sp → gpr s' r = gpr s r) ∧
  (∀ r o, (r, o) ∈ det_slots → gpr s' r = dmem s (f + o)) ∧
  (∀ c, c ∈ det_csrs → cpu_csr s' (cs_csr c) = dmem s (f + cs_off c)) ∧
  (∀ d, d ∉ cs_csr <$> det_csrs → cpu_csr s' d = cpu_csr s d) ∧ dmem s' = dmem s.
Proof.
  intros H1 H2 s' f. unfold s', detect_exit. rewrite !exec_app.
  destruct (det_csrs_ok f) as (L1&_&L2); [unfold f; lia..|].
  destruct (exec_load_csrs sp f det_csrs s eq_refl L1 L2) as (A1&A2&A3&A4).
  set (sa := exec (load_csrs sp det_csrs) s) in *. clearbody sa.
  assert (sp ∉ cs_tmp <$> det_csrs) as Hsp'
    by (apply (bool_decide_unpack _); vm_compute; exact I).
  destruct (det_slots_ok f) as (K1&K2&_&K3&K4); [unfold f; lia..|].
  destruct (exec_load_all sp f det_slots sa ltac:(by rewrite A1) K1 K2 K3 K4) as (B1&B2&B3&B4).
  set (sb := exec _ sa) in *. clearbody sb. cbn [exec exec1].
  assert (gpr sb sp = f) as Hf by (by rewrite B4, A1).
  rewrite csr_set_gpr, dmem_set_gpr, Hf, B1, B2, wadd_run by lia. split_and!; try done.
  - intros r Hr Hr2. asm_eval. rewrite decide_False, B4, A1 by (done || by intros ?%det_csrs_tmp).
    done.
  - intros r o Hro. asm_eval. rewrite decide_False, (B3 r o Hro), A2; [done|].
    intros ->. apply K3. by apply (list_elem_of_fmap_2 fst) in Hro.
Qed.

(** A four byte instruction, as [stval] or memory shows it. *)
Definition shows_insn (s : cpu) (stval_ pc : Z) : Prop :=
  riscv_illegal_insn_bits (Z.land stval_ 0xffff) = 4 ∨
  Z.land stval_ 0xffff = 0 ∧ riscv_illegal_insn_bits (load_u16 s pc) = 4.

Hypothesis illegal_is_2 : scause_cause 2 = TrapException IllegalInstruction.

Lemma rust_detect_trap_run fr s pc :
  dmem s (fr + 152) = 2 → dmem s (fr + 144) = pc → 0 ≤ pc → pc + 4 < W64 →
  pc - pc mod 8 ≠ fr + 8 → shows_insn s (dmem s (fr + 160)) pc →
  rust_detect_trap fr s = Ret (set_dmem (fr + 144) (pc + 4) (set_dmem (fr + 8) 2 s)).
Proof.
  intros Hc Hp Hp0 Hp1 Hne Hi. unfold rust_detect_trap, get_field, set_field.
  change (offset_of TrapFrame_struct "tp") with 8.
  change (offset_of TrapFrame_struct "scause") with 152.
  change (offset_of TrapFrame_struct "stval") with 160.
  change (offset_of TrapFrame_struct "sepc") with 144.
  rewrite !dmem_set_dmem, !decide_False by lia. rewrite Hc, illegal_is_2, Hp.
  assert (load_u16 (set_dmem (fr + 8) 2 s) pc = load_u16 s pc) as ->.
  { unfold load_u16. by rewrite dmem_set_dmem, decide_False. }
  replace (if riscv_illegal_insn_bits (Z.land (dmem s (fr + 160)) 0xffff) =? 0
    then riscv_illegal_insn_bits (load_u16 s pc)
    else riscv_illegal_insn_bits (Z.land (dmem s (fr + 160)) 0xffff)) with 4
    by (destruct Hi as [-> | [-> ->]]; done).
  by rewrite wadd_run by lia.
Qed.

(** The exit code, run on the frame the entry code made of [s] after the cause
    and the new program counter were stored in it. *)
Lemma detect_exit_after s s1 sc f pc :
  0 ≤ f → f + 168 = gpr s sp → gpr s sp < W64 → s1 = exec detect_entry s →
  (∀ r, caller_saved r = false → gpr sc r = gpr s1 r) → cpu_csr sc = cpu_csr s1 →
  (∀ a, f ≤ a → dmem sc a =
     if decide (a = f + 144) then pc + 4 else if decide (a = f + 8) then 2 else dmem s1 a) →
  let s' := exec detect_exit sc in
  (∀ r, gpr s' r = if decide (r = tp) then 2 else gpr s r) ∧
  (∀ c, cpu_csr s' c = if decide (c = sepc) then pc + 4 else cpu_csr s c) ∧
  (∀ a, gpr s sp ≤ a → dmem s' a = dmem s a).
Proof.
  intros Hf0 Hf Hw Hs1 Ag Ac Hm s'.
  destruct (detect_entry_spec s ltac:(lia)) as (_&E2&E3&E4&E5&E6&E7). rewrite <- Hs1 in *.
  replace (gpr s sp - 168) with f in * by lia.
  assert (gpr sc sp = f) as Hsp2 by (by rewrite Ag).
  destruct (detect_exit_spec sc) as (X1&X2&X3&X4&X5&X6); [lia..|].
  rewrite Hsp2 in X1, X3, X4. fold s' in X1, X2, X3, X4, X5, X6. clearbody s'. clear Hs1.
  split_and!.
  - intros r. destruct (decide (r ∈ det_slots.*1)) as [Hr|Hr].
    + apply list_elem_of_fmap in Hr as ([r' o]&->&Hro). cbn [fst].
      pose proof (det_slots_off o (list_elem_of_fmap_2 snd _ _ Hro)) as Ho.
      rewrite (X3 _ _ Hro), Hm by lia. rewrite decide_False by lia.
      pose proof (det_slots_tp _ Hro) as Htp. cbn [fst snd] in Htp.
      destruct (decide (o = 8)) as [->|Hne]; [by rewrite !decide_True by tauto|].
      rewrite !decide_False by (lia || tauto). by apply E5.
    + assert (r ≠ tp) by (intros ->; apply Hr, det_slots_all; by right).
      rewrite decide_False by done. destruct (decide (r = sp)) as [->|Hrs]; [rewrite X1; lia|].
      assert (caller_saved r = false) as Hcs.
      { destruct (caller_saved r) eqn:Hcs; [|done]. destruct Hr. apply det_slots_all. by left. }
      rewrite X2, Ag by done. by apply E3.
  - intros c. destruct (decide (c ∈ cs_csr <$> det_csrs)) as [Hcin|Hcout].
    + apply list_elem_of_fmap in Hcin as (k&->&Hk). rewrite X4 by done.
      pose proof (det_csrs_off _ (list_elem_of_fmap_2 cs_off _ _ Hk)).
      rewrite Hm, (decide_False (P := f + cs_off k = f + 8)) by lia.
      destruct (det_csrs_sepc k Hk) as [K1 K2].
      destruct (decide (cs_off k = 144)); [by rewrite !decide_True by (lia || tauto)|].
      rewrite !decide_False by (lia || tauto). by apply E6.
    + rewrite X5, Ac, E4 by done. rewrite decide_False; [done|]. intros ->. apply Hcout.
      by right; left.
  - intros a Ha. rewrite X6, Hm by lia. rewrite !decide_False, E7 by lia. done.
Qed.

(** What the handler needs of the interrupted code: stack below [sp], an
    instruction that is not on that part of the stack. *)
Definition can_trap (s : cpu) (pc : Z) : Prop :=
  168 ≤ gpr s sp < W64 ∧ 0 ≤ pc ∧ pc + 4 < W64 ∧
  (pc - pc mod 8 < gpr s sp - 168 ∨ gpr s sp ≤ pc - pc mod 8).

(** The whole handler: the interrupted instruction is skipped, its cause is in
    [tp], nothing else has changed. *)
Lemma on_detect_trap_run s pc :
  call_abi → can_trap s pc → cpu_csr s scause = 2 → cpu_csr s sepc = pc →
  shows_insn s (cpu_csr s stval) pc →
  ∃ s', on_detect_trap s = Ret s' ∧
    (∀ r, gpr s' r = if decide (r = tp) then 2 else gpr s r) ∧
    (∀ c, cpu_csr s' c = if decide (c = sepc) then pc + 4 else cpu_csr s c) ∧
    (∀ a, gpr s sp ≤ a → dmem s' a = dmem s a).
Proof.
  intros [Ag Ac Am] (Hsp&Hp0&Hp1&Hpc) Hc Hp Hi. unfold on_detect_trap. cbv zeta.
  destruct (detect_entry_spec s Hsp) as (E1&E2&_&_&_&E6&E7).
  remember (exec detect_entry s) as s1 eqn:Hs1.
  assert (∃ f, f = gpr s sp - 168) as [f Hf] by eauto. rewrite <- Hf in *. rewrite E1.
  pose proof (E6 (MkSlot t1 sepc (18 * 8)) ltac:(by right; left)) as C2.
  pose proof (E6 (MkSlot t2 scause (19 * 8)) ltac:(by do 2 right; left)) as C3.
  pose proof (E6 (MkSlot t3 stval (20 * 8)) ltac:(by do 3 right; left)) as C4.
  change (dmem s1 (f + 144) = cpu_csr s sepc) in C2. rewrite Hp in C2.
  change (dmem s1 (f + 152) = cpu_csr s scause) in C3. rewrite Hc in C3.
  change (dmem s1 (f + 160) = cpu_csr s stval) in C4.
  assert (shows_insn s1 (dmem s1 (f + 160)) pc) as Hi1.
  { rewrite C4. unfold shows_insn, load_u16 in *. rewrite E7; [done|lia]. }
  rewrite (rust_detect_trap_run f s1 pc C3 C2 Hp0 Hp1 ltac:(lia) Hi1).
  eexists. split; [reflexivity|].
  apply (detect_exit_after s s1 _ f pc); [lia|lia|lia|done| | |].
  - intros r Hr. by rewrite Ag.
  - by rewrite Ac.
  - intros a Ha. rewrite Am; [done|]. rewrite !gpr_set_dmem. lia.
Qed.

(** ** Status bits *)

Lemma testbit_put v b x n : 0 ≤ b → 0 ≤ n →
  Z.testbit (put_bit v b x) n = if decide (n = b) then x else Z.testbit v n.
Proof.
  intros Hb Hn. unfold put_bit. case_decide as He; [subst n|]; destruct x;
    rewrite ?Z.setbit_eqb, ?Z.clearbit_eqb, ?Z.eqb_refl by lia; simpl.
  - done.
  - by rewrite andb_false_r.
  - by rewrite (proj2 (Z.eqb_neq b n)) by lia.
  - by rewrite (proj2 (Z.eqb_neq b n)), andb_true_r by lia.
Qed.
Lemma setbit_put v b : Z.setbit v b = put_bit v b true.
Proof. done. Qed.
Lemma clearbit_put v b : Z.clearbit v b = put_bit v b false.
Proof. done. Qed.

(** Equal up to [SPIE] and [SPP]. *)
Definition same_status (v w : Z) : Prop :=
  ∀ b, 0 ≤ b → b ≠ SPIE_BIT → b ≠ SPP_BIT → Z.testbit w b = Z.testbit v b.

(** An exception and [sret], with interrupts off. *)
Lemma exception_sret_status s s1 cause tval pc :
  Z.testbit (cpu_csr s sstatus) SIE_BIT = false →
  cpu_csr s1 sstatus = cpu_csr (take_exception cause tval pc s) sstatus →
  same_status (cpu_csr s sstatus) (cpu_csr (sret s1) sstatus).
Proof.
  intros Hs H1 b Hb B5 B8. unfold sret. rewrite csr_set_csr, decide_True by done. rewrite H1.
  unfold take_exception. rewrite csr_set_csr, decide_True, Hs by done.
  rewrite !clearbit_put, !setbit_put. unfold SIE_BIT, SPIE_BIT, SPP_BIT in *.
  rewrite !testbit_put by lia. repeat case_decide; subst; done.
Qed.

(** ** Detection *)

(** The code around the probe, and the hardware. *)
Record probe_ok (s : cpu) : Prop := {
  po_abi : call_abi;
  po_trap : can_trap s probe_at;
  po_code : load_u16 s probe_at = Z.land csrr_hgatp 0xffff;
  po_stval : stval_of csrr_hgatp = 0 ∨ stval_of csrr_hgatp = csrr_hgatp;
  po_handler : 0 ≤ on_detect_trap_addr ∧ on_detect_trap_addr mod 4 = 0;
  po_rd : 1 ≤ rd < 32 ∧ rd ≠ sp ∧ rd ≠ tp;
}.

Lemma csrr_is_four : 1 ≤ rd < 32 → riscv_illegal_insn_bits (Z.land csrr_hgatp 0xffff) = 4.
Proof.
  intros Hr. unfold csrr_hgatp.
  assert (Forall (λ r, riscv_illegal_insn_bits
    (Z.land (0x680 * 2 ^ 20 + 2 * 2 ^ 12 + r * 2 ^ 7 + 0x73) 0xffff) = 4) (upto 0 32)) as Hf
    by (apply (bool_decide_unpack _); vm_compute; exact I).
  rewrite Forall_forall in Hf. apply Hf, elem_of_upto. lia.
Qed.

(** The probe traps and comes back. *)
Lemma probe_traps s :
  probe_ok s → has_h = false → cpu_csr s stvec = on_detect_trap_addr →
  Z.testbit (cpu_csr s sstatus) SIE_BIT = false →
  ∃ s', probe s = Ret s' ∧
    (∀ r, gpr s' r = if decide (r = tp) then 2 else gpr s r) ∧
    same_status (cpu_csr s sstatus) (cpu_csr s' sstatus) ∧ cpu_csr s' stvec = cpu_csr s stvec ∧
    (∀ a, gpr s sp ≤ a → dmem s' a = dmem s a) ∧
    (∀ c, c ∉ [sstatus; sepc; scause; stval] → cpu_csr s' c = cpu_csr s c).
Proof.
  intros [Ha Ht Hco Hst [Hh0 Hh4] [Hr _]] Hno Hv Hie. unfold probe. rewrite Hno.
  set (s1 := take_exception 2 (stval_of csrr_hgatp) probe_at s).
  assert (shows_insn s1 (cpu_csr s1 stval) probe_at) as Hsh.
  { change (cpu_csr s1 stval) with (stval_of csrr_hgatp). unfold shows_insn.
    change (load_u16 s1 probe_at) with (load_u16 s probe_at). rewrite Hco, csrr_is_four by done.
    destruct Hst as [-> | ->]; [by right|left]. by apply csrr_is_four. }
  destruct (on_detect_trap_run s1 probe_at Ha Ht eq_refl eq_refl Hsh) as (s2&E2&G2&C2&M2).
  change (cpu_csr s1 stvec) with (cpu_csr s stvec). rewrite Hv, Hh4, Z.sub_0_r, Z.eqb_refl, E2.
  cbn [mbind outcome_bind]. rewrite C2. asm_eval. rewrite Z.eqb_refl.
  eexists. split; [done|]. split_and!.
  - intros r. unfold sret. rewrite gpr_set_csr, G2. done.
  - apply (exception_sret_status s s2 2 (stval_of csrr_hgatp) probe_at); [done|]. by rewrite C2.
  - unfold sret. rewrite csr_set_csr, decide_False, C2 by done. done.
  - intros a Ha'. unfold sret. rewrite dmem_set_csr. by apply M2.
  - intros c Hc. rewrite !not_elem_of_cons in Hc. destruct Hc as (?&?&?&?&_).
    unfold sret. rewrite csr_set_csr, decide_False, C2, decide_False by done.
    unfold s1, take_exception. by rewrite !csr_set_csr, !decide_False.
Qed.

(** The state the detection is run in. *)
Lemma init_detect_trap_run param s :
  on_detect_trap_addr mod 4 = 0 →
  ∃ s1, init_detect_trap param s =
      Ret ((Z.testbit (cpu_csr s sstatus) SIE_BIT, cpu_csr s stvec, gpr s tp), s1) ∧
    (∀ r, gpr s1 r = if decide (r = tp) then param else gpr s r) ∧ dmem s1 = dmem s ∧
    (∀ c, cpu_csr s1 c = if decide (c = stvec) then on_detect_trap_addr
       else if decide (c = sstatus) then Z.clearbit (cpu_csr s sstatus) SIE_BIT else cpu_csr s c).
Proof.
  intros Hal. unfold init_detect_trap. cbv zeta.
  assert (Z.land on_detect_trap_addr 1 = 0) as ->.
  { rewrite (land_mask _ 1) by done. dlia. }
  eexists. split; [reflexivity|]. split_and!; [|done..]. intros r. by asm_eval.
Qed.

Lemma restore_detect_trap_run sie_ v t s :
  ∃ s', restore_detect_trap sie_ v t s = (gpr s tp, s') ∧
    (∀ r, gpr s' r = if decide (r = tp) then t else gpr s r) ∧ dmem s' = dmem s ∧
    (∀ c, cpu_csr s' c = if decide (c = stvec) then v
       else if decide (c = sstatus ∧ sie_ = true) then Z.setbit (cpu_csr s sstatus) SIE_BIT
       else cpu_csr s c).
Proof.
  unfold restore_detect_trap. eexists. split; [reflexivity|]. split_and!.
  - intros r. destruct sie_; by asm_eval.
  - by destruct sie_.
  - intros c. destruct sie_; asm_eval; repeat case_decide; naive_solver.
Qed.

(** Either way the probe comes back, with the answer in [tp]. *)
Lemma probe_answers s s1 :
  probe_ok s → (∀ r, gpr s1 r = if decide (r = tp) then 0 else gpr s r) → dmem s1 = dmem s →
  (∀ c, cpu_csr s1 c = if decide (c = stvec) then on_detect_trap_addr
     else if decide (c = sstatus) then Z.clearbit (cpu_csr s sstatus) SIE_BIT else cpu_csr s c) →
  ∃ s2, probe s1 = Ret s2 ∧ gpr s2 tp = (if has_h then 0 else 2) ∧
    (∀ r, r ≠ rd → r ≠ tp → gpr s2 r = gpr s r) ∧
    same_status (cpu_csr s1 sstatus) (cpu_csr s2 sstatus) ∧
    (∀ c, c ∉ [sstatus; sepc; scause; stval] → cpu_csr s2 c = cpu_csr s1 c) ∧
    (∀ a, gpr s sp ≤ a → dmem s2 a = dmem s a).
Proof.
  intros Hok G1 D1 C1.
  pose proof Hok as [? ? ? ? [? ?] [Hr (Hr2&Hr4)]]. destruct has_h eqn:Hh.
  - exists (set_gpr rd (cpu_csr s1 hgatp) s1). unfold probe. rewrite Hh. split; [done|].
    rewrite gpr_set_gpr, decide_False, G1, csr_set_gpr, dmem_set_gpr, D1 by (done || lia).
    split_and!; try done. intros r Hrr Hrt.
    by rewrite gpr_set_gpr, decide_False, G1, decide_False by (done || lia).
  - assert (probe_ok s1) as Hok1.
    { destruct Hok. split; try done; unfold can_trap, load_u16 in *; by rewrite ?G1, ?D1. }
    destruct (probe_traps s1 Hok1 Hh) as (s2&P1&P2&P3&P4&P5&P6).
    { by rewrite C1. }
    { rewrite C1, decide_False, decide_True by done. by apply Z.clearbit_eq. }
    exists s2. split; [done|]. rewrite P2. split; [done|]. split_and!; try done.
    + intros r Hrr Hrt. by rewrite P2, G1, !decide_False.
    + intros a Ha. rewrite P5, D1; [done|]. by rewrite G1.
Qed.

(** C30: the answer is right and leaves no trace.  [detect_h_extension] returns
    [true] exactly when reading [hgatp] does not trap, whether the hardware
    reports the instruction in [stval] or not; all registers but the one the
    instruction writes, the trap vector, the interrupt enable and all of memory
    above the stack pointer are as before. *)
Theorem detect_h_extension_correct s :
  probe_ok s →
  ∃ s', detect_h_extension s = Ret (has_h, s') ∧
    (∀ r, r ≠ rd → gpr s' r = gpr s r) ∧
    same_status (cpu_csr s sstatus) (cpu_csr s' sstatus) ∧
    (∀ c, c ∉ [sstatus; sepc; scause; stval] → cpu_csr s' c = cpu_csr s c) ∧
    (∀ a, gpr s sp ≤ a → dmem s' a = dmem s a).
Proof.
  intros Hok. destruct (init_detect_trap_run 0 s) as (s1&E1&G1&D1&C1); [apply Hok|].
  unfold detect_h_extension, with_detect_trap. rewrite E1. cbn [mbind outcome_bind].
  destruct (probe_answers s s1 Hok G1 D1 C1) as (s2&E2&T2&G2&S2&C2&D2).
  rewrite E2. cbn [mbind outcome_bind].
  destruct (restore_detect_trap_run (Z.testbit (cpu_csr s sstatus) SIE_BIT) (cpu_csr s stvec)
    (gpr s tp) s2) as (s'&E3&G3&D3&C3).
  rewrite E3. cbn [fst snd]. exists s'. split_and!.
  - rewrite T2. by destruct has_h.
  - intros r Hr. rewrite G3. destruct (decide (r = tp)) as [->|Hrt]; [done|]. by apply G2.
  - intros b Hb B5 B8. rewrite C3, decide_False by done.
    assert (∀ b', 0 ≤ b' → b' ≠ SPIE_BIT → b' ≠ SPP_BIT → Z.testbit (cpu_csr s2 sstatus) b' =
      if decide (b' = SIE_BIT) then false else Z.testbit (cpu_csr s sstatus) b') as Hs2.
    { intros b' ? ? ?. rewrite S2, C1, decide_False, decide_True, clearbit_put by done.
      by rewrite testbit_put by done. }
    destruct (Z.testbit (cpu_csr s sstatus) SIE_BIT) eqn:Hie.
    + rewrite decide_True, setbit_put, testbit_put, Hs2 by done.
      destruct (decide (b = SIE_BIT)) as [->|]; [by rewrite Hie|done].
    + rewrite decide_False, Hs2 by naive_solver.
      destruct (decide (b = SIE_BIT)) as [->|]; [by rewrite Hie|done].
  - intros c Hc. rewrite C3, (C2 c Hc), (C1 c). rewrite !not_elem_of_cons in Hc.
    destruct (decide (c = stvec)) as [->|]; [done|]. by rewrite !decide_False by naive_solver.
  - intros a Ha. by rewrite D3, D2.
Qed.
End Detect.

(** ** A hart without the extension *)

(** Compiled code that leaves rubbish in every caller-saved register; [csrr a5]
    at [0x80200800], the stack below [0x80300000]. *)
Definition demo_clobber (s : cpu) : cpu :=
  MkCpu (λ r, if caller_saved r then 0xdead else gpr s r) (cpu_csr s) (dmem s).
Definition demo_probe : cpu :=
  MkCpu (λ r, if decide (r = sp) then 0x80300000 else r)
    (λ c, if decide (c = sstatus) then 2 else 0x80201000)
    (λ a, if decide (a = 0x80200800) then csrr_hgatp 15 else 0).

Lemma demo_probe_ok : probe_ok demo_clobber 0x80200400 (λ _, 0) 0x80200800 15 demo_probe.
Proof.
  split; try reflexivity; [|vm_compute; intuition congruence|by left|done|done].
  split; try done. intros s r Hr. unfold demo_clobber. cbn [gpr]. by rewrite Hr.
Qed.

Lemma detect_h_extension_correct_witness :
  ∃ s', detect_h_extension (H := λ _, TrapException IllegalInstruction) demo_clobber 0x80200400
      false (λ _, 0) 0x80200800 15 demo_probe = Ret (false, s') ∧
    gpr s' sp = 0x80300000 ∧ Z.testbit (cpu_csr s' sstatus) SIE_BIT = true.
Proof.
  destruct (detect_h_extension_correct (H := λ _, TrapException IllegalInstruction) demo_clobber
    0x80200400 false (λ _, 0) 0x80200800 15 eq_refl demo_probe demo_probe_ok)
    as (s'&H1&H2&H3&_).
  exists s'. split; [exact H1|]. split.
  - rewrite (H2 sp) by discriminate. reflexivity.
  - rewrite (H3 SIE_BIT) by (discriminate || (vm_compute; congruence)). reflexivity.
Defined.
