(* ===== verification/ContextSwitch.v ===== *)
(** * The context switch

    The assembly that enters and leaves the guest: [__alltraps] and [__restore]
    of [src/src/guest/trap.S] and [hart_entry_2] of
    [src/src/guest/vmexit.rs], as instruction lists run on registers, control
    registers and memory.  The trap context lies at [TRAP_CONTEXT], in the
    layout of the [repr(C)] record of [src/src/guest/context.rs]. *)
From stdpp Require Import base tactics numbers list option gmap strings.
From S2P Require Import Prelude Constants Machine Layout Riscv.

(** ** The code *)

(** [SAVE_GP n] and [LOAD_GP n] for [n] from 5 to 31. *)
Definition save_gps : list instr := (λ n, Isd n (n * 8) sp) <$> upto 5 27.
Definition load_gps : list instr := (λ n, Ild n (n * 8) sp) <$> upto 5 27.

(** [__alltraps], up to [jr t1]. *)
Definition alltraps : list instr :=
  [Icsrrw sp sscratch sp; Isd 1 (1 * 8) sp; Isd 3 (3 * 8) sp] ++
  save_gps ++
  [Icsrr t0 sstatus; Icsrr t1 sepc; Isd t0 (32 * 8) sp; Isd t1 (33 * 8) sp;
   Icsrr t2 sscratch; Isd t2 (2 * 8) sp; Ild t0 (34 * 8) sp; Ild t1 (36 * 8) sp;
   Icsrr t0 hstatus; Isd t0 (37 * 8) sp; Ild sp (35 * 8) sp].

(** [__restore], up to [sret]. *)
Definition restore : list instr :=
  [Icsrw sscratch a0; Imv sp a0; Ild t0 (32 * 8) sp; Ild t1 (33 * 8) sp;
   Icsrw sstatus t0; Icsrw sepc t1; Ild t0 (37 * 8) sp; Icsrw hstatus t0;
   Ild 1 (1 * 8) sp; Ild 3 (3 * 8) sp] ++
  load_gps ++ [Ild sp (2 * 8) sp].

(** [hart_entry_2], up to [sret]. *)
Definition hart_entry_2 : list instr :=
  [Ifence_i; Ili a0 TRAP_CONTEXT; Icsrw sscratch a0; Imv sp a0; Ild t0 (32 * 8) sp;
   Ild t1 (33 * 8) sp; Icsrw sstatus t0; Icsrw sepc t1; Ild t0 (37 * 8) sp;
   Icsrw hstatus t0; Ild 1 (1 * 8) sp; Ild 3 (3 * 8) sp] ++
  load_gps ++ [Ild sp (2 * 8) sp; Ili a1 GUEST_DTB_ADDR].

(** [__alltraps_k], up to [jalr t2]: traps taken in the hypervisor. *)
Definition alltraps_k : list instr :=
  [Iaddi sp sp (-34 * 8); Isd 1 (1 * 8) sp; Isd 3 (3 * 8) sp] ++
  save_gps ++
  [Icsrr t0 sstatus; Icsrr t1 sepc; Isd t0 (32 * 8) sp; Isd t1 (33 * 8) sp; Imv a0 sp;
   Icsrr t2 sscratch].
(** [__restore_k], up to [sret]. *)
Definition restore_k : list instr :=
  [Ild t0 (32 * 8) sp; Ild t1 (33 * 8) sp; Icsrw sstatus t0; Icsrw sepc t1;
   Ild 1 (1 * 8) sp; Ild 3 (3 * 8) sp] ++
  load_gps ++ [Iaddi sp sp (34 * 8)].

(** [_start] of [src/src/main.rs], up to the call of [hentry]; [boot_stack] is
    the address of [BOOT_STACK], [a0] the hart. *)
Definition BOOT_STACK_SIZE : Z := 16 * PAGE_SIZE.
Definition start (boot_stack : Z) : list instr :=
  [Ili sp boot_stack; Ili t2 BOOT_STACK_SIZE; Iaddi 28 a0 1; Imul t2 t2 28; Iadd sp sp t2].

(** ** The trap context in memory *)

(** The double word [k] of the context page, as the assembly addresses it. *)
Definition slot (k : Z) : Z := TRAP_CONTEXT + k * 8.
Definition word (s : cpu) (k : Z) : Z := dmem s (slot k).

(** The address of a field, as the compiler lays the record out. *)
Definition field_addr (name : string) : Z := TRAP_CONTEXT + offset_of TrapContext_struct name.

(** The Rust code sees the context [c] at [TRAP_CONTEXT]. *)
Record ctx_at (s : cpu) (c : TrapContext) : Prop := {
  at_x i v : x c !! i = Some v → dmem s (field_addr "x" + Z.of_nat i * 8) = v;
  at_sstatus : dmem s (field_addr "sstatus") = ctx_sstatus c;
  at_sepc : dmem s (field_addr "sepc") = ctx_sepc c;
  at_hgatp : dmem s (field_addr "hgatp") = ctx_hgatp c;
  at_kernel_sp : dmem s (field_addr "kernel_sp") = kernel_sp c;
  at_trap_handler : dmem s (field_addr "trap_handler") = ctx_trap_handler c;
  at_hstatus : dmem s (field_addr "hstatus") = ctx_hstatus c;
}.

(** Registers [__alltraps] saves: all but [x0], [sp] (saved through [sscratch])
    and [tp]. *)
Definition saved (i : Z) : Prop := 1 ≤ i ≤ 31 ∧ i ≠ 2 ∧ i ≠ 4.

(** ** Facts *)

Lemma slot_addr k : 0 ≤ k < 512 → wrapping_add TRAP_CONTEXT (k * 8) = slot k.
Proof.
  intros Hk. unfold wrapping_add, slot. apply Z.mod_small.
  unfold TRAP_CONTEXT, TRAMPOLINE, W64, PAGE_SIZE. lia.
Qed.

Lemma word_store s k j v : word (set_dmem (slot j) v s) k = if decide (k = j) then v else word s k.
Proof.
  unfold word, set_dmem, upd, slot. simpl. repeat case_decide; first [done|lia].
Qed.

(** Storing a run of registers below [sp = TRAP_CONTEXT]. *)
Lemma exec_saves n l s :
  gpr s sp = TRAP_CONTEXT → 0 ≤ l → l + Z.of_nat n ≤ 512 →
  let s' := exec ((λ n, Isd n (n * 8) sp) <$> upto l n) s in
  gpr s' = gpr s ∧ cpu_csr s' = cpu_csr s ∧
  ∀ k, word s' k = if decide (l ≤ k < l + Z.of_nat n) then gpr s k else word s k.
Proof.
  revert l s. induction n as [|n IH]; intros l s Hs Hl Hn; simpl.
  - split_and!; try done. intros k. rewrite decide_False; [done|lia].
  - rewrite Hs, slot_addr by lia.
    destruct (IH (l + 1) (set_dmem (slot l) (gpr s l) s) Hs) as (IH1&IH2&IH3); [lia..|].
    split_and!; [done..|]. intros k. rewrite IH3, word_store. simpl.
    repeat case_decide; subst; first [done|lia].
Qed.

(** Loading a run of registers other than [sp] from there. *)
Lemma exec_loads n l s :
  gpr s sp = TRAP_CONTEXT → 2 < l → l + Z.of_nat n ≤ 512 →
  let s' := exec ((λ n, Ild n (n * 8) sp) <$> upto l n) s in
  cpu_csr s' = cpu_csr s ∧ dmem s' = dmem s ∧
  ∀ k, gpr s' k = if decide (l ≤ k < l + Z.of_nat n) then word s k else gpr s k.
Proof.
  revert l s. induction n as [|n IH]; intros l s Hs Hl Hn; simpl.
  - split_and!; try done. intros k. rewrite decide_False; [done|lia].
  - rewrite Hs, slot_addr by lia. unfold set_gpr. rewrite decide_False by lia.
    destruct (IH (l + 1) (MkCpu (upd (gpr s) l (dmem s (slot l))) (cpu_csr s) (dmem s)))
      as (IH1&IH2&IH3); [simpl; rewrite upd_other; [done|unfold sp; lia]|lia..|].
    split_and!; [done..|]. intros k. rewrite IH3. simpl. unfold word, upd. simpl.
    repeat case_decide; subst; first [done|lia].
Qed.

(** Single instructions. *)
Lemma exec_sd r k s : gpr s sp = TRAP_CONTEXT → 0 ≤ k < 512 →
  exec1 (Isd r (k * 8) sp) s = set_dmem (slot k) (gpr s r) s.
Proof. intros Hs Hk. simpl. by rewrite Hs, slot_addr. Qed.
Lemma exec_ld r k s : gpr s sp = TRAP_CONTEXT → 0 ≤ k < 512 →
  exec1 (Ild r (k * 8) sp) s = set_gpr r (word s k) s.
Proof. intros Hs Hk. simpl. by rewrite Hs, slot_addr. Qed.

Lemma word_set_gpr rd v s k : word (set_gpr rd v s) k = word s k.
Proof. unfold set_gpr. by case_decide. Qed.
(** Evaluate a register, control register or context word of a known state. *)
Ltac cpu_eval :=
  repeat first
    [ rewrite gpr_set_gpr by done
    | rewrite csr_set_gpr
    | rewrite word_set_gpr
    | rewrite csr_set_csr
    | rewrite word_store
    | match goal with
      | |- context [gpr (set_dmem ?a ?v ?s)] => change (gpr (set_dmem a v s)) with (gpr s)
      | |- context [gpr (set_cpu_csr ?c ?v ?s)] => change (gpr (set_cpu_csr c v s)) with (gpr s)
      | |- context [cpu_csr (set_dmem ?a ?v ?s)] => change (cpu_csr (set_dmem a v s)) with (cpu_csr s)
      | |- context [word (set_cpu_csr ?c ?v ?s) ?k] =>
          change (word (set_cpu_csr c v s) k) with (word s k)
      | |- context [decide (?p = ?q)] =>
          first [rewrite (decide_True (P := p = q)) by reflexivity
                |rewrite (decide_False (P := p = q)) by discriminate]
      end ].
(** Run the loads and stores of an unfolded list, innermost first; [H] gives
    [sp] at its start. *)
Ltac cpu_run H :=
  rewrite ?exec_csrr, ?exec_csrw, ?exec_mv, ?exec_li;
  repeat first
    [ rewrite exec_sd by first [lia | cpu_eval; exact H]
    | rewrite exec_ld by first [lia | cpu_eval; exact H] ].

(** The first and the last part of [__alltraps]. *)
Lemma alltraps_head s :
  cpu_csr s sscratch = TRAP_CONTEXT →
  let p := exec [Icsrrw sp sscratch sp; Isd 1 (1 * 8) sp; Isd 3 (3 * 8) sp] s in
  gpr p sp = TRAP_CONTEXT ∧ (∀ i, i ≠ 2 → gpr p i = gpr s i) ∧
  (∀ k, word p k = if decide (k = 3) then gpr s 3 else if decide (k = 1) then gpr s 1 else word s k) ∧
  (∀ c, cpu_csr p c = if decide (c = sscratch) then gpr s sp else cpu_csr s c).
Proof.
  intros Hss. cbn [exec].
  set (q := exec1 (Icsrrw sp sscratch sp) s).
  assert (gpr q sp = TRAP_CONTEXT) as Hq by (simpl; exact Hss).
  assert (∀ i, i ≠ 2 → gpr q i = gpr s i) as Hq2.
  { intros i Hi. unfold q. cbn [exec1]. rewrite gpr_set_gpr by done. by rewrite decide_False. }
  cpu_run Hq. split_and!; [done|done| |done].
  intros k. cpu_eval. repeat case_decide; subst; try done; by rewrite Hq2.
Qed.

Lemma alltraps_tail q :
  gpr q sp = TRAP_CONTEXT →
  let s' := exec [Icsrr t0 sstatus; Icsrr t1 sepc; Isd t0 (32 * 8) sp; Isd t1 (33 * 8) sp;
     Icsrr t2 sscratch; Isd t2 (2 * 8) sp; Ild t0 (34 * 8) sp; Ild t1 (36 * 8) sp;
     Icsrr t0 hstatus; Isd t0 (37 * 8) sp; Ild sp (35 * 8) sp] q in
  (∀ k, word s' k =
     if decide (k = 37) then cpu_csr q hstatus else if decide (k = 2) then cpu_csr q sscratch
     else if decide (k = 33) then cpu_csr q sepc else if decide (k = 32) then cpu_csr q sstatus
     else word q k) ∧
  gpr s' sp = word q 35 ∧ gpr s' t1 = word q 36 ∧ gpr s' 4 = gpr q 4.
Proof.
  intros Hq. cbn [exec]. cpu_run Hq. split_and!.
  - intros k. cpu_eval. done.
  - cpu_eval. done.
  - cpu_eval. done.
  - cpu_eval. done.
Qed.

(** What the entry code stores and where it goes on. *)
Lemma alltraps_spec s :
  cpu_csr s sscratch = TRAP_CONTEXT →
  let s' := exec alltraps s in
  (∀ i, saved i ∨ i = 2 → word s' i = gpr s i) ∧
  word s' 32 = cpu_csr s sstatus ∧ word s' 33 = cpu_csr s sepc ∧ word s' 37 = cpu_csr s hstatus ∧
  (∀ k, k = 0 ∨ k = 4 ∨ 34 ≤ k ≤ 36 → word s' k = word s k) ∧
  gpr s' sp = word s 35 ∧ gpr s' t1 = word s 36 ∧ gpr s' 4 = gpr s 4.
Proof.
  intros Hss. unfold alltraps. rewrite !exec_app.
  destruct (alltraps_head s Hss) as (P1&P2&P3&P4). set (p := exec _ s) in *. clearbody p.
  destruct (exec_saves 27 5 p P1) as (Q1&Q2&Q3); [lia..|].
  unfold save_gps. set (q := exec _ p) in *. clearbody q.
  destruct (alltraps_tail q ltac:(by rewrite Q1)) as (R1&R2&R3&R4).
  split_and!.
  - intros i [(Hi&Hi2&Hi4)| ->].
    + rewrite R1, !decide_False by lia. rewrite Q3, P3.
      repeat case_decide; subst; try done; try lia. by apply P2.
    + rewrite R1, decide_False, decide_True by done. by rewrite Q2, P4.
  - rewrite R1. cpu_eval. by rewrite Q2, P4.
  - rewrite R1. cpu_eval. by rewrite Q2, P4.
  - rewrite R1. cpu_eval. by rewrite Q2, P4.
  - intros k Hk. rewrite R1, !decide_False, Q3, decide_False, P3, !decide_False by lia. done.
  - by rewrite R2, Q3, P3.
  - by rewrite R3, Q3, P3.
  - rewrite R4, Q1. by apply P2.
Qed.

(** What the exit code loads. *)
Lemma restore_spec s :
  gpr s a0 = TRAP_CONTEXT →
  let s' := exec restore s in
  (∀ i, saved i ∨ i = 2 → gpr s' i = word s i) ∧ gpr s' 4 = gpr s 4 ∧
  cpu_csr s' sstatus = word s 32 ∧ cpu_csr s' sepc = word s 33 ∧ cpu_csr s' hstatus = word s 37 ∧
  cpu_csr s' sscratch = TRAP_CONTEXT ∧ dmem s' = dmem s.
Proof.
  intros Ha. unfold restore. rewrite !exec_app.
  set (l := [Icsrw sscratch a0; Imv sp a0; _; _; _; _; _; _; _; _]).
  assert (gpr (exec l s) sp = TRAP_CONTEXT ∧ (∀ k, word (exec l s) k = word s k) ∧
    dmem (exec l s) = dmem s ∧
    gpr (exec l s) 1 = word s 1 ∧ gpr (exec l s) 3 = word s 3 ∧ gpr (exec l s) 4 = gpr s 4 ∧
    cpu_csr (exec l s) sstatus = word s 32 ∧ cpu_csr (exec l s) sepc = word s 33 ∧
    cpu_csr (exec l s) hstatus = word s 37 ∧ cpu_csr (exec l s) sscratch = TRAP_CONTEXT)
    as (P1&P2&P3&P4&P5&P6&P7&P8&P9&P10).
  { unfold l. cbn [exec]. cpu_run Ha. rewrite Ha.
    split_and!; try (cpu_eval; done). }
  set (p := exec l s) in *. clearbody p. clear l.
  destruct (exec_loads 27 5 p P1) as (Q1&Q2&Q3); [lia..|].
  unfold load_gps. set (q := exec _ p) in *. clearbody q. cbn [exec].
  assert (gpr q sp = TRAP_CONTEXT) as Hq by (rewrite Q3, decide_False by (unfold sp; lia); done).
  cpu_run Hq.
  assert (∀ k, word q k = word s k) as Hw by (intros k; unfold word; rewrite Q2; apply P2).
  rewrite csr_set_gpr, Q1. split_and!; try done.
  - intros i [(Hi&Hi2&Hi4)| ->]; rewrite gpr_set_gpr by done.
    + rewrite decide_False by (unfold sp; lia). rewrite Q3, P2. repeat case_decide; try done.
      assert (i = 1 ∨ i = 3) as [-> | ->] by lia; done.
    + rewrite decide_True by done. apply Hw.
  - cpu_eval. rewrite Q3, decide_False by lia. done.
  - unfold set_gpr. simpl. by rewrite Q2.
Qed.

Lemma hart_entry_2_eq :
  hart_entry_2 = [Ifence_i; Ili a0 TRAP_CONTEXT] ++ restore ++ [Ili a1 GUEST_DTB_ADDR].
Proof. reflexivity. Qed.

(** The slots the assembly uses are the fields. *)
Lemma slot_fields :
  (∀ i, field_addr "x" + i * 8 = slot i) ∧ field_addr "sstatus" = slot 32 ∧
  field_addr "sepc" = slot 33 ∧ field_addr "hgatp" = slot 34 ∧ field_addr "kernel_sp" = slot 35 ∧
  field_addr "trap_handler" = slot 36 ∧ field_addr "hstatus" = slot 37.
Proof.
  split; [|done]. intros i. unfold field_addr, slot.
  change (offset_of TrapContext_struct "x") with 0. lia.
Qed.

Lemma ctx_at_words s c : ctx_at s c ↔
  (∀ i v, x c !! i = Some v → word s (Z.of_nat i) = v) ∧
  word s 32 = ctx_sstatus c ∧ word s 33 = ctx_sepc c ∧ word s 34 = ctx_hgatp c ∧
  word s 35 = kernel_sp c ∧ word s 36 = ctx_trap_handler c ∧ word s 37 = ctx_hstatus c.
Proof.
  destruct slot_fields as (Fx&F1&F2&F3&F4&F5&F6). unfold word. split.
  - intros [C0 C1 C2 C3 C4 C5 C6]. rewrite F1, F2, F3, F4, F5, F6 in *.
    split; [|done]. intros i v Hv. rewrite <- Fx. by apply C0.
  - intros (C0&C1&C2&C3&C4&C5&C6). split; rewrite ?F1, ?F2, ?F3, ?F4, ?F5, ?F6; [|done..].
    intros i v Hv. rewrite Fx. by apply C0.
Qed.

Lemma ctx_at_reg s c i v : ctx_at s c → x c !! i = Some v → word s (Z.of_nat i) = v.
Proof. intros [C0 _]%ctx_at_words. apply C0. Qed.
Lemma ctx_at_csrs s c : ctx_at s c →
  word s 32 = ctx_sstatus c ∧ word s 33 = ctx_sepc c ∧ word s 37 = ctx_hstatus c.
Proof. by intros (_&C1&C2&_&_&_&C6)%ctx_at_words. Qed.

(** The context after a trap: the guest's registers and status; [x0], [tp] and
    what the hypervisor keeps there are left as they were. *)
Definition trapped (s : cpu) (c : TrapContext) : TrapContext :=
  MkCtx (imap (λ i v, if decide (i = 0 ∨ i = 4)%nat then v else gpr s (Z.of_nat i)) (x c))
    (cpu_csr s sstatus) (cpu_csr s sepc) (ctx_hgatp c) (kernel_sp c) (ctx_trap_handler c)
    (cpu_csr s hstatus).

Lemma trapped_same s c :
  (∀ i v, (0 < i)%nat → i ≠ 4%nat → x c !! i = Some v → gpr s (Z.of_nat i) = v) →
  cpu_csr s sstatus = ctx_sstatus c → cpu_csr s sepc = ctx_sepc c →
  cpu_csr s hstatus = ctx_hstatus c → trapped s c = c.
Proof.
  destruct c as [xs ? ? ? ? ? ?]. unfold trapped. simpl. intros Hx -> -> ->. f_equal.
  apply list_eq. intros i. rewrite list_lookup_imap. destruct (xs !! i) as [v|] eqn:Hv; [|done].
  simpl. f_equal. case_decide; [done|]. apply Hx; [lia|lia|done].
Qed.

Lemma alltraps_stores s c :
  cpu_csr s sscratch = TRAP_CONTEXT → ctx_at s c → (length (x c) ≤ 32)%nat →
  ctx_at (exec alltraps s) (trapped s c).
Proof.
  intros Hss (C0&_&_&C3&C4&C5&_)%ctx_at_words Hl.
  destruct (alltraps_spec s Hss) as (A1&A2&A3&A4&A5&_).
  apply ctx_at_words. cbn [trapped x ctx_sstatus ctx_sepc ctx_hgatp kernel_sp ctx_trap_handler
    ctx_hstatus].
  split; [|split_and!; first [done|by rewrite A5 by lia]].
  intros i v. rewrite list_lookup_imap. destruct (x c !! i) as [u|] eqn:Hu; [|done].
  pose proof (lookup_lt_Some _ _ _ Hu). intros [= <-]. case_decide as Hi.
  - rewrite A5 by lia. by apply C0.
  - apply A1. destruct (decide (i = 2%nat)) as [->|]; [by right|left]. unfold saved. lia.
Qed.

(** ** Traps in the hypervisor *)

Definition k_slots : list (Z * Z) := (λ r, (r, r * 8)) <$> ([1; 3] ++ upto 5 27).
Lemma alltraps_k_eq :
  alltraps_k = [Iaddi sp sp (-34 * 8)] ++ store_all sp k_slots ++
    [Icsrr t0 sstatus; Icsrr t1 sepc; Isd t0 (32 * 8) sp; Isd t1 (33 * 8) sp; Imv a0 sp;
     Icsrr t2 sscratch].
Proof. reflexivity. Qed.
Lemma restore_k_eq :
  restore_k = [Ild t0 (32 * 8) sp; Ild t1 (33 * 8) sp; Icsrw sstatus t0; Icsrw sepc t1] ++
    load_all sp k_slots ++ [Iaddi sp sp (34 * 8)].
Proof. reflexivity. Qed.
Lemma k_slots_ok f : 0 ≤ f → f + 34 * 8 ≤ W64 →
  offs_ok f k_slots ∧ NoDup (k_slots.*1) ∧ NoDup (k_slots.*2) ∧
  (sp ∉ k_slots.*1) ∧ (0 ∉ k_slots.*1).
Proof.
  intros Hf Hw. split; [|apply (bool_decide_unpack _); vm_compute; exact I].
  assert (Forall (λ p : Z * Z, 0 ≤ p.2 < 272) k_slots) as Hr
    by (apply (bool_decide_unpack _); vm_compute; exact I).
  eapply Forall_impl; [exact Hr|]. intros p. simpl. lia.
Qed.
Lemma k_slots_in i : saved i → (i, i * 8) ∈ k_slots.
Proof.
  intros (?&?&?). unfold k_slots. apply (list_elem_of_fmap_2 (λ r, (r, r * 8))).
  rewrite elem_of_app, !elem_of_cons, elem_of_nil, elem_of_upto. lia.
Qed.
Lemma k_slots_only i : i ∈ k_slots.*1 → saved i.
Proof.
  unfold k_slots. rewrite <- list_fmap_compose. intros (j&->&Hj)%list_elem_of_fmap. simpl.
  rewrite elem_of_app, !elem_of_cons, elem_of_nil, elem_of_upto in Hj. unfold saved. lia.
Qed.

(** The frame below the interrupted stack, and the call of the routine whose
    address is in [sscratch]. *)
Lemma alltraps_k_spec s :
  272 ≤ gpr s sp < W64 →
  let s' := exec alltraps_k s in let f := gpr s sp - 272 in
  gpr s' sp = f ∧ gpr s' a0 = f ∧ gpr s' t2 = cpu_csr s sscratch ∧ gpr s' 4 = gpr s 4 ∧
  (∀ i, saved i → dmem s' (f + i * 8) = gpr s i) ∧
  dmem s' (f + 256) = cpu_csr s sstatus ∧ dmem s' (f + 264) = cpu_csr s sepc ∧
  (∀ a, gpr s sp ≤ a → dmem s' a = dmem s a).
Proof.
  intros Hsp s' f. unfold s'. rewrite alltraps_k_eq, !exec_app.
  set (sa := exec [Iaddi sp sp (-34 * 8)] s).
  assert (∀ r, gpr sa r = if decide (r = sp) then f else gpr s r) as A1.
  { intros r. unfold sa. cbn [exec exec1]. asm_eval. unfold f. by rewrite wadd_run by lia. }
  assert (cpu_csr sa = cpu_csr s ∧ dmem sa = dmem s) as [A2 A3]
    by (unfold sa; cbn [exec exec1]; by rewrite csr_set_gpr, dmem_set_gpr).
  clearbody sa. destruct (k_slots_ok f) as (K1&_&K2&_&_); [unfold f; lia..|].
  destruct (exec_store_all sp f k_slots sa ltac:(by rewrite A1) K1 K2) as (B1&B2&B3&B4).
  set (sb := exec _ sa) in *. clearbody sb. cbn [exec exec1]. asm_eval.
  rewrite !B1, !B2, !A1, !A2. asm_eval. rewrite !wadd_run by (unfold f; lia).
  assert (∀ i, saved i → dmem sb (f + i * 8) = gpr s i) as Hb.
  { intros i Hi. rewrite (B3 i) by (by apply k_slots_in). rewrite A1, decide_False; [done|].
    unfold saved, sp in *. lia. }
  split_and!; try done.
  - intros i Hi. asm_eval. rewrite !decide_False by (unfold saved in Hi; lia). by apply Hb.
  - asm_eval. addr_cases.
  - asm_eval. addr_cases.
  - intros a Ha. asm_eval. rewrite !decide_False, B4, A3; [done| |unfold f; lia..].
    intros o Ho. assert (Forall (λ o, o < 272) (k_slots.*2)) as Hr
      by (apply (bool_decide_unpack _); vm_compute; exact I).
    rewrite Forall_forall in Hr. apply Hr in Ho. unfold f. lia.
Qed.

Lemma restore_k_spec s :
  0 ≤ gpr s sp → gpr s sp + 272 < W64 →
  let s' := exec restore_k s in let f := gpr s sp in
  gpr s' sp = f + 272 ∧ gpr s' 4 = gpr s 4 ∧ (∀ i, saved i → gpr s' i = dmem s (f + i * 8)) ∧
  cpu_csr s' sstatus = dmem s (f + 256) ∧ cpu_csr s' sepc = dmem s (f + 264) ∧ dmem s' = dmem s.
Proof.
  intros H1 H2 s' f. unfold s'. rewrite restore_k_eq, !exec_app.
  set (sa := exec [Ild t0 _ _; _; _; _] s).
  assert (gpr sa sp = f ∧ gpr sa 4 = gpr s 4 ∧ dmem sa = dmem s ∧
    cpu_csr sa sstatus = dmem s (f + 256) ∧ cpu_csr sa sepc = dmem s (f + 264)) as (A1&A2&A3&A4&A5).
  { unfold sa. cbn [exec exec1]. asm_eval. fold f. rewrite !wadd_run by lia. by split_and!. }
  clearbody sa. destruct (k_slots_ok f) as (K1&K2&_&K3&K4); [lia..|].
  destruct (exec_load_all sp f k_slots sa A1 K1 K2 K3 K4) as (B1&B2&B3&B4).
  set (sb := exec _ sa) in *. clearbody sb. cbn [exec exec1].
  rewrite csr_set_gpr, dmem_set_gpr, B1, B2. split_and!; try done.
  - asm_eval. rewrite B4, A1 by done. by apply wadd_run; lia.
  - asm_eval. rewrite B4; [done|]. intros Hin%k_slots_only. unfold saved in Hin. lia.
  - intros i Hi. rewrite gpr_set_gpr, decide_False by (unfold saved, sp in *; lia || done).
    by rewrite (B3 _ _ (k_slots_in i Hi)), A3.
Qed.

(** If the routine came back with [sp], [tp] and the frame as it found them, the
    interrupted code would go on as if nothing had happened. *)
Lemma kernel_trap_transparent s s2 :
  272 ≤ gpr s sp < W64 → gpr s2 sp = gpr (exec alltraps_k s) sp → gpr s2 4 = gpr s 4 →
  (∀ k, 1 ≤ k ≤ 33 → k ≠ 2 → k ≠ 4 →
     dmem s2 (gpr s2 sp + k * 8) = dmem (exec alltraps_k s) (gpr s2 sp + k * 8)) →
  let s3 := exec restore_k s2 in
  (∀ i, 1 ≤ i ≤ 31 → gpr s3 i = gpr s i) ∧
  cpu_csr s3 sstatus = cpu_csr s sstatus ∧ cpu_csr s3 sepc = cpu_csr s sepc.
Proof.
  intros Hsp H2 H4 Hm s3. destruct (alltraps_k_spec s Hsp) as (A1&_&_&_&A3&A4&A5&_).
  rewrite A1 in H2. destruct (restore_k_spec s2) as (R1&R2&R3&R4&R5&_); [lia..|].
  fold s3 in R1, R2, R3, R4, R5.
  split_and!.
  - intros i Hi. destruct (decide (i = 2)) as [->|]; [change 2 with sp; rewrite R1; lia|].
    destruct (decide (i = 4)) as [->|]; [by rewrite R2|].
    assert (saved i) as Hs by (unfold saved; lia).
    rewrite R3, Hm, H2 by (done || lia). by apply A3.
  - rewrite R4. change 256 with (32 * 8). by rewrite Hm, H2 by lia.
  - rewrite R5. change 264 with (33 * 8). by rewrite Hm, H2 by lia.
Qed.

(** ** The boot stack *)

(** Hart 0 starts at the upper end of [BOOT_STACK]; the stack of any other hart
    lies above it, outside the array. *)
Lemma start_stack boot_stack s :
  0 ≤ boot_stack → 0 ≤ gpr s a0 → boot_stack + (gpr s a0 + 1) * BOOT_STACK_SIZE < W64 →
  gpr (exec (start boot_stack) s) sp = boot_stack + (gpr s a0 + 1) * BOOT_STACK_SIZE ∧
  gpr (exec (start boot_stack) s) a0 = gpr s a0 ∧
  (gpr s a0 = 0 → gpr (exec (start boot_stack) s) sp = boot_stack + BOOT_STACK_SIZE) ∧
  (0 < gpr s a0 → boot_stack + BOOT_STACK_SIZE ≤
     gpr (exec (start boot_stack) s) sp - BOOT_STACK_SIZE).
Proof.
  intros Hb Ha Hw. unfold start. cbn [exec exec1]. asm_eval.
  unfold BOOT_STACK_SIZE, PAGE_SIZE in *.
  rewrite (wadd_run (gpr s a0) 1), (Z.mod_small (_ * _)), wadd_run by lia.
  split_and!; try done; lia.
Qed.

(** ** Claims *)

(** C12: leaving and re-entering the guest is transparent but for [tp].  If the
    hypervisor leaves the saved slots of the trap context alone, then after
    [__alltraps], the hypervisor, and [__restore], every general register except
    [tp] is as it was when the guest was interrupted, and so are [sstatus],
    [sepc] and [hstatus]; [sscratch] points to the context again.  [tp] is
    neither saved nor loaded: the hypervisor is entered with the guest's value,
    and the guest is resumed with whatever value the hypervisor has in it. *)
Theorem context_switch_transparent s s2 :
  cpu_csr s sscratch = TRAP_CONTEXT → gpr s2 a0 = TRAP_CONTEXT →
  (∀ k, 1 ≤ k ≤ 33 ∨ k = 37 → k ≠ 4 → word s2 k = word (exec alltraps s) k) →
  let s3 := exec restore s2 in
  (∀ i, 1 ≤ i ≤ 31 → i ≠ 4 → gpr s3 i = gpr s i) ∧
  gpr (exec alltraps s) 4 = gpr s 4 ∧ gpr s3 4 = gpr s2 4 ∧
  cpu_csr s3 sstatus = cpu_csr s sstatus ∧ cpu_csr s3 sepc = cpu_csr s sepc ∧
  cpu_csr s3 hstatus = cpu_csr s hstatus ∧ cpu_csr s3 sscratch = TRAP_CONTEXT.
Proof.
  intros Hss Ha Hk s3. destruct (alltraps_spec s Hss) as (A1&A2&A3&A4&_&_&_&A8).
  destruct (restore_spec s2 Ha) as (R1&R2&R3&R4&R5&R6&_). fold s3 in R1, R2, R3, R4, R5, R6.
  split_and!; [|done|done|rewrite ?R3, ?R4, ?R5, Hk; first [done|lia]..|done].
  intros i Hi Hi4.
  assert (saved i ∨ i = 2) as Hs.
  { destruct (decide (i = 2)); [by right|left]. unfold saved. lia. }
  rewrite R1 by done. rewrite Hk by lia. by apply A1.
Qed.
Definition demo_cpu : cpu :=
  MkCpu (λ i, i * 100) (λ c, if decide (c = sscratch) then TRAP_CONTEXT else 7) (λ _, 0).
Lemma context_switch_transparent_witness :
  gpr (exec restore (set_gpr a0 TRAP_CONTEXT (exec alltraps demo_cpu))) 17 = 1700.
Proof.
  destruct (context_switch_transparent demo_cpu
    (set_gpr a0 TRAP_CONTEXT (exec alltraps demo_cpu)) eq_refl) as [H _].
  - rewrite gpr_set_gpr by discriminate. rewrite decide_True; reflexivity.
  - intros k _ _. apply word_set_gpr.
  - rewrite (H 17) by lia. reflexivity.
Defined.

(** C19: the guest runs with the trap context.  With a context in memory as the
    handlers left it, [__restore] gives the guest the context's general registers
    (apart from [x0] and [tp], which it does not load; [tp] keeps its value),
    program counter, [sstatus] and [hstatus], and leaves [sscratch] pointing to
    the context.  Trapping at once stores the very same context back, and
    [__alltraps] goes on with the context's [kernel_sp] as stack at the context's
    [trap_handler]. *)
Theorem restore_loads_context s c :
  gpr s a0 = TRAP_CONTEXT → ctx_at s c → length (x c) = 32%nat →
  let s' := exec restore s in let s'' := exec alltraps s' in
  (∀ i v, (0 < i)%nat → i ≠ 4%nat → x c !! i = Some v → gpr s' (Z.of_nat i) = v) ∧
  gpr s' 4 = gpr s 4 ∧
  cpu_csr s' sstatus = ctx_sstatus c ∧ cpu_csr s' sepc = ctx_sepc c ∧
  cpu_csr s' hstatus = ctx_hstatus c ∧ cpu_csr s' sscratch = TRAP_CONTEXT ∧ ctx_at s' c ∧
  ctx_at s'' c ∧ gpr s'' sp = kernel_sp c ∧ gpr s'' t1 = ctx_trap_handler c.
Proof.
  intros Ha Hc Hl s' s''. destruct (restore_spec s Ha) as (R1&R2&R3&R4&R5&R6&R7).
  fold s' in R1, R2, R3, R4, R5, R6, R7. destruct (ctx_at_csrs s c Hc) as (C1&C2&C3).
  assert (∀ i v, (0 < i)%nat → i ≠ 4%nat → x c !! i = Some v → gpr s' (Z.of_nat i) = v) as Hx.
  { intros i v Hi Hi4 Hv. rewrite R1; [by eapply ctx_at_reg|].
    apply lookup_lt_Some in Hv. destruct (decide (i = 2%nat)) as [->|]; [by right|left].
    unfold saved. lia. }
  assert (ctx_at s' c) as Hc'.
  { apply ctx_at_words. apply ctx_at_words in Hc. unfold word in *. by rewrite R7. }
  assert (trapped s' c = c) as Ht by (apply trapped_same; congruence || done).
  pose proof (alltraps_stores s' c R6 Hc' ltac:(lia)) as Hs. rewrite Ht in Hs.
  destruct (alltraps_spec s' R6) as (_&_&_&_&_&A6&A7&_).
  apply ctx_at_words in Hc' as Hw. destruct Hw as (_&_&_&_&W35&W36&_).
  fold s'' in Hs, A6, A7. clearbody s''. clearbody s'.
  split_and!; [exact Hx|exact R2|congruence..|exact R6|exact Hc'|exact Hs|congruence|congruence].
Qed.
Definition demo_context : TrapContext :=
  MkCtx (replicate 32 3) 0x100 0x90200000 0 TRAP_CONTEXT 0x80211000 0x80.
(** A machine with the context [c] in memory: its double words in order. *)
Definition ctx_words (c : TrapContext) : list Z :=
  x c ++ [ctx_sstatus c; ctx_sepc c; ctx_hgatp c; kernel_sp c; ctx_trap_handler c; ctx_hstatus c].
Definition cpu_with (c : TrapContext) : cpu :=
  MkCpu (λ _, TRAP_CONTEXT) (λ c, if decide (c = sscratch) then TRAP_CONTEXT else 0)
    (λ a, default 0 (ctx_words c !! Z.to_nat ((a - TRAP_CONTEXT) / 8))).
Lemma cpu_with_at c : length (x c) = 32%nat → ctx_at (cpu_with c) c.
Proof.
  intros Hl.
  assert (∀ k v, ctx_words c !! k = Some v → word (cpu_with c) (Z.of_nat k) = v) as Hw.
  { intros k v Hv. unfold word, cpu_with, slot. cbn [dmem].
    replace (TRAP_CONTEXT + Z.of_nat k * 8 - TRAP_CONTEXT) with (Z.of_nat k * 8) by lia.
    rewrite Z.div_mul, Nat2Z.id by done. by rewrite Hv. }
  apply ctx_at_words. split.
  - intros i v Hv. apply Hw. unfold ctx_words. rewrite lookup_app_l; [done|].
    by eapply lookup_lt_Some.
  - assert (∀ k v, [ctx_sstatus c; ctx_sepc c; ctx_hgatp c; kernel_sp c; ctx_trap_handler c;
      ctx_hstatus c] !! k = Some v → word (cpu_with c) (Z.of_nat (32 + k)) = v) as Hk.
    { intros k v Hv. apply Hw. unfold ctx_words. rewrite lookup_app_r by lia.
      rewrite Hl. by replace (32 + k - 32)%nat with k by lia. }
    split_and!; [by apply (Hk 0%nat)|by apply (Hk 1%nat)|by apply (Hk 2%nat)|by apply (Hk 3%nat)
      |by apply (Hk 4%nat)|by apply (Hk 5%nat)].
Qed.
Lemma restore_loads_context_witness :
  cpu_csr (exec restore (cpu_with demo_context)) sepc = 0x90200000.
Proof.
  destruct (restore_loads_context (cpu_with demo_context) demo_context eq_refl
    (cpu_with_at demo_context eq_refl) eq_refl)
    as (_&_&_&H&_). exact H.
Defined.

(** C36: the assembly and the [repr(C)] record agree.  When the guest traps with
    a context at [TRAP_CONTEXT], the record the Rust code reads there after
    [__alltraps], field by field at the offsets of the compiler's layout, has the
    guest's general registers in [x] (its old values for [x0] and [tp]), the
    guest's [sstatus], [sepc] and [hstatus], and the [hgatp], [kernel_sp] and
    [trap_handler] it had; the code goes on with that [kernel_sp] as stack at
    that [trap_handler]. *)
Theorem trap_context_layout s c :
  cpu_csr s sscratch = TRAP_CONTEXT → ctx_at s c → length (x c) = 32%nat →
  let s' := exec alltraps s in
  ctx_at s' (trapped s c) ∧ gpr s' sp = kernel_sp c ∧ gpr s' t1 = ctx_trap_handler c.
Proof.
  intros Hss Hc Hl s'. split; [apply alltraps_stores; [done|done|lia]|].
  destruct (alltraps_spec s Hss) as (_&_&_&_&_&A6&A7&_).
  apply ctx_at_words in Hc as (_&_&_&_&W35&W36&_). unfold s'. by rewrite A6, A7.
Qed.
Lemma trap_context_layout_witness :
  dmem (exec alltraps (cpu_with demo_context)) (field_addr "kernel_sp") = TRAP_CONTEXT ∧
  dmem (exec alltraps (cpu_with demo_context)) (field_addr "x" + 17 * 8) = TRAP_CONTEXT ∧
  gpr (exec alltraps (cpu_with demo_context)) t1 = 0x80211000.
Proof.
  destruct (trap_context_layout (cpu_with demo_context) demo_context eq_refl
    (cpu_with_at demo_context eq_refl) eq_refl) as (H&_&H2).
  pose proof (at_kernel_sp _ _ H) as H3.
  pose proof (at_x _ _ H 17%nat TRAP_CONTEXT eq_refl) as H1. clear H.
  set (d := dmem (exec alltraps (cpu_with demo_context))) in *. clearbody d.
  set (t := gpr (exec alltraps (cpu_with demo_context)) t1) in *. clearbody t.
  split; [rewrite H3; reflexivity|]. split; [exact H1|rewrite H2; reflexivity].
Defined.

(** C20: the first entry.  Started from the context that
    [TrapContext::initialize_context] built, [hart_entry_2] enters the guest at
    its entry point with the stack pointer asked for, zero in [a0] (the hart)
    and the address of the device tree in [a1], supervisor mode as the previous
    privilege and virtualization on. *)
Theorem first_entry s c sst hst entry gsp hg ksp handler :
  initialize_context sst hst entry gsp hg ksp handler = Ret c → ctx_at s c →
  let s' := exec hart_entry_2 s in
  cpu_csr s' sepc = entry ∧ gpr s' sp = gsp ∧ gpr s' a0 = 0 ∧ gpr s' a1 = GUEST_DTB_ADDR ∧
  Z.testbit (cpu_csr s' sstatus) 8 = true ∧ Z.testbit (cpu_csr s' hstatus) 7 = true ∧
  cpu_csr s' sscratch = TRAP_CONTEXT.
Proof.
  intros Hi Hc. unfold initialize_context, set_sp in Hi. minv0.
  match goal with H : update _ _ _ = _ |- _ => apply update_Ret in H as [_ ->] end.
  rewrite hart_entry_2_eq, !exec_app.
  set (p := exec [Ifence_i; Ili a0 TRAP_CONTEXT] s).
  assert (gpr p a0 = TRAP_CONTEXT) as Hp by done.
  assert (∀ k, word p k = word s k) as Hw by done. clearbody p.
  destruct (restore_spec p Hp) as (R1&_&R3&R4&R5&R6&_).
  set (q := exec restore p) in *. clearbody q. cbn [exec]. rewrite exec_li.
  destruct (ctx_at_csrs s _ Hc) as (C1&C2&C3). cbn [set_x ctx_sstatus ctx_sepc ctx_hstatus] in *.
  pose proof (ctx_at_reg s _ 2 gsp Hc eq_refl) as X2.
  pose proof (ctx_at_reg s _ 10 0 Hc eq_refl) as X10.
  cpu_eval. rewrite R3, R4, R5, R6, !Hw, C1, C2, C3.
  split_and!; try done.
  - rewrite R1 by by right. by rewrite Hw.
  - rewrite R1 by (left; unfold saved, a0; lia). by rewrite Hw.
  - by apply Z.setbit_eq.
  - by apply Z.setbit_eq.
Qed.

Lemma first_entry_witness :
  ∃ c, initialize_context 0 0 GUEST_START_VA 0 0 TRAP_CONTEXT 0x80211000 = Ret c ∧
    gpr (exec hart_entry_2 (cpu_with c)) a1 = GUEST_DTB_ADDR.
Proof.
  assert (∃ c, initialize_context 0 0 GUEST_START_VA 0 0 TRAP_CONTEXT 0x80211000 = Ret c ∧
    length (x c) = 32%nat) as (c&Hc&Hl) by (eexists; split; reflexivity).
  exists c. split; [exact Hc|].
  destruct (first_entry (cpu_with c) c _ _ _ _ _ _ _ Hc (cpu_with_at c Hl)) as (_&_&_&H&_).
  exact H.
Defined.
