(* ===== verification/Boot.v ===== *)
(** * Starting up

    [src/src/hypervisor.rs] (stacks, [init_vmm], [add_guest_queue]),
    [Guest::new] of [src/src/guest/mod.rs], [enable_paging] and [remap_test] of
    [src/src/mm], and [hentry] of [src/src/main.rs], which puts everything
    together. *)
From stdpp Require Import base tactics numbers list option gmap.
From S2P Require Import Prelude Constants Address Pte Mem FrameAllocator PageTable Fdt.
From S2P Require Import Sv39 MemorySet Pmap Machine Sbi Plic Vmexit VmexitFacts VmexitClaims.

(** ** Hypervisor stacks *)

Definition hstack_position (guest_id : Z) : outcome (Z * Z) :=
  o ← umul guest_id (KERNEL_STACK_SIZE + PAGE_SIZE);
  top ← usub TRAP_CONTEXT o;
  bottom ← usub top KERNEL_STACK_SIZE;
  Ret (bottom, top).

Section Boot.
Context {E : Type} `{Env E} `{Decoder} `{CauseDecoder}.
Context (syms : TrapSymbols) (linker : LinkerSymbols).
Abbreviation W := (World E).

(** [hstack_alloc]: the stack is a framed area of the host's space. *)
Definition hstack_alloc (guest_id : Z) : M W Z :=
  pos ← lift (hstack_position guest_id);
  vmm ← lock_vmm;
  h ← on_sys (insert_framed_area (hpm vmm) (VirtAddr_from_usize pos.1)
                (VirtAddr_from_usize pos.2) perm.RW);
  _ ← unlock_vmm (set_hpm h vmm);
  mret guest_id.
(** [HypervisorStack::get_top]. *)
Definition get_top (hstack : Z) : outcome Z :=
  pos ← hstack_position hstack; Ret pos.2.

Definition guest_new (gid : Z) (g : GuestMemorySet PageTableSv39) (gm : MachineMeta)
    : M W Guest :=
  hstack ← hstack_alloc gid;
  hstack_top ← lift (get_top hstack);
  ss ← csr_read sstatus;
  hs ← csr_read hstatus;
  c ← lift (initialize_context ss hs GUEST_START_VA 0 (ms_token g) hstack_top
              (sym_trap_handler syms));
  _ ← modify (set_ctx c);
  mret (MkGuest gm g gid (vcpu_new gid)).

(** [Guest::run]. *)
Definition guest_run : M W unit := panicM Todo.

Definition add_guest_queue (g : Guest) : M W unit :=
  vmm ← lock_vmm;
  _ ← lift (assert (guest_id g <? MAX_GUESTS));
  gs ← lift (update (guests vmm) (guest_id g) (Some g));
  unlock_vmm (set_guests gs vmm).

(** The masks [init_vmm] writes. *)
Definition hedeleg_mask : Z :=
  Z.lor (Z.lor (Z.lor (Z.lor (Z.lor hedeleg.INST_ADDR_MISALIGN hedeleg.BREAKPOINT)
    hedeleg.ENV_CALL_FROM_U_OR_VU) hedeleg.INST_PAGE_FAULT) hedeleg.LOAD_PAGE_FAULT)
    hedeleg.STORE_PAGE_FAULT.
Definition hideleg_mask : Z := Z.lor (Z.lor hideleg.VSEIP hideleg.VSSIP) hideleg.VSTIP.

(** [call_once]: the record is built only when the cell is empty. *)
Definition init_vmm (h : HostMemorySet PageTableSv39) (machine : MachineMeta) : M W unit :=
  _ ← csr_write hedeleg hedeleg_mask;
  _ ← csr_write hideleg hideleg_mask;
  _ ← csr_clear_bit hvip VSEIP_BIT;
  _ ← csr_clear_bit hvip VSSIP_BIT;
  _ ← csr_clear_bit hvip VSTIP_BIT;
  _ ← csr_write hcounteren 0xffffffff;
  _ ← csr_set_bit sie SEXT_BIT;
  _ ← csr_set_bit sie SSOFT_BIT;
  _ ← csr_set_bit sie STIMER_BIT;
  _ ← csr_write vsatp 0;
  cell ← gets HOST_VMM;
  match cell with
  | Some _ => mret tt
  | None =>
      modify (set_vmm (Some (MkMutex false
        (MkVmm machine h (replicate (Z.to_nat MAX_GUESTS) None) 0
           ((λ p, plic_new (base_address p)) <$> plic machine) false 0 0 0))))
  end.

(** [HostMemorySet::activate]. *)
Definition activate (h : HostMemorySet PageTableSv39) : M W unit :=
  csr_write satp (ms_token h).
Definition enable_paging : M W unit :=
  vmm ← lock_vmm; _ ← activate (hpm vmm); unlock_vmm vmm.

(** The address in the middle of a section. *)
Definition mid (l r : Z) : outcome VirtAddr :=
  sum ← uadd l r; Ret (VirtAddr_from_usize (sum / 2)).
(** One assertion of [remap_test]: the page of an address does not have a
    permission. *)
Definition check_page (h : HostMemorySet PageTableSv39) (va : VirtAddr)
    (f : PageTableEntry → outcome bool) : M W unit :=
  o ← on_sys (pt_translate (page_table h) (VirtAddr_floor va));
  pte ← lift (unwrap o);
  b ← lift (f pte);
  lift (assert (negb b)).
(** The word it finally reads from the trampoline page is not used. *)
Definition remap_test : M W unit :=
  vmm ← lock_vmm;
  mid_text ← lift (mid (stext linker) (etext linker));
  mid_rodata ← lift (mid (srodata linker) (erodata linker));
  mid_data ← lift (mid (sdata linker) (edata linker));
  _ ← check_page (hpm vmm) mid_text writable;
  _ ← check_page (hpm vmm) mid_rodata writable;
  _ ← check_page (hpm vmm) mid_data executable;
  unlock_vmm vmm.

(** ** [hentry]

    Parameters: the device trees as the [fdt] crate presents them, the sort of
    the standard library, the linker's [sbss], and what firmware and hardware
    report about the HSM and H extensions. *)
Context (sort_devices : list Device → list Device) (host_fdt guest_fdt : option Fdt).
Context (sbss : Z) (hsm_unavailable h_extension : bool).

Definition clear_bss : M W unit :=
  n ← lift (usub (ebss linker) sbss);
  on_sys (modify (set_mem (λ m, zero_bytes (Z.to_nat n) m sbss))).

(** [hyp_alloc::heap_init].  [init_heap] hands a static buffer to the heap
    allocator, a crate whose state does not appear here. *)
Definition heap_init : M W unit := on_sys (init_frame_allocator (ekernel linker)).

Definition hentry (hart_id : Z) : M W unit :=
  if hart_id =? 0 then
    _ ← clear_bss;
    _ ← lift (if hsm_unavailable then Panic Explicit else Ret tt);
    _ ← lift (if negb h_extension then Panic Explicit else Ret tt);
    _ ← heap_init;
    machine ← lift (parse sort_devices host_fdt);
    gm ← lift (parse sort_devices guest_fdt);
    h ← on_sys (new_host_vmm linker machine);
    _ ← init_vmm h machine;
    g ← on_sys (new_guest_without_load (strampoline linker) gm);
    vmm ← lock_vmm;
    h' ← on_sys (map_guest (hpm vmm) GUEST_START_PA GUEST_DEFAULT_SIZE);
    _ ← unlock_vmm (set_hpm h' vmm);
    _ ← enable_paging;
    _ ← trap_init syms;
    _ ← remap_test;
    guest ← guest_new 0 g gm;
    _ ← add_guest_queue guest;
    hart_entry_1
  else panicM Unreachable.
End Boot.
