(* ===== verification/BootFacts.v ===== *)
(** * The hypervisor starts in a good state

    What [hentry] has established when it enters the guest for the first time. *)
From stdpp Require Import base tactics numbers list option gmap relations.
From S2P Require Import Prelude Constants Address Pte Mem FrameAllocator PageTable Fdt.
From S2P Require Import Sv39 MemorySet Pmap Machine Sbi Plic Vmexit VmexitFacts VmexitClaims Boot.

Section Facts.
Context {E : Type} `{Env E} `{Decoder} `{CauseDecoder}.
Context (syms : TrapSymbols) (linker : LinkerSymbols).
Abbreviation W := (World E).
Implicit Types w : W.

Lemma on_sys_Ret {A} (m : M Sys A) w a w' :
  on_sys m w = Ret (a, w') → ∃ s, m (w_sys w) = Ret (a, s) ∧ w' = set_sys s w.
Proof.
  unfold on_sys. destruct (m (w_sys w)) as [[b s]| | |]; [|done..]. intros [= <- <-]. eauto.
Qed.
Lemma lock_Ret w v w' :
  lock_vmm w = Ret (v, w') →
  HOST_VMM w = Some (MkMutex false v) ∧ w' = set_vmm (Some (MkMutex true v)) w.
Proof.
  unfold lock_vmm. intros Hr. minv0. match goal with H : HOST_VMM _ = Some ?m |- _ =>
    destruct m as [[] v0]; cbn [locked inner] in *; minv0 end. done.
Qed.

(** The registers the interrupt protocol and delegation depend on. *)
Record same_irq w w' : Prop := {
  si_hvip : csr w' hvip = csr w hvip;
  si_sie : csr w' sie = csr w sie;
  si_hedeleg : csr w' hedeleg = csr w hedeleg;
  si_hideleg : csr w' hideleg = csr w hideleg;
}.
#[export] Instance same_irq_preorder : PreOrder same_irq.
Proof.
  split; [by intros w; split|]. intros w1 w2 w3 [] []. split; congruence.
Qed.

Lemma init_vmm_spec h m w u w' :
  HOST_VMM w = None → init_vmm h m w = Ret (u, w') →
  (∃ v, HOST_VMM w' = Some (MkMutex false v) ∧ vmm_wf v ∧ hpm v = h ∧ cur_guest_id v = 0) ∧
  timer_inv w' ∧ csr w' hedeleg = hedeleg_mask ∧ csr w' hideleg = hideleg_mask.
Proof.
  intros Hn Hr. unfold init_vmm, csr_write, csr_clear_bit, csr_set_bit in Hr. minv0.
  match goal with H : match HOST_VMM ?w1 with _ => _ end _ = _ |- _ =>
    change (HOST_VMM w1) with (HOST_VMM w) in H; rewrite Hn in H end. minv0.
  split_and!; [|unfold timer_inv|done..].
  - eexists. split; [done|]. split_and!; [|done..]. split; simpl; [done|unfold MAX_GUESTS; lia|].
    intros p Hp. destruct (plic m); simplify_eq/=. done.
  - match goal with |- Z.testbit (csr ?w1 hvip) _ = negb (Z.testbit (csr ?w1 sie) _) =>
      change (csr w1 hvip) with
        (Z.clearbit (Z.clearbit (Z.clearbit (csr w hvip) VSEIP_BIT) VSSIP_BIT) VSTIP_BIT);
      change (csr w1 sie) with
        (Z.setbit (Z.setbit (Z.setbit (csr w sie) SEXT_BIT) SSOFT_BIT) STIMER_BIT) end.
    by rewrite Z.clearbit_eq, Z.setbit_eq.
Qed.

Lemma enable_paging_spec w u w' :
  enable_paging w = Ret (u, w') →
  ∃ v, HOST_VMM w = Some (MkMutex false v) ∧ HOST_VMM w' = Some (MkMutex false v) ∧
    same_irq w w' ∧ csr w' satp = ms_token (hpm v) ∧ csr w' hgatp = csr w hgatp.
Proof.
  unfold enable_paging, activate, csr_write, unlock_vmm. intros Hr. minv0.
  match goal with H : lock_vmm _ = _ |- _ => apply lock_Ret in H as [? ->] end.
  eexists. split; [done|]. by split_and!.
Qed.

Lemma trap_init_spec w u w' :
  trap_init syms w = Ret (u, w') →
  HOST_VMM w' = HOST_VMM w ∧ same_irq w w' ∧ csr w' satp = csr w satp ∧ csr w' hgatp = csr w hgatp.
Proof.
  unfold trap_init, set_kernel_trap_entry, csr_write. intros Hr. minv0. by split_and!.
Qed.

Lemma check_page_spec h va f w u w' :
  check_page h va f w = Ret (u, w') → ∃ s, w' = set_sys s w.
Proof.
  unfold check_page. intros Hr. minv0.
  match goal with H : on_sys _ _ = _ |- _ => apply on_sys_Ret in H as (s&_&->) end. eauto.
Qed.
Lemma remap_test_spec w u w' :
  remap_test linker w = Ret (u, w') →
  HOST_VMM w' = HOST_VMM w ∧ same_irq w w' ∧ csr w' satp = csr w satp ∧ csr w' hgatp = csr w hgatp.
Proof.
  unfold remap_test, unlock_vmm. intros Hr. minv0.
  match goal with H : lock_vmm _ = _ |- _ => apply lock_Ret in H as [Hv ->] end.
  repeat match goal with H : check_page _ _ _ _ = _ |- _ => apply check_page_spec in H as [? ->] end.
  by split_and!.
Qed.

Lemma guest_new_spec gid g gm w r w' :
  guest_new syms gid g gm w = Ret (r, w') →
  ∃ v h, HOST_VMM w = Some (MkMutex false v) ∧ HOST_VMM w' = Some (MkMutex false (set_hpm h v)) ∧
    same_irq w w' ∧ csr w' satp = csr w satp ∧ csr w' hgatp = csr w hgatp ∧
    r = MkGuest gm g gid (vcpu_new gid) ∧
    length (x (trap_ctx w')) = 32%nat ∧ ctx_sepc (trap_ctx w') = GUEST_START_VA ∧
    ctx_hgatp (trap_ctx w') = ms_token g ∧ ctx_trap_handler (trap_ctx w') = sym_trap_handler syms ∧
    get_top gid = Ret (kernel_sp (trap_ctx w')).
Proof.
  unfold guest_new, hstack_alloc, unlock_vmm, csr_read. intros Hr. minv0.
  match goal with H : lock_vmm _ = _ |- _ => apply lock_Ret in H as [Hv ->] end.
  match goal with H : on_sys _ _ = _ |- _ => apply on_sys_Ret in H as (s&_&->) end.
  match goal with H : initialize_context _ _ _ _ _ _ _ = _ |- _ =>
    unfold initialize_context, set_sp in H end. minv0.
  match goal with H : update _ _ _ = _ |- _ => apply update_Ret in H as [_ ->] end.
  eexists _, _. split; [done|]. by split_and!.
Qed.

Lemma add_guest_queue_spec g w u w' :
  add_guest_queue g w = Ret (u, w') →
  ∃ v, HOST_VMM w = Some (MkMutex false v) ∧ 0 ≤ guest_id g < MAX_GUESTS ∧
    w' = set_vmm (Some (MkMutex false
           (set_guests (<[Z.to_nat (guest_id g) := Some g]> (guests v)) v))) w.
Proof.
  unfold add_guest_queue, unlock_vmm. intros Hr. minv0.
  match goal with H : lock_vmm _ = _ |- _ => apply lock_Ret in H as [Hv ->] end.
  match goal with H : update _ _ _ = _ |- _ => apply update_Ret in H as [? ->] end.
  match goal with H : (_ <? _) = true |- _ => apply Z.ltb_lt in H end.
  eexists. split; [done|]. split; [lia|]. done.
Qed.

Lemma hart_entry_1_spec w u w' :
  hart_entry_1 w = Ret (u, w') →
  HOST_VMM w' = HOST_VMM w ∧ trap_ctx w' = trap_ctx w ∧ same_irq w w' ∧
  csr w' satp = csr w satp ∧
  csr w' stvec = TRAMPOLINE ∧ csr w' hgatp = ctx_hgatp (trap_ctx w).
Proof.
  unfold hart_entry_1, set_user_trap_entry, load_hgatp, csr_write, csr_read. intros Hr. minv0.
  match goal with H : (if negb (?a =? ?b) then _ else _) _ = _ |- _ =>
    destruct (Z.eqb_spec a b) as [Heq|Hne]; cbn [negb] in H; minv0 end.
  - by split_and!.
  - match goal with H : (_ =? _) = true |- _ => apply Z.eqb_eq in H; rename H into Hk end.
    split_and!; try done.
Qed.

(** The registers after [init_vmm]. *)
Definition delegated (w : W) : W :=
  set_csr vsatp 0 (set_csr sie
    (Z.setbit (Z.setbit (Z.setbit (csr w sie) SEXT_BIT) SSOFT_BIT) STIMER_BIT)
    (set_csr hcounteren 0xffffffff (set_csr hvip
       (Z.clearbit (Z.clearbit (Z.clearbit (csr w hvip) VSEIP_BIT) VSSIP_BIT) VSTIP_BIT)
       (set_csr hideleg hideleg_mask (set_csr hedeleg hedeleg_mask w))))).
Lemma init_vmm_run h m w :
  HOST_VMM w = None →
  ∃ w', init_vmm h m w = Ret (tt, w') ∧ w_sys w' = w_sys w ∧ ∀ c, csr w' c = csr (delegated w) c.
Proof.
  intros Hn. unfold init_vmm, mbind, M_bind, csr_write, csr_clear_bit, csr_set_bit, modify, gets.
  cbn [HOST_VMM set_csr]. rewrite Hn. eexists. split; [reflexivity|]. split; [done|]. by intros [].
Qed.

(** ** Claims *)

(** C29: the delegation set-up.  [init_vmm] always returns; afterwards guest page
    faults, virtual instructions and [ecall]s from VS-mode still trap to the
    hypervisor while the guest's own page faults, breakpoints and user calls and
    its three interrupts go straight to it, first-stage translation is off, the
    host's external, software and timer interrupts are on and the guest has no
    interrupt pending; and the hypervisor's record is fresh and unlocked. *)
Theorem init_vmm_delegates h m w :
  HOST_VMM w = None →
  ∃ w', init_vmm h m w = Ret (tt, w') ∧
    (∀ b, b = hedeleg.ENV_CALL_FROM_VS ∨ b = hedeleg.INST_GUEST_PAGE_FAULT ∨
          b = hedeleg.LOAD_GUEST_PAGE_FAULT ∨ b = hedeleg.STORE_GUEST_PAGE_FAULT ∨
          b = hedeleg.VIRTUAL_INST ∨ b = hedeleg.ILLEGAL_INST → Z.land (csr w' hedeleg) b = 0) ∧
    (∀ b, b = hedeleg.INST_PAGE_FAULT ∨ b = hedeleg.LOAD_PAGE_FAULT ∨
          b = hedeleg.STORE_PAGE_FAULT ∨ b = hedeleg.BREAKPOINT ∨
          b = hedeleg.ENV_CALL_FROM_U_OR_VU → Z.land (csr w' hedeleg) b = b) ∧
    (∀ b, b = hideleg.VSSIP ∨ b = hideleg.VSTIP ∨ b = hideleg.VSEIP → Z.land (csr w' hideleg) b = b) ∧
    csr w' vsatp = 0 ∧ timer_inv w' ∧
    (∀ b, b = VSSIP_BIT ∨ b = VSTIP_BIT ∨ b = VSEIP_BIT → Z.testbit (csr w' hvip) b = false) ∧
    (∀ b, b = SSOFT_BIT ∨ b = STIMER_BIT ∨ b = SEXT_BIT → Z.testbit (csr w' sie) b = true) ∧
    ∃ v, HOST_VMM w' = Some (MkMutex false v) ∧ vmm_wf v ∧ hpm v = h.
Proof.
  intros Hn. destruct (init_vmm_run h m w Hn) as (w'&Hi&_&Hc).
  exists w'. destruct (init_vmm_spec h m w tt w' Hn Hi) as ((v&Hv&Hw&Hh&_)&Ht&He&Hd).
  rewrite He, Hd. split; [done|].
  split; [intros b Hb; by repeat destruct Hb as [->|Hb]; subst|].
  split; [intros b Hb; by repeat destruct Hb as [->|Hb]; subst|].
  split; [intros b Hb; by repeat destruct Hb as [->|Hb]; subst|].
  split; [by rewrite Hc|]. split; [done|]. rewrite !Hc.
  change (csr (delegated w) hvip) with
    (Z.clearbit (Z.clearbit (Z.clearbit (csr w hvip) VSEIP_BIT) VSSIP_BIT) VSTIP_BIT).
  change (csr (delegated w) sie) with
    (Z.setbit (Z.setbit (Z.setbit (csr w sie) SEXT_BIT) SSOFT_BIT) STIMER_BIT).
  split; [|split; [|eauto]].
  - intros b [->|[->| ->]]; rewrite ?Z.clearbit_eqb, ?andb_false_r; done.
  - intros b [->|[->| ->]]; rewrite ?Z.setbit_eqb by done; done.
Qed.
End Facts.

Lemma init_vmm_delegates_witness :
  ∃ w', init_vmm (E := Platform) demo_gpm meta_default (set_vmm None (demo_world 0 0 [])) = Ret (tt, w') ∧
    csr w' vsatp = 0.
Proof.
  destruct (init_vmm_delegates demo_gpm meta_default (set_vmm None (demo_world 0 0 [])) eq_refl)
    as (w'&H1&_&_&_&H2&_).
  exists w'. split; [exact H1|exact H2].
Defined.
