(* ===== verification/BootClaims.v ===== *)
(** * Start-up reaches the guest

    [hentry] from power-on to the first entry of the guest: with a well-formed
    image and device trees and enough memory it does not panic, and leaves the
    state the trap handler relies on. *)
From stdpp Require Import base tactics numbers list option gmap sets strings.
From S2P Require Import Prelude Constants Address Pte Mem FrameAllocator AllocClaims PageTable Fdt.
From S2P Require Import Sv39 Sv39Tree Sv39Facts Sv39New Sv39Claims MemorySet MemorySetFacts Framed.
From S2P Require Import GuestSpace HostSpace GuestIsolation MemorySetClaims BootSpace.
From S2P Require Import Pmap Machine Sbi Plic Vmexit VmexitFacts VmexitClaims Boot BootFacts.

Section Facts.
Context {E : Type} `{Env E} `{Decoder} `{CauseDecoder}.
Context (syms : TrapSymbols) (linker : LinkerSymbols).
Abbreviation W := (World E).
Implicit Types w : W.

(** ** The steps of [hentry] return *)

Lemma on_sys_run {A} (m : M Sys A) w a s :
  m (w_sys w) = Ret (a, s) → on_sys m w = Ret (a, set_sys s w).
Proof. unfold on_sys. by intros ->. Qed.
Lemma set_sys_id w : set_sys (w_sys w) w = w.
Proof. by destruct w. Qed.

Lemma clear_bss_run sbss w :
  sbss ≤ ebss linker →
  clear_bss linker sbss w =
  Ret (tt, set_sys (set_mem (λ m, zero_bytes (Z.to_nat (ebss linker - sbss)) m sbss) (w_sys w)) w).
Proof.
  intros Hb. unfold clear_bss, mbind, M_bind, lift. by rewrite usub_run.
Qed.

Lemma enable_paging_run w v :
  HOST_VMM w = Some (MkMutex false v) →
  ∃ w', enable_paging w = Ret (tt, w') ∧ w_sys w' = w_sys w.
Proof.
  intros Hv. unfold enable_paging. rewrite (bind_run _ _ _ _ _ (lock_run w v Hv)).
  by eexists.
Qed.

Lemma trap_init_run w :
  syms_ok syms → ∃ w', trap_init syms w = Ret (tt, w') ∧ w_sys w' = w_sys w.
Proof.
  intros (?&?&?). unfold trap_init. rewrite set_kernel_run by done. by eexists.
Qed.

(** A page in the middle of an identity mapped section. *)
Lemma mid_page l r :
  0 ≤ l < r → r < 2 ^ 39 →
  ∃ a, mid l r = Ret a ∧ in_seg (id_seg l r perm.R) (vpn_0 (VirtAddr_floor a)) ∧
    0 ≤ vpn_0 (VirtAddr_floor a) < 2 ^ 27.
Proof.
  intros Hl Hr. unfold mid. rewrite uadd_run by (unfold W64; lia). eexists. split; [done|].
  rewrite VirtAddr_from_usize_mod, Z.mod_small by dlia.
  unfold VirtAddr_floor, in_seg, id_seg. unfold_consts. simpl. dlia.
Qed.

Lemma check_page_run h gs l r mp a f w :
  represents (page_table h) (w_sys w) gs → id_seg l r mp ∈ gs →
  in_seg (id_seg l r mp) (vpn_0 (VirtAddr_floor a)) → 0 ≤ vpn_0 (VirtAddr_floor a) < 2 ^ 27 →
  f (seg_entry (id_seg l r mp) (vpn_0 (VirtAddr_floor a))) = Ret false →
  check_page h a f w = Ret (tt, w).
Proof.
  intros R Hg Hin Hv Hf. unfold check_page.
  assert (sv_view (page_table h) (w_sys w) (vpn_0 (VirtAddr_floor a)) =
    Some (seg_entry (id_seg l r mp) (vpn_0 (VirtAddr_floor a)))) as Hs.
  { apply R. rewrite Z.mod_small by lia. eauto. }
  apply translate_view in Hs.
  change (pt_translate (page_table h)) with (translate (page_table h)).
  rewrite (bind_run _ _ _ _ _ (on_sys_run _ _ _ _ Hs)), set_sys_id.
  unfold mbind, M_bind, lift. cbn [unwrap]. by rewrite Hf.
Qed.

Lemma id_entry_bit l r mp v n :
  0 ≤ l → 0 ≤ v < 2 ^ 27 → 0 ≤ n < 8 → 0 ≤ flags_bits (area_flags mp) < 256 →
  Z.testbit (bits (seg_entry (id_seg l r mp) v)) n = Z.testbit (flags_bits (area_flags mp)) n.
Proof.
  intros Hl Hv Hn Hf. unfold seg_entry, id_seg. cbn [seg_pa seg_lo seg_flags].
  destruct (area_flags mp) as [fl]. cbn [flags_bits] in *.
  rewrite testbit_pte_new by (done || lia). done.
Qed.

(** One of the three assertions, for a section mapped with [mp]. *)
Lemma check_mid_run h gs l r mp f n w :
  represents (page_table h) (w_sys w) gs → id_seg l r mp ∈ gs → 0 ≤ l < r → r < 2 ^ 39 →
  (∀ e, f e = Ret (Z.testbit (bits e) n)) → 0 ≤ n < 8 → 0 ≤ flags_bits (area_flags mp) < 256 →
  Z.testbit (flags_bits (area_flags mp)) n = false →
  ∃ a, mid l r = Ret a ∧ check_page h a f w = Ret (tt, w).
Proof.
  intros R Hg Hl Hr Hf Hn Hfl Hb. destruct (mid_page l r Hl Hr) as (a&Ha&Hin&Hv).
  exists a. split; [done|]. apply (check_page_run h gs l r mp); [done..|].
  by rewrite Hf, id_entry_bit, Hb by lia.
Qed.

(** The three pages [remap_test] looks at. *)
Lemma remap_test_run w v machine gm f :
  HOST_VMM w = Some (MkMutex false v) → boot_fits linker machine gm →
  represents (page_table (hpm v)) (w_sys w) (host_segs linker machine f ++ [guest_mem_seg]) →
  ∃ w', remap_test linker w = Ret (tt, w') ∧ w_sys w' = w_sys w.
Proof.
  intros Hv Hf R. unfold remap_test. rewrite (bind_run _ _ _ _ _ (lock_run w v Hv)).
  destruct Hf as [[_ _ (?&_&?) (?&_&?) (?&_&?) _ _] _ Ht Hr Hd _ _ _ _ _].
  set (w1 := set_vmm _ w). change (w_sys w) with (w_sys w1) in R.
  assert (∀ g, g ∈ host_ids linker machine → g ∈ host_segs linker machine f ++ [guest_mem_seg])
    as Hs by (unfold host_segs; set_solver).
  destruct (check_mid_run (hpm v) _ (stext linker) (etext linker) perm.RX writable 2 w1 R)
    as (a1&E1&C1); [apply Hs; set_solver|lia|lia|apply writable_eq|done..|].
  destruct (check_mid_run (hpm v) _ (srodata linker) (erodata linker) perm.R writable 2 w1 R)
    as (a2&E2&C2); [apply Hs; set_solver|lia|lia|apply writable_eq|done..|].
  destruct (check_mid_run (hpm v) _ (sdata linker) (edata linker) perm.RW executable 3 w1 R)
    as (a3&E3&C3); [apply Hs; set_solver|lia|lia|apply executable_eq|done..|].
  rewrite E1, E2, E3. cbn [lift].
  unfold mbind, M_bind. cbn [lift]. rewrite C1, C2, C3. by eexists.
Qed.

(** The stack of guest 0 ends below the trap context. *)
Lemma guest_new_run w v g gm h s :
  HOST_VMM w = Some (MkMutex false v) →
  insert_framed_area (hpm v) (VA (2 ^ 39 - 24576)) (VA (2 ^ 39 - 8192)) perm.RW (w_sys w) =
    Ret (h, s) →
  ∃ w', guest_new syms 0 g gm w = Ret (MkGuest gm g 0 (vcpu_new 0), w') ∧ w_sys w' = s ∧
    HOST_VMM w' = Some (MkMutex false (set_hpm h v)).
Proof.
  intros Hv Hi. unfold guest_new, hstack_alloc.
  change (hstack_position 0) with (Ret (TRAP_CONTEXT - 0x4000, TRAP_CONTEXT)).
  unfold mbind at 1, M_bind at 1. unfold mbind at 1, M_bind at 1. cbn [lift].
  rewrite (bind_run _ _ _ _ _ (lock_run w v Hv)). cbn [fst snd].
  change (VirtAddr_from_usize TRAP_CONTEXT) with (VA (2 ^ 39 - 8192)).
  change (VirtAddr_from_usize (TRAP_CONTEXT - 0x4000)) with (VA (2 ^ 39 - 24576)).
  rewrite (bind_run _ _ _ _ _ (on_sys_run _ (set_vmm _ w) _ _ Hi)).
  eexists. split; [reflexivity|]. done.
Qed.

Lemma add_guest_queue_run w v g :
  HOST_VMM w = Some (MkMutex false v) → vmm_wf v → guest_id g = 0 →
  add_guest_queue g w =
  Ret (tt, set_vmm (Some (MkMutex false (set_guests (<[0%nat := Some g]> (guests v)) v))) w).
Proof.
  intros Hv Hw Hg. unfold add_guest_queue. rewrite (bind_run _ _ _ _ _ (lock_run w v Hv)).
  unfold mbind, M_bind, lift. rewrite Hg. cbn [assert Z.ltb].
  rewrite update_run; [done|]. rewrite (vw_guests _ Hw). unfold MAX_GUESTS. simpl. lia.
Qed.

(** The hardware keeps what it is given: an Sv39x4 root on a 16 KiB boundary. *)
Lemma hart_entry_1_run w :
  hgatp_kept (ctx_hgatp (trap_ctx w)) = ctx_hgatp (trap_ctx w) →
  ∃ w', hart_entry_1 w = Ret (tt, w') ∧ w_sys w' = w_sys w.
Proof.
  intros Hk. unfold hart_entry_1, set_user_trap_entry, load_hgatp, csr_write, csr_read.
  unfold mbind, M_bind, modify, gets. cbn [trap_ctx set_csr csr]. rewrite decide_False by done.
  destruct (Z.eqb_spec (csr w hgatp) (ctx_hgatp (trap_ctx w))) as [|Hne]; cbn [negb];
    [by eexists|]. rewrite decide_True by done. rewrite Hk, Z.eqb_refl. by eexists.
Qed.

(** ** All of it *)

Context (sort_devices : list Device → list Device) (host_fdt guest_fdt : option Fdt).
Context (sbss : Z) (hsm_unavailable h_extension : bool) (machine gm : MachineMeta).

(** The pool of frames starts at the first page after the image. *)
Definition pool_start : Z := (ekernel linker + 4095) / 4096.

(** Power-on, with firmware, hardware and device trees as they have to be. *)
Record boot_ready w : Prop := {
  br_fits : boot_fits linker machine gm;
  br_syms : syms_ok syms;
  br_bss : sbss ≤ ebss linker;
  br_host : parse sort_devices host_fdt = Ret machine;
  br_guest : parse sort_devices guest_fdt = Ret gm;
  br_hsm : hsm_unavailable = false;
  br_h : h_extension = true;
  br_mem : mem_ok (sys_mem (w_sys w));
  br_alloc : FRAME_ALLOCATOR (w_sys w) = None;
  br_vmm : HOST_VMM w = None;
  br_frames : boot_cost linker machine gm ≤ 0x88000 - pool_start;
  br_hgatp : ∀ p, 0 ≤ p < 2 ^ 44 → p mod 4 = 0 → hgatp_kept (8 * 2 ^ 60 + p) = 8 * 2 ^ 60 + p;
}.

Lemma boot_pool w :
  boot_ready w →
  ∃ w1 w2, clear_bss linker sbss w = Ret (tt, w1) ∧
    heap_init linker w1 = Ret (tt, w2) ∧
    HOST_VMM w2 = None ∧ 0 ≤ pool_start ∧ sys_wf pool_start (w_sys w2) ∧
    none_recycled (w_sys w2) ∧ sys_free (w_sys w2) = 0x88000 - pool_start.
Proof.
  intros []. eexists _, _. split; [by apply clear_bss_run|].
  destruct (init_frame_allocator_run (ekernel linker)
    (set_mem (λ m, zero_bytes (Z.to_nat (ebss linker - sbss)) m sbss) (w_sys w))) as (Hr&Hlo&Hwf);
    [apply br_fits0|by apply zero_ok|done|].
  split; [by apply on_sys_run|]. fold pool_start in *. split_and!; [done|lia|done|done|].
  unfold sys_free, free_count. simpl. lia.
Qed.

(** What is known when the guest is entered. *)
Record guest_entered (w' : W) (v : HostVmm) (g : Guest) : Prop := {
  ge_ready : entry_ok w';
  ge_vmm : HOST_VMM w' = Some (MkMutex false v);
  ge_guest : guests v !! 0%nat = Some (Some g) ∧ cur_guest_id v = 0 ∧ guest_machine g = gm;
  ge_hgatp : csr w' hgatp = ms_token (gpm g);
  ge_satp : csr w' satp = ms_token (hpm v);
  ge_pc : ctx_sepc (trap_ctx w') = GUEST_START_VA;
  ge_sp : kernel_sp (trap_ctx w') = TRAP_CONTEXT;
  ge_handler : ctx_trap_handler (trap_ctx w') = sym_trap_handler syms;
  ge_guest_table : sv_inv pool_start (page_table (gpm g)) (w_sys w') ∧
    represents (page_table (gpm g)) (w_sys w') (guest_segs (strampoline linker) gm);
  ge_host_table : sv_inv pool_start (page_table (hpm v)) (w_sys w');
  ge_apart : owned pool_start (w_sys w')
    (sv_frames (page_table (gpm g)) ++ sv_frames (page_table (hpm v)));
  ge_delegated : csr w' hedeleg = hedeleg_mask ∧ csr w' hideleg = hideleg_mask;
}.

(** The second half: paging, trap vector, self test, the guest's stack and
    context, and the jump. *)
Lemma enter_run w v g f h s :
  HOST_VMM w = Some (MkMutex false v) → vmm_wf v → timer_inv w →
  boot_fits linker machine gm → syms_ok syms →
  represents (page_table (hpm v)) (w_sys w) (host_segs linker machine f ++ [guest_mem_seg]) →
  insert_framed_area (hpm v) (VA (2 ^ 39 - 24576)) (VA (2 ^ 39 - 8192)) perm.RW (w_sys w) =
    Ret (h, s) →
  hgatp_kept (ms_token g) = ms_token g →
  let guest := MkGuest gm g 0 (vcpu_new 0) in
  ∃ w', (_ ← enable_paging; _ ← trap_init syms; _ ← remap_test linker;
         guest ← guest_new syms 0 g gm; _ ← add_guest_queue guest; hart_entry_1) w = Ret (tt, w') ∧
    w_sys w' = s ∧ entry_ok w' ∧ same_irq w w' ∧
    HOST_VMM w' = Some (MkMutex false
      (set_guests (<[0%nat := Some guest]> (guests v)) (set_hpm h v))) ∧
    csr w' satp = ms_token (hpm v) ∧ csr w' hgatp = ms_token g ∧
    ctx_sepc (trap_ctx w') = GUEST_START_VA ∧ kernel_sp (trap_ctx w') = TRAP_CONTEXT ∧
    ctx_trap_handler (trap_ctx w') = sym_trap_handler syms.
Proof.
  intros Hv Hw Ht Hfit Hsy R Hi Hk guest.
  destruct (enable_paging_run w v Hv) as (w1&E1&S1). rewrite (bind_run _ _ _ _ _ E1).
  destruct (enable_paging_spec _ _ _ E1) as (v'&V0&V1&I1&P1&_).
  rewrite Hv in V0. injection V0 as <-.
  destruct (trap_init_run w1 Hsy) as (w2&E2&S2). rewrite (bind_run _ _ _ _ _ E2).
  destruct (trap_init_spec _ _ _ _ E2) as (V2&I2&P2&_). rewrite V1 in V2.
  rewrite <- S1, <- S2 in R, Hi.
  destruct (remap_test_run w2 v machine gm f V2 Hfit R) as (w3&E3&S3).
  rewrite (bind_run _ _ _ _ _ E3).
  destruct (remap_test_spec _ _ _ _ E3) as (V3&I3&P3&_). rewrite V2 in V3. rewrite <- S3 in Hi.
  destruct (guest_new_run w3 v g gm h s V3 Hi) as (w4&E4&S4&V4). rewrite (bind_run _ _ _ _ _ E4).
  destruct (guest_new_spec _ _ _ _ _ _ _ E4) as (v'&h'&_&_&I4&P4&_&_&L4&C4&H4&T4&K4).
  assert (vmm_wf (set_hpm h v)) as Hw4 by (by destruct Hw).
  rewrite (bind_run _ _ _ _ _ (add_guest_queue_run w4 (set_hpm h v) guest V4 Hw4 eq_refl)).
  set (w5 := set_vmm _ w4).
  destruct (hart_entry_1_run w5) as (w6&E6&S6); [simpl; by rewrite H4|].
  destruct (hart_entry_1_spec _ _ _ E6) as (V6&C6&I6&P6&T6&G6).
  assert (same_irq w w6) as Irq.
  { etrans; [exact I1|]. etrans; [exact I2|]. etrans; [exact I3|]. etrans; [exact I4|]. by destruct I6. }
  assert (entry_ok w6) as Ok.
  { split; [|by rewrite C6|done|by rewrite C6, G6|].
    - eexists. split; [exact V6|]. destruct Hw4 as [A B C].
      split; simpl in *; [by rewrite length_insert|done|done].
    - unfold timer_inv in *. destruct Irq as [-> -> _ _]. done. }
  cbn in S6, V6, C6, P6, G6. injection K4 as K4.
  exists w6. rewrite C6, V6, G6, P6. split_and!; try done; congruence.
Qed.

Lemma boot_run w :
  boot_ready w →
  ∃ w' v g, hentry syms linker sort_devices host_fdt guest_fdt sbss hsm_unavailable h_extension 0 w
    = Ret (tt, w') ∧ guest_entered w' v g.
Proof.
  intros Hb. destruct (boot_pool w Hb) as (w1&w2&E1&E2&Hn2&Hlo&Hwf2&Hnr2&Hf2).
  destruct Hb as [Hfit Hsy _ Hp1 Hp2 -> -> _ _ _ Hc Hk].
  destruct (boot_memory_total pool_start linker machine gm Hlo Hfit (w_sys w2) Hwf2 Hnr2
    ltac:(lia)) as (h&s1&g&s2&h2&s3&h3&s4&f&[B1 B2 B3 B4 B5 B6 B7 B8 B9 B10 B11]).
  unfold hentry. change (0 =? 0) with true. cbv iota.
  rewrite (bind_run _ _ _ _ _ E1). unfold mbind at 1, M_bind at 1. cbn [lift].
  unfold mbind at 1, M_bind at 1. cbn [lift negb]. rewrite (bind_run _ _ _ _ _ E2).
  rewrite Hp1, Hp2. unfold mbind at 1, M_bind at 1. cbn [lift].
  unfold mbind at 1, M_bind at 1. cbn [lift].
  rewrite (bind_run _ _ _ _ _ (on_sys_run _ w2 _ _ B1)).
  assert (HOST_VMM (set_sys s1 w2) = None) as Hn3 by exact Hn2.
  destruct (init_vmm_run h machine _ Hn3) as (w3&E3&Hs3&_).
  rewrite (bind_run _ _ _ _ _ E3). simpl in Hs3.
  destruct (init_vmm_spec h machine _ tt w3 Hn3 E3) as ((v&Hv3&Hw3&Hh3&Hc3)&Ht3&He3&Hi3).
  rewrite <- Hs3 in B2. rewrite (bind_run _ _ _ _ _ (on_sys_run _ w3 _ _ B2)).
  rewrite (bind_run lock_vmm _ _ _ _ (lock_run (set_sys s2 w3) v Hv3)).
  rewrite Hh3. rewrite (bind_run _ _ _ _ _ (on_sys_run _ (set_vmm _ (set_sys s2 w3)) _ _ B3)).
  set (w4 := set_sys s3 _).
  rewrite (bind_run _ _ _ _ _ (eq_refl (unlock_vmm (set_hpm h2 v) w4))).
  set (w5 := set_vmm _ w4).
  assert (0 ≤ ppn_0 (root_of g) < 2 ^ 44) as Hrt by (by apply (inv_root_ok _ _ _ B7)).
  destruct (enter_run w5 (set_hpm h2 v) g f h3 s4) as (w'&E'&S'&O'&I'&V'&P'&G'&C'&K'&T');
    [done|by destruct Hw3|exact Ht3|done|done|done|done| |].
  { change (ms_token g) with (token (page_table g)). by rewrite token_eq, Hk. }
  eexists w', _, (MkGuest gm g 0 (vcpu_new 0)). split; [exact E'|]. destruct I' as [_ _ D1 D2]. rewrite <- S' in *.
  assert (ms_token h2 = ms_token h3) as Htok.
  { unfold root_of in B10. cbn. unfold token. by rewrite B10. }
  split; [exact O'|exact V'|..]; try done; cbn [hpm set_guests set_hpm guests gpm];
    [|by rewrite <- Htok|by rewrite D1, D2].
  split; [|done]. apply list_lookup_insert_eq. rewrite (vw_guests _ Hw3). unfold MAX_GUESTS. lia.
Qed.

(** C2: the machine starts.  With an image, device trees, firmware and hardware
    as [boot_ready] says, [hentry] on hart 0 does not panic and enters the
    guest: the lock is free, guest 0 is installed, [hgatp] selects its
    second-stage table, which maps exactly the regions of its device tree,
    [satp] selects the hypervisor's table, the two tables share no frame, and
    the trap context starts the guest at its entry point with the trap handler
    on a stack of its own.  On any other hart [hentry] panics. *)
Theorem boot_enters_guest w :
  boot_ready w →
  let hentry := hentry syms linker sort_devices host_fdt guest_fdt sbss hsm_unavailable
                  h_extension in
  (∃ w' v g, hentry 0 w = Ret (tt, w') ∧ guest_entered w' v g) ∧
  ∀ hart, hart ≠ 0 → hentry hart w = Panic Unreachable.
Proof.
  intros Hb hentry. split; [by apply boot_run|]. intros hart Hh. unfold hentry, Boot.hentry.
  by rewrite (proj2 (Z.eqb_neq hart 0) Hh).
Qed.
End Facts.

(** ** A machine that starts *)

(** The device trees behind [demo_machine] and [demo_meta]. *)
Definition demo_node (b sz : Z) : Node := Some [MkRegion b (Some sz)].
Definition demo_host_fdt : Fdt :=
  MkFdt (Some (Some [MkRegion 0x80000000 (Some 0x8000000)])) (λ p,
    if String.eqb p "/soc/virtio_mmio" then [demo_node 0x10001000 0x1000; None]
    else if String.eqb p "/soc/test" then [demo_node 0x100000 0x1000]
    else if String.eqb p "/soc/plic" then [demo_node 0xc000000 0x600000] else []).
Definition demo_guest_fdt : Fdt :=
  MkFdt (Some (Some [MkRegion 0x90200000 (Some 0x3000)])) (λ p,
    if String.eqb p "/soc/virtio_mmio"
    then [demo_node 0x10001000 0x1000; demo_node 0x10002000 0x1000]
    else if String.eqb p "/soc/test" then [demo_node 0x100000 0x1000]
    else if String.eqb p "/soc/uart" then [demo_node 0x10000000 0x100]
    else if String.eqb p "/soc/clint" then [demo_node 0x2000000 0x10000] else []).
Definition demo_power_on : World Platform :=
  MkWorld (MkSys ∅ None) (λ _, 0) (MkPlatform 0 []) (demo_ctx []) None.

Lemma demo_fits : boot_fits demo_linker demo_machine demo_meta.
Proof.
  split; [apply demo_linker_ok|vm_compute; intuition congruence|done..|apply demo_machine_ok| |
    apply demo_meta_ok|apply demo_meta_live|apply demo_segs_ok].
  apply (bool_decide_unpack _). vm_compute. exact I.
Qed.

Lemma boot_enters_guest_witness :
  ∃ w' v g, hentry demo_syms demo_linker id (Some demo_host_fdt) (Some demo_guest_fdt) 0x8022a000
      false true 0 demo_power_on = Ret (tt, w') ∧
    guest_entered demo_syms demo_linker demo_meta w' v g.
Proof.
  apply (boot_enters_guest demo_syms demo_linker id (Some demo_host_fdt) (Some demo_guest_fdt)
    0x8022a000 false true demo_machine demo_meta demo_power_on).
  split; try reflexivity; [apply demo_fits|apply demo_syms_ok|..].
  - vm_compute. congruence.
  - apply map_Forall_empty.
  - vm_compute. congruence.
Defined.
